(** * vesicleEM: bounding boxes and tiled volume assembly

    A shallow embedding of [util/bbox.py], [data/util/tile.py] and the
    box-merging loop of [data/neuron_mask.py], followed by the properties
    of the bounding-box algebra, the table merger and the two volume
    assemblers.

    Conventions of the embedding.
    - numpy integers are modelled in [Z]; where the source stores into a
      fixed-width unsigned dtype the reduction modulo [2^bits] is written
      out ([cast]).
    - A Python call either returns or raises: [outcome].
    - numpy arrays are mutable objects.  Where the source writes into an
      argument in place (the box-table merger) arrays live in a [heap] and
      are passed by reference. *)

From stdpp Require Import base gmap list strings.
From Stdlib Require Import ZArith Lia.
From Stdlib Require Import Sorting.Sorted.

Open Scope Z_scope.

(** * Part I: the embedding *)

(** ** Outcomes of a Python call *)

Inductive exn :=
  ValueError | IndexError | TypeError | ZeroDivisionError | AssertionError.

Inductive outcome (A : Type) :=
| Returns (a : A)
| Raises (e : exn).
Arguments Returns {A} a.
Arguments Raises {A} e.

#[global] Instance outcome_ret : MRet outcome := fun A a => Returns a.

#[global] Instance outcome_bind : MBind outcome := fun A B k m =>
  match m with
  | Returns a => k a
  | Raises e => Raises e
  end.

(** [for x in xs: st = body(st, x)], stopping at the first exception. *)
Fixpoint for_each {A S} (xs : list A) (body : S -> A -> outcome S) (st : S)
  : outcome S :=
  match xs with
  | [] => Returns st
  | x :: xs' => st' ← body st x; for_each xs' body st'
  end.

(** ** numpy helpers shared by the embeddings *)

(** [m.sum()] of a boolean vector. *)
Definition count_true (m : list bool) : nat :=
  length (List.filter id m).

(** [np.where(m)[0]]: the positions holding [True], ascending. *)
Fixpoint where_from (i : nat) (m : list bool) : list nat :=
  match m with
  | [] => []
  | b :: m' => if b then i :: where_from (S i) m' else where_from (S i) m'
  end.

Definition np_where (m : list bool) : list nat := where_from 0 m.

(** [l[m]] for a boolean mask [m]. *)
Fixpoint mask_select {A} (m : list bool) (l : list A) : list A :=
  match m, l with
  | b :: m', x :: l' => if b then x :: mask_select m' l' else mask_select m' l'
  | _, _ => []
  end.

(** ** Box tables ([util/bbox.py], lines 180-212) *)

(** A box matrix is an [N x (1+2D)] integer array: one row per instance,
    the id in column 0 and [min, max] per axis after it.  A matrix is its
    list of rows; all rows of the matrices handed to the merger have one
    common width ([np.vstack] raises otherwise). *)
Abbreviation row := (list Z).
Abbreviation matrix := (list row).

(** Array objects are held in a heap and named by their location. *)
Abbreviation loc := nat (only parsing).
Abbreviation heap := (gmap loc matrix).

(** A fresh array object holding [v] ([np.vstack], [.copy()]). *)
Definition alloc (v : matrix) (h : heap) : loc * heap :=
  let l := fresh (dom h) in (l, <[l := v]> h).

(** [M[:, 0]] *)
Definition col0 (M : matrix) : list Z := map (fun r => hd 0 r) M.

(** [np.in1d(a, b)] *)
Definition in1d (a b : list Z) : list bool :=
  map (fun x => bool_decide (x ∈ b)) a.

(** [M[m, 1:] = v]: the box columns of every row selected by the mask are
    overwritten by [v]; column 0 is kept. *)
Fixpoint mask_assign_box (m : list bool) (v : list Z) (M : matrix) : matrix :=
  match m, M with
  | b :: m', r :: M' =>
      (if b then hd 0 r :: v else r) :: mask_assign_box m' v M'
  | _, _ => M
  end.

(** Modelled from the spec: [merge_bbox] is called by
    [merge_bbox_two_matrices] but is not defined in the files at hand.
    The spec (4.2, [merge_box_pair]) gives its contract: the smallest box
    containing both arguments, that is the elementwise minimum of the
    minimums and maximum of the maximums.  A box is the flat list
    [min_0; max_0; min_1; max_1; ...]. *)
Fixpoint merge_bbox (bbox_a bbox_b : list Z) : list Z :=
  match bbox_a, bbox_b with
  | a0 :: a1 :: a', b0 :: b1 :: b' =>
      Z.min a0 b0 :: Z.max a1 b1 :: merge_bbox a' b'
  | _, _ => []
  end.

(** One iteration of the loop of lines 207-211 for index [i] of the first
    matrix.  Both matrices are read from the heap as they are at this
    iteration; the id columns [bbox_a_id], [bbox_b_id] are views of column
    0, which is never written.  [bbox_matrix_b[bbox_b_index, 1:][0]] is
    the box of the first row of B with that id: it exists because [i] is a
    position where [np.in1d] answered [True]. *)
Definition merge_step (la lb : loc) (bbox_a_id bbox_b_id : list Z)
    (h : heap) (i : nat) : heap :=
  let bbox_a := tl (nth i (h !!! la) []) in
  let bbox_b_index := map (Z.eqb (nth i bbox_a_id 0)) bbox_b_id in
  let bbox_b := hd [] (map (@tl Z) (mask_select bbox_b_index (h !!! lb))) in
  <[lb := mask_assign_box bbox_b_index (merge_bbox bbox_a bbox_b) (h !!! lb)]> h.

(** [merge_bbox_two_matrices(bbox_matrix_a, bbox_matrix_b)].  An argument
    is [None] or a reference to an array object; the result is the
    returned reference together with the heap after the call. *)
Definition merge_bbox_two_matrices (bbox_matrix_a bbox_matrix_b : option loc)
    (h : heap) : option loc * heap :=
  match bbox_matrix_a, bbox_matrix_b with
  | None, _ => (bbox_matrix_b, h)
  | Some _, None => (bbox_matrix_a, h)
  | Some la, Some lb =>
      let bbox_a_id := col0 (h !!! la) in
      let bbox_b_id := col0 (h !!! lb) in
      let intersect_id := in1d bbox_a_id bbox_b_id in
      if Nat.eqb (count_true intersect_id) 0 then
        let '(l, h') := alloc ((h !!! la) ++ (h !!! lb)) h in
        (Some l, h')
      else
        let h1 := fold_left (merge_step la lb bbox_a_id bbox_b_id)
                            (np_where intersect_id) h in
        let '(l, h2) :=
          alloc (mask_select (map negb intersect_id) (h1 !!! la)
                 ++ (h1 !!! lb)) h1 in
        (Some l, h2)
  end.

(** The fold of [merge_bbox_tile] ([data/neuron_mask.py], lines 50-58)
    over the box matrices loaded from the per-tile files: every loaded
    matrix with at least one row is copied, and the copy is merged into
    the running table [out], which starts as [None]. *)
Definition merge_bbox_tile_step (st : option loc * heap) (bbox : matrix)
  : option loc * heap :=
  let '(out, h) := st in
  if (0 <? length bbox)%nat then
    let '(lb, h1) := alloc bbox h in
    merge_bbox_two_matrices out (Some lb) h1
  else (out, h).

Definition merge_bbox_tile (tiles : list matrix) (h : heap)
  : option loc * heap :=
  fold_left merge_bbox_tile_step tiles (None, h).

(** The table a reference denotes: [None] and the empty matrix hold no
    entry. *)
Definition table_at (h : heap) (r : option loc) : matrix :=
  match r with
  | None => []
  | Some l => h !!! l
  end.

(** An InstanceBoxTable as the mapping it stands for: instance id to
    box. *)
Definition table_map (M : matrix) : gmap Z (list Z) :=
  list_to_map (map (fun r => (hd 0 r, tl r)) M).

(** Well-formed table of dimension [D]: every row has [1 + 2 D] entries
    and no id occurs twice. *)
Definition table_wf (D : nat) (M : matrix) : Prop :=
  Forall (fun r => length r = S (2 * D)) M /\ NoDup (col0 M).

(** [outer] contains [inner], for two boxes of the same dimension. *)
Fixpoint box_contains (outer inner : list Z) : Prop :=
  match outer, inner with
  | o0 :: o1 :: o', i0 :: i1 :: i' =>
      o0 <= i0 /\ i1 <= o1 /\ box_contains o' i'
  | [], [] => True
  | _, _ => False
  end.

(** What the loop of lines 207-211 leaves in the second matrix, as a
    function of the two matrices' contents: one pass per row of A whose id
    occurs in B. *)
Definition merge_row_into (ra : row) (B : matrix) : matrix :=
  let bbox_b_index := map (Z.eqb (hd 0 ra)) (col0 B) in
  mask_assign_box bbox_b_index
    (merge_bbox (tl ra) (hd [] (map (@tl Z) (mask_select bbox_b_index B)))) B.

Definition merged_b (A B : matrix) : matrix :=
  fold_left (fun B' ra => merge_row_into ra B')
            (mask_select (in1d (col0 A) (col0 B)) A) B.

(** The contents of the matrix [np.vstack] builds on line 206 or 212. *)
Definition merged_table (A B : matrix) : matrix :=
  mask_select (map negb (in1d (col0 A) (col0 B))) A ++ merged_b A B.

(** Row [rb] of B after the merge with a table [A] of distinct ids: its
    box is merged with the box A holds for the same id, if any. *)
Definition merged_row (A : matrix) (rb : row) : row :=
  match List.find (fun ra => hd 0 ra =? hd 0 rb) A with
  | Some ra => hd 0 rb :: merge_bbox (tl ra) (tl rb)
  | None => rb
  end.

(** The mapping two tables merge into: boxes of a shared id are merged,
    the other entries are kept. *)
Definition table_map_merge (m1 m2 : gmap Z (list Z)) : gmap Z (list Z) :=
  union_with (fun a b => Some (merge_bbox a b)) m1 m2.

(** The running table of the fold as a value: [None] before the first
    non-empty tile, the merged matrix afterwards. *)
Definition merge_tile_value (T : option matrix) (bbox : matrix)
  : option matrix :=
  if (0 <? length bbox)%nat then
    match T with
    | None => Some bbox
    | Some out => Some (merged_table out bbox)
    end
  else T.

(** The reference [out] denotes the table value [T] in heap [h]. *)
Definition denotes (h : heap) (out : option loc) (T : option matrix) : Prop :=
  match out, T with
  | None, None => True
  | Some lo, Some M => h !! lo = Some M
  | _, _ => False
  end.

Definition table_wf_opt (D : nat) (T : option matrix) : Prop :=
  table_wf D (default [] T).

(** ** Arrays of any rank ([util/bbox.py], lines 4-31) *)

(** An array is its shape and its entries in row-major order. *)
Record ndarray := { shape : list nat; data : list Z }.

Definition ndim (a : ndarray) : nat := length (shape a).

Definition size_of (s : list nat) : nat := fold_right Nat.mul 1%nat s.

(** The position of the [k]-th entry, and back. *)
Fixpoint unravel (s : list nat) (k : nat) : list nat :=
  match s with
  | [] => []
  | _ :: s' => (k / size_of s')%nat :: unravel s' (k mod size_of s')%nat
  end.

Fixpoint ravel (s p : list nat) : nat :=
  match s, p with
  | _ :: s', i :: p' => (i * size_of s' + ravel s' p')%nat
  | _, _ => 0%nat
  end.

(** [a[p]] *)
Definition item (a : ndarray) (p : list nat) : Z :=
  nth (ravel (shape a) p) (data a) 0.

Definition array_wf (a : ndarray) : Prop :=
  length (data a) = size_of (shape a) /\ shape a <> [].

(** [seg.any()] *)
Definition np_any (a : ndarray) : bool :=
  existsb (fun v => negb (v =? 0)) (data a).

(** [np.where(seg > 0)], as the list of the positive positions in
    row-major order; [pix_nonzero[i]] is the list of their [i]-th
    coordinates. *)
Definition where_positive (a : ndarray) : list (list nat) :=
  map (unravel (shape a)) (np_where (map (fun v => 0 <? v) (data a))).

Definition axis_coords (i : nat) (pix : list (list nat)) : list Z :=
  map (fun p => Z.of_nat (nth i p 0%nat)) pix.

(** [.min()] and [.max()] raise [ValueError] on an empty array. *)
Definition np_min (l : list Z) : outcome Z :=
  match l with
  | [] => Raises ValueError
  | x :: l' => Returns (fold_left Z.min l' x)
  end.

Definition np_max (l : list Z) : outcome Z :=
  match l with
  | [] => Raises ValueError
  | x :: l' => Returns (fold_left Z.max l' x)
  end.

(** [compute_bbox(seg, do_count)] *)
Definition compute_bbox (seg : ndarray) (do_count : bool)
  : outcome (option (list Z)) :=
  if negb (np_any seg) then Returns None
  else
    let pix_nonzero := where_positive seg in
    out ← for_each (seq 0 (ndim seg))
            (fun out i =>
               lo ← np_min (axis_coords i pix_nonzero);
               hi ← np_max (axis_coords i pix_nonzero);
               Returns (out ++ [lo; hi]))
            [];
    if do_count
    then Returns (Some (out ++ [Z.of_nat (length pix_nonzero)]))
    else Returns (Some out).

(** [L == k] *)
Definition label_eq (L : ndarray) (k : Z) : ndarray :=
  {| shape := shape L;
     data := map (fun v => if v =? k then 1 else 0) (data L) |}.

(** A binary mask holds 0 and 1 only. *)
Definition binary_mask (a : ndarray) : Prop :=
  Forall (fun v => v = 0 \/ v = 1) (data a).

(** The exhaustive scan the box is compared with: [p] is a foreground
    position when it lies inside the array and the mask is set there. *)
Definition foreground (seg : ndarray) (p : list nat) : Prop :=
  Forall2 lt p (shape seg) /\ 0 < item seg p.

Definition axis_minimum (seg : ndarray) (i : nat) (m : Z) : Prop :=
  (exists p, foreground seg p /\ Z.of_nat (nth i p 0%nat) = m) /\
  (forall p, foreground seg p -> m <= Z.of_nat (nth i p 0%nat)).

Definition axis_maximum (seg : ndarray) (i : nat) (m : Z) : Prop :=
  (exists p, foreground seg p /\ Z.of_nat (nth i p 0%nat) = m) /\
  (forall p, foreground seg p -> Z.of_nat (nth i p 0%nat) <= m).

(** The number of foreground pixels of a mask. *)
Definition count_foreground (seg : ndarray) : nat :=
  length (List.filter (fun v => 0 <? v) (data seg)).

(** The least and the greatest entry of a non-empty list. *)
Definition min_of (l : list Z) : Z :=
  match l with [] => 0 | x :: l' => fold_left Z.min l' x end.

Definition max_of (l : list Z) : Z :=
  match l with [] => 0 | x :: l' => fold_left Z.max l' x end.

(** ** Box tables of a label map ([util/bbox.py], lines 34-177) *)

(** Stores into [np.uint32] and [np.int32] arrays. *)
Definition cast_uint32 (v : Z) : Z := v mod 2 ^ 32.
Definition cast_int32 (v : Z) : Z := (v + 2 ^ 31) mod 2 ^ 32 - 2 ^ 31.

(** [np.unique]: the distinct values, ascending. *)
Fixpoint insert_unique (x : Z) (l : list Z) : list Z :=
  match l with
  | [] => [x]
  | y :: l' =>
      if x <? y then x :: l
      else if x =? y then l
      else y :: insert_unique x l'
  end.

Definition np_unique (l : list Z) : list Z := fold_right insert_unique [] l.

(** [np.unique(seg, return_counts=True)], as pairs. *)
Definition np_unique_counts (l : list Z) : list (Z * Z) :=
  map (fun v => (v, Z.of_nat (length (List.filter (Z.eqb v) l)))) (np_unique l).

(** All positions of an array, row-major. *)
Definition all_positions (s : list nat) : list (list nat) :=
  map (unravel s) (seq 0 (size_of s)).

(** The entries of the slice of [seg] at index [j] of axis [a]:
    [seg[j]], [seg[:, j]] or [seg[:, :, j]]. *)
Definition axis_slice (seg : ndarray) (a j : nat) : list Z :=
  map (item seg)
      (List.filter (fun p => Nat.eqb (nth a p 0%nat) j)
                   (all_positions (shape seg))).

(** The indices along axis [a] whose slice holds a positive label:
    [np.where((seg > 0).sum(...) > 0)[0]]. *)
Definition axis_hits (seg : ndarray) (a : nat) : list nat :=
  List.filter (fun j => existsb (fun v => 0 <? v) (axis_slice seg a j))
              (seq 0 (nth a (shape seg) 0%nat)).

(** [sid = np.unique(slice); sid = sid[(sid > 0) * (sid <= uid_max)]] *)
Definition slice_ids (vals : list Z) (uid_max : Z) : list Z :=
  List.filter (fun s => (0 <? s) && (s <=? uid_max)) (np_unique vals).

(** [out[sid, c] = f(out[sid, c])] for the distinct in-range ids [sid]. *)
Definition update_cells (f : Z -> Z) (c : nat) (sid : list Z)
    (out : list (list Z)) : list (list Z) :=
  fold_left (fun o s => alter (alter f c) (Z.to_nat s) o) sid out.

(** One of the loops "for each slice of axis [a]": the running minimum is
    kept in column [c] and the running maximum in column [c + 1]; [cast]
    is the store into the dtype of [out]. *)
Definition tighten_axis (cast : Z -> Z) (seg : ndarray) (uid_max : Z)
    (a c : nat) (out : list (list Z)) : list (list Z) :=
  fold_left
    (fun o j =>
       let sid := slice_ids (axis_slice seg a j) uid_max in
       let o1 := update_cells (fun v => cast (Z.min v (Z.of_nat j))) c sid o in
       update_cells (fun v => cast (Z.max v (Z.of_nat j))) (S c) sid o1)
    (axis_hits seg a) out.

(** A Python index into a sequence of length [n]: negative indices count
    from the end, anything else out of range raises [IndexError]. *)
Definition py_index (n : nat) (i : Z) : outcome nat :=
  if (0 <=? i) && (i <? Z.of_nat n) then Returns (Z.to_nat i)
  else if (i <? 0) && (- Z.of_nat n <=? i) then Returns (Z.to_nat (i + Z.of_nat n))
  else Raises IndexError.

(** [out[idx, -1] = cnt], pair by pair. *)
Definition set_counts (cast : Z -> Z) (last : nat) (out : list (list Z))
    (counts : list (Z * Z)) : outcome (list (list Z)) :=
  for_each counts
    (fun o '(v, c) =>
       i ← py_index (length o) v;
       Returns (alter (alter (fun _ => cast c) last) i o))
    out.

(** [out[uid]] *)
Definition fancy_index (out : list (list Z)) (uid : list Z)
  : outcome (list (list Z)) :=
  for_each uid
    (fun acc u =>
       i ← py_index (length out) u;
       Returns (acc ++ [nth i out []]))
    [].

(** [np.zeros((n, ...))] raises [ValueError] on a negative dimension. *)
Definition np_rows (n : Z) (init : Z -> list Z) : outcome (list (list Z)) :=
  if n <? 0 then Raises ValueError
  else Returns (map (fun i => init (Z.of_nat i)) (seq 0 (Z.to_nat n))).

(** [compute_bbox_all_2d(seg, do_count, uid)] *)
Definition compute_bbox_all_2d (seg : ndarray) (do_count : bool)
    (uid : option (list Z)) : outcome (option (list (list Z))) :=
  let sz := shape seg in
  if negb (Nat.eqb (length sz) 2) then Raises AssertionError
  else
    let uid :=
      match uid with
      | None => List.filter (fun v => 0 <? v) (np_unique (data seg))
      | Some u => u
      end in
    if Nat.eqb (length uid) 0 then Returns None
    else
      let uid_max := max_of uid in
      out ← np_rows (1 + uid_max)
              (fun i => [cast_uint32 i;
                         cast_uint32 (Z.of_nat (nth 0 sz 0%nat)); 0;
                         cast_uint32 (Z.of_nat (nth 1 sz 0%nat)); 0]
                        ++ (if do_count then [0] else []));
      let out := tighten_axis cast_uint32 seg uid_max 0 1 out in
      let out := tighten_axis cast_uint32 seg uid_max 1 3 out in
      out ← (if do_count
             then set_counts cast_uint32 5 out (np_unique_counts (data seg))
             else Returns out);
      rows ← fancy_index out uid;
      Returns (Some rows).

(** [compute_bbox_all_3d(seg, do_count, uid)] *)
Definition compute_bbox_all_3d (seg : ndarray) (do_count : bool)
    (uid : option (list Z)) : outcome (list (list Z)) :=
  let sz := shape seg in
  if negb (Nat.eqb (length sz) 3) then Raises AssertionError
  else
    let uid := match uid with None => data seg | Some u => u end in
    uid_max ← np_max uid;
    out ← np_rows (1 + uid_max)
            (fun i => [cast_int32 i;
                       cast_int32 (Z.of_nat (nth 0 sz 0%nat)); -1;
                       cast_int32 (Z.of_nat (nth 1 sz 0%nat)); -1;
                       cast_int32 (Z.of_nat (nth 2 sz 0%nat)); -1]
                      ++ (if do_count then [0] else []));
    let out := tighten_axis cast_int32 seg uid_max 0 1 out in
    let out := tighten_axis cast_int32 seg uid_max 1 3 out in
    let out := tighten_axis cast_int32 seg uid_max 2 5 out in
    out ← (if do_count
           then set_counts cast_int32 7 out
                  (List.filter (fun vc => fst vc <=? uid_max)
                               (np_unique_counts (data seg)))
           else Returns out);
    Returns (map (map cast_uint32)
                 (List.filter (forallb (fun v => negb (v =? -1))) out)).

(** [compute_bbox_all(seg, do_count, uid)]: [raise "..."] of a string is
    itself a [TypeError]. *)
Definition compute_bbox_all (seg : ndarray) (do_count : bool)
    (uid : option (list Z)) : outcome (option (list (list Z))) :=
  if Nat.eqb (ndim seg) 2 then compute_bbox_all_2d seg do_count uid
  else if Nat.eqb (ndim seg) 3 then
    rows ← compute_bbox_all_3d seg do_count uid; Returns (Some rows)
  else Raises TypeError.

(** The ids a returned table lists. *)
Definition table_ids (t : option (list (list Z))) : list Z :=
  match t with
  | None => []
  | Some rows => map (fun r => hd 0 r) rows
  end.

(** What holds of row [i] of the working table of the 3D path at every
    moment: column 0 is the row's own index, and the running maximum of
    the first axis is still the initial -1 unless [i] is a positive label
    of the map. *)
Definition row_inv (seg : ndarray) (i : nat) (r : list Z) : Prop :=
  r !! 0%nat = Some (cast_int32 (Z.of_nat i)) /\
  (r !! 2%nat = Some (-1) \/ (0 < Z.of_nat i /\ Z.of_nat i ∈ data seg)).

Definition table_inv (seg : ndarray) (out : list (list Z)) : Prop :=
  forall i r, out !! i = Some r -> row_inv seg i r.

(** ** Arrays by position *)

(** The array of shape [s] whose entry at position [p] is [g p]. *)
Definition tabulate (s : list nat) (g : list nat -> Z) : ndarray :=
  {| shape := s; data := map (fun k => g (unravel s k)) (seq 0 (size_of s)) |}.

(** [np.zeros(shape)]: a negative dimension raises [ValueError]. *)
Definition np_zeros (dims : list Z) : outcome ndarray :=
  if forallb (fun d => 0 <=? d) dims
  then Returns (tabulate (map Z.to_nat dims) (fun _ => 0))
  else Raises ValueError.

(** Python's [a // b] and [range(a, b, step)]. *)
Definition py_floordiv (a b : Z) : outcome Z :=
  if b =? 0 then Raises ZeroDivisionError else Returns (a / b).

Definition py_range (a b step : Z) : outcome (list Z) :=
  if step =? 0 then Raises ValueError
  else
    let n := if 0 <? step then (b - a + step - 1) / step
             else (a - b - step - 1) / (- step) in
    Returns (map (fun k => a + Z.of_nat k * step) (seq 0 (Z.to_nat n))).

Definition range (a b : Z) : list Z :=
  map (fun k => a + Z.of_nat k) (seq 0 (Z.to_nat (b - a))).

(** [enumerate(xs)] *)
Definition enumerate {A} (xs : list A) : list (Z * A) :=
  combine (map Z.of_nat (seq 0 (length xs))) xs.

(** A slice [lo:hi] of an axis of length [n], as first index and length;
    an absent bound is [None]. *)
Definition py_slice (n : nat) (lo hi : option Z) : nat * nat :=
  let norm v := if v <? 0 then Z.max (v + Z.of_nat n) 0
                else Z.min v (Z.of_nat n) in
  let start := match lo with None => 0 | Some v => norm v end in
  let stop := match hi with None => Z.of_nat n | Some v => norm v end in
  (Z.to_nat start, Z.to_nat (stop - start)).

(** A source extent [s] fits a destination extent [d] when they are equal
    or the source extent is 1 (numpy broadcasting). *)
Definition fits (s d : nat) : bool := Nat.eqb s d || Nat.eqb s 1.

Definition src_index (s : nat) (k : nat) : nat :=
  if Nat.eqb s 1 then 0%nat else k.

(** [a[ylo:yhi, xlo:xhi]] of a 2D array. *)
Definition slice2 (a : ndarray) (ylo yhi xlo xhi : Z) : ndarray :=
  let '(sy, ly) := py_slice (nth 0 (shape a) 0%nat) (Some ylo) (Some yhi) in
  let '(sx, lx) := py_slice (nth 1 (shape a) 0%nat) (Some xlo) (Some xhi) in
  tabulate [ly; lx]
    (fun p => item a [(sy + nth 0 p 0)%nat; (sx + nth 1 p 0)%nat]).

(** [result[i, ylo:yhi, xlo:xhi] = src] for a 3D [result] and a 2D [src];
    the store converts with [cast]. *)
Definition assign_tile (cast : Z -> Z) (result : ndarray) (i ylo yhi xlo xhi : Z)
    (src : ndarray) : outcome ndarray :=
  zi ← py_index (nth 0 (shape result) 0%nat) i;
  let '(sy, ly) := py_slice (nth 1 (shape result) 0%nat) (Some ylo) (Some yhi) in
  let '(sx, lx) := py_slice (nth 2 (shape result) 0%nat) (Some xlo) (Some xhi) in
  match shape src with
  | [sr; sc] =>
      if fits sr ly && fits sc lx then
        Returns (tabulate (shape result) (fun p =>
          let z := nth 0 p 0%nat in
          let y := nth 1 p 0%nat in
          let x := nth 2 p 0%nat in
          if Nat.eqb z zi
             && (sy <=? y)%nat && (y <? sy + ly)%nat
             && (sx <=? x)%nat && (x <? sx + lx)%nat
          then cast (item src [src_index sr (y - sy); src_index sc (x - sx)])
          else item result p))
      else Raises ValueError
  | _ => Raises ValueError
  end.

(** [result[dlo:dhi] = result[slo:shi]] along the first axis of a 3D
    array; the right-hand side is read before anything is written. *)
Definition assign_slices (result : ndarray) (dlo dhi slo shi : option Z)
  : outcome ndarray :=
  let n := nth 0 (shape result) 0%nat in
  let '(ds, dl) := py_slice n dlo dhi in
  let '(ss, sl) := py_slice n slo shi in
  if fits sl dl then
    Returns (tabulate (shape result) (fun p =>
      let z := nth 0 p 0%nat in
      if (ds <=? z)%nat && (z <? ds + dl)%nat
      then item result ((ss + src_index sl (z - ds))%nat :: tl p)
      else item result p))
  else Raises ValueError.

(** [np.any(result[z] > 0)] *)
Definition slice_any_positive (result : ndarray) (z : nat) : bool :=
  existsb (fun v => 0 <? v) (axis_slice result 0 z).

(** ** The tiled assembler ([data/util/tile.py], lines 7-163) *)

(** ["sub" in s] *)
Definition str_in (sub s : string) : bool :=
  match String.index 0 sub s with Some _ => true | None => false end.

(** What the function prints. *)
Inductive event :=
| NonExist (filename : string)
| AllZero
| PrintPath (path : string)
| PrintMid (mid : Z)
| WriteImage (filename : string) (img : list Z).

Section TiledAssembler.
(** The collaborators outside the assembler: Python's two string
    formatters, the file system, the image reader (with the tile type,
    ratio and resize mode it is handed) and [np.pad]. *)
Variable percent_format : string -> Z -> Z -> string.
Variable brace_format : string -> Z -> Z -> string.
Variable path_exists : string -> bool.
Variable read_image : string -> ndarray.
Variable np_pad : ndarray -> list (Z * Z) -> string -> ndarray.

(** [get_tile_name(pattern, row, column)] *)
Definition get_tile_name (pattern : string) (row column : Z) : string :=
  if str_in "%" pattern then percent_format pattern row column
  else if str_in "{" pattern then brace_format pattern row column
  else pattern.

(** [relabel[patch]] *)
Definition apply_relabel (relabel : list Z) (patch : ndarray)
  : outcome ndarray :=
  d ← for_each (data patch)
        (fun acc v => i ← py_index (length relabel) v;
                      Returns (acc ++ [nth i relabel 0]))
        [];
  Returns {| shape := shape patch; data := d |}.

(** The body of the loop over rows and columns (lines 118-137) for the
    destination slice [i] and the pattern of its z. *)
Definition place_tile (cast : Z -> Z) (tile_sz tile_st : Z * Z)
    (relabel : option (list Z)) (y0 y1 x0 x1 : Z) (pattern : string) (i : Z)
    (st : ndarray * list event) (rc : Z * Z) : outcome (ndarray * list event) :=
  let '(result, log) := st in
  let '(row, column) := rc in
  let filename := get_tile_name pattern (row + fst tile_st) (column + snd tile_st) in
  if path_exists filename then
    let patch := read_image filename in
    patch ← match relabel with
            | Some t => apply_relabel t patch
            | None => Returns patch
            end;
    let psz0 := Z.of_nat (nth 0 (shape patch) 0%nat) in
    let psz1 := Z.of_nat (nth 1 (shape patch) 0%nat) in
    let xp0 := column * snd tile_sz in
    let xp1 := Z.min (xp0 + psz1) ((column + 1) * snd tile_sz) in
    let yp0 := row * fst tile_sz in
    let yp1 := Z.min (yp0 + psz0) ((row + 1) * fst tile_sz) in
    let x0a := Z.max x0 xp0 in
    let x1a := Z.min x1 xp1 in
    let y0a := Z.max y0 yp0 in
    let y1a := Z.min y1 yp1 in
    result ← assign_tile cast result i (y0a - y0) (y1a - y0) (x0a - x0) (x1a - x0)
               (slice2 patch (y0a - yp0) (y1a - yp0) (x0a - xp0) (x1a - xp0));
    Returns (result, log)
  else Returns (result, log ++ [NonExist filename]).

(** The loop over z (lines 114-137). *)
Definition read_slices (cast : Z -> Z) (filenames : list string)
    (tile_sz tile_st : Z * Z) (relabel : option (list Z))
    (y0 y1 x0 x1 r0 r1 c0 c1 : Z) (zs : list Z)
    (st : ndarray * list event) : outcome (ndarray * list event) :=
  for_each (enumerate zs)
    (fun st '(i, z) =>
       k ← py_index (length filenames) z;
       let pattern := nth k filenames "" in
       for_each (list_prod (range r0 r1) (range c0 c1))
                (place_tile cast tile_sz tile_st relabel y0 y1 x0 x1 pattern i)
                st)
    st.

(** The first while loop of the blank-slice repair: the slices
    [blank_st .. blank_lt] still to look at are counted by [todo]. *)
Fixpoint scan_leading (result : ndarray) (blank_st : nat) (todo : nat) : nat :=
  match todo with
  | O => blank_st
  | S todo' =>
      if negb (slice_any_positive result blank_st)
      then scan_leading result (S blank_st) todo'
      else blank_st
  end.

(** The second while loop: [blank_lt] walks down while
    [blank_lt >= blank_st] and the slice is blank. *)
Fixpoint scan_trailing (result : ndarray) (blank_st : Z) (blank_lt : Z)
    (todo : nat) : Z :=
  match todo with
  | O => blank_lt
  | S todo' =>
      if (blank_st <=? blank_lt)
         && negb (slice_any_positive result (Z.to_nat blank_lt))
      then scan_trailing result blank_st (blank_lt - 1) todo'
      else blank_lt
  end.

(** The blank-slice repair (lines 139-153). *)
Definition repair_blank (st : ndarray * list event)
  : outcome (ndarray * list event) :=
  let '(result, log) := st in
  let n := nth 0 (shape result) 0%nat in
  let blank_lt := Z.of_nat n - 1 in
  let blank_st := Z.of_nat (scan_leading result 0 n) in
  if blank_st =? blank_lt + 1 then Returns (result, log ++ [AllZero])
  else
    result ← assign_slices result None (Some blank_st)
               (Some blank_st) (Some (blank_st + 1));
    let blank_lt := scan_trailing result blank_st blank_lt n in
    result ← assign_slices result (Some blank_lt) None
               (Some (blank_lt - 1)) (Some blank_lt);
    result ← for_each (range (blank_st + 1) blank_lt)
               (fun result z =>
                  if negb (slice_any_positive result (Z.to_nat z))
                  then assign_slices result (Some z) (Some (z + 1))
                                     (Some (z - 1)) (Some z)
                  else Returns result)
               result;
    Returns (result, log).

(** [read_tile_image_by_bbox] with the in-memory destination
    ([output_file = None]); [cast] is the conversion into [tile_dtype]. *)
Definition read_tile_image_by_bbox (cast : Z -> Z) (filenames : list string)
    (z0p z1p y0p y1p x0p x1p : Z) (tile_sz tile_st : Z * Z)
    (tile_border_padding tile_blank : string)
    (volume_sz : option (Z * Z * Z)) (zstep : Z)
    (relabel : option (list Z)) : outcome (ndarray * list event) :=
  let bd :=
    match volume_sz with
    | Some (v0, v1, v2) =>
        Some [(Z.max (- z0p) 0, Z.max 0 (z1p - v0));
              (Z.max (- y0p) 0, Z.max 0 (y1p - v1));
              (Z.max (- x0p) 0, Z.max 0 (x1p - v2))]
    | None => None
    end in
  let '(z0, y0, x0, z1, y1, x1) :=
    match volume_sz with
    | Some (v0, v1, v2) =>
        (Z.max z0p 0, Z.max y0p 0, Z.max x0p 0,
         Z.min z1p v0, Z.min y1p v1, Z.min x1p v2)
    | None => (z0p, y0p, x0p, z1p, y1p, x1p)
    end in
  n ← py_floordiv (z1 - z0 + zstep - 1) zstep;
  result ← np_zeros [n; y1 - y0; x1 - x0];
  c0 ← py_floordiv x0 (snd tile_sz);
  c1 ← py_floordiv (x1 + snd tile_sz - 1) (snd tile_sz);
  r0 ← py_floordiv y0 (fst tile_sz);
  r1 ← py_floordiv (y1 + fst tile_sz - 1) (fst tile_sz);
  let z1 := Z.min (Z.of_nat (length filenames) - 1) z1 in
  zs ← py_range z0 z1 zstep;
  st ← read_slices cast filenames tile_sz tile_st relabel
         y0 y1 x0 x1 r0 r1 c0 c1 zs (result, []);
  st ← (if negb (String.eqb tile_blank "") then repair_blank st
        else Returns st);
  match bd with
  | Some pads =>
      if 0 <? max_of (flat_map (fun ab => [fst ab; snd ab]) pads)
      then Returns (np_pad (fst st) pads tile_border_padding, snd st)
      else Returns st
  | None => Returns st
  end.
End TiledAssembler.

Definition cast_uint8 (v : Z) : Z := v mod 2 ^ 8.

(** [st'] has the shape of [st] and the same entries in every slice from
    index [m] on: nothing was written there. *)
Definition keeps_from (m : nat) (st st' : ndarray * list event) : Prop :=
  shape (fst st') = shape (fst st) /\
  forall p, Forall2 lt p (shape (fst st)) -> (m <= nth 0 p 0)%nat ->
            item (fst st') p = item (fst st) p.

(** ** The chunked assembler ([data/util/tile.py], lines 166-275) *)

(** One index of an h5 selection [fid[...]]. *)
Inductive sel :=
| At (i : Z)
| Span (lo hi step : Z)
| All.

(** The z-extent [zp0, zp1) of block [zid] (lines 202-210):
    [zyx_sz0] and [zyx00] are the block size and origin along z, and
    [zz = (zz0, zz1, zz2)]. *)
Definition z_block_extent (zyx_sz0 zyx00 : Z) (zz : Z * Z * Z) (zid : Z)
  : Z * Z :=
  let '(zz0, zz1, zz2) := zz in
  let zp0 := zid * zyx_sz0 + zyx00 in
  let zp0 := if negb (zid =? 0) then zp0 + zz0 else zp0 in
  let zp1 := (zid + 1) * zyx_sz0 + zyx00 in
  let zp1 := zp1 + zz0 in
  let zp1 := if zid =? zz2 then zp1 + zz1 else zp1 in
  (zp0, zp1).

(** The range [d0, d1) of z-blocks visited (lines 195-198). *)
Definition z_block_range (z0 z1 zyx_sz0 zyx00 : Z) (zz : Z * Z * Z)
  : outcome (Z * Z) :=
  let '(zz0, zz1, zz2) := zz in
  d0 ← py_floordiv (Z.max 0 (z0 - zyx00 - zz0)) zyx_sz0;
  d1 ← py_floordiv (z1 - zyx00 - zz0 + zyx_sz0 - 1) zyx_sz0;
  let d1 := if 0 <? zz2 then Z.min zz2 d1 else d1 in
  Returns (d0, d1).

(** Lines 252-255: the id accumulation on one block.  [chunk_cast] is the
    store into the dtype of the block; the running maximum [mid] is not
    bounded. *)
Definition accumulate_ids (chunk_cast : Z -> Z) (mid : Z) (tmp : ndarray)
  : outcome (ndarray * Z) :=
  tmp_max ← np_max (data tmp);
  Returns ({| shape := shape tmp;
              data := map (fun v => if 0 <? v then chunk_cast (v + mid) else v)
                          (data tmp) |},
           mid + tmp_max).

(** The shape of [src] seen as a 3D block: missing leading axes count as
    extent 1, leading axes beyond three must have extent 1. *)
Definition as_3d (s : list nat) : option (nat * nat * nat) :=
  match s with
  | [] => Some (1, 1, 1)%nat
  | [c] => Some (1, 1, c)%nat
  | [b; c] => Some (1, b, c)%nat
  | [a; b; c] => Some (a, b, c)
  | _ =>
      match rev s with
      | c :: b :: a :: lead =>
          if forallb (Nat.eqb 1) lead then Some (a, b, c) else None
      | _ => None
      end
  end.

(** The entry of [src] that lands at offset [(z, y, x)] of the
    destination region. *)
Definition item_3d (src : ndarray) (abc : nat * nat * nat) (z y x : nat) : Z :=
  let '(a, b, c) := abc in
  nth ((src_index a z * b + src_index b y) * c + src_index c x) (data src) 0.

(** [result[zsel, ysel, xsel] = src] for a 3D destination. *)
Definition assign_block (cast : Z -> Z) (result : ndarray)
    (zsel ysel xsel : option Z * option Z) (src : ndarray) : outcome ndarray :=
  let '(sz, lz) := py_slice (nth 0 (shape result) 0%nat) (fst zsel) (snd zsel) in
  let '(sy, ly) := py_slice (nth 1 (shape result) 0%nat) (fst ysel) (snd ysel) in
  let '(sx, lx) := py_slice (nth 2 (shape result) 0%nat) (fst xsel) (snd xsel) in
  match as_3d (shape src) with
  | Some (a, b, c) =>
      if fits a lz && fits b ly && fits c lx then
        Returns (tabulate (shape result) (fun p =>
          let z := nth 0 p 0%nat in
          let y := nth 1 p 0%nat in
          let x := nth 2 p 0%nat in
          if (sz <=? z)%nat && (z <? sz + lz)%nat
             && (sy <=? y)%nat && (y <? sy + ly)%nat
             && (sx <=? x)%nat && (x <? sx + lx)%nat
          then cast (item_3d src (a, b, c) (z - sz) (y - sy) (x - sx))
          else item result p))
      else Raises ValueError
  | None => Raises ValueError
  end.

(** [result[zsel] = result[zsel] * np.array(mask[mlo:mhi])] *)
Definition apply_mask (cast : Z -> Z) (result : ndarray)
    (zsel : option Z * option Z) (mask : ndarray) (mlo mhi : Z)
  : outcome ndarray :=
  let '(sz, lz) := py_slice (nth 0 (shape result) 0%nat) (fst zsel) (snd zsel) in
  let '(ms, ml) := py_slice (nth 0 (shape mask) 0%nat) (Some mlo) (Some mhi) in
  match as_3d (shape mask) with
  | Some (a, b, c) =>
      if fits ml lz && fits b (nth 1 (shape result) 0%nat)
                    && fits c (nth 2 (shape result) 0%nat) then
        Returns (tabulate (shape result) (fun p =>
          let z := nth 0 p 0%nat in
          let y := nth 1 p 0%nat in
          let x := nth 2 p 0%nat in
          if (sz <=? z)%nat && (z <? sz + lz)%nat
          then cast (item result p
                     * item_3d mask (a, b, c)
                         (ms + src_index ml (z - sz)) y x)
          else item result p))
      else Raises ValueError
  | None => Raises ValueError
  end.

(** *** The destination in an ".h5" file (h5py)

    A dataset of an ".h5" file is written through HDF5, not through
    numpy.  HDF5 converts the values it stores, and a value out of the
    range of the dataset's type is clipped, where a numpy array wraps it
    around. *)
Definition clip_uint8 (v : Z) : Z := Z.max 0 (Z.min 255 v).

(** [dataset[zsel, ysel, xsel] = src] for a 3D dataset: an empty
    selection returns at once, whatever the block; a block that does not
    fit the selection raises [TypeError] where numpy raises
    [ValueError]; [clip] is the conversion of HDF5 into the type of the
    dataset. *)
Definition h5_assign_block (clip : Z -> Z) (result : ndarray)
    (zsel ysel xsel : option Z * option Z) (src : ndarray) : outcome ndarray :=
  let '(sz, lz) := py_slice (nth 0 (shape result) 0%nat) (fst zsel) (snd zsel) in
  let '(sy, ly) := py_slice (nth 1 (shape result) 0%nat) (fst ysel) (snd ysel) in
  let '(sx, lx) := py_slice (nth 2 (shape result) 0%nat) (fst xsel) (snd xsel) in
  if Nat.eqb (lz * ly * lx) 0 then Returns result
  else
    match as_3d (shape src) with
    | Some (a, b, c) =>
        if fits a lz && fits b ly && fits c lx then
          Returns (tabulate (shape result) (fun p =>
            let z := nth 0 p 0%nat in
            let y := nth 1 p 0%nat in
            let x := nth 2 p 0%nat in
            if (sz <=? z)%nat && (z <? sz + lz)%nat
               && (sy <=? y)%nat && (y <? sy + ly)%nat
               && (sx <=? x)%nat && (x <? sx + lx)%nat
            then clip (item_3d src (a, b, c) (z - sz) (y - sy) (x - sx))
            else item result p))
        else Raises TypeError
    | None => Raises TypeError
    end.

(** Two extents that numpy can combine in a product. *)
Definition broadcasts (s d : nat) : bool :=
  Nat.eqb s d || Nat.eqb s 1 || Nat.eqb d 1.

(** [dataset[zsel] = dataset[zsel] * np.array(mask[mlo:mhi])]: the
    product is taken by numpy, which raises [ValueError] when the extents
    cannot be combined and wraps the product around in its type
    ([mask_cast], the type numpy gives the product of an array of the
    dataset's type and the mask), and stored by h5py as above. *)
Definition h5_apply_mask (clip mask_cast : Z -> Z) (result : ndarray)
    (zsel : option Z * option Z) (mask : ndarray) (mlo mhi : Z)
  : outcome ndarray :=
  let '(sz, lz) := py_slice (nth 0 (shape result) 0%nat) (fst zsel) (snd zsel) in
  let '(ms, ml) := py_slice (nth 0 (shape mask) 0%nat) (Some mlo) (Some mhi) in
  let h := nth 1 (shape result) 0%nat in
  let w := nth 2 (shape result) 0%nat in
  match as_3d (shape mask) with
  | Some (a, b, c) =>
      if broadcasts ml lz && broadcasts b h && broadcasts c w then
        if Nat.eqb (lz * h * w) 0 then Returns result
        else if fits ml lz && fits b h && fits c w then
          Returns (tabulate (shape result) (fun p =>
            let z := nth 0 p 0%nat in
            let y := nth 1 p 0%nat in
            let x := nth 2 p 0%nat in
            if (sz <=? z)%nat && (z <? sz + lz)%nat
            then clip (mask_cast (item result p
                                  * item_3d mask (a, b, c)
                                      (ms + src_index ml (z - sz)) y x))
            else item result p))
        else Raises TypeError
      else Raises ValueError
  | None => Raises ValueError
  end.

Section ChunkedAssembler.
(** The collaborators outside the assembler: the file system, the rank
    and the strided read of the dataset a chunk file holds (after
    [h5_func], when one is given), the formatter of the per-slice image
    names, [get_h5_chunk2d(output_chunk / num_z, zyx_sz[1:])] as a
    function of [output_chunk], [num_z] and [zyx_sz[1:]], and
    [create_dataset] of h5py for a shape and a chunk shape, which raises
    [ValueError] for a chunk shape it refuses (one that exceeds the shape
    in some dimension). *)
Variable path_exists : string -> bool.
Variable h5_rank : string -> Z * Z * Z -> nat.
Variable h5_read : string -> Z * Z * Z -> list sel -> ndarray.
Variable percent_format1 : string -> Z -> string.
Variable get_h5_chunk2d : Z -> Z -> Z * Z -> outcome (Z * Z).
Variable h5_create_dataset : list Z -> list Z -> outcome unit.

(** The state of the loops: the destination, the running maximum and what
    was printed or written so far. *)
Definition h5_state : Type := ndarray * Z * list event.

(** The block [tmp] read from the chunk file at [path] (lines 229-251). *)
Definition chunk_tmp (path : string) (x0 x1 : Z) (zyx_sz zyx0 : Z * Z * Z)
    (cid : Z) (tile_step : Z * Z) (zstep : Z)
    (zid yid : Z) (zp0 yp0 z0a z1a y0a y1a : Z) (xid : Z) : ndarray :=
  let xp0 := xid * snd zyx_sz + snd zyx0 in
  let xp1 := (xid + 1) * snd zyx_sz + snd zyx0 in
  let x0a := Z.max x0 xp0 in
  let x1a := Z.min x1 xp1 in
  let zs := Span ((z0a - zp0) * zstep) ((z1a - zp0) * zstep) zstep in
  let ys := Span ((y0a - yp0) * fst tile_step) ((y1a - yp0) * fst tile_step)
                 (fst tile_step) in
  let xs := Span ((x0a - xp0) * snd tile_step) ((x1a - xp0) * snd tile_step)
                 (snd tile_step) in
  if cid =? -1 then
    if Nat.eqb (h5_rank path (zid, yid, xid)) 3
    then h5_read path (zid, yid, xid) [zs; ys; xs]
    else h5_read path (zid, yid, xid) [ys; xs]
  else if cid =? -2 then h5_read path (zid, yid, xid) [All; zs; ys; xs]
  else h5_read path (zid, yid, xid) [At cid; zs; ys; xs].

(** The body of the innermost loop (lines 219-263) for chunk
    [(zid, yid, xid)]; [to_h5] and [to_images] tell whether the
    destination is the dataset of an ".h5" file or the stack of the
    per-slice images, and [cast] is the conversion of a store into it. *)
Definition read_chunk (cast chunk_cast : Z -> Z)
    (h5_name : Z -> Z -> Z -> string)
    (z0 y0 x0 x1 : Z) (zyx_sz zyx0 : Z * Z * Z) (cid : Z)
    (tile_step : Z * Z) (zstep : Z) (acc_id : bool) (to_h5 to_images : bool)
    (zid yid : Z) (zp0 yp0 z0a z1a y0a y1a : Z)
    (st : h5_state) (xid : Z) : outcome h5_state :=
  let '(result, mid, log) := st in
  let path := h5_name zid yid xid in
  if path_exists path then
    let log := log ++ [PrintPath path] in
    let xp0 := xid * snd zyx_sz + snd zyx0 in
    let xp1 := (xid + 1) * snd zyx_sz + snd zyx0 in
    let x0a := Z.max x0 xp0 in
    let x1a := Z.min x1 xp1 in
    let tmp := chunk_tmp path x0 x1 zyx_sz zyx0 cid tile_step zstep
                         zid yid zp0 yp0 z0a z1a y0a y1a xid in
    '(tmp, mid, log) ←
      (if acc_id then
         '(tmp, mid) ← accumulate_ids chunk_cast mid tmp;
         Returns (tmp, mid, log ++ [PrintMid mid])
       else Returns (tmp, mid, log));
    result ←
      (if to_images
       then assign_block cast result (None, Some (z1a - z0a))
              (Some (y0a - y0), Some (y1a - y0))
              (Some (x0a - x0), Some (x1a - x0)) tmp
       else if to_h5
       then h5_assign_block cast result (Some (z0a - z0), Some (z1a - z0))
              (Some (y0a - y0), Some (y1a - y0))
              (Some (x0a - x0), Some (x1a - x0)) tmp
       else assign_block cast result (Some (z0a - z0), Some (z1a - z0))
              (Some (y0a - y0), Some (y1a - y0))
              (Some (x0a - x0), Some (x1a - x0)) tmp);
    Returns (result, mid, log)
  else Returns st.

(** The end of the body of the loop over z-blocks (lines 265-272): the
    mask, then the per-slice images. *)
Definition z_block_finish (cast mask_cast : Z -> Z) (z0 : Z)
    (output_file : option string) (mask : option ndarray)
    (z0a z1a : Z) (st : h5_state) : outcome h5_state :=
  let to_h5 :=
    match output_file with
    | None => false
    | Some f => str_in ".h5" f
    end in
  let to_images :=
    match output_file with
    | None => false
    | Some f => negb (str_in ".h5" f)
    end in
  let '(result, mid, log) := st in
  result ←
    match mask with
    | Some m =>
        if to_images
        then apply_mask cast result (None, Some (z1a - z0a)) m
                        (z0a - z0) (z1a - z0)
        else if to_h5
        then h5_apply_mask cast mask_cast result
                           (Some (z0a - z0), Some (z1a - z0)) m
                           (z0a - z0) (z1a - z0)
        else apply_mask cast result (Some (z0a - z0), Some (z1a - z0)) m
                        (z0a - z0) (z1a - z0)
    | None => Returns result
    end;
  match output_file with
  | Some f =>
      if to_images then
        log ← for_each (range z0a z1a)
                (fun log z =>
                   k ← py_index (nth 0 (shape result) 0%nat) (z - z0a);
                   Returns (log ++ [WriteImage (percent_format1 f z)
                                               (axis_slice result 0 k)]))
                log;
        Returns (result, mid, log)
      else Returns (result, mid, log)
  | None => Returns (result, mid, log)
  end.

(** The body of the loop over z-blocks (lines 202-272). *)
Definition read_z_block (cast mask_cast chunk_cast : Z -> Z)
    (h5_name : Z -> Z -> Z -> string)
    (z0 z1 y0 y1 x0 x1 : Z) (zyx_sz zyx0 : Z * Z * Z) (cid : Z)
    (zz : Z * Z * Z) (tile_step : Z * Z) (zstep : Z) (acc_id : bool)
    (output_file : option string) (mask : option ndarray)
    (r0 r1 c0 c1 : Z) (st : h5_state) (zid : Z) : outcome h5_state :=
  let to_h5 :=
    match output_file with
    | None => false
    | Some f => str_in ".h5" f
    end in
  let to_images :=
    match output_file with
    | None => false
    | Some f => negb (str_in ".h5" f)
    end in
  let '(zp0, zp1) := z_block_extent (fst (fst zyx_sz)) (fst (fst zyx0)) zz zid in
  let z0a := Z.max z0 zp0 in
  let z1a := Z.min z1 zp1 in
  st ← for_each (range r0 r1)
         (fun st yid =>
            let yp0 := yid * snd (fst zyx_sz) + snd (fst zyx0) in
            let yp1 := (yid + 1) * snd (fst zyx_sz) + snd (fst zyx0) in
            let y0a := Z.max y0 yp0 in
            let y1a := Z.min y1 yp1 in
            for_each (range c0 c1)
              (read_chunk cast chunk_cast h5_name z0 y0 x0 x1 zyx_sz zyx0 cid
                          tile_step zstep acc_id to_h5 to_images
                          zid yid zp0 yp0 z0a z1a y0a y1a)
              st)
         st;
  z_block_finish cast mask_cast z0 output_file mask z0a z1a st.

(** [read_chunk] for the chunk [(zid, yid, xid)], with the extents the
    two outer loops hand it. *)
Definition read_chunk_at (cast chunk_cast : Z -> Z)
    (h5_name : Z -> Z -> Z -> string)
    (z0 z1 y0 y1 x0 x1 : Z) (zyx_sz zyx0 : Z * Z * Z) (cid : Z)
    (zz : Z * Z * Z) (tile_step : Z * Z) (zstep : Z) (acc_id : bool)
    (to_h5 to_images : bool)
    (st : h5_state) (c : Z * Z * Z) : outcome h5_state :=
  let '(zid, yid, xid) := c in
  let '(zp0, zp1) := z_block_extent (fst (fst zyx_sz)) (fst (fst zyx0)) zz zid in
  let yp0 := yid * snd (fst zyx_sz) + snd (fst zyx0) in
  let yp1 := (yid + 1) * snd (fst zyx_sz) + snd (fst zyx0) in
  read_chunk cast chunk_cast h5_name z0 y0 x0 x1 zyx_sz zyx0 cid
             tile_step zstep acc_id to_h5 to_images
             zid yid zp0 yp0 (Z.max z0 zp0) (Z.min z1 zp1)
             (Z.max y0 yp0) (Z.min y1 yp1) st xid.

(** The end of the body of the loop over z-blocks for block [zid]. *)
Definition z_block_finish_at (cast mask_cast : Z -> Z) (z0 z1 : Z)
    (zyx_sz zyx0 : Z * Z * Z) (zz : Z * Z * Z)
    (output_file : option string) (mask : option ndarray)
    (st : h5_state) (zid : Z) : outcome h5_state :=
  let '(zp0, zp1) := z_block_extent (fst (fst zyx_sz)) (fst (fst zyx0)) zz zid in
  z_block_finish cast mask_cast z0 output_file mask
                 (Z.max z0 zp0) (Z.min z1 zp1) st.

(** The three loops as one sequence of steps: a chunk to read ([inl]),
    or the end of the body of a z-block ([inr]). *)
Definition run_step (cast mask_cast chunk_cast : Z -> Z)
    (h5_name : Z -> Z -> Z -> string)
    (z0 z1 y0 y1 x0 x1 : Z) (zyx_sz zyx0 : Z * Z * Z) (cid : Z)
    (zz : Z * Z * Z) (tile_step : Z * Z) (zstep : Z) (acc_id : bool)
    (output_file : option string) (mask : option ndarray)
    (st : h5_state) (s : Z * Z * Z + Z) : outcome h5_state :=
  let to_h5 :=
    match output_file with
    | None => false
    | Some f => str_in ".h5" f
    end in
  let to_images :=
    match output_file with
    | None => false
    | Some f => negb (str_in ".h5" f)
    end in
  match s with
  | inl c =>
      read_chunk_at cast chunk_cast h5_name z0 z1 y0 y1 x0 x1 zyx_sz zyx0 cid
                    zz tile_step zstep acc_id to_h5 to_images st c
  | inr zid =>
      z_block_finish_at cast mask_cast z0 z1 zyx_sz zyx0 zz output_file mask
                        st zid
  end.

(** The block read for chunk [c], if its file exists. *)
Definition chunk_block (h5_name : Z -> Z -> Z -> string)
    (z0 z1 y0 y1 x0 x1 : Z) (zyx_sz zyx0 : Z * Z * Z) (cid : Z)
    (zz : Z * Z * Z) (tile_step : Z * Z) (zstep : Z) (c : Z * Z * Z)
  : option ndarray :=
  let '(zid, yid, xid) := c in
  let '(zp0, zp1) := z_block_extent (fst (fst zyx_sz)) (fst (fst zyx0)) zz zid in
  let yp0 := yid * snd (fst zyx_sz) + snd (fst zyx0) in
  let yp1 := (yid + 1) * snd (fst zyx_sz) + snd (fst zyx0) in
  if path_exists (h5_name zid yid xid) then
    Some (chunk_tmp (h5_name zid yid xid) x0 x1 zyx_sz zyx0 cid tile_step zstep
                    zid yid zp0 yp0 (Z.max z0 zp0) (Z.min z1 zp1)
                    (Z.max y0 yp0) (Z.min y1 yp1) xid)
  else None.

(** Lines 169-272: the destination is created and the blocks are read.
    [dt_cast] is the conversion of numpy into [dt] and [dt_clip] that of
    HDF5; for the tile type "image" [dt] is [np.uint8].  A dataset that
    h5py creates is filled with zeros; opening the output file is taken
    to succeed. *)
Definition read_tile_h5_blocks (dt_cast dt_clip mask_cast chunk_cast : Z -> Z)
    (h5_name : Z -> Z -> Z -> string)
    (z0 z1 y0 y1 x0 x1 : Z) (zyx_sz zyx0 : Z * Z * Z) (cid : Z)
    (zz : Z * Z * Z) (tile_step : Z * Z) (zstep : Z) (acc_id : bool)
    (output_file : option string) (output_chunk : Z) (tile_type : string)
    (mask : option ndarray) : outcome h5_state :=
  let to_h5 :=
    match output_file with
    | None => false
    | Some f => str_in ".h5" f
    end in
  let cast :=
    if to_h5
    then (if String.eqb tile_type "image" then clip_uint8 else dt_clip)
    else (if String.eqb tile_type "image" then cast_uint8 else dt_cast) in
  result ←
    match output_file with
    | None => np_zeros [z1 - z0; y1 - y0; x1 - x0]
    | Some f =>
        if str_in ".h5" f then
          let num_z := fst (fst zyx_sz) in
          if num_z =? 0 then Raises ZeroDivisionError
          else
            chunk_sz ← get_h5_chunk2d output_chunk num_z
                         (snd (fst zyx_sz), snd zyx_sz);
            _ ← h5_create_dataset [z1 - z0; y1 - y0; x1 - x0]
                                  [num_z; fst chunk_sz; snd chunk_sz];
            Returns (tabulate (map Z.to_nat [z1 - z0; y1 - y0; x1 - x0])
                              (fun _ => 0))
        else np_zeros [fst (fst zyx_sz) + Z.max (fst (fst zz)) (snd (fst zz));
                       y1 - y0; x1 - x0]
    end;
  c0 ← py_floordiv (Z.max 0 (x0 - snd zyx0)) (snd zyx_sz);
  c1 ← py_floordiv (x1 - snd zyx0 + snd zyx_sz - 1) (snd zyx_sz);
  r0 ← py_floordiv (Z.max 0 (y0 - snd (fst zyx0))) (snd (fst zyx_sz));
  r1 ← py_floordiv (y1 - snd (fst zyx0) + snd (fst zyx_sz) - 1)
                   (snd (fst zyx_sz));
  '(d0, d1) ← z_block_range z0 z1 (fst (fst zyx_sz)) (fst (fst zyx0)) zz;
  for_each (range d0 d1)
    (read_z_block cast mask_cast chunk_cast h5_name z0 z1 y0 y1 x0 x1
                  zyx_sz zyx0 cid zz tile_step zstep acc_id output_file mask
                  r0 r1 c0 c1)
    (result, 0, []).

(** [read_tile_h5_by_bbox]: after the blocks, line 273 evaluates
    ['.h5' in output_file], which raises [TypeError] when [output_file] is
    [None].  For a dataset the value returned is what the dataset
    holds. *)
Definition read_tile_h5_by_bbox (dt_cast dt_clip mask_cast chunk_cast : Z -> Z)
    (h5_name : Z -> Z -> Z -> string)
    (z0 z1 y0 y1 x0 x1 : Z) (zyx_sz zyx0 : Z * Z * Z) (cid : Z)
    (zz : Z * Z * Z) (tile_step : Z * Z) (zstep : Z) (acc_id : bool)
    (output_file : option string) (output_chunk : Z) (tile_type : string)
    (mask : option ndarray) : outcome (ndarray * list event) :=
  '(result, mid, log) ←
    read_tile_h5_blocks dt_cast dt_clip mask_cast chunk_cast h5_name
      z0 z1 y0 y1 x0 x1
      zyx_sz zyx0 cid zz tile_step zstep acc_id output_file output_chunk
      tile_type mask;
  match output_file with
  | None => Raises TypeError
  | Some f => Returns (result, log)
  end.

(** The chunks in the order the three loops visit them. *)
Definition chunk_order (d0 d1 r0 r1 c0 c1 : Z) : list (Z * Z * Z) :=
  flat_map (fun zid =>
    flat_map (fun yid => map (fun xid => (zid, yid, xid)) (range c0 c1))
             (range r0 r1))
    (range d0 d1).

(** The steps of the three loops, in order. *)
Definition chunk_steps (d0 d1 r0 r1 c0 c1 : Z) : list (Z * Z * Z + Z) :=
  flat_map (fun zid =>
    map inl (flat_map (fun yid => map (fun xid => (zid, yid, xid))
                                      (range c0 c1))
                      (range r0 r1))
    ++ [inr zid])
    (range d0 d1).

Definition chunks_of (steps : list (Z * Z * Z + Z)) : list (Z * Z * Z) :=
  omap (fun s => match s with inl c => Some c | inr _ => None end) steps.

(** The chunks that a call visits (lines 190-198), in the order of the
    loops, when no extent of [zyx_sz] is 0. *)
Definition chunks_read (z0 z1 y0 y1 x0 x1 : Z) (zyx_sz zyx0 : Z * Z * Z)
    (zz : Z * Z * Z) : list (Z * Z * Z) :=
  let c0 := Z.max 0 (x0 - snd zyx0) / snd zyx_sz in
  let c1 := (x1 - snd zyx0 + snd zyx_sz - 1) / snd zyx_sz in
  let r0 := Z.max 0 (y0 - snd (fst zyx0)) / snd (fst zyx_sz) in
  let r1 := (y1 - snd (fst zyx0) + snd (fst zyx_sz) - 1) / snd (fst zyx_sz) in
  let d0 := Z.max 0 (z0 - fst (fst zyx0) - fst (fst zz)) / fst (fst zyx_sz) in
  let d1 := (z1 - fst (fst zyx0) - fst (fst zz) + fst (fst zyx_sz) - 1)
            / fst (fst zyx_sz) in
  let d1 := if 0 <? snd zz then Z.min (snd zz) d1 else d1 in
  chunk_order d0 d1 r0 r1 c0 c1.
End ChunkedAssembler.

Definition cast_uint16 (v : Z) : Z := v mod 2 ^ 16.
Definition clip_uint16 (v : Z) : Z := Z.max 0 (Z.min 65535 v).

(** Chunk indices compared first by z, then by row, then by column. *)
Definition chunk_lt (a b : Z * Z * Z) : Prop :=
  let '(az, ay, ax) := a in
  let '(bz, by_, bx) := b in
  az < bz \/ (az = bz /\ (ay < by_ \/ (ay = by_ /\ ax < bx))).

(** A block whose positive entries are offset by [m]. *)
Definition offset_block (chunk_cast : Z -> Z) (m : Z) (tmp : ndarray)
  : ndarray :=
  {| shape := shape tmp;
     data := map (fun v => if 0 <? v then chunk_cast (v + m) else v)
                 (data tmp) |}.

(** The sum of the local maxima of a list of blocks. *)
Definition local_max_sum (blocks : list ndarray) : Z :=
  fold_right (fun b s => max_of (data b) + s) 0 blocks.

(** [chunk_lt] as a test. *)
Definition chunk_ltb (a b : Z * Z * Z) : bool :=
  let '(az, ay, ax) := a in
  let '(bz, by_, bx) := b in
  (az <? bz) || ((az =? bz) && ((ay <? by_) || ((ay =? by_) && (ax <? bx)))).

(** The running maximum when chunk [c] is read in a run over [chunks]:
    the sum of the local maxima of the blocks of the chunks before
    [c]. *)
Definition offset_before (block : Z * Z * Z -> option ndarray)
    (chunks : list (Z * Z * Z)) (c : Z * Z * Z) : Z :=
  local_max_sum (omap block (List.filter (fun c' => chunk_ltb c' c) chunks)).

(** A reader that hands out every block with its positive entries offset
    by [offset c], [c] being the chunk it is read from. *)
Definition offset_read (chunk_cast : Z -> Z) (offset : Z * Z * Z -> Z)
    (h5_read : string -> Z * Z * Z -> list sel -> ndarray)
  : string -> Z * Z * Z -> list sel -> ndarray :=
  fun path c s => offset_block chunk_cast (offset c) (h5_read path c s).

(** The running maximum after each block of a list, from [mid] on. *)
Fixpoint running_maxima (mid : Z) (blocks : list ndarray) : list Z :=
  match blocks with
  | [] => []
  | b :: rest =>
      (mid + max_of (data b)) :: running_maxima (mid + max_of (data b)) rest
  end.

(** The running maximum that a line of the log prints. *)
Definition printed_mid (e : event) : option Z :=
  match e with PrintMid m => Some m | _ => None end.

Definition is_print_mid (e : event) : bool :=
  match e with PrintMid _ => true | _ => false end.

(** Two runs agree up to [R]: both raise the same exception, or both
    return, with results that [R] relates. *)
Definition agree {S S'} (R : S -> S' -> Prop) (m : outcome S)
    (m' : outcome S') : Prop :=
  match m' with
  | Returns s' => exists s, m = Returns s /\ R s s'
  | Raises e => m = Raises e
  end.

(** The state [s] of a run with id accumulation and the state [s'] of a
    run without, after the chunks [P]: the same destination, the running
    maximum of the blocks of [P] against 0, and the same log once the
    running maxima are taken out, which are those of the blocks of
    [P]. *)
Definition accumulated (block : Z * Z * Z -> option ndarray)
    (P : list (Z * Z * Z)) (s s' : ndarray * Z * list event) : Prop :=
  fst (fst s) = fst (fst s') /\
  snd (fst s) = local_max_sum (omap block P) /\
  snd (fst s') = 0 /\
  List.filter (fun e => negb (is_print_mid e)) (snd s) = snd s' /\
  omap printed_mid (snd s) = running_maxima 0 (omap block P).

(** [create_dataset] accepting the chunk shapes that lie within the
    shape, and a [get_h5_chunk2d] that answers the size of a chunk. *)
Definition example_create_dataset (dims chunks : list Z) : outcome unit :=
  if forallb (fun dc => (0 <? snd dc) && (snd dc <=? fst dc))
             (combine dims chunks)
  then Returns tt else Raises ValueError.

Definition example_chunk2d (output_chunk num_z : Z) (sz : Z * Z)
  : outcome (Z * Z) :=
  Returns sz.

(** ** Small stores on which the assemblers are run *)

(** Three one-pixel tiles, one per z: the files "a", "b" and any other
    name hold the values 1, 2 and 9. *)
Definition example_image (name : string) : ndarray :=
  if String.eqb name "a" then {| shape := [1; 1]%nat; data := [1] |}
  else if String.eqb name "b" then {| shape := [1; 1]%nat; data := [2] |}
  else {| shape := [1; 1]%nat; data := [9] |}.

(** A formatter for patterns that hold no marker, and a padder that is
    never called. *)
Definition keep_pattern (pattern : string) (row column : Z) : string := pattern.
Definition no_pad (a : ndarray) (pads : list (Z * Z)) (mode : string) : ndarray := a.

(** Two chunk files along x, each holding the local labels 1 and 2. *)
Definition example_chunk_name (zid yid xid : Z) : string :=
  if xid =? 0 then "c0" else "c1".

Definition example_chunk (path : string) (ids : Z * Z * Z) (s : list sel)
  : ndarray :=
  {| shape := [1; 1; 2]%nat; data := [1; 2] |}.

Definition example_image_name (output_file : string) (z : Z) : string :=
  output_file.


(** ** Neuron names and ids ([data/neuron_mask.py], lines 7-21) *)

(** What a function that reads the dictionary of neuron ids gives: a
    value, [KeyError] with the missing key, or another exception. *)
Inductive lookup (A : Type) :=
| Found (a : A)
| KeyError (key : string)
| Fails (e : exn).
Arguments Found {A} a.
Arguments KeyError {A} key.
Arguments Fails {A} e.

(** A dictionary from names to ids, in the order of its entries; the keys
    of a dictionary are distinct.  [dict_get d key] is [d[key]]. *)
Definition dict_get (d : list (string * Z)) (key : string) : option Z :=
  snd <$> List.find (fun kv => String.eqb (fst kv) key) d.

(** [[dict[x] for x in name]], read from left to right. *)
Fixpoint dict_get_all (d : list (string * Z)) (name : list string)
  : lookup (list Z) :=
  match name with
  | [] => Found []
  | x :: name' =>
      match dict_get d x with
      | None => KeyError x
      | Some v =>
          match dict_get_all d name' with
          | Found vs => Found (v :: vs)
          | KeyError k => KeyError k
          | Fails e => Fails e
          end
      end
  end.

(** The argument [name] of [neuron_name_to_id]: one string or a list. *)
Inductive names :=
| OneName (s : string)
| Names (l : list string).

Section NeuronNames.
(** The collaborators outside the functions: the dictionary a yml file
    holds, and Python's [str.isnumeric] and [int]. *)
Variable read_yml : string -> list (string * Z).
Variable isnumeric : string -> bool.
Variable py_int : string -> outcome Z.

(** [neuron_to_id_name(conf, neuron)], with [mask_id = conf['mask_id']]:
    the first element of the list of the names whose id is [neuron_id]
    does not exist when the list is empty. *)
Definition neuron_to_id_name (mask_id : string) (neuron : string)
  : lookup (Z * string) :=
  let dict := read_yml mask_id in
  if isnumeric neuron then
    match py_int neuron with
    | Raises e => Fails e
    | Returns neuron_id =>
        match List.filter (fun x => bool_decide (dict_get dict x = Some neuron_id))
                          (map fst dict) with
        | neuron_name :: _ => Found (neuron_id, neuron_name)
        | [] => Fails IndexError
        end
    end
  else
    match dict_get dict neuron with
    | Some neuron_id => Found (neuron_id, neuron)
    | None => KeyError neuron
    end.

(** [neuron_name_to_id(conf, name)] *)
Definition neuron_name_to_id (mask_id : string) (name : names)
  : lookup (list Z) :=
  let dict := read_yml mask_id in
  let name := match name with OneName s => [s] | Names l => l end in
  dict_get_all dict name.
End NeuronNames.

(** A dictionary of three neurons, and the two builtins on the strings
    used with it. *)
Definition example_ids (mask_id : string) : list (string * Z) :=
  [("KC", 11); ("PN", 5); ("APL", 62)].

Definition example_isnumeric (s : string) : bool := String.eqb s "5".

Definition example_int (s : string) : outcome Z :=
  if String.eqb s "5" then Returns 5 else Raises ValueError.



(** ** What the loops of the tiled assembler write *)

(** The entries of an array after the elements of [xs] have written into
    it in turn: [W x p] is what [x] writes at position [p], if it writes
    there, and [f0] gives the entries before the loop. *)
Definition written {X} (W : X -> list nat -> option Z) (xs : list X)
    (f0 : list nat -> Z) : list nat -> Z :=
  fold_left (fun f x p => match W x p with Some v => v | None => f p end)
            xs f0.

Section TilePixels.
Variable percent_format : string -> Z -> Z -> string.
Variable brace_format : string -> Z -> Z -> string.
Variable path_exists : string -> bool.
Variable patch_of : string -> ndarray.
Variable cast : Z -> Z.
Variables tile_sz tile_st : Z * Z.
Variables y0 x0 : Z.

(** The tile that covers the pixel at offset [(y, x)] of the request. *)
Definition tile_of (y x : nat) : Z * Z :=
  ((y0 + Z.of_nat y) / fst tile_sz, (x0 + Z.of_nat x) / snd tile_sz).

(** The pixel of the tile grid that lands at offset [(y, x)] of the
    request, read from the tiles named by [pattern] and stored with
    [cast]; [None] when the file of the covering tile does not exist.
    [patch_of] gives the patch of a tile file. *)
Definition tile_pixel (pattern : string) (y x : nat) : option Z :=
  let '(row, column) := tile_of y x in
  let filename :=
    get_tile_name percent_format brace_format pattern
                  (row + fst tile_st) (column + snd tile_st) in
  if path_exists filename
  then Some (cast (item (patch_of filename)
                     [Z.to_nat (y0 + Z.of_nat y - row * fst tile_sz);
                      Z.to_nat (x0 + Z.of_nat x - column * snd tile_sz)]))
  else None.
End TilePixels.

(** A grid of 2x2 tiles named after their row and column; the file of
    tile (1, 1) is missing. *)
Definition example_tile_name (pattern : string) (row column : Z) : string :=
  pattern +:+ (if row =? 0 then "r0" else "r1")
          +:+ (if column =? 0 then "c0" else "c1").

Definition example_tile_exists (name : string) : bool :=
  negb (String.eqb name "s%r1c1").

Definition example_tile (name : string) : ndarray :=
  if String.eqb name "s%r0c0"
  then {| shape := [2; 2]%nat; data := [1; 2; 3; 4] |}
  else if String.eqb name "s%r0c1"
  then {| shape := [2; 2]%nat; data := [5; 6; 7; 8] |}
  else {| shape := [2; 2]%nat; data := [9; 10; 11; 12] |}.

(** ** Tight boxes of the labels of a map *)

(** The label [k] occurs in the map. *)
Definition present (seg : ndarray) (k : Z) : Prop :=
  exists p, Forall2 lt p (shape seg) /\ item seg p = k.

(** [box] is the tight box of the label [k]: per axis, the least and the
    greatest coordinate over the positions that hold [k]. *)
Definition label_box (seg : ndarray) (k : Z) (box : list Z) : Prop :=
  length box = (2 * ndim seg)%nat /\
  forall a, (a < ndim seg)%nat ->
    axis_minimum (label_eq seg k) a (nth (2 * a) box 0) /\
    axis_maximum (label_eq seg k) a (nth (2 * a + 1) box 0).

(** The slices of axis [a] in which the label [i] is seen by the loop "for
    each slice": the slice holds a positive label, and [i] is one of the
    labels kept in [sid]. *)
Definition label_hits (seg : ndarray) (uid_max : Z) (a : nat) (i : nat)
  : list nat :=
  List.filter
    (fun j => bool_decide (Z.of_nat i ∈ slice_ids (axis_slice seg a j) uid_max))
    (axis_hits seg a).

(** What one pass of the loop does to a row whose running minimum sits in
    column [c]. *)
Definition tighten_row (cast : Z -> Z) (c : nat) (r : list Z) (j : nat)
  : list Z :=
  alter (fun v => cast (Z.max v (Z.of_nat j))) (S c)
        (alter (fun v => cast (Z.min v (Z.of_nat j))) c r).

(** The row of label [i] in the working table once the loops over the
    axes are done: the label, then per axis the running minimum, started
    at the extent of the axis, and the running maximum, started at
    [hi0]. *)
Definition box_row (seg : ndarray) (uid_max : Z) (hi0 : Z) (i : nat)
  : list Z :=
  Z.of_nat i ::
  flat_map
    (fun a =>
       [fold_left Z.min (map Z.of_nat (label_hits seg uid_max a i))
                  (Z.of_nat (nth a (shape seg) 0%nat));
        fold_left Z.max (map Z.of_nat (label_hits seg uid_max a i)) hi0])
    (seq 0 (ndim seg)).

(** The number of entries of the map that hold [k]. *)
Definition label_count (seg : ndarray) (k : Z) : Z :=
  Z.of_nat (count_foreground (label_eq seg k)).

(** The labels up to [uid_max] that occur in the map, ascending. *)
Definition labels_upto (seg : ndarray) (uid_max : Z) : list nat :=
  List.filter
    (fun i => bool_decide (0 < Z.of_nat i /\ Z.of_nat i ∈ data seg))
    (seq 0 (Z.to_nat (1 + uid_max))).

(** The label map of the specification's example,
    [[0,1,1],[0,1,0],[2,0,0]], and a 1 x 1 x 2 volume holding the labels
    1 and 3. *)
Definition example_labels : ndarray :=
  {| shape := [3; 3]%nat; data := [0;1;1; 0;1;0; 2;0;0] |}.

Definition example_volume : ndarray :=
  {| shape := [1; 1; 2]%nat; data := [1; 3] |}.


(** ** [merge_bbox_tile] with its files ([data/neuron_mask.py], lines 47-66) *)

(** [s[:-1]] of a string: all but the last character. *)
Definition drop_last (s : string) : string :=
  String.substring 0 (String.length s - 1) s.

(** What [np.loadtxt(fn).astype(int)] holds: a single number, the vector
    of a file of one row, or a matrix. *)
Inductive loaded :=
| Scalar (v : Z)
| Vec (v : list Z)
| Mat (m : matrix).

(** [out[:, 3::2] = out[:, 3::2] // ratio * ratio] and
    [out[:, 4::2] = (out[:, 4::2] + ratio - 1) // ratio * ratio - 1], row
    by row.  The integer division of numpy by 0 gives 0. *)
Definition round_down_columns (ratio : Z) (r : row) : row :=
  imap (fun c v => if (3 <=? c)%nat && Nat.even (c - 3)
                   then v / ratio * ratio else v) r.

Definition round_up_columns (ratio : Z) (r : row) : row :=
  imap (fun c v => if (4 <=? c)%nat && Nat.even (c - 4)
                   then (v + ratio - 1) / ratio * ratio - 1 else v) r.

Definition round_to_ratio (ratio : Z) (M : matrix) : matrix :=
  map (round_up_columns ratio) (map (round_down_columns ratio) M).

Section MergeTiles.
(** The collaborators outside the function: the lines of a text file
    (each with its line end), [os.path.join], [os.path.exists],
    [os.stat(fn).st_size] and the loader of a box file. *)
Variable read_txt : string -> list string.
Variable path_join : string -> string -> string.
Variable path_exists : string -> bool.
Variable st_size : string -> Z.
Variable loadtxt : string -> outcome loaded.

(** Lines 52-57 for one line [fn] of [out.txt]: the matrix to merge, if
    the box file of the tile exists, has more than one byte and holds at
    least one row.  [len] of a single number raises [TypeError]. *)
Definition load_tile (mask_bbox_folder : string) (fn : string)
  : outcome (option matrix) :=
  let fn_bbox := mask_bbox_folder +:+ "/" +:+ drop_last fn +:+ ".txt" in
  if path_exists fn_bbox && (1 <? st_size fn_bbox) then
    bbox ← loadtxt fn_bbox;
    match bbox with
    | Scalar _ => Raises TypeError
    | Vec v => if (0 <? length v)%nat then Returns (Some [v]) else Returns None
    | Mat m => if (0 <? length m)%nat then Returns (Some m) else Returns None
    end
  else Returns None.

(** The loop of lines 50-58: every usable matrix is copied and merged into
    the running table. *)
Definition merge_tile_files (mask_bbox_folder : string) (fns : list string)
    (h : heap) : outcome (option loc * heap) :=
  for_each fns
    (fun '(out, h) fn =>
       t ← load_tile mask_bbox_folder fn;
       match t with
       | Some bbox =>
           let '(lb, h1) := alloc bbox h in
           Returns (merge_bbox_two_matrices out (Some lb) h1)
       | None => Returns (out, h)
       end)
    (None, h).

(** [merge_bbox_tile(conf, ratio, do_return)].  The result is the value
    returned, the heap after the call and, without [do_return], the file
    name and the matrix handed to [np.savetxt]; [np.savetxt] of [None]
    raises [ValueError], and so does the subscript of [None] in the
    rounding. *)
Definition merge_bbox_tile_conf (mask_folder mask_bbox_folder : string)
    (ratio : Z) (do_return : bool) (h : heap)
  : outcome (option loc * heap * option (string * matrix)) :=
  let fns := read_txt (path_join mask_folder "out.txt") in
  '(out, h) ← merge_tile_files mask_bbox_folder fns h;
  '(out, h) ←
    (if negb (ratio =? 1) then
       match out with
       | None => Raises TypeError
       | Some l => Returns (out, <[l := round_to_ratio ratio (h !!! l)]> h)
       end
     else Returns (out, h));
  if do_return then Returns (out, h, None)
  else
    match out with
    | None => Raises ValueError
    | Some l =>
        Returns (None, h,
                 Some (drop_last mask_bbox_folder +:+ "_init.txt", h !!! l))
    end.
End MergeTiles.

(** A folder of box files on which [merge_bbox_tile] is run: [out.txt]
    lists four tiles; the box file of [t0] holds one row, that of [t1] two
    rows, that of [t2] a single byte, and [t3] has no box file. *)
Definition newline : string :=
  String (Ascii.Ascii false true false true false false false false)
         EmptyString.

Definition example_out_txt (name : string) : list string :=
  ["t0" +:+ newline; "t3" +:+ newline; "t2" +:+ newline; "t1" +:+ newline].

Definition example_join (folder name : string) : string :=
  folder +:+ "/" +:+ name.

Definition example_box_exists (name : string) : bool :=
  negb (String.eqb name "box/t3.txt").

Definition example_box_size (name : string) : Z :=
  if String.eqb name "box/t2.txt" then 1 else 20.

Definition example_loadtxt (name : string) : outcome loaded :=
  if String.eqb name "box/t0.txt" then Returns (Vec [1; 0; 0; 0; 5; 0; 5])
  else Returns (Mat [[1; 0; 0; 2; 8; 2; 9]; [2; 0; 0; 1; 1; 1; 1]]).


(** ** The box and the mask of one neuron ([data/neuron_mask.py],
    lines 99-135) *)

(** [v[::2]]; [v[1::2]] is [every_other (tl v)]. *)
Fixpoint every_other (v : list Z) : list Z :=
  match v with
  | [] => []
  | x :: v' => x :: match v' with [] => [] | _ :: v'' => every_other v'' end
  end.

(** [l * v] for a Python list [l] and a vector [v] of numpy: a vector of
    one entry is stretched, and any other vector must have the length of
    the list. *)
Definition times_list (l v : list Z) : outcome (list Z) :=
  match v with
  | [a] => Returns (map (fun k => k * a) l)
  | _ => if Nat.eqb (length v) (length l) then Returns (zip_with Z.mul l v)
         else Raises ValueError
  end.

(** The line [neuron_id_to_bbox] prints: the id, the name,
    [bb[::2][::-1]], [[2,2,1]*bb[::2][::-1]] and
    [[2,2,1]*bb[1::2][::-1]+[1,1,0]]. *)
Record bbox_line := {
  line_id : Z;
  line_name : string;
  line_min : list Z;
  line_from : list Z;
  line_to : list Z
}.

(** [bb[a:b] = bb[a:b] // r] on a vector of numpy integers, whose
    division by 0 gives 0. *)
Definition floordiv_slice (a b : nat) (r : Z) (bb : list Z) : list Z :=
  imap (fun k v => if (a <=? k)%nat && (k <? b)%nat then v / r else v) bb.

Section NeuronMask.
(** The collaborators outside the functions: the loader of the box file,
    the relabel table of the meta file, [str.format] with one argument,
    and those of the tiled assembler. *)
Variable loadtxt : string -> outcome loaded.
Variable vast_meta_relabel : string -> list Z.
Variable format1 : string -> Z -> string.
Variable percent_format : string -> Z -> Z -> string.
Variable brace_format : string -> Z -> Z -> string.
Variable path_exists : string -> bool.
Variable read_image : string -> ndarray.
Variable np_pad : ndarray -> list (Z * Z) -> string -> ndarray.

(** [neuron_id_to_bbox(conf, neuron_id, neuron_name)], with the value
    returned and the line printed.  [bbox[:, 0]] needs a matrix: the
    vector of a file of one row raises [IndexError], and so does the
    first element of an empty selection. *)
Definition neuron_id_to_bbox (mask_bbox_folder : string) (neuron_id : Z)
    (neuron_name : string) : outcome (list Z * bbox_line) :=
  bbox ← loadtxt (drop_last mask_bbox_folder +:+ ".txt");
  match bbox with
  | Scalar _ => Raises IndexError
  | Vec _ => Raises IndexError
  | Mat m =>
      match mask_select (map (fun v => v =? neuron_id) (col0 m))
                        (map (fun r => take 6 (tl r)) m) with
      | [] => Raises IndexError
      | bb :: _ =>
          lo ← times_list [2; 2; 1] (rev (every_other bb));
          hi ← times_list [2; 2; 1] (rev (every_other (tl bb)));
          Returns (bb, {| line_id := neuron_id;
                          line_name := neuron_name;
                          line_min := rev (every_other bb);
                          line_from := lo;
                          line_to := zip_with Z.add hi [1; 1; 0] |})
      end
  end.

(** Lines 127-131: the table that sends the labels of the neuron to 1 and
    every other label to 0.  The table of the meta file is stored as
    [np.uint8] before it is compared with the id. *)
Definition neuron_relabel (mask_meta : string) (neuron_id : Z) : list Z :=
  map (fun v => if cast_uint8 v =? neuron_id then 1 else 0)
      (vast_meta_relabel mask_meta).

(** [neuron_id_to_neuron(conf, neuron_id, ratio)] with the in-memory
    destination ([output_file = None]), with the volume returned, the
    line printed by [neuron_id_to_bbox] and what the assembler prints.
    The sizes of the tiles are divided as Python integers.  The corners
    of the box are numpy integers, so a division by 0 inside the
    assembler gives 0 where the division of Python raises: with a [zstep]
    of 0 the range over z raises [ValueError], and with a tile size of 0
    the ranges of rows or columns are empty and no tile is read. *)
Definition neuron_id_to_neuron (mask_folder mask_template mask_meta
    mask_bbox_folder : string) (mask_size0 : Z) (neuron_id : Z)
    (ratio : Z * Z * Z) : outcome (ndarray * bbox_line * list event) :=
  let '(ratio0, ratio1, ratio2) := ratio in
  '(bb, line) ← neuron_id_to_bbox mask_bbox_folder neuron_id "";
  let filenames := map (fun z => mask_folder +:+ format1 mask_template z)
                       (range 0 mask_size0) in
  tile_sz0 ← py_floordiv 8192 ratio1;
  tile_sz1 ← py_floordiv 8192 ratio2;
  let bb := floordiv_slice 0 2 ratio0 bb in
  let bb := floordiv_slice 2 4 ratio1 bb in
  let bb := floordiv_slice 4 (length bb) ratio2 bb in
  let rl := neuron_relabel mask_meta neuron_id in
  match bb with
  | [b0; b1; b2; b3; b4; b5] =>
      if ratio0 =? 0 then Raises ValueError
      else if (tile_sz0 =? 0) || (tile_sz1 =? 0) then
        result ← np_zeros [(b1 + 1 - b0 + ratio0 - 1) / ratio0;
                           b3 + 1 - b2; b5 + 1 - b4];
        zs ← py_range b0 (Z.min (Z.of_nat (length filenames) - 1) (b1 + 1))
                      ratio0;
        _ ← for_each zs (fun _ z => _ ← py_index (length filenames) z;
                                    Returns tt) tt;
        Returns (result, line, [])
      else
        '(out, log) ← read_tile_image_by_bbox percent_format brace_format
                        path_exists read_image np_pad cast_uint8 filenames
                        b0 (b1 + 1) b2 (b3 + 1) b4 (b5 + 1)
                        (tile_sz0, tile_sz1) (0, 0) "reflect" "" None ratio0
                        (Some rl);
        Returns (out, line, log)
  | _ => Raises IndexError
  end.
End NeuronMask.

(** The box file of two neurons, whose boxes are given at full
    resolution, and a table of the labels 0 to 12 in which the labels 4
    and 7 belong to neuron 44: label 4 is neuron 300, stored as 44. *)
Definition example_bbox_file (name : string) : outcome loaded :=
  Returns (Mat [[7; 0; 0; 0; 4095; 0; 4095];
                [44; 0; 0; 4096; 12288; 4096; 12288]]).

Definition example_meta (name : string) : list Z :=
  [0; 7; 7; 7; 300; 7; 7; 44; 7; 7; 7; 7; 7].


(** ** What the chunked assembler writes ([data/util/tile.py],
    lines 191-258) *)

Section ChunkVoxels.
Variable path_exists : string -> bool.
Variable h5_rank : string -> Z * Z * Z -> nat.
Variable h5_read : string -> Z * Z * Z -> list sel -> ndarray.
Variable h5_name : Z -> Z -> Z -> string.
Variable cast : Z -> Z.
Variables z0 z1 y0 y1 x0 x1 : Z.
Variables zyx_sz zyx0 : Z * Z * Z.
Variable cid : Z.
Variable zz : Z * Z * Z.
Variable tile_step : Z * Z.
Variable zstep : Z.

(** The chunk that covers the voxel at offset [(z, y, x)] of the request,
    for chunks without extra slices. *)
Definition chunk_of (z y x : nat) : Z * Z * Z :=
  ((z0 + Z.of_nat z - fst (fst zyx0)) / fst (fst zyx_sz),
   (y0 + Z.of_nat y - snd (fst zyx0)) / snd (fst zyx_sz),
   (x0 + Z.of_nat x - snd zyx0) / snd zyx_sz).

(** The lower corner [(z0a, y0a, x0a)] and the shape
    [(z1a - z0a, y1a - y0a, x1a - x0a)] of the part of chunk [c] that lies
    in the request (lines 202-232, without extra slices). *)
Definition chunk_corner (c : Z * Z * Z) : Z * Z * Z :=
  let '(zid, yid, xid) := c in
  (Z.max z0 (zid * fst (fst zyx_sz) + fst (fst zyx0)),
   Z.max y0 (yid * snd (fst zyx_sz) + snd (fst zyx0)),
   Z.max x0 (xid * snd zyx_sz + snd zyx0)).

Definition chunk_part_shape (c : Z * Z * Z) : list nat :=
  let '(zid, yid, xid) := c in
  let '(z0a, y0a, x0a) := chunk_corner c in
  [Z.to_nat (Z.min z1 ((zid + 1) * fst (fst zyx_sz) + fst (fst zyx0)) - z0a);
   Z.to_nat (Z.min y1 ((yid + 1) * snd (fst zyx_sz) + snd (fst zyx0)) - y0a);
   Z.to_nat (Z.min x1 ((xid + 1) * snd zyx_sz + snd zyx0) - x0a)].

(** The voxel that lands at offset [(z, y, x)] of the request, read from
    the block of the covering chunk and stored with the conversion
    [cast] of the destination; [None] when the file of that chunk does
    not exist. *)
Definition chunk_voxel (z y x : nat) : option Z :=
  let c := chunk_of z y x in
  let '(z0a, y0a, x0a) := chunk_corner c in
  tmp ← chunk_block path_exists h5_rank h5_read h5_name z0 z1 y0 y1 x0 x1
          zyx_sz zyx0 cid zz tile_step zstep c;
  Some (cast (item tmp [Z.to_nat (z0 + Z.of_nat z - z0a);
                        Z.to_nat (y0 + Z.of_nat y - y0a);
                        Z.to_nat (x0 + Z.of_nat x - x0a)])).
End ChunkVoxels.

(** A chunk file that holds the values 1 and 300. *)
Definition example_bright_chunk (path : string) (ids : Z * Z * Z)
    (s : list sel) : ndarray :=
  {| shape := [1; 1; 2]%nat; data := [1; 300] |}.

(** * Part II: the properties *)
(** * Properties of the box-table merger *)

Section ListHelpers.
Context {A : Type}.

Lemma where_from_S (m : list bool) (k : nat) :
  where_from (S k) m = map S (where_from k m).
Proof.
  revert k. induction m as [|b m IH]; intros k; simpl; [done|].
  destruct b; simpl; by rewrite IH.
Qed.

Lemma np_where_cons (b : bool) (m : list bool) :
  np_where (b :: m) =
  (if b then [0%nat] else []) ++ map S (np_where m).
Proof.
  unfold np_where. simpl. rewrite where_from_S. by destruct b.
Qed.

Lemma np_where_select (m : list bool) (l : list A) (d : A) :
  (length m <= length l)%nat ->
  map (fun i => nth i l d) (np_where m) = mask_select m l.
Proof.
  revert l. induction m as [|b m IH]; intros l Hlen; [done|].
  destruct l as [|x l]; simpl in Hlen; [lia|].
  rewrite np_where_cons, map_app, map_map. simpl.
  rewrite IH by lia. by destruct b.
Qed.

Lemma fold_left_map_list {B C} (f : C -> B -> C) (g : A -> B)
    (l : list A) (c : C) :
  fold_left f (map g l) c = fold_left (fun c x => f c (g x)) l c.
Proof. revert c. induction l; intros c; simpl; auto. Qed.

Lemma mask_select_elem (m : list bool) (l : list A) (x : A) :
  x ∈ mask_select m l -> x ∈ l.
Proof.
  revert l. induction m as [|b m IH]; intros [|y l]; simpl;
    try (intros H; by inversion H).
  destruct b; rewrite ?elem_of_cons; [intros [->|H]|intros H]; auto.
Qed.

Lemma mask_select_map_elem (p : A -> bool) (l : list A) (x : A) :
  x ∈ mask_select (map p l) l <-> x ∈ l /\ p x = true.
Proof.
  induction l as [|y l IH]; simpl.
  - rewrite elem_of_nil. tauto.
  - destruct (p y) eqn:Hp; rewrite ?elem_of_cons, IH.
    + split; [intros [->|[? ?]]|intros [[->|?] ?]]; auto.
    + split; [intros [? ?]|intros [[->|?] ?]]; auto. congruence.
Qed.

Lemma mask_select_map {B} (f : A -> B) (m : list bool) (l : list A) :
  map f (mask_select m l) = mask_select m (map f l).
Proof.
  revert l. induction m as [|b m IH]; intros [|y l]; simpl; try done.
  destruct b; simpl; by rewrite IH.
Qed.

Lemma mask_select_NoDup (m : list bool) (l : list A) :
  NoDup l -> NoDup (mask_select m l).
Proof.
  revert l. induction m as [|b m IH]; intros [|y l] Hnd; simpl;
    try apply NoDup_nil_2.
  apply NoDup_cons in Hnd as [Hy Hnd]. destruct b; auto.
  apply NoDup_cons. split; auto.
  intros Hin. apply Hy. by eapply mask_select_elem.
Qed.
End ListHelpers.

Section MergeValue.
Implicit Types (A B L M : matrix) (ra rb r : row) (k : Z).

Lemma col0_elem M k : k ∈ col0 M <-> exists r, r ∈ M /\ hd 0 r = k.
Proof.
  unfold col0. rewrite list_elem_of_In, in_map_iff.
  split; intros (r & H1 & H2); exists r.
  - by rewrite list_elem_of_In.
  - by rewrite <- list_elem_of_In.
Qed.

Lemma in1d_as_row_mask A B :
  in1d (col0 A) (col0 B) = map (fun r => bool_decide (hd 0 r ∈ col0 B)) A.
Proof.
  unfold in1d. change (col0 A) with (map (fun r => hd 0 r) A).
  by rewrite map_map.
Qed.

Lemma id_mask_as_row_mask k M :
  map (Z.eqb k) (col0 M) = map (fun r => k =? hd 0 r) M.
Proof. unfold col0. by rewrite map_map. Qed.

Lemma col0_mask_assign_box (m : list bool) (v : list Z) M :
  col0 (mask_assign_box m v M) = col0 M.
Proof.
  revert M. induction m as [|b m IH]; intros [|r M]; simpl; try done.
  rewrite IH. by destruct b.
Qed.

Lemma mask_assign_box_map (p : row -> bool) (v : list Z) M :
  mask_assign_box (map p M) v M =
  map (fun r => if p r then hd 0 r :: v else r) M.
Proof. induction M as [|r M IH]; simpl; [done|]. by rewrite IH. Qed.

Lemma mask_select_absent k M :
  k ∉ col0 M -> mask_select (map (fun r => k =? hd 0 r) M) M = [].
Proof.
  induction M as [|r M IH]; simpl; [done|].
  rewrite not_elem_of_cons. intros [Hne Hnin].
  destruct (Z.eqb_spec k (hd 0 r)); [congruence|]. auto.
Qed.

Lemma mask_select_unique k M rb :
  NoDup (col0 M) -> rb ∈ M -> hd 0 rb = k ->
  mask_select (map (fun r => k =? hd 0 r) M) M = [rb].
Proof.
  induction M as [|r M IH]; simpl; [by rewrite elem_of_nil|].
  rewrite NoDup_cons, elem_of_cons. intros [Hr Hnd] [->|Hin] Hk.
  - rewrite <- Hk, Z.eqb_refl. f_equal. apply mask_select_absent.
    by rewrite Hk in *.
  - destruct (Z.eqb_spec k (hd 0 r)) as [Heq|Hne]; [|auto].
    exfalso. apply Hr. apply col0_elem. exists rb. split; [done|congruence].
Qed.

Lemma find_by_id L ra k :
  NoDup (col0 L) -> ra ∈ L -> hd 0 ra = k ->
  List.find (fun r => hd 0 r =? k) L = Some ra.
Proof.
  induction L as [|r L IH]; simpl; [by rewrite elem_of_nil|].
  rewrite NoDup_cons, elem_of_cons. intros [Hr Hnd] [->|Hin] Hk.
  - by rewrite Hk, Z.eqb_refl.
  - destruct (Z.eqb_spec (hd 0 r) k) as [Heq|Hne]; [|auto].
    exfalso. apply Hr. apply col0_elem. exists ra. split; [done|congruence].
Qed.

Lemma find_absent L k :
  k ∉ col0 L -> List.find (fun r => hd 0 r =? k) L = None.
Proof.
  induction L as [|r L IH]; simpl; [done|].
  rewrite not_elem_of_cons. intros [Hne Hnin].
  destruct (Z.eqb_spec (hd 0 r) k); [congruence|]. auto.
Qed.

Lemma merge_row_into_spec ra B :
  NoDup (col0 B) -> merge_row_into ra B = map (merged_row [ra]) B.
Proof.
  intros Hnd. unfold merge_row_into.
  rewrite id_mask_as_row_mask, mask_assign_box_map.
  apply map_ext_in. intros rb Hin%list_elem_of_In.
  unfold merged_row. simpl.
  rewrite (Z.eqb_sym (hd 0 ra) (hd 0 rb)).
  destruct (Z.eqb_spec (hd 0 rb) (hd 0 ra)) as [Heq|Hne]; [|done].
  by rewrite (mask_select_unique (hd 0 ra) B rb).
Qed.

Lemma col0_merge_row_into ra B : col0 (merge_row_into ra B) = col0 B.
Proof. apply col0_mask_assign_box. Qed.

Lemma merge_rows_spec L B :
  NoDup (col0 L) -> NoDup (col0 B) ->
  fold_left (fun B' ra => merge_row_into ra B') L B = map (merged_row L) B.
Proof.
  revert B. induction L as [|ra L IH]; intros B HL HB; simpl.
  - unfold merged_row. simpl. by rewrite map_id.
  - simpl in HL. apply NoDup_cons in HL as [Hra HL].
    rewrite IH; [|done|by rewrite col0_merge_row_into].
    rewrite merge_row_into_spec by done. rewrite map_map.
    apply map_ext. intros rb. unfold merged_row at 2 3. simpl.
    destruct (Z.eqb_spec (hd 0 ra) (hd 0 rb)) as [Heq|Hne]; [|done].
    unfold merged_row. simpl.
    rewrite find_absent; [done|]. by rewrite <- Heq.
Qed.

Lemma col0_merged_b A B : col0 (merged_b A B) = col0 B.
Proof.
  unfold merged_b. generalize (mask_select (in1d (col0 A) (col0 B)) A).
  intros L. revert B. induction L as [|ra L IH]; intros B; simpl; [done|].
  by rewrite IH, col0_merge_row_into.
Qed.

Lemma merged_row_selected A B rb :
  NoDup (col0 A) -> rb ∈ B ->
  merged_row (mask_select (in1d (col0 A) (col0 B)) A) rb = merged_row A rb.
Proof.
  intros HA Hrb. unfold merged_row.
  destruct (decide (hd 0 rb ∈ col0 A)) as [Hin|Hnin].
  - apply col0_elem in Hin as (ra & Hra & Hid).
    rewrite (find_by_id A ra (hd 0 rb)) by done.
    rewrite (find_by_id _ ra (hd 0 rb)); [done| |..|done].
    + unfold col0. rewrite mask_select_map. by apply mask_select_NoDup.
    + rewrite in1d_as_row_mask. apply mask_select_map_elem. split; [done|].
      apply bool_decide_eq_true. rewrite Hid. apply col0_elem. eauto.
  - rewrite (find_absent A) by done. rewrite find_absent; [done|].
    intros (ra & Hra & Hid)%col0_elem. apply Hnin, col0_elem.
    exists ra. split; [|done]. by eapply mask_select_elem.
Qed.

Lemma merged_b_spec A B :
  NoDup (col0 A) -> NoDup (col0 B) ->
  merged_b A B = map (merged_row A) B.
Proof.
  intros HA HB. unfold merged_b. rewrite merge_rows_spec; [| |done].
  - apply map_ext_in. intros rb Hin%list_elem_of_In.
    by apply merged_row_selected.
  - unfold col0. rewrite mask_select_map. by apply mask_select_NoDup.
Qed.
End MergeValue.

Section MergeHeap.
Implicit Types (h : heap) (A B : matrix) (la lb l : loc).

Lemma count_true_zero_select {X} (m : list bool) (xs : list X) :
  count_true m = 0%nat -> mask_select m xs = [].
Proof.
  unfold count_true. revert xs.
  induction m as [|b m IH]; intros [|x xs]; simpl; try done.
  destruct b; simpl; [done|]. auto.
Qed.

Lemma count_true_zero_negb {X} (m : list bool) (xs : list X) :
  count_true m = 0%nat -> length m = length xs ->
  mask_select (map negb m) xs = xs.
Proof.
  unfold count_true. revert xs.
  induction m as [|b m IH]; intros [|x xs]; simpl; try done.
  destruct b; simpl; [done|]. intros H1 H2. f_equal. apply IH; [done|lia].
Qed.

Lemma merge_steps_heap la lb A (idxs : list nat) :
  la <> lb ->
  forall h B,
    h !! la = Some A -> h !! lb = Some B ->
    fold_left (merge_step la lb (col0 A) (col0 B)) idxs h =
    <[lb := fold_left (fun B' i => merge_row_into (nth i A []) B') idxs B]> h.
Proof.
  intros Hne. induction idxs as [|i idxs IH]; intros h B HA HB; simpl.
  - by rewrite insert_id.
  - assert (Hstep : merge_step la lb (col0 A) (col0 B) h i =
                    <[lb := merge_row_into (nth i A []) B]> h).
    { unfold merge_step, merge_row_into.
      rewrite (lookup_total_correct h la A HA).
      rewrite (lookup_total_correct h lb B HB).
      replace (nth i (col0 A) 0) with (hd 0 (nth i A [])); [done|].
      unfold col0. by rewrite <- (map_nth (fun r => hd 0 r) A [] i). }
    rewrite Hstep.
    rewrite <- (col0_merge_row_into (nth i A []) B).
    rewrite (IH _ (merge_row_into (nth i A []) B)).
    + by rewrite insert_insert_eq.
    + by rewrite lookup_insert_ne.
    + by rewrite lookup_insert_eq.
Qed.

Lemma merged_b_by_index A B :
  fold_left (fun B' i => merge_row_into (nth i A []) B')
            (np_where (in1d (col0 A) (col0 B))) B = merged_b A B.
Proof.
  unfold merged_b.
  rewrite <- (np_where_select (in1d (col0 A) (col0 B)) A []).
  - by rewrite fold_left_map_list.
  - unfold in1d, col0. by rewrite !length_map.
Qed.

(** The merger on two distinct array objects, in terms of the contents
    they hold. *)
Lemma merge_bbox_two_matrices_spec h la lb A B :
  h !! la = Some A -> h !! lb = Some B -> la <> lb ->
  exists l, (l ∉ dom h) /\
    (merge_bbox_two_matrices (Some la) (Some lb) h =
     (Some l, <[l := merged_table A B]> (<[lb := merged_b A B]> h))).
Proof.
  intros HA HB Hne. unfold merge_bbox_two_matrices, alloc.
  rewrite (lookup_total_correct h la A HA).
  rewrite (lookup_total_correct h lb B HB).
  destruct (Nat.eqb_spec (count_true (in1d (col0 A) (col0 B))) 0)
    as [Hz|Hnz].
  - exists (fresh (dom h)). split; [apply is_fresh|].
    unfold merged_table, merged_b.
    rewrite (count_true_zero_select _ A Hz). simpl.
    rewrite count_true_zero_negb; [|done|].
    + by rewrite (insert_id h lb B).
    + unfold in1d, col0. by rewrite !length_map.
  - rewrite (merge_steps_heap la lb A _ Hne h B HA HB).
    rewrite merged_b_by_index.
    set (h1 := <[lb := merged_b A B]> h).
    assert (H1a : h1 !! la = Some A) by (unfold h1; by rewrite lookup_insert_ne).
    assert (H1b : h1 !! lb = Some (merged_b A B))
      by (unfold h1; by rewrite lookup_insert_eq).
    rewrite (lookup_total_correct h1 la A H1a).
    rewrite (lookup_total_correct h1 lb _ H1b).
    exists (fresh (dom h1)). split; [|done].
    assert (Hd : dom h1 = dom h).
    { unfold h1. rewrite dom_insert_L.
      apply subseteq_union_1_L, singleton_subseteq_l.
      by apply elem_of_dom_2 in HB. }
    rewrite Hd. apply is_fresh.
Qed.
End MergeHeap.

Section BoxGeometry.
Implicit Types (a b c : list Z) (D : nat).

Lemma merge_bbox_length D a b :
  length a = (2 * D)%nat -> length b = (2 * D)%nat ->
  length (merge_bbox a b) = (2 * D)%nat.
Proof.
  revert a b. induction D as [|D IH]; intros a b Ha Hb.
  - by destruct a, b.
  - destruct a as [|a0 [|a1 a]], b as [|b0 [|b1 b]]; simpl in *; try lia.
    rewrite (IH a b); lia.
Qed.

(** Induction two entries at a time, as [merge_bbox] recurses. *)
Lemma box_pair_ind (P : list Z -> Prop) :
  P [] -> (forall x, P [x]) ->
  (forall x y l, P l -> P (x :: y :: l)) -> forall l, P l.
Proof.
  intros H0 H1 H2. fix IH 1.
  intros [|x [|y l]]; [exact H0|apply H1|apply H2, IH].
Qed.

Lemma merge_bbox_comm a b : merge_bbox a b = merge_bbox b a.
Proof.
  revert b. induction a as [|a0|a0 a1 a IH] using box_pair_ind;
    intros [|b0 [|b1 b]]; simpl; try done.
  by rewrite IH, Z.min_comm, Z.max_comm.
Qed.

Lemma merge_bbox_assoc a b c :
  merge_bbox (merge_bbox a b) c = merge_bbox a (merge_bbox b c).
Proof.
  revert b c. induction a as [|a0|a0 a1 a IH] using box_pair_ind;
    intros [|b0 [|b1 b]] [|c0 [|c1 c]]; simpl; try done.
  by rewrite IH, Z.min_assoc, Z.max_assoc.
Qed.

(** The merged box contains both boxes, and every box that contains
    both contains it. *)
Lemma merge_bbox_smallest D a b :
  length a = (2 * D)%nat -> length b = (2 * D)%nat ->
  box_contains (merge_bbox a b) a /\ box_contains (merge_bbox a b) b /\
  forall c, box_contains c a -> box_contains c b ->
            box_contains c (merge_bbox a b).
Proof.
  revert a b. induction D as [|D IH]; intros a b Ha Hb.
  - by destruct a, b.
  - destruct a as [|a0 [|a1 a]], b as [|b0 [|b1 b]]; simpl in *; try lia.
    destruct (IH a b) as (H1 & H2 & H3); [lia|lia|].
    repeat split; try done; try lia.
    intros [|c0 [|c1 c]]; simpl; try done.
    intros (? & ? & ?) (? & ? & ?). repeat split; [lia|lia|auto].
Qed.
End BoxGeometry.

Section MergedTable.
Implicit Types (A B : matrix) (r : row) (k : Z) (D : nat).

Lemma negb_in1d_as_row_mask A B :
  map negb (in1d (col0 A) (col0 B)) =
  map (fun r => negb (bool_decide (hd 0 r ∈ col0 B))) A.
Proof. by rewrite in1d_as_row_mask, map_map. Qed.

Lemma merged_table_only_first A B r :
  r ∈ mask_select (map negb (in1d (col0 A) (col0 B))) A <->
  r ∈ A /\ hd 0 r ∉ col0 B.
Proof.
  rewrite negb_in1d_as_row_mask, mask_select_map_elem.
  by rewrite negb_true_iff, bool_decide_eq_false.
Qed.

Lemma merged_table_ids A B k :
  k ∈ col0 (merged_table A B) <-> k ∈ col0 A \/ k ∈ col0 B.
Proof.
  unfold merged_table, col0 at 1. rewrite map_app, elem_of_app.
  fold (col0 (merged_b A B)). rewrite col0_merged_b.
  fold (col0 (mask_select (map negb (in1d (col0 A) (col0 B))) A)).
  rewrite col0_elem. split.
  - intros [(r & Hr & Hk)|Hb]; [left|by right].
    apply merged_table_only_first in Hr as [Hr _].
    apply col0_elem. eauto.
  - intros [Ha|Hb]; [|by right].
    destruct (decide (k ∈ col0 B)) as [Hb|Hnb]; [by right|left].
    apply col0_elem in Ha as (r & Hr & Hk). exists r. split; [|done].
    apply merged_table_only_first. by rewrite Hk.
Qed.

Lemma merged_table_NoDup A B :
  NoDup (col0 A) -> NoDup (col0 B) -> NoDup (col0 (merged_table A B)).
Proof.
  intros HA HB. unfold merged_table, col0 at 1. rewrite map_app.
  fold (col0 (merged_b A B)). rewrite col0_merged_b.
  apply NoDup_app. split; [|split; [|done]].
  - rewrite mask_select_map. by apply mask_select_NoDup.
  - intros k Hk Hb.
    change (k ∈ col0 (mask_select (map negb (in1d (col0 A) (col0 B))) A))
      in Hk.
    apply col0_elem in Hk as (r & Hr & Hid).
    apply merged_table_only_first in Hr as [_ Hr]. by rewrite Hid in Hr.
Qed.

Lemma merged_row_length D A r :
  Forall (fun r => length r = S (2 * D)) A -> length r = S (2 * D) ->
  length (merged_row A r) = S (2 * D).
Proof.
  intros HA Hr. unfold merged_row.
  destruct (List.find _ A) as [ra|] eqn:Hf; [|done].
  apply find_some in Hf as [Hin _].
  rewrite Forall_forall in HA. apply list_elem_of_In, HA in Hin.
  destruct ra as [|i a]; [done|]. destruct r as [|j b]; [done|].
  simpl in *. f_equal. apply merge_bbox_length; lia.
Qed.

Lemma merged_table_wf D A B :
  table_wf D A -> table_wf D B -> table_wf D (merged_table A B).
Proof.
  intros [HA1 HA2] [HB1 HB2]. split; [|by apply merged_table_NoDup].
  unfold merged_table. rewrite merged_b_spec by done.
  apply Forall_app. split.
  - rewrite Forall_forall in *. intros r Hr%mask_select_elem. auto.
  - rewrite Forall_forall in *. intros r' Hr'.
    apply list_elem_of_In, in_map_iff in Hr' as (r & <- & Hr).
    apply merged_row_length; [by rewrite Forall_forall|].
    by apply HB1, list_elem_of_In.
Qed.

Lemma merged_table_shared A B k (a b : list Z) :
  NoDup (col0 A) -> NoDup (col0 B) ->
  (k :: a) ∈ A -> (k :: b) ∈ B ->
  (k :: merge_bbox a b) ∈ merged_table A B.
Proof.
  intros HA HB Ha Hb. unfold merged_table.
  rewrite merged_b_spec by done. apply elem_of_app. right.
  apply list_elem_of_In, in_map_iff. exists (k :: b).
  split; [|by apply list_elem_of_In].
  unfold merged_row. simpl. by rewrite (find_by_id A (k :: a) k).
Qed.

Lemma merged_table_only_second A B r :
  NoDup (col0 A) -> NoDup (col0 B) ->
  r ∈ B -> hd 0 r ∉ col0 A -> r ∈ merged_table A B.
Proof.
  intros HA HB Hr Hnin. unfold merged_table.
  rewrite merged_b_spec by done. apply elem_of_app. right.
  apply list_elem_of_In, in_map_iff. exists r.
  split; [|by apply list_elem_of_In].
  unfold merged_row. by rewrite find_absent.
Qed.
End MergedTable.

(** C1.  Merging two well-formed box tables, held in two array objects,
    returns a table whose ids are exactly the ids of A together with the
    ids of B, one row per id.  An id of both tables carries the merged
    box, which contains both source boxes and is contained in every box
    that contains both; a row whose id is in one table only is kept as it
    is. *)
Theorem merge_bbox_two_matrices_union (D : nat) (h : heap) (la lb : loc)
    (A B : matrix) :
  h !! la = Some A -> h !! lb = Some B -> la <> lb ->
  table_wf D A -> table_wf D B ->
  exists (l : loc) (h' : heap) (R : matrix),
    merge_bbox_two_matrices (Some la) (Some lb) h = (Some l, h') /\
    h' !! l = Some R /\
    table_wf D R /\
    (forall k, k ∈ col0 R <-> k ∈ col0 A \/ k ∈ col0 B) /\
    (forall k a b, (k :: a) ∈ A -> (k :: b) ∈ B ->
       (k :: merge_bbox a b) ∈ R /\
       box_contains (merge_bbox a b) a /\ box_contains (merge_bbox a b) b /\
       forall c, box_contains c a -> box_contains c b ->
                 box_contains c (merge_bbox a b)) /\
    (forall r, r ∈ A -> hd 0 r ∉ col0 B -> r ∈ R) /\
    (forall r, r ∈ B -> hd 0 r ∉ col0 A -> r ∈ R).
Proof.
  intros HA HB Hne WA WB.
  destruct (merge_bbox_two_matrices_spec h la lb A B HA HB Hne)
    as (l & Hl & Heq).
  exists l, (<[l := merged_table A B]> (<[lb := merged_b A B]> h)),
    (merged_table A B).
  split; [done|]. split; [by rewrite lookup_insert_eq|].
  split; [by apply merged_table_wf|].
  split; [apply merged_table_ids|].
  destruct WA as [WA1 WA2], WB as [WB1 WB2].
  split; [|split].
  - intros k a b Ha Hb. split; [by apply merged_table_shared|].
    rewrite Forall_forall in WA1, WB1.
    apply WA1 in Ha. apply WB1 in Hb.
    simpl in Ha, Hb. apply (merge_bbox_smallest D); lia.
  - intros r Hr Hnin. unfold merged_table. apply elem_of_app. left.
    by apply merged_table_only_first.
  - intros r Hr Hnin. by apply merged_table_only_second.
Qed.

Lemma merge_bbox_two_matrices_union_witness :
  let h : heap := <[1%nat := [[1;2;3;2;8]; [7;0;0;0;0]]]>
                  (<[0%nat := [[1;0;5;0;5]; [3;1;1;1;1]]]> ∅) in
  exists (l : loc) (h' : heap) (R : matrix),
    merge_bbox_two_matrices (Some 0%nat) (Some 1%nat) h = (Some l, h') /\
    h' !! l = Some R /\ ([1; 0; 5; 0; 8] : row) ∈ R.
Proof.
  intros h.
  destruct (merge_bbox_two_matrices_union 2 h 0%nat 1%nat
              [[1;0;5;0;5]; [3;1;1;1;1]] [[1;2;3;2;8]; [7;0;0;0;0]])
    as (l & h' & R & H1 & H2 & _ & _ & H3 & _).
  - reflexivity.
  - reflexivity.
  - discriminate.
  - split; [repeat constructor|compute_done].
  - split; [repeat constructor|compute_done].
  - exists l, h', R. split; [exact H1|]. split; [exact H2|].
    apply (H3 1 [0;5;0;5] [2;3;2;8]); apply list_elem_of_In; simpl; auto.
Defined.

(** C9, the input on which the claim fails: both tables hold id 1, and
    after the call the array object passed second holds the merged box. *)
Lemma merge_bbox_two_matrices_overwrites_second :
  let h : heap := <[1%nat := [[1;2;3;2;8]; [7;0;0;0;0]]]>
                  (<[0%nat := [[1;0;5;0;5]; [3;1;1;1;1]]]> ∅) in
  h !! 1%nat = Some [[1;2;3;2;8]; [7;0;0;0;0]] /\
  snd (merge_bbox_two_matrices (Some 0%nat) (Some 1%nat) h) !! 1%nat =
    Some [[1;0;5;0;8]; [7;0;0;0;0]].
Proof. split; vm_compute; reflexivity. Qed.

(** C9 as amended.  With one argument [None] the call returns the other
    argument itself and touches nothing.  With two tables in two array
    objects the result is a new object, the first argument and every other
    object keep their contents, and the second argument is overwritten in
    place: each of its rows whose id occurs in the first table receives the
    merged box, the other rows and the id column stay. *)
Theorem merge_bbox_two_matrices_frame (h : heap) (la lb : loc) (A B : matrix) :
  h !! la = Some A -> h !! lb = Some B -> la <> lb ->
  NoDup (col0 A) -> NoDup (col0 B) ->
  (forall b, merge_bbox_two_matrices None b h = (b, h)) /\
  merge_bbox_two_matrices (Some la) None h = (Some la, h) /\
  exists (l : loc) (h' : heap),
    merge_bbox_two_matrices (Some la) (Some lb) h = (Some l, h') /\
    (l ∉ dom h) /\
    h' !! la = Some A /\
    h' !! lb = Some (map (merged_row A) B) /\
    col0 (map (merged_row A) B) = col0 B /\
    (forall r, r ∈ B -> hd 0 r ∉ col0 A -> merged_row A r = r) /\
    (forall l', l' <> lb -> l' <> l -> h' !! l' = h !! l').
Proof.
  intros HA HB Hne NA NB. split; [done|]. split; [done|].
  destruct (merge_bbox_two_matrices_spec h la lb A B HA HB Hne)
    as (l & Hl & Heq).
  assert (l <> la) as Hla.
  { intros ->. apply Hl. by apply elem_of_dom_2 in HA. }
  assert (l <> lb) as Hlb.
  { intros ->. apply Hl. by apply elem_of_dom_2 in HB. }
  exists l, (<[l := merged_table A B]> (<[lb := merged_b A B]> h)).
  split; [done|]. split; [done|].
  split; [by rewrite !lookup_insert_ne|].
  split; [by rewrite lookup_insert_ne, lookup_insert_eq, merged_b_spec|].
  split; [by rewrite <- merged_b_spec, col0_merged_b|].
  split.
  - intros r _ Hnin. unfold merged_row. by rewrite find_absent.
  - intros l' H1 H2. by rewrite !lookup_insert_ne.
Qed.

Lemma merge_bbox_two_matrices_frame_witness :
  let h : heap := <[1%nat := [[1;2;3;2;8]; [7;0;0;0;0]]]>
                  (<[0%nat := [[1;0;5;0;5]; [3;1;1;1;1]]]> ∅) in
  exists (l : loc) (h' : heap),
    merge_bbox_two_matrices (Some 0%nat) (Some 1%nat) h = (Some l, h') /\
    h' !! 0%nat = Some [[1;0;5;0;5]; [3;1;1;1;1]] /\
    h' !! 1%nat = Some [[1;0;5;0;8]; [7;0;0;0;0]].
Proof.
  intros h.
  destruct (merge_bbox_two_matrices_frame h 0%nat 1%nat
              [[1;0;5;0;5]; [3;1;1;1;1]] [[1;2;3;2;8]; [7;0;0;0;0]])
    as (_ & _ & l & h' & H1 & _ & H2 & H3 & _).
  - reflexivity.
  - reflexivity.
  - discriminate.
  - compute_done.
  - compute_done.
  - exists l, h'. split; [exact H1|]. split; [exact H2|exact H3].
Defined.

Section TableMap.
Implicit Types (A B M : matrix) (r : row) (k : Z) (D : nat).

Lemma table_map_keys M :
  (map (fun r => (hd 0 r, tl r)) M).*1 = col0 M.
Proof. induction M as [|r M IH]; [done|]. simpl. f_equal. exact IH. Qed.

Lemma table_map_lookup_Some M k (b : list Z) :
  NoDup (col0 M) ->
  table_map M !! k = Some b <-> exists r, r ∈ M /\ hd 0 r = k /\ tl r = b.
Proof.
  intros HM. unfold table_map. split.
  - intros H%elem_of_list_to_map_2.
    apply list_elem_of_In, in_map_iff in H as (r & Heq & Hr).
    exists r. rewrite list_elem_of_In. by inversion Heq.
  - intros (r & Hr & <- & <-). apply elem_of_list_to_map_1.
    + by rewrite table_map_keys.
    + apply list_elem_of_In, in_map_iff. exists r.
      by rewrite <- list_elem_of_In.
Qed.

Lemma table_map_lookup_None M k :
  table_map M !! k = None <-> k ∉ col0 M.
Proof.
  unfold table_map. by rewrite <- not_elem_of_list_to_map, table_map_keys.
Qed.

Lemma table_map_merge_comm (m1 m2 : gmap Z (list Z)) :
  table_map_merge m1 m2 = table_map_merge m2 m1.
Proof.
  apply map_eq. intros k. unfold table_map_merge.
  rewrite !lookup_union_with.
  destruct (m1 !! k), (m2 !! k); simpl; try done.
  by rewrite merge_bbox_comm.
Qed.

Lemma table_map_merge_assoc (m1 m2 m3 : gmap Z (list Z)) :
  table_map_merge (table_map_merge m1 m2) m3 =
  table_map_merge m1 (table_map_merge m2 m3).
Proof.
  apply map_eq. intros k. unfold table_map_merge.
  rewrite !lookup_union_with.
  destruct (m1 !! k), (m2 !! k), (m3 !! k); simpl; try done.
  by rewrite merge_bbox_assoc.
Qed.

Lemma table_map_merge_empty_l (m : gmap Z (list Z)) :
  table_map_merge ∅ m = m.
Proof.
  apply map_eq. intros k. unfold table_map_merge.
  rewrite lookup_union_with, lookup_empty. by destruct (m !! k).
Qed.

Lemma table_map_merge_empty_r (m : gmap Z (list Z)) :
  table_map_merge m ∅ = m.
Proof. by rewrite table_map_merge_comm, table_map_merge_empty_l. Qed.

(** The merged matrix stands for the merge of the two mappings. *)
Lemma table_map_merged_table A B :
  NoDup (col0 A) -> NoDup (col0 B) ->
  table_map (merged_table A B) = table_map_merge (table_map A) (table_map B).
Proof.
  intros HA HB. apply map_eq. intros k. unfold table_map_merge.
  rewrite lookup_union_with.
  pose proof (merged_table_NoDup A B HA HB) as HR.
  destruct (table_map A !! k) as [a|] eqn:Ea,
           (table_map B !! k) as [b|] eqn:Eb; simpl.
  - apply table_map_lookup_Some in Ea as (ra & Hra & Hka & Hta); [|done].
    apply table_map_lookup_Some in Eb as (rb & Hrb & Hkb & Htb); [|done].
    apply table_map_lookup_Some; [done|].
    exists (merged_row A rb). split; [|split].
    + unfold merged_table. rewrite merged_b_spec by done.
      apply elem_of_app. right. apply list_elem_of_In, in_map.
      by apply list_elem_of_In.
    + unfold merged_row. by destruct (List.find _ A).
    + unfold merged_row. rewrite Hkb.
      rewrite (find_by_id A ra k) by done. simpl. by rewrite Hta, Htb.
  - apply table_map_lookup_Some in Ea as (ra & Hra & Hka & Hta); [|done].
    apply table_map_lookup_None in Eb.
    apply table_map_lookup_Some; [done|].
    exists ra. split; [|done]. unfold merged_table. apply elem_of_app. left.
    apply merged_table_only_first. by rewrite Hka.
  - apply table_map_lookup_None in Ea.
    apply table_map_lookup_Some in Eb as (rb & Hrb & Hkb & Htb); [|done].
    apply table_map_lookup_Some; [done|].
    exists rb. split; [|done]. apply merged_table_only_second; try done.
    by rewrite Hkb.
  - apply table_map_lookup_None in Ea. apply table_map_lookup_None in Eb.
    apply table_map_lookup_None. rewrite merged_table_ids. tauto.
Qed.

(** Two tables of distinct ids and non-empty rows that stand for the same
    mapping hold the same rows, up to their order. *)
Lemma table_map_permutation D A B :
  table_wf D A -> table_wf D B -> table_map A = table_map B -> A ≡ₚ B.
Proof.
  intros [HA1 HA2] [HB1 HB2] Heq.
  assert (Hsub : forall X Y, Forall (fun r => length r = S (2 * D)) X ->
            Forall (fun r => length r = S (2 * D)) Y ->
            NoDup (col0 X) -> NoDup (col0 Y) -> table_map X = table_map Y ->
            forall r, r ∈ X -> r ∈ Y).
  { intros X Y HX HY NX NY HXY r Hr.
    assert (table_map Y !! hd 0 r = Some (tl r)) as Hl.
    { rewrite <- HXY. apply table_map_lookup_Some; [done|]. by exists r. }
    apply table_map_lookup_Some in Hl as (r' & Hr' & Hk & Ht); [|done].
    rewrite Forall_forall in HX, HY. apply HX in Hr. pose proof (HY _ Hr') as Hlen.
    destruct r as [|i a]; [done|]. destruct r' as [|j b]; [done|].
    simpl in Hk, Ht. by subst. }
  apply NoDup_Permutation.
  - apply (NoDup_fmap_1 (fun r => hd 0 r)). exact HA2.
  - apply (NoDup_fmap_1 (fun r => hd 0 r)). exact HB2.
  - intros r. split; [by apply Hsub|by apply Hsub].
Qed.
End TableMap.

Section TileFold.
Implicit Types (h : heap) (T : option matrix) (bbox : matrix) (D : nat).

Lemma denotes_table_at h out T :
  denotes h out T -> table_at h out = default [] T.
Proof.
  destruct out as [lo|], T as [M|]; simpl; try done.
  intros H. by apply lookup_total_correct.
Qed.

Lemma merge_bbox_tile_step_denotes h out T bbox :
  denotes h out T ->
  denotes (snd (merge_bbox_tile_step (out, h) bbox))
          (fst (merge_bbox_tile_step (out, h) bbox))
          (merge_tile_value T bbox).
Proof.
  intros Hrep. unfold merge_bbox_tile_step, merge_tile_value, alloc.
  destruct (0 <? length bbox)%nat; [|done].
  set (lb := fresh (dom h)).
  assert (Hlb : <[lb := bbox]> h !! lb = Some bbox) by apply lookup_insert_eq.
  destruct out as [lo|], T as [M|]; simpl in Hrep; try done.
  assert (lo <> lb) as Hne.
  { intros ->. apply (is_fresh (dom h)). by apply elem_of_dom_2 in Hrep. }
  assert (Hlo : <[lb := bbox]> h !! lo = Some M)
    by (by rewrite lookup_insert_ne).
  destruct (merge_bbox_two_matrices_spec _ lo lb M bbox Hlo Hlb Hne)
    as (l & _ & ->).
  simpl. apply lookup_insert_eq.
Qed.

Lemma merge_bbox_tile_denotes (tiles : list matrix) h out T :
  denotes h out T ->
  denotes (snd (fold_left merge_bbox_tile_step tiles (out, h)))
          (fst (fold_left merge_bbox_tile_step tiles (out, h)))
          (fold_left merge_tile_value tiles T).
Proof.
  revert h out T. induction tiles as [|bbox tiles IH]; intros h out T Hrep;
    cbn [fold_left]; [done|].
  pose proof (merge_bbox_tile_step_denotes h out T bbox Hrep) as Hstep.
  destruct (merge_bbox_tile_step (out, h) bbox) as [out' h'].
  by apply IH.
Qed.

Lemma merge_tile_value_wf D T bbox :
  table_wf_opt D T -> table_wf D bbox ->
  table_wf_opt D (merge_tile_value T bbox).
Proof.
  intros HT Hb. unfold merge_tile_value.
  destruct (0 <? length bbox)%nat; [|done].
  destruct T as [M|]; simpl; [|done]. by apply merged_table_wf.
Qed.

Lemma merge_tile_value_map D T bbox :
  table_wf_opt D T -> table_wf D bbox ->
  table_map (default [] (merge_tile_value T bbox)) =
  table_map_merge (table_map (default [] T)) (table_map bbox).
Proof.
  intros [HT1 HT2] [Hb1 Hb2]. unfold merge_tile_value.
  destruct (Nat.ltb_spec 0 (length bbox)) as [Hpos|Hzero].
  - destruct T as [M|]; simpl.
    + by apply table_map_merged_table.
    + change (table_map []) with (∅ : gmap Z (list Z)).
      by rewrite table_map_merge_empty_l.
  - destruct bbox; simpl in Hzero; [|lia].
    change (table_map []) with (∅ : gmap Z (list Z)).
    by rewrite table_map_merge_empty_r.
Qed.

Lemma merge_tile_fold_map D (tiles : list matrix) T :
  Forall (table_wf D) tiles -> table_wf_opt D T ->
  table_wf_opt D (fold_left merge_tile_value tiles T) /\
  table_map (default [] (fold_left merge_tile_value tiles T)) =
  fold_left (fun m b => table_map_merge m (table_map b)) tiles
            (table_map (default [] T)).
Proof.
  revert T. induction tiles as [|bbox tiles IH]; intros T Htiles HT; simpl;
    [done|].
  apply Forall_cons in Htiles as [Hb Htiles].
  destruct (IH (merge_tile_value T bbox)) as [H1 H2];
    [done|by apply merge_tile_value_wf|].
  split; [done|]. by rewrite H2, (merge_tile_value_map D).
Qed.

Lemma table_map_fold_permutation (tiles tiles' : list matrix) :
  tiles ≡ₚ tiles' ->
  forall m : gmap Z (list Z),
    fold_left (fun m b => table_map_merge m (table_map b)) tiles m =
    fold_left (fun m b => table_map_merge m (table_map b)) tiles' m.
Proof.
  induction 1 as [|x l l' _ IH|x y l|l1 l2 l3 _ IH1 _ IH2]; intros m; simpl.
  - done.
  - apply IH.
  - f_equal. rewrite !table_map_merge_assoc. f_equal.
    apply table_map_merge_comm.
  - by rewrite IH1.
Qed.
End TileFold.

(** C3.  Folding the per-tile tables into one table, as [merge_bbox_tile]
    does starting from [None], gives the same table whatever the order of
    the tiles: a table is a mapping from ids to boxes, and the mapping of
    the final matrix is the same for every permutation of the tiles.  The
    final matrices hold the same rows as well. *)
Theorem merge_bbox_tile_order_independent (D : nat)
    (tiles tiles' : list matrix) (h h' : heap) :
  Forall (table_wf D) tiles -> tiles ≡ₚ tiles' ->
  let r := merge_bbox_tile tiles h in
  let r' := merge_bbox_tile tiles' h' in
  table_map (table_at (snd r) (fst r)) =
    table_map (table_at (snd r') (fst r')) /\
  table_at (snd r) (fst r) ≡ₚ table_at (snd r') (fst r').
Proof.
  intros Hwf Hperm r r'.
  assert (Hwf' : Forall (table_wf D) tiles').
  { rewrite Forall_forall in *. intros x Hx. apply Hwf. by rewrite Hperm. }
  assert (Hnone : table_wf_opt D None) by (split; constructor).
  pose proof (merge_bbox_tile_denotes tiles h None None I) as Hd.
  pose proof (merge_bbox_tile_denotes tiles' h' None None I) as Hd'.
  apply denotes_table_at in Hd, Hd'.
  fold (merge_bbox_tile tiles h) in Hd. fold (merge_bbox_tile tiles' h') in Hd'.
  fold r in Hd. fold r' in Hd'. rewrite Hd, Hd'.
  destruct (merge_tile_fold_map D tiles None Hwf Hnone) as [W1 M1].
  destruct (merge_tile_fold_map D tiles' None Hwf' Hnone) as [W2 M2].
  assert (Heq : table_map (default [] (fold_left merge_tile_value tiles None))
              = table_map (default [] (fold_left merge_tile_value tiles' None))).
  { rewrite M1, M2. by apply table_map_fold_permutation. }
  split; [done|]. by apply (table_map_permutation D).
Qed.

Lemma merge_bbox_tile_order_independent_witness :
  let t1 : matrix := [[1;0;5;0;5]; [3;1;1;1;1]] in
  let t2 : matrix := [[1;2;3;2;8]; [7;0;0;0;0]] in
  table_map (table_at (snd (merge_bbox_tile [t1; t2] ∅))
                      (fst (merge_bbox_tile [t1; t2] ∅))) =
  table_map (table_at (snd (merge_bbox_tile [t2; t1] ∅))
                      (fst (merge_bbox_tile [t2; t1] ∅))).
Proof.
  intros t1 t2.
  apply (merge_bbox_tile_order_independent 2 [t1; t2] [t2; t1] ∅ ∅).
  - repeat constructor; compute_done.
  - apply perm_swap.
Defined.

(** The rows of the final matrix stand in the order of the fold: the two
    orders of two one-row tiles end in matrices that hold the same two
    rows in different order. *)
Lemma merge_bbox_tile_row_order :
  let t1 : matrix := [[1;0;5;0;5]] in
  let t2 : matrix := [[2;2;3;2;8]] in
  table_at (snd (merge_bbox_tile [t1; t2] ∅)) (fst (merge_bbox_tile [t1; t2] ∅))
    = [[1;0;5;0;5]; [2;2;3;2;8]] /\
  table_at (snd (merge_bbox_tile [t2; t1] ∅)) (fst (merge_bbox_tile [t2; t1] ∅))
    = [[2;2;3;2;8]; [1;0;5;0;5]].
Proof. split; vm_compute; reflexivity. Qed.

(** * Properties of [compute_bbox] *)

Section MinMax.
Implicit Types (l : list Z) (x m : Z).

Lemma fold_min_spec l x :
  fold_left Z.min l x ∈ x :: l /\
  forall y, y ∈ x :: l -> fold_left Z.min l x <= y.
Proof.
  revert x. induction l as [|a l IH]; intros x; simpl.
  - split; [apply list_elem_of_here|].
    intros y Hy. apply list_elem_of_singleton in Hy. lia.
  - destruct (IH (Z.min x a)) as [Hin Hle]. split.
    + apply elem_of_cons in Hin as [Heq|Hin].
      * rewrite Heq. destruct (Z.min_spec x a) as [[_ ->]|[_ ->]].
        -- apply list_elem_of_here.
        -- apply list_elem_of_further, list_elem_of_here.
      * by do 2 apply list_elem_of_further.
    + intros y Hy. rewrite !elem_of_cons in Hy.
      pose proof (Hle (Z.min x a) (list_elem_of_here _ _)) as H0.
      destruct Hy as [->|[->|Hy]]; [lia|lia|].
      apply Hle. by apply list_elem_of_further.
Qed.

Lemma fold_max_spec l x :
  fold_left Z.max l x ∈ x :: l /\
  forall y, y ∈ x :: l -> y <= fold_left Z.max l x.
Proof.
  revert x. induction l as [|a l IH]; intros x; simpl.
  - split; [apply list_elem_of_here|].
    intros y Hy. apply list_elem_of_singleton in Hy. lia.
  - destruct (IH (Z.max x a)) as [Hin Hle]. split.
    + apply elem_of_cons in Hin as [Heq|Hin].
      * rewrite Heq. destruct (Z.max_spec x a) as [[_ ->]|[_ ->]].
        -- apply list_elem_of_further, list_elem_of_here.
        -- apply list_elem_of_here.
      * by do 2 apply list_elem_of_further.
    + intros y Hy. rewrite !elem_of_cons in Hy.
      pose proof (Hle (Z.max x a) (list_elem_of_here _ _)) as H0.
      destruct Hy as [->|[->|Hy]]; [lia|lia|].
      apply Hle. by apply list_elem_of_further.
Qed.

Lemma min_of_spec l :
  l <> [] -> min_of l ∈ l /\ forall y, y ∈ l -> min_of l <= y.
Proof. destruct l as [|x l]; [done|]. intros _. apply fold_min_spec. Qed.

Lemma max_of_spec l :
  l <> [] -> max_of l ∈ l /\ forall y, y ∈ l -> y <= max_of l.
Proof. destruct l as [|x l]; [done|]. intros _. apply fold_max_spec. Qed.

Lemma np_min_returns l : l <> [] -> np_min l = Returns (min_of l).
Proof. by destruct l. Qed.

Lemma np_max_returns l : l <> [] -> np_max l = Returns (max_of l).
Proof. by destruct l. Qed.
End MinMax.

Section Ravel.
Implicit Types (s p : list nat) (k : nat).

Lemma unravel_in_bounds s k :
  (k < size_of s)%nat -> Forall2 lt (unravel s k) s.
Proof.
  revert k. induction s as [|d s IH]; intros k Hk; simpl in *.
  - constructor.
  - assert (size_of s <> 0)%nat as Hpos by (intros Hz; rewrite Hz in Hk; lia).
    constructor.
    + apply Nat.Div0.div_lt_upper_bound. lia.
    + apply IH. by apply Nat.mod_upper_bound.
Qed.

Lemma ravel_unravel s k :
  (k < size_of s)%nat -> ravel s (unravel s k) = k.
Proof.
  revert k. induction s as [|d s IH]; intros k Hk; simpl in *.
  - lia.
  - assert (size_of s <> 0)%nat as Hpos by (intros Hz; rewrite Hz in Hk; lia).
    rewrite IH by (by apply Nat.mod_upper_bound).
    pose proof (Nat.div_mod_eq k (size_of s)). lia.
Qed.

Lemma ravel_in_bounds s p :
  Forall2 lt p s -> (ravel s p < size_of s)%nat /\ unravel s (ravel s p) = p.
Proof.
  intros H. induction H as [|i d p s Hi _ [IH1 IH2]]; simpl.
  - split; [lia|done].
  - assert (size_of s <> 0)%nat as Hpos by lia. split; [nia|].
    rewrite Nat.div_add_l by done.
    rewrite (Nat.div_small (ravel s p)) by done.
    rewrite Nat.add_0_r. f_equal.
    rewrite Nat.add_comm, Nat.Div0.mod_add, Nat.mod_small by done.
    exact IH2.
Qed.
End Ravel.

Section WherePositive.
Implicit Types (m : list bool) (k : nat) (seg : ndarray).

Lemma np_where_elem m k : k ∈ np_where m <-> m !! k = Some true.
Proof.
  revert k. induction m as [|b m IH]; intros k.
  - unfold np_where. simpl. rewrite elem_of_nil. by destruct k.
  - rewrite np_where_cons, elem_of_app. split.
    + intros [H0|HS].
      * destruct b; [|by apply elem_of_nil in H0].
        by apply list_elem_of_singleton in H0 as ->.
      * apply list_elem_of_In, in_map_iff in HS as (k' & <- & Hk').
        simpl. by apply IH, list_elem_of_In.
    + destruct k as [|k]; simpl.
      * intros [= ->]. left. apply list_elem_of_here.
      * intros Hk. right. apply list_elem_of_In, in_map_iff.
        exists k. split; [done|]. by apply list_elem_of_In, IH.
Qed.

Lemma np_where_length m : length (np_where m) = count_true m.
Proof.
  induction m as [|b m IH]; [done|].
  rewrite np_where_cons, length_app, length_map, IH.
  unfold count_true. by destruct b.
Qed.

Lemma positive_mask_lookup (d : list Z) k :
  map (fun v => 0 <? v) d !! k = Some true <->
  (k < length d)%nat /\ 0 < nth k d 0.
Proof.
  revert k. induction d as [|v d IH]; intros k; simpl.
  - split; [done|lia].
  - destruct k as [|k]; simpl.
    + split.
      * intros [= H]. apply Z.ltb_lt in H. lia.
      * intros [_ H]. apply Z.ltb_lt in H. by rewrite H.
    + rewrite IH. lia.
Qed.

Lemma where_positive_elem seg (p : list nat) :
  array_wf seg -> p ∈ where_positive seg <-> foreground seg p.
Proof.
  intros [Hlen _]. unfold where_positive, foreground, item.
  rewrite list_elem_of_In, in_map_iff. split.
  - intros (k & <- & Hk). apply list_elem_of_In, np_where_elem in Hk.
    apply positive_mask_lookup in Hk as [Hk Hpos]. rewrite Hlen in Hk.
    split; [by apply unravel_in_bounds|]. by rewrite ravel_unravel.
  - intros [Hb Hpos]. apply ravel_in_bounds in Hb as [Hk Hp].
    exists (ravel (shape seg) p). split; [done|].
    apply list_elem_of_In, np_where_elem, positive_mask_lookup.
    by rewrite Hlen.
Qed.

Lemma where_positive_length seg :
  length (where_positive seg) = count_foreground seg.
Proof.
  unfold where_positive, count_foreground.
  rewrite length_map, np_where_length. unfold count_true.
  induction (data seg) as [|v d IH]; simpl; [done|].
  destruct (0 <? v); simpl; by rewrite IH.
Qed.
End WherePositive.

Section ComputeBbox.
Implicit Types (seg : ndarray) (pix : list (list nat)).

Lemma np_any_foreground seg :
  array_wf seg -> binary_mask seg ->
  np_any seg = true <-> exists p, foreground seg p.
Proof.
  intros Hwf Hbin. unfold np_any. rewrite existsb_exists. split.
  - intros (v & Hin & Hv). apply negb_true_iff, Z.eqb_neq in Hv.
    unfold binary_mask in Hbin. rewrite Forall_forall in Hbin.
    apply list_elem_of_In in Hin.
    destruct (Hbin v Hin) as [->| ->]; [done|].
    apply list_elem_of_lookup in Hin as [k Hk].
    exists (unravel (shape seg) k). apply where_positive_elem; [done|].
    unfold where_positive. apply list_elem_of_In, in_map, list_elem_of_In.
    apply np_where_elem, positive_mask_lookup.
    split; [by eapply lookup_lt_Some|].
    by rewrite (nth_lookup_Some _ _ _ _ Hk).
  - intros (p & Hb & Hpos). unfold item in Hpos.
    exists (nth (ravel (shape seg) p) (data seg) 0). split.
    + apply nth_In. destruct Hwf as [-> _]. by apply ravel_in_bounds.
    + apply negb_true_iff, Z.eqb_neq. lia.
Qed.

Lemma compute_bbox_loop pix (a n : nat) (acc : list Z) :
  pix <> [] ->
  for_each (seq a n)
    (fun out i =>
       lo ← np_min (axis_coords i pix);
       hi ← np_max (axis_coords i pix);
       Returns (out ++ [lo; hi]))
    acc =
  Returns (acc ++ flat_map (fun i => [min_of (axis_coords i pix);
                                      max_of (axis_coords i pix)]) (seq a n)).
Proof.
  intros Hpix. revert a acc. induction n as [|n IH]; intros a acc; simpl.
  - by rewrite app_nil_r.
  - assert (axis_coords a pix <> []) as Hne by (by destruct pix).
    rewrite np_min_returns, np_max_returns by done. simpl.
    rewrite IH. by rewrite <- app_assoc.
Qed.

Lemma pairs_nth (f g : nat -> Z) (a n i : nat) :
  (i < n)%nat ->
  nth (2 * i) (flat_map (fun j => [f j; g j]) (seq a n)) 0 = f (a + i)%nat /\
  nth (2 * i + 1) (flat_map (fun j => [f j; g j]) (seq a n)) 0 = g (a + i)%nat.
Proof.
  revert a i. induction n as [|n IH]; intros a i Hi; [lia|].
  destruct i as [|i]; simpl.
  - by rewrite Nat.add_0_r.
  - replace (i + S (i + 0))%nat with (S (2 * i)) by lia.
    replace (a + S i)%nat with (S a + i)%nat by lia.
    simpl. apply IH. lia.
Qed.

Lemma pairs_length (f g : nat -> Z) (a n : nat) :
  length (flat_map (fun j => [f j; g j]) (seq a n)) = (2 * n)%nat.
Proof.
  revert a. induction n as [|n IH]; intros a; simpl; [done|].
  rewrite IH. lia.
Qed.

Lemma axis_min_of seg i :
  array_wf seg -> where_positive seg <> [] ->
  axis_minimum seg i (min_of (axis_coords i (where_positive seg))).
Proof.
  intros Hwf Hne.
  destruct (min_of_spec (axis_coords i (where_positive seg))) as [Hin Hle].
  { unfold axis_coords. by destruct (where_positive seg). }
  split.
  - apply list_elem_of_In, in_map_iff in Hin as (p & Hp & Hin).
    exists p. split; [|done]. by apply where_positive_elem, list_elem_of_In.
  - intros p Hp. apply Hle. unfold axis_coords.
    apply list_elem_of_In.
    apply (in_map (fun p => Z.of_nat (nth i p 0%nat))), list_elem_of_In.
    by apply where_positive_elem.
Qed.

Lemma axis_max_of seg i :
  array_wf seg -> where_positive seg <> [] ->
  axis_maximum seg i (max_of (axis_coords i (where_positive seg))).
Proof.
  intros Hwf Hne.
  destruct (max_of_spec (axis_coords i (where_positive seg))) as [Hin Hle].
  { unfold axis_coords. by destruct (where_positive seg). }
  split.
  - apply list_elem_of_In, in_map_iff in Hin as (p & Hp & Hin).
    exists p. split; [|done]. by apply where_positive_elem, list_elem_of_In.
  - intros p Hp. apply Hle. unfold axis_coords.
    apply list_elem_of_In.
    apply (in_map (fun p => Z.of_nat (nth i p 0%nat))), list_elem_of_In.
    by apply where_positive_elem.
Qed.
End ComputeBbox.

(** C2.  On a binary mask [compute_bbox] returns [None] when the mask has
    no foreground pixel.  Otherwise it returns, per axis, the least and the
    greatest coordinate over all foreground positions of the mask, and
    with [do_count] the number of foreground pixels after them. *)
Theorem compute_bbox_tight (seg : ndarray) :
  array_wf seg -> binary_mask seg ->
  ((forall p, ~ foreground seg p) ->
   forall do_count, compute_bbox seg do_count = Returns None) /\
  ((exists p, foreground seg p) ->
   exists out : list Z,
     compute_bbox seg false = Returns (Some out) /\
     compute_bbox seg true =
       Returns (Some (out ++ [Z.of_nat (count_foreground seg)])) /\
     length out = (2 * ndim seg)%nat /\
     forall i, (i < ndim seg)%nat ->
       axis_minimum seg i (nth (2 * i) out 0) /\
       axis_maximum seg i (nth (2 * i + 1) out 0)).
Proof.
  intros Hwf Hbin. split.
  - intros Hnone do_count. unfold compute_bbox.
    destruct (np_any seg) eqn:Hany; [|done].
    apply np_any_foreground in Hany as [p Hp]; [|done..].
    by destruct (Hnone p).
  - intros Hfg.
    assert (Hany : np_any seg = true) by (by apply np_any_foreground).
    assert (Hne : where_positive seg <> []).
    { destruct Hfg as [p Hp]. apply where_positive_elem in Hp; [|done].
      intros Heq. rewrite Heq in Hp. by apply elem_of_nil in Hp. }
    exists (flat_map (fun i => [min_of (axis_coords i (where_positive seg));
                                max_of (axis_coords i (where_positive seg))])
                     (seq 0 (ndim seg))).
    split; [|split].
    { unfold compute_bbox. rewrite Hany. simpl.
      by rewrite compute_bbox_loop by done. }
    { unfold compute_bbox. rewrite Hany. simpl.
      rewrite compute_bbox_loop by done. simpl.
      by rewrite where_positive_length. }
    split; [apply pairs_length|].
    intros i Hi.
    destruct (pairs_nth
      (fun i => min_of (axis_coords i (where_positive seg)))
      (fun i => max_of (axis_coords i (where_positive seg)))
      0 (ndim seg) i Hi) as [-> ->].
    simpl. split; [by apply axis_min_of|by apply axis_max_of].
Qed.

Lemma compute_bbox_tight_witness :
  let seg := {| shape := [3; 3]%nat; data := [0;1;1; 0;1;0; 0;0;0] |} in
  compute_bbox seg true = Returns (Some [0; 1; 1; 2; 3]) /\
  exists out : list Z,
    compute_bbox seg false = Returns (Some out) /\
    axis_minimum seg 1 (nth 2 out 0).
Proof.
  intros seg. split; [reflexivity|].
  destruct (compute_bbox_tight seg) as [_ H].
  - split; [reflexivity|discriminate].
  - unfold binary_mask. simpl.
    repeat first [apply Forall_nil_2 | apply Forall_cons_2; [lia|]].
  - destruct H as (out & H1 & _ & _ & H2).
    + exists [0; 1]%nat. split; [|reflexivity].
      repeat constructor.
    + exists out. split; [exact H1|]. apply (H2 1%nat).
      unfold seg, ndim. simpl. lia.
Defined.

Lemma nth_map_lt {X Y} (f : X -> Y) (l : list X) (n : nat) (dx : X) (dy : Y) :
  (n < length l)%nat -> nth n (map f l) dy = f (nth n l dx).
Proof.
  revert n. induction l as [|x l IH]; intros n Hn; simpl in *; [lia|].
  destruct n; [done|]. apply IH. lia.
Qed.

(** A label map compared with an id is a binary mask of the same shape,
    set exactly where the map holds the id. *)
Lemma label_eq_mask (L : ndarray) (k : Z) :
  array_wf L ->
  array_wf (label_eq L k) /\ binary_mask (label_eq L k) /\
  forall p, foreground (label_eq L k) p <->
            Forall2 lt p (shape L) /\ item L p = k.
Proof.
  intros [Hlen Hs]. split; [|split].
  - split; [|done]. simpl. by rewrite length_map.
  - unfold binary_mask. simpl. apply Forall_forall. intros v Hv.
    apply list_elem_of_In, in_map_iff in Hv as (w & <- & _).
    destruct (w =? k); auto.
  - intros p. unfold foreground, item. simpl. split.
    + intros [Hb Hpos]. split; [done|].
      apply ravel_in_bounds in Hb as [Hk _]. rewrite <- Hlen in Hk.
      rewrite (nth_map_lt _ _ _ 0) in Hpos by done.
      destruct (Z.eqb_spec (nth (ravel (shape L) p) (data L) 0) k); [done|lia].
    + intros [Hb Heq]. split; [done|].
      apply ravel_in_bounds in Hb as [Hk _]. rewrite <- Hlen in Hk.
      rewrite (nth_map_lt _ _ _ 0) by done.
      rewrite Heq, Z.eqb_refl. lia.
Qed.

(** * Properties of [compute_bbox_all] *)

(** C5, the input on which the 2D path breaks the claim: the label map
    holds id 1 only, the caller asks for id 2, and the returned table has a
    row for id 2 that still carries the initial values [sz, 0] of both
    axes. *)
Theorem compute_bbox_all_2d_keeps_absent_id :
  let seg := {| shape := [1; 1]%nat; data := [1] |} in
  (2 ∉ data seg) /\
  compute_bbox_all seg false (Some [2]) = Returns (Some [[2; 1; 0; 1; 0]]) /\
  compute_bbox_all_2d seg false (Some [2]) = Returns (Some [[2; 1; 0; 1; 0]]).
Proof.
  split; [|split; vm_compute; reflexivity].
  simpl. intros H. apply list_elem_of_singleton in H. lia.
Qed.

Section Bbox3D.
Variable seg : ndarray.

Lemma insert_unique_elem (x y : Z) (l : list Z) :
  y ∈ insert_unique x l -> y = x \/ y ∈ l.
Proof.
  induction l as [|z l IH]; simpl.
  - intros H%list_elem_of_singleton. by left.
  - destruct (x <? z).
    + intros H%elem_of_cons. destruct H; auto.
    + destruct (x =? z); [auto|].
      rewrite !elem_of_cons. intros [->|H]; [auto|].
      destruct (IH H); auto.
Qed.

Lemma np_unique_elem (y : Z) (l : list Z) : y ∈ np_unique l -> y ∈ l.
Proof.
  induction l as [|x l IH]; simpl; [done|].
  intros H%insert_unique_elem. rewrite elem_of_cons.
  destruct H; auto.
Qed.

Lemma axis_slice_label (a j : nat) (s : Z) :
  0 < s -> s ∈ axis_slice seg a j -> s ∈ data seg.
Proof.
  intros Hs Hin. unfold axis_slice in Hin.
  apply list_elem_of_In, in_map_iff in Hin as (p & Hp & _).
  unfold item in Hp.
  destruct (Nat.lt_ge_cases (ravel (shape seg) p) (length (data seg)))
    as [Hlt|Hge].
  - rewrite <- Hp. by apply list_elem_of_In, nth_In.
  - rewrite nth_overflow in Hp by done. lia.
Qed.

Lemma slice_ids_label (a j : nat) (uid_max s : Z) :
  s ∈ slice_ids (axis_slice seg a j) uid_max -> 0 < s /\ s ∈ data seg.
Proof.
  unfold slice_ids. intros H%list_elem_of_In%filter_In. destruct H as [Hin Hc].
  apply andb_true_iff in Hc as [Hpos%Z.ltb_lt _]. split; [done|].
  apply (axis_slice_label a j); [done|].
  by apply np_unique_elem, list_elem_of_In.
Qed.

Lemma table_inv_alter (f : Z -> Z) (c i : nat) (out : list (list Z)) :
  table_inv seg out -> c <> 0%nat ->
  (c = 2%nat -> 0 < Z.of_nat i /\ Z.of_nat i ∈ data seg) ->
  table_inv seg (alter (alter f c) i out).
Proof.
  intros Hinv Hc0 Hc2 k r Hk.
  destruct (decide (i = k)) as [->|Hne].
  - rewrite list_lookup_alter_eq in Hk.
    destruct (out !! k) as [r0|] eqn:Hr0; [|done].
    simpl in Hk. injection Hk as <-.
    destruct (Hinv k r0 Hr0) as [H0 H2]. split.
    + by rewrite list_lookup_alter_ne.
    + destruct (decide (c = 2%nat)) as [->|Hne2]; [right; auto|].
      by rewrite list_lookup_alter_ne.
  - rewrite list_lookup_alter_ne in Hk by done. by apply Hinv.
Qed.

Lemma table_inv_update_cells (f : Z -> Z) (c : nat) (sid : list Z)
    (out : list (list Z)) :
  table_inv seg out -> c <> 0%nat ->
  (forall s, s ∈ sid -> 0 < s /\ s ∈ data seg) ->
  table_inv seg (update_cells f c sid out).
Proof.
  unfold update_cells. revert out.
  induction sid as [|s sid IH]; intros out Hinv Hc Hsid; simpl; [done|].
  apply IH; [|done|].
  - destruct (Hsid s) as [Hpos Hin]; [apply list_elem_of_here|].
    apply table_inv_alter; [done|done|].
    intros _. by rewrite Z2Nat.id by lia.
  - intros s' Hs'. apply Hsid. by apply list_elem_of_further.
Qed.

Lemma table_inv_tighten_axis (cast : Z -> Z) (uid_max : Z) (a c : nat)
    (out : list (list Z)) :
  table_inv seg out -> c <> 0%nat ->
  table_inv seg (tighten_axis cast seg uid_max a c out).
Proof.
  unfold tighten_axis. generalize (axis_hits seg a). intros hits. revert out.
  induction hits as [|j hits IH]; intros out Hinv Hc; simpl; [done|].
  apply IH; [|done].
  apply table_inv_update_cells; [|done|apply slice_ids_label].
  apply table_inv_update_cells; [done|done|apply slice_ids_label].
Qed.

Lemma table_inv_set_counts (cast : Z -> Z) (last : nat)
    (counts : list (Z * Z)) (out out' : list (list Z)) :
  table_inv seg out -> last <> 0%nat -> last <> 2%nat ->
  set_counts cast last out counts = Returns out' -> table_inv seg out'.
Proof.
  unfold set_counts. revert out.
  induction counts as [|[v n] counts IH]; intros out Hinv H0 H2; simpl.
  - by intros [= <-].
  - destruct (py_index (length out) v) as [i|e]; simpl; [|done].
    apply IH; [|done|done]. by apply table_inv_alter.
Qed.

Lemma table_inv_initial (n : nat) (f : Z -> list Z) :
  (forall i, f i !! 0%nat = Some (cast_int32 i) /\ f i !! 2%nat = Some (-1)) ->
  table_inv seg (map (fun i => f (Z.of_nat i)) (seq 0 n)).
Proof.
  intros Hf i r Hr.
  assert (Hi : (i < n)%nat).
  { apply lookup_lt_Some in Hr. by rewrite length_map, length_seq in Hr. }
  assert (r = f (Z.of_nat i)) as ->.
  { change (map (fun i => f (Z.of_nat i)) (seq 0 n))
      with ((fun i => f (Z.of_nat i)) <$> seq 0 n) in Hr.
    rewrite list_lookup_fmap, lookup_seq_lt in Hr by done.
    simpl in Hr. by injection Hr. }
  destruct (Hf (Z.of_nat i)) as [H0 H2]. split; [done|by left].
Qed.

(** The 3D path does what the 2D path misses: every row it returns
    belongs to a positive label that occurs in the map. *)
Lemma compute_bbox_all_3d_only_present (do_count : bool)
    (uid : option (list Z)) (rows : list (list Z)) :
  compute_bbox_all_3d seg do_count uid = Returns rows ->
  forall r, r ∈ rows ->
    exists i : nat,
      hd 0 r = cast_uint32 (cast_int32 (Z.of_nat i)) /\
      0 < Z.of_nat i /\ Z.of_nat i ∈ data seg.
Proof.
  unfold compute_bbox_all_3d.
  destruct (negb (length (shape seg) =? 3)%nat); [done|].
  destruct (np_max _) as [uid_max|e]; simpl; [|done].
  unfold np_rows. destruct (1 + uid_max <? 0); simpl; [done|].
  set (init := fun i : Z =>
    [cast_int32 i;
     cast_int32 (Z.of_nat (nth 0 (shape seg) 0%nat)); -1;
     cast_int32 (Z.of_nat (nth 1 (shape seg) 0%nat)); -1;
     cast_int32 (Z.of_nat (nth 2 (shape seg) 0%nat)); -1]
    ++ (if do_count then [0] else [])).
  assert (Hinit : table_inv seg (map (fun i => init (Z.of_nat i))
                                 (seq 0 (Z.to_nat (1 + uid_max))))).
  { apply table_inv_initial. intros i. by unfold init. }
  set (out3 := tighten_axis _ _ _ 2 5 _).
  assert (H3 : table_inv seg out3).
  { unfold out3. do 3 (apply table_inv_tighten_axis; [|done]). exact Hinit. }
  intros Hret.
  assert (exists out4, table_inv seg out4 /\
            rows = map (map cast_uint32)
                     (List.filter (forallb (fun v => negb (v =? -1))) out4))
    as (out4 & H4 & ->).
  { destruct do_count.
    - destruct (set_counts _ _ _ _) as [out4|e] eqn:Hc; simpl in Hret; [|done].
      exists out4. split; [|by injection Hret].
      by eapply table_inv_set_counts; [exact H3| | |exact Hc].
    - simpl in Hret. exists out3. split; [done|by injection Hret]. }
  intros r Hr.
  apply list_elem_of_In, in_map_iff in Hr as (r0 & <- & Hr0).
  apply filter_In in Hr0 as [Hin Hall].
  apply list_elem_of_In, list_elem_of_lookup in Hin as [i Hi].
  destruct (H4 i r0 Hi) as [H0 [H2|H2]].
  - exfalso. rewrite forallb_forall in Hall.
    apply list_elem_of_lookup_2, list_elem_of_In, Hall in H2. done.
  - exists i. split; [|done]. destruct r0; [done|].
    simpl in *. by injection H0 as ->.
Qed.
End Bbox3D.

(** The example of the specification: the label map
    [[0,1,1],[0,1,0],[2,0,0]]. *)
Example compute_bbox_all_2d_example :
  compute_bbox_all {| shape := [3; 3]%nat; data := [0;1;1; 0;1;0; 2;0;0] |}
                   false None
  = Returns (Some [[1; 0; 1; 1; 2]; [2; 2; 2; 0; 0]]) /\
  compute_bbox_all {| shape := [3; 3]%nat; data := [0;1;1; 0;1;0; 2;0;0] |}
                   true None
  = Returns (Some [[1; 0; 1; 1; 2; 3]; [2; 2; 2; 0; 0; 1]]).
Proof. split; vm_compute; reflexivity. Qed.

(** On the input that breaks the 2D path, the 3D path returns no row for
    the absent id 2. *)
Example compute_bbox_all_3d_drops_absent_id :
  compute_bbox_all {| shape := [1; 1; 1]%nat; data := [1] |} false (Some [2])
  = Returns (Some [[1; 0; 0; 0; 0; 0; 0]]).
Proof. vm_compute. reflexivity. Qed.

(** * Properties of the tiled assembler *)

Section Tabulate.
Implicit Types (s p : list nat) (g : list nat -> Z).

Lemma item_tabulate s g p :
  Forall2 lt p s -> item (tabulate s g) p = g p.
Proof.
  intros Hb. apply ravel_in_bounds in Hb as [Hlt Hinv].
  unfold item, tabulate. simpl.
  rewrite (nth_map_lt _ _ _ 0%nat) by (by rewrite length_seq).
  rewrite seq_nth by done. simpl. by rewrite Hinv.
Qed.

Lemma for_each_invariant {X S} (R : S -> S -> Prop) (xs : list X)
    (body : S -> X -> outcome S) (st st' : S) :
  (forall a, R a a) -> (forall a b c, R a b -> R b c -> R a c) ->
  (forall x a b, x ∈ xs -> body a x = Returns b -> R a b) ->
  for_each xs body st = Returns st' -> R st st'.
Proof.
  intros Hrefl Htrans. revert st.
  induction xs as [|x xs IH]; intros st Hbody; simpl.
  - intros [= <-]. apply Hrefl.
  - destruct (body st x) as [st1|e] eqn:Hx; simpl; [|done].
    intros Hrest. apply (Htrans _ st1).
    + apply (Hbody x); [apply list_elem_of_here|done].
    + apply IH; [|done]. intros y a b Hy. apply Hbody.
      by apply list_elem_of_further.
Qed.

Lemma for_each_ext {X S} (xs : list X) (body body' : S -> X -> outcome S)
    (st : S) :
  (forall x a, x ∈ xs -> body a x = body' a x) ->
  for_each xs body st = for_each xs body' st.
Proof.
  revert st. induction xs as [|x xs IH]; intros st Hext; simpl; [done|].
  rewrite <- (Hext x st) by apply list_elem_of_here.
  destruct (body st x) as [st1|e]; simpl; [|done].
  apply IH. intros y a Hy. apply Hext. by apply list_elem_of_further.
Qed.
End Tabulate.

Section Ranges.
Lemma py_range_elem (a b step : Z) (zs : list Z) :
  1 <= step -> py_range a b step = Returns zs ->
  forall z, z ∈ zs ->
    exists k : nat, z = a + Z.of_nat k * step /\ (k < length zs)%nat /\
                    a <= z < b.
Proof.
  intros Hstep. unfold py_range.
  destruct (Z.eqb_spec step 0) as [|_]; [lia|].
  destruct (Z.ltb_spec 0 step) as [_|]; [|lia].
  intros [= <-] z Hz.
  apply list_elem_of_In, in_map_iff in Hz as (k & <- & Hk).
  apply in_seq in Hk. rewrite length_map, length_seq.
  exists k. split; [done|]. split; [lia|].
  assert (Z.of_nat k < (b - a + step - 1) / step) by lia.
  pose proof (Z.mul_div_le (b - a + step - 1) step ltac:(lia)).
  nia.
Qed.

Lemma py_range_length (a b step : Z) (zs : list Z) (i : nat) :
  1 <= step -> py_range a b step = Returns zs ->
  (i < length zs)%nat -> a + Z.of_nat i * step < b.
Proof.
  intros Hstep. unfold py_range.
  destruct (Z.eqb_spec step 0) as [|_]; [lia|].
  destruct (Z.ltb_spec 0 step) as [_|]; [|lia].
  intros [= <-]. rewrite length_map, length_seq. intros Hi.
  assert (Z.of_nat i < (b - a + step - 1) / step) by lia.
  pose proof (Z.mul_div_le (b - a + step - 1) step ltac:(lia)).
  nia.
Qed.

Lemma enumerate_elem {X} (xs : list X) (i : Z) (x : X) :
  (i, x) ∈ enumerate xs ->
  0 <= i < Z.of_nat (length xs) /\ x ∈ xs.
Proof.
  unfold enumerate. intros H%list_elem_of_In.
  split.
  - apply in_combine_l, in_map_iff in H as (k & <- & Hk).
    apply in_seq in Hk. lia.
  - by apply in_combine_r, list_elem_of_In in H.
Qed.
End Ranges.

Section TiledFrame.
Variable percent_format : string -> Z -> Z -> string.
Variable brace_format : string -> Z -> Z -> string.
Variable path_exists : string -> bool.
Variable read_image : string -> ndarray.
Variable np_pad : ndarray -> list (Z * Z) -> string -> ndarray.

Lemma keeps_from_refl (m : nat) st : keeps_from m st st.
Proof. by split. Qed.

Lemma keeps_from_trans (m : nat) a b c :
  keeps_from m a b -> keeps_from m b c -> keeps_from m a c.
Proof.
  intros [Hs1 Hi1] [Hs2 Hi2]. split; [congruence|].
  intros p Hp Hm. rewrite Hi2, Hi1; try done. by rewrite Hs1.
Qed.

Lemma py_index_nonneg (n : nat) (i : Z) (k : nat) :
  0 <= i -> py_index n i = Returns k -> k = Z.to_nat i.
Proof.
  intros Hi. unfold py_index.
  destruct ((0 <=? i) && (i <? Z.of_nat n)); [by intros [= <-]|].
  destruct (Z.ltb_spec i 0); [lia|]. done.
Qed.

Lemma py_index_in_range (n : nat) (i : Z) :
  0 <= i < Z.of_nat n -> py_index n i = Returns (Z.to_nat i).
Proof.
  intros Hi. unfold py_index.
  destruct (Z.leb_spec 0 i); [|lia]. destruct (Z.ltb_spec i (Z.of_nat n)); [|lia].
  done.
Qed.

Lemma assign_tile_keeps (m : nat) (cast : Z -> Z) (res res' : ndarray)
    (i ylo yhi xlo xhi : Z) (src : ndarray) (l l' : list event) :
  0 <= i < Z.of_nat m ->
  assign_tile cast res i ylo yhi xlo xhi src = Returns res' ->
  keeps_from m (res, l) (res', l').
Proof.
  intros Hi. unfold assign_tile.
  destruct (py_index _ i) as [zi|e] eqn:Hzi; simpl; [|done].
  apply py_index_nonneg in Hzi; [|lia].
  destruct (shape src) as [|sr [|sc [|? ?]]]; try done.
  match goal with
  | |- (if ?c then _ else _) = _ -> _ => destruct c; [|done]
  end.
  intros [= <-]. split; [done|]. simpl.
  intros p Hp Hm. rewrite item_tabulate by done.
  destruct (Nat.eqb_spec (nth 0 p 0%nat) zi) as [Heq|Hne]; [lia|done].
Qed.

Lemma place_tile_keeps (m : nat) (cast : Z -> Z) (tile_sz tile_st : Z * Z)
    (relabel : option (list Z)) (y0 y1 x0 x1 : Z) (pattern : string) (i : Z)
    (st st' : ndarray * list event) (rc : Z * Z) :
  0 <= i < Z.of_nat m ->
  place_tile percent_format brace_format path_exists read_image
             cast tile_sz tile_st relabel y0 y1 x0 x1 pattern i st rc
    = Returns st' ->
  keeps_from m st st'.
Proof.
  intros Hi. unfold place_tile. destruct st as [res log], rc as [row column].
  destruct (path_exists _).
  - destruct (match relabel with Some _ => _ | None => _ end) as [patch|e];
      simpl; [|done].
    destruct (assign_tile _ _ _ _ _ _ _ _) as [res1|e] eqn:Ha; simpl; [|done].
    intros [= <-]. by eapply assign_tile_keeps.
  - intros [= <-]. by split.
Qed.

Lemma read_slices_keeps (cast : Z -> Z) (filenames : list string)
    (tile_sz tile_st : Z * Z) (relabel : option (list Z))
    (y0 y1 x0 x1 r0 r1 c0 c1 : Z) (zs : list Z)
    (st st' : ndarray * list event) :
  read_slices percent_format brace_format path_exists read_image
              cast filenames tile_sz tile_st relabel
              y0 y1 x0 x1 r0 r1 c0 c1 zs st = Returns st' ->
  keeps_from (length zs) st st'.
Proof.
  unfold read_slices.
  apply for_each_invariant;
    [apply keeps_from_refl|apply keeps_from_trans|].
  intros [i z] a b Hx%enumerate_elem.
  destruct (py_index _ z) as [k|e]; simpl; [|done].
  apply for_each_invariant;
    [apply keeps_from_refl|apply keeps_from_trans|].
  intros rc a' b' _. apply place_tile_keeps. lia.
Qed.

Lemma read_slices_patterns (cast : Z -> Z) (filenames filenames' : list string)
    (tile_sz tile_st : Z * Z) (relabel : option (list Z))
    (y0 y1 x0 x1 r0 r1 c0 c1 : Z) (zs : list Z)
    (st : ndarray * list event) :
  length filenames' = length filenames ->
  (forall z, z ∈ zs -> 0 <= z /\
     filenames' !! Z.to_nat z = filenames !! Z.to_nat z) ->
  read_slices percent_format brace_format path_exists read_image
              cast filenames' tile_sz tile_st relabel
              y0 y1 x0 x1 r0 r1 c0 c1 zs st =
  read_slices percent_format brace_format path_exists read_image
              cast filenames tile_sz tile_st relabel
              y0 y1 x0 x1 r0 r1 c0 c1 zs st.
Proof.
  intros Hlen Hsame. unfold read_slices. apply for_each_ext.
  intros [i z] a [_ Hz]%enumerate_elem. rewrite Hlen.
  destruct (py_index _ z) as [k|e] eqn:Hk; simpl; [|done].
  destruct (Hsame z Hz) as [Hz0 Heq].
  apply py_index_nonneg in Hk as ->; [|done].
  by rewrite !nth_lookup, Heq.
Qed.
End TiledFrame.

Section RepairShape.
Lemma assign_slices_shape (result result' : ndarray)
    (dlo dhi slo shi : option Z) :
  assign_slices result dlo dhi slo shi = Returns result' ->
  shape result' = shape result.
Proof.
  unfold assign_slices.
  destruct (py_slice _ dlo dhi) as [ds dl].
  destruct (py_slice _ slo shi) as [ss sl].
  destruct (fits sl dl); [|done]. by intros [= <-].
Qed.

Lemma repair_blank_shape (st st' : ndarray * list event) :
  repair_blank st = Returns st' -> shape (fst st') = shape (fst st).
Proof.
  destruct st as [result log]. unfold repair_blank.
  match goal with
  | |- (if ?c then _ else _) = _ -> _ => destruct c
  end; [by intros [= <-]|].
  destruct (assign_slices result _ _ _ _) as [r1|e] eqn:H1;
    cbn [mbind outcome_bind]; [|done].
  destruct (assign_slices r1 _ _ _ _) as [r2|e] eqn:H2;
    cbn [mbind outcome_bind]; [|done].
  match goal with
  | |- (?m ≫= _) = _ -> _ => destruct m as [r3|e] eqn:H3
  end; cbn [mbind outcome_bind]; [|done].
  intros [= <-]. simpl.
  apply assign_slices_shape in H1, H2.
  assert (shape r3 = shape r2) as ->; [|congruence].
  revert H3.
  apply (for_each_invariant (fun a b : ndarray => shape b = shape a));
    [done|congruence|].
  intros z a b _.
  destruct (negb (slice_any_positive a (Z.to_nat z)));
    [apply assign_slices_shape|by intros [= <-]].
Qed.
End RepairShape.

Section ShortRead.
Variable percent_format : string -> Z -> Z -> string.
Variable brace_format : string -> Z -> Z -> string.
Variable path_exists : string -> bool.
Variable read_image : string -> ndarray.
Variable np_pad : ndarray -> list (Z * Z) -> string -> ndarray.

Lemma read_tile_image_by_bbox_patterns (cast : Z -> Z)
    (filenames filenames' : list string)
    (z0p z1p y0p y1p x0p x1p : Z) (tile_sz tile_st : Z * Z)
    (tile_border_padding tile_blank : string) (zstep : Z)
    (relabel : option (list Z)) :
  0 <= z0p -> 1 <= zstep ->
  length filenames' = length filenames ->
  (forall k : nat,
     z0p <= Z.of_nat k < Z.min (Z.of_nat (length filenames) - 1) z1p ->
     (Z.of_nat k - z0p) mod zstep = 0 ->
     filenames' !! k = filenames !! k) ->
  read_tile_image_by_bbox percent_format brace_format path_exists read_image
    np_pad cast filenames' z0p z1p y0p y1p x0p x1p tile_sz tile_st
    tile_border_padding tile_blank None zstep relabel =
  read_tile_image_by_bbox percent_format brace_format path_exists read_image
    np_pad cast filenames z0p z1p y0p y1p x0p x1p tile_sz tile_st
    tile_border_padding tile_blank None zstep relabel.
Proof.
  intros Hz0 Hstep Hlen Hsame. unfold read_tile_image_by_bbox. rewrite Hlen.
  destruct (py_floordiv (z1p - z0p + zstep - 1) zstep) as [n|e]; simpl; [|done].
  destruct (np_zeros _) as [result|e]; simpl; [|done].
  destruct (py_floordiv x0p _) as [c0|e]; simpl; [|done].
  destruct (py_floordiv (x1p + _ - 1) _) as [c1|e]; simpl; [|done].
  destruct (py_floordiv y0p _) as [r0|e]; simpl; [|done].
  destruct (py_floordiv (y1p + _ - 1) _) as [r1|e]; simpl; [|done].
  destruct (py_range _ _ _) as [zs|e] eqn:Hzs; simpl; [|done].
  rewrite (read_slices_patterns _ _ _ _ cast filenames filenames'); [done|done|].
  intros z Hz.
  destruct (py_range_elem _ _ _ _ Hstep Hzs z Hz) as (k & -> & _ & Hk).
  split; [lia|]. apply Hsame.
  - rewrite Z2Nat.id by lia. lia.
  - rewrite Z2Nat.id by lia.
    replace (z0p + Z.of_nat k * zstep - z0p) with (Z.of_nat k * zstep) by lia.
    apply Z.mod_mul. lia.
Qed.

(** C10 as amended.  With no volume size and the in-memory destination,
    for [0 <= z0p] and [1 <= zstep], the returned array has the shape of
    the requested range; the result depends on no pattern but those at
    the indices of [range(z0p, min(len(filenames) - 1, z1p), zstep)], so
    the pattern at the last index is never read; and, the blank repair
    being off, every destination slice whose z is [len(filenames) - 1] or
    more is still zero. *)
Theorem read_tile_image_by_bbox_short_read (cast : Z -> Z)
    (filenames : list string)
    (z0p z1p y0p y1p x0p x1p : Z) (tile_sz tile_st : Z * Z)
    (tile_border_padding tile_blank : string) (zstep : Z)
    (relabel : option (list Z)) (res : ndarray) (log : list event) :
  0 <= z0p -> 1 <= zstep ->
  read_tile_image_by_bbox percent_format brace_format path_exists read_image
    np_pad cast filenames z0p z1p y0p y1p x0p x1p tile_sz tile_st
    tile_border_padding tile_blank None zstep relabel = Returns (res, log) ->
  shape res = [Z.to_nat ((z1p - z0p + zstep - 1) / zstep);
               Z.to_nat (y1p - y0p); Z.to_nat (x1p - x0p)] /\
  (tile_blank = "" ->
   forall i y x : nat,
     Forall2 lt [i; y; x] (shape res) ->
     Z.of_nat (length filenames) - 1 <= z0p + Z.of_nat i * zstep ->
     item res [i; y; x] = 0) /\
  (forall filenames' : list string,
     length filenames' = length filenames ->
     (forall k : nat,
        z0p <= Z.of_nat k < Z.min (Z.of_nat (length filenames) - 1) z1p ->
        (Z.of_nat k - z0p) mod zstep = 0 ->
        filenames' !! k = filenames !! k) ->
     read_tile_image_by_bbox percent_format brace_format path_exists
       read_image np_pad cast filenames' z0p z1p y0p y1p x0p x1p tile_sz
       tile_st tile_border_padding tile_blank None zstep relabel
     = Returns (res, log)).
Proof.
  intros Hz0 Hstep Hret.
  assert (Hpat : forall filenames' : list string,
     length filenames' = length filenames ->
     (forall k : nat,
        z0p <= Z.of_nat k < Z.min (Z.of_nat (length filenames) - 1) z1p ->
        (Z.of_nat k - z0p) mod zstep = 0 ->
        filenames' !! k = filenames !! k) ->
     read_tile_image_by_bbox percent_format brace_format path_exists
       read_image np_pad cast filenames' z0p z1p y0p y1p x0p x1p tile_sz
       tile_st tile_border_padding tile_blank None zstep relabel
     = Returns (res, log)).
  { intros filenames' Hlen Hsame. rewrite <- Hret.
    by apply read_tile_image_by_bbox_patterns. }
  split; [|split; [|exact Hpat]]; clear Hpat.
  all: revert Hret; unfold read_tile_image_by_bbox.
  all: replace (py_floordiv (z1p - z0p + zstep - 1) zstep)
         with (Returns ((z1p - z0p + zstep - 1) / zstep) : outcome Z)
         by (unfold py_floordiv; destruct (Z.eqb_spec zstep 0); [lia|done]).
  all: cbn [mbind outcome_bind].
  all: unfold np_zeros.
  all: match goal with |- context [forallb ?f ?l] => destruct (forallb f l) end;
         cbn [mbind outcome_bind]; [|done].
  all: repeat match goal with
       | |- context [py_floordiv ?a ?b] =>
           destruct (py_floordiv a b); cbn [mbind outcome_bind]; [|done]
       end.
  all: match goal with
       | |- context [py_range ?a ?b ?c] =>
           destruct (py_range a b c) as [zs|e] eqn:Hzs;
           cbn [mbind outcome_bind]; [|done]
       end.
  all: match goal with
       | |- context [read_slices ?a1 ?a2 ?a3 ?a4 ?a5 ?a6 ?a7 ?a8 ?a9 ?a10 ?a11
                                 ?a12 ?a13 ?a14 ?a15 ?a16 ?a17 ?a18 ?a19] =>
           destruct (read_slices a1 a2 a3 a4 a5 a6 a7 a8 a9 a10 a11 a12 a13
                                 a14 a15 a16 a17 a18 a19)
             as [st|e] eqn:Hread; cbn [mbind outcome_bind]; [|done]
       end.
  all: apply read_slices_keeps in Hread as [Hshape Hitems]; simpl in Hshape.
  - destruct (negb (tile_blank =? "")%string).
    + destruct (repair_blank st) as [st1|e] eqn:Hrep;
        cbn [mbind outcome_bind]; [|done].
      intros [= ->]. apply repair_blank_shape in Hrep. simpl in Hrep.
      rewrite Hrep, Hshape. done.
    + cbn [mbind outcome_bind]. intros [= ->]. simpl in Hshape.
      by rewrite Hshape.
  - intros Hst -> i y x Hb Hlast. revert Hst. simpl. intros [= ->].
    simpl in *. rewrite Hshape in Hb.
    rewrite Hitems; [by rewrite item_tabulate|done|]. simpl.
    destruct (Nat.le_gt_cases (length zs) i) as [Hle|Hlt]; [done|].
    pose proof (py_range_length _ _ _ _ i Hstep Hzs Hlt). lia.
Qed.
End ShortRead.

Lemma read_tile_image_by_bbox_short_read_witness :
  read_tile_image_by_bbox keep_pattern keep_pattern (fun _ => true)
    example_image no_pad cast_uint8 ["a"; "b"; "missing"]
    0 3 0 1 0 1 (1, 1) (0, 0) "reflect" "" None 1 None
  = Returns ({| shape := [3; 1; 1]%nat; data := [1; 2; 0] |}, []).
Proof.
  destruct (read_tile_image_by_bbox_short_read
              keep_pattern keep_pattern (fun _ => true) example_image no_pad
              cast_uint8 ["a"; "b"; "c"] 0 3 0 1 0 1 (1, 1) (0, 0)
              "reflect" "" 1 None
              {| shape := [3; 1; 1]%nat; data := [1; 2; 0] |} [])
    as (_ & _ & H).
  - lia.
  - lia.
  - vm_compute. reflexivity.
  - apply H; [reflexivity|].
    intros [|[|k]] Hk _; [reflexivity|reflexivity|simpl in Hk; lia].
Defined.

(** C10, the inputs on which the claim fails as stated.  With the blank
    repair on and [z1p = len(filenames)], the trailing slice, which the
    tile loop never writes, comes back 1 and not 0: the repair copies the
    slice before it.  With [z0p = -1] the index counts from the end of the
    list, so the pattern at the last index is read: the result changes
    with it. *)
Lemma read_tile_image_by_bbox_trailing_slice_written :
  read_tile_image_by_bbox keep_pattern keep_pattern (fun _ => true)
    example_image no_pad cast_uint8 ["a"; "b"; "c"]
    0 3 0 1 0 1 (1, 1) (0, 0) "reflect" "x" None 1 None
  = Returns ({| shape := [3; 1; 1]%nat; data := [1; 1; 1] |}, []) /\
  read_tile_image_by_bbox keep_pattern keep_pattern (fun _ => true)
    example_image no_pad cast_uint8 ["a"; "b"; "c"]
    (-1) 1 0 1 0 1 (1, 1) (0, 0) "reflect" "" None 1 None
  = Returns ({| shape := [2; 1; 1]%nat; data := [9; 1] |}, []) /\
  read_tile_image_by_bbox keep_pattern keep_pattern (fun _ => true)
    example_image no_pad cast_uint8 ["a"; "b"; "b"]
    (-1) 1 0 1 0 1 (1, 1) (0, 0) "reflect" "" None 1 None
  = Returns ({| shape := [2; 1; 1]%nat; data := [2; 1] |}, []).
Proof. repeat split; vm_compute; reflexivity. Qed.

(** C4, two inputs on which the repair breaks the claim.  Two slices that
    both hold foreground: the repair overwrites the second with the first.
    One slice with foreground followed by a blank one: the repair raises
    instead of copying the neighbour. *)
Theorem read_tile_image_by_bbox_repair_overwrites :
  read_tile_image_by_bbox keep_pattern keep_pattern (fun _ => true)
    example_image no_pad cast_uint8 ["a"; "b"; "c"]
    0 2 0 1 0 1 (1, 1) (0, 0) "reflect" "" None 1 None
  = Returns ({| shape := [2; 1; 1]%nat; data := [1; 2] |}, []) /\
  read_tile_image_by_bbox keep_pattern keep_pattern (fun _ => true)
    example_image no_pad cast_uint8 ["a"; "b"; "c"]
    0 2 0 1 0 1 (1, 1) (0, 0) "reflect" "x" None 1 None
  = Returns ({| shape := [2; 1; 1]%nat; data := [1; 1] |}, []) /\
  read_tile_image_by_bbox keep_pattern keep_pattern (fun _ => true)
    example_image no_pad cast_uint8 ["a"; "b"]
    0 2 0 1 0 1 (1, 1) (0, 0) "reflect" "" None 1 None
  = Returns ({| shape := [2; 1; 1]%nat; data := [1; 0] |}, []) /\
  read_tile_image_by_bbox keep_pattern keep_pattern (fun _ => true)
    example_image no_pad cast_uint8 ["a"; "b"]
    0 2 0 1 0 1 (1, 1) (0, 0) "reflect" "x" None 1 None
  = Raises ValueError.
Proof. repeat split; vm_compute; reflexivity. Qed.

(** The repair does what the claim says on the stack of the spec's own
    example, blank at both ends only. *)
Example repair_blank_both_ends :
  repair_blank ({| shape := [3; 1; 1]%nat; data := [0; 5; 0] |}, [])
  = Returns ({| shape := [3; 1; 1]%nat; data := [5; 5; 5] |}, []).
Proof. vm_compute. reflexivity. Qed.

(** A stack with no foreground at all is reported and returned as it
    is. *)
Example repair_blank_all_zero :
  repair_blank ({| shape := [2; 1; 1]%nat; data := [0; 0] |}, [])
  = Returns ({| shape := [2; 1; 1]%nat; data := [0; 0] |}, [AllZero]).
Proof. vm_compute. reflexivity. Qed.

(** * Properties of the chunked assembler *)

(** The z-extent of block [zid] as lines 202-210 compute it, and the
    blocks visited when [zz2] is positive. *)
Lemma z_block_extent_rule (zyx_sz0 zyx00 zz0 zz1 zz2 zid : Z) :
  let nominal_start := zid * zyx_sz0 + zyx00 in
  let nominal_end := (zid + 1) * zyx_sz0 + zyx00 in
  let ext := z_block_extent zyx_sz0 zyx00 (zz0, zz1, zz2) zid in
  (zid = 0 -> fst ext = nominal_start) /\
  (zid <> 0 -> fst ext = nominal_start + zz0) /\
  (zid <> zz2 -> snd ext = nominal_end + zz0) /\
  (zid = zz2 -> snd ext = nominal_end + zz0 + zz1) /\
  (forall z0 z1 d0 d1,
     z_block_range z0 z1 zyx_sz0 zyx00 (zz0, zz1, zz2) = Returns (d0, d1) ->
     0 < zz2 -> forall z, z ∈ range d0 d1 -> d0 <= z < zz2).
Proof.
  intros nominal_start nominal_end ext.
  unfold ext, nominal_start, nominal_end, z_block_extent. simpl.
  split; [|split; [|split; [|split]]].
  - intros ->. done.
  - intros Hne. by destruct (Z.eqb_spec zid 0).
  - intros Hne. by destruct (Z.eqb_spec zid zz2).
  - intros ->. by rewrite Z.eqb_refl.
  - intros z0 z1 d0 d1 Hrange Hpos z Hz. revert Hrange.
    unfold z_block_range.
    destruct (py_floordiv (Z.max 0 (z0 - zyx00 - zz0)) zyx_sz0) as [d0'|e];
      simpl; [|done].
    destruct (py_floordiv (z1 - zyx00 - zz0 + zyx_sz0 - 1) zyx_sz0)
      as [d1'|e]; simpl; [|done].
    intros [= <- <-].
    destruct (Z.ltb_spec 0 zz2); [|lia].
    unfold range in Hz.
    apply list_elem_of_In, in_map_iff in Hz as (k & <- & Hk).
    apply in_seq in Hk. lia.
Qed.



(** Adjacent blocks meet: a block other than the last ends where the
    next begins. *)
Lemma z_block_extent_adjacent (zyx_sz0 zyx00 zz0 zz1 zz2 zid : Z) :
  zid <> zz2 -> zid + 1 <> 0 ->
  snd (z_block_extent zyx_sz0 zyx00 (zz0, zz1, zz2) zid) =
  fst (z_block_extent zyx_sz0 zyx00 (zz0, zz1, zz2) (zid + 1)).
Proof.
  intros H1 H2. unfold z_block_extent. simpl.
  destruct (Z.eqb_spec zid zz2); [done|].
  destruct (Z.eqb_spec (zid + 1) 0); [done|]. simpl. lia.
Qed.

Section ForEach.
Context {X Y S : Type}.

Lemma for_each_app (l1 l2 : list X) (body : S -> X -> outcome S) (st : S) :
  for_each (l1 ++ l2) body st =
  for_each l1 body st ≫= for_each l2 body.
Proof.
  revert st. induction l1 as [|x l1 IH]; intros st; simpl; [done|].
  destruct (body st x) as [st1|e]; simpl; [apply IH|done].
Qed.

Lemma for_each_flat_map (f : Y -> list X) (l : list Y)
    (body : S -> X -> outcome S) (st : S) :
  for_each (flat_map f l) body st =
  for_each l (fun st y => for_each (f y) body st) st.
Proof.
  revert st. induction l as [|y l IH]; intros st; simpl; [done|].
  rewrite for_each_app.
  destruct (for_each (f y) body st) as [st1|e]; simpl; [apply IH|done].
Qed.

Lemma for_each_map (g : Y -> X) (l : list Y)
    (body : S -> X -> outcome S) (st : S) :
  for_each (map g l) body st = for_each l (fun st y => body st (g y)) st.
Proof.
  revert st. induction l as [|y l IH]; intros st; simpl; [done|].
  destruct (body st (g y)) as [st1|e]; simpl; [apply IH|done].
Qed.
End ForEach.

Section ChunkOrder.
Lemma range_elem (a b z : Z) : z ∈ range a b <-> a <= z < b.
Proof.
  unfold range. rewrite list_elem_of_In, in_map_iff. split.
  - intros (k & <- & Hk). apply in_seq in Hk. lia.
  - intros Hz. exists (Z.to_nat (z - a)). split; [lia|].
    apply in_seq. lia.
Qed.

Lemma range_sorted (a b : Z) : StronglySorted Z.lt (range a b).
Proof.
  unfold range. generalize (Z.to_nat (b - a)). intros n.
  assert (H : forall s, StronglySorted Z.lt
            (map (fun k => a + Z.of_nat k) (seq s n))).
  { induction n as [|n IH]; intros s; simpl; constructor; [apply IH|].
    apply Forall_forall. intros z Hz.
    apply list_elem_of_In, in_map_iff in Hz as (k & <- & Hk).
    apply in_seq in Hk. lia. }
  apply H.
Qed.

Lemma sorted_flat_map {A B} (R1 : A -> A -> Prop) (R : B -> B -> Prop)
    (f : A -> list B) (l : list A) :
  StronglySorted R1 l ->
  (forall x, StronglySorted R (f x)) ->
  (forall x y a b, R1 x y -> a ∈ f x -> b ∈ f y -> R a b) ->
  StronglySorted R (flat_map f l).
Proof.
  intros Hl Hf Hcross. induction Hl as [|x l Hl IH Hx]; simpl; [constructor|].
  assert (Happ : forall l1 l2, StronglySorted R l1 -> StronglySorted R l2 ->
            (forall a b, a ∈ l1 -> b ∈ l2 -> R a b) ->
            StronglySorted R (l1 ++ l2)).
  { intros l1 l2 H1 H2 H12. induction H1 as [|a l1 H1 IH1 Ha]; simpl; [done|].
    constructor.
    - apply IH1. intros a' b Ha' Hb. apply H12; [|done].
      by apply list_elem_of_further.
    - apply Forall_app. split; [done|]. apply Forall_forall.
      intros b Hb. apply H12; [apply list_elem_of_here|done]. }
  apply Happ; [apply Hf|apply IH|].
  intros a b Ha Hb. apply list_elem_of_In, in_flat_map in Hb as (y & Hy & Hb).
  rewrite Forall_forall in Hx.
  apply (Hcross x y); [apply Hx; by apply list_elem_of_In|done|].
  by apply list_elem_of_In.
Qed.

Lemma chunk_order_sorted (d0 d1 r0 r1 c0 c1 : Z) :
  StronglySorted chunk_lt (chunk_order d0 d1 r0 r1 c0 c1).
Proof.
  unfold chunk_order.
  apply (sorted_flat_map Z.lt); [apply range_sorted| |].
  - intros zid. apply (sorted_flat_map Z.lt); [apply range_sorted| |].
    + intros yid. generalize (range_sorted c0 c1).
      induction 1 as [|x l Hl IH Hx]; simpl; constructor; [done|].
      apply Forall_forall. intros c Hc.
      apply list_elem_of_In, in_map_iff in Hc as (x' & <- & Hx').
      rewrite Forall_forall in Hx. apply list_elem_of_In, Hx in Hx'.
      simpl. right. split; [done|]. right. by split.
    + intros y y' a b Hy Ha Hb.
      apply list_elem_of_In, in_map_iff in Ha as (x & <- & _).
      apply list_elem_of_In, in_map_iff in Hb as (x' & <- & _).
      simpl. right. split; [done|]. by left.
  - intros z z' a b Hz Ha Hb.
    apply list_elem_of_In, in_flat_map in Ha as (y & _ & Ha).
    apply in_map_iff in Ha as (x & <- & _).
    apply list_elem_of_In, in_flat_map in Hb as (y' & _ & Hb).
    apply in_map_iff in Hb as (x' & <- & _).
    simpl. by left.
Qed.
End ChunkOrder.

Section Accumulate.
Variable chunk_cast : Z -> Z.

Lemma accumulate_ids_spec (mid : Z) (tmp : ndarray) :
  data tmp <> [] ->
  accumulate_ids chunk_cast mid tmp =
  Returns (offset_block chunk_cast mid tmp, mid + max_of (data tmp)).
Proof.
  intros Hne. unfold accumulate_ids. by rewrite np_max_returns.
Qed.

Lemma accumulate_ids_empty (mid : Z) (tmp : ndarray) :
  data tmp = [] -> accumulate_ids chunk_cast mid tmp = Raises ValueError.
Proof. intros Hd. unfold accumulate_ids. by rewrite Hd. Qed.

Lemma local_max_sum_app (l1 l2 : list ndarray) :
  local_max_sum (l1 ++ l2) = local_max_sum l1 + local_max_sum l2.
Proof.
  induction l1 as [|b l1 IH]; simpl; [done|]. rewrite IH. lia.
Qed.

Lemma running_maxima_app (mid : Z) (l1 l2 : list ndarray) :
  running_maxima mid (l1 ++ l2) =
  running_maxima mid l1 ++ running_maxima (mid + local_max_sum l1) l2.
Proof.
  revert mid. induction l1 as [|b l1 IH]; intros mid; simpl.
  - by rewrite Z.add_0_r.
  - rewrite IH. do 3 f_equal. lia.
Qed.
End Accumulate.

Section ChunkLess.
Implicit Types a b c : Z * Z * Z.

Lemma chunk_ltb_lt a b : chunk_ltb a b = true <-> chunk_lt a b.
Proof.
  destruct a as [[az ay] ax], b as [[bz by_] bx]. unfold chunk_ltb, chunk_lt.
  rewrite !orb_true_iff, !andb_true_iff, !orb_true_iff, !andb_true_iff.
  rewrite !Z.ltb_lt, !Z.eqb_eq. done.
Qed.

Lemma chunk_lt_irrefl a : ~ chunk_lt a a.
Proof. destruct a as [[az ay] ax]. unfold chunk_lt. lia. Qed.

Lemma chunk_lt_asym a b : chunk_lt a b -> ~ chunk_lt b a.
Proof.
  destruct a as [[az ay] ax], b as [[bz by_] bx]. unfold chunk_lt. lia.
Qed.

Lemma filter_none {A} (f : A -> bool) (l : list A) :
  Forall (fun x => f x = false) l -> List.filter f l = [].
Proof.
  induction l as [|x l IH]; simpl; intros Hl; [done|].
  apply Forall_cons in Hl as [Hx Hl]. rewrite Hx. by apply IH.
Qed.

(** In a sorted list of chunks, the chunks before [c] are those smaller
    than [c]. *)
Lemma chunks_before (P Q : list (Z * Z * Z)) c :
  StronglySorted chunk_lt (P ++ c :: Q) ->
  List.filter (fun c' => chunk_ltb c' c) (P ++ c :: Q) = P.
Proof.
  induction P as [|p P IH]; simpl; intros Hs.
  - apply StronglySorted_inv in Hs as [_ Hc].
    assert (Hcc : chunk_ltb c c = false).
    { apply not_true_is_false. rewrite chunk_ltb_lt. apply chunk_lt_irrefl. }
    rewrite Hcc. apply filter_none.
    eapply Forall_impl; [exact Hc|]. intros q Hq. simpl.
    apply not_true_is_false. rewrite chunk_ltb_lt. by apply chunk_lt_asym.
  - apply StronglySorted_inv in Hs as [Hs Hp].
    apply Forall_app in Hp as [_ Hp]. apply Forall_cons in Hp as [Hp _].
    apply chunk_ltb_lt in Hp. rewrite Hp. f_equal. by apply IH.
Qed.

Lemma offset_before_take (block : Z * Z * Z -> option ndarray)
    (chunks : list (Z * Z * Z)) (k : nat) c :
  StronglySorted chunk_lt chunks ->
  chunks !! k = Some c ->
  offset_before block chunks c = local_max_sum (omap block (take k chunks)).
Proof.
  intros Hs Hk. unfold offset_before.
  pose proof (take_drop_middle chunks k c Hk) as Hsplit.
  rewrite <- Hsplit in Hs. apply chunks_before in Hs.
  rewrite Hsplit in Hs. by rewrite Hs.
Qed.

Lemma chunks_of_app (l1 l2 : list (Z * Z * Z + Z)) :
  chunks_of (l1 ++ l2) = chunks_of l1 ++ chunks_of l2.
Proof. unfold chunks_of. apply omap_app. Qed.

Lemma chunks_of_inl (l : list (Z * Z * Z)) : chunks_of (map inl l) = l.
Proof. induction l as [|c l IH]; simpl; [done|]. by f_equal. Qed.

Lemma chunks_of_steps (d0 d1 r0 r1 c0 c1 : Z) :
  chunks_of (chunk_steps d0 d1 r0 r1 c0 c1) = chunk_order d0 d1 r0 r1 c0 c1.
Proof.
  unfold chunk_steps, chunk_order.
  induction (range d0 d1) as [|zid l IH]; simpl; [done|].
  rewrite !chunks_of_app, chunks_of_inl, IH.
  change (chunks_of [inr zid]) with (@nil (Z * Z * Z)).
  by rewrite app_nil_r.
Qed.
End ChunkLess.

Section Agreement.
Context {X S S' : Type}.

(** Two loops whose bodies agree step by step agree at the end. *)
Lemma for_each_agree (R : list X -> S -> S' -> Prop)
    (body : S -> X -> outcome S) (body' : S' -> X -> outcome S')
    (xs : list X) :
  (forall pre x post s s',
     xs = pre ++ x :: post -> R pre s s' ->
     agree (R (pre ++ [x])) (body s x) (body' s' x)) ->
  forall s s', R [] s s' ->
  agree (R xs) (for_each xs body s) (for_each xs body' s').
Proof.
  intros Hstep.
  assert (H : forall rest pre s s',
            xs = pre ++ rest -> R pre s s' ->
            agree (R xs) (for_each rest body s) (for_each rest body' s')).
  { induction rest as [|x rest IH]; intros pre s s' Hxs HR; simpl.
    - rewrite app_nil_r in Hxs. subst pre. by exists s.
    - specialize (Hstep pre x rest s s' Hxs HR). unfold agree in Hstep.
      destruct (body' s' x) as [t'|e]; simpl.
      + destruct Hstep as (t & -> & Ht). simpl.
        apply (IH (pre ++ [x])); [by rewrite <- app_assoc|done].
      + by rewrite Hstep. }
  intros s s' HR. by apply (H xs []).
Qed.

(** A step that raises whatever the state makes the loop raise. *)
Lemma for_each_raises_at (body : S -> X -> outcome S) (xs : list X) (x : X) :
  x ∈ xs ->
  (forall s, exists e, body s x = Raises e) ->
  forall s, exists e, for_each xs body s = Raises e.
Proof.
  intros Hin Hx. induction xs as [|a xs IH]; intros s; [by inversion Hin|].
  simpl. apply elem_of_cons in Hin as [<-|Hin].
  - destruct (Hx s) as [e ->]. by exists e.
  - destruct (body s a) as [t|e]; simpl; [by apply IH|by exists e].
Qed.
End Agreement.

Section ChunkedLoop.
Variable path_exists : string -> bool.
Variable h5_rank : string -> Z * Z * Z -> nat.
Variable h5_read : string -> Z * Z * Z -> list sel -> ndarray.
Variable percent_format1 : string -> Z -> string.
Variables (cast mask_cast chunk_cast : Z -> Z).
Variable h5_name : Z -> Z -> Z -> string.
Variables (z0 z1 y0 y1 x0 x1 : Z) (zyx_sz zyx0 : Z * Z * Z) (cid : Z).
Variables (zz : Z * Z * Z) (tile_step : Z * Z) (zstep : Z).

Lemma outcome_bind_returns {A} (m : outcome A) : m ≫= Returns = m.
Proof. by destruct m. Qed.

(** The three nested loops are one loop over the steps. *)
Lemma read_z_blocks_steps (acc_id : bool) (output_file : option string)
    (mask : option ndarray) (r0 r1 c0 c1 d0 d1 : Z) (st : h5_state) :
  for_each (range d0 d1)
    (read_z_block path_exists h5_rank h5_read percent_format1
       cast mask_cast chunk_cast h5_name z0 z1 y0 y1 x0 x1 zyx_sz zyx0 cid zz
       tile_step zstep acc_id output_file mask r0 r1 c0 c1) st =
  for_each (chunk_steps d0 d1 r0 r1 c0 c1)
    (run_step path_exists h5_rank h5_read percent_format1
       cast mask_cast chunk_cast h5_name z0 z1 y0 y1 x0 x1 zyx_sz zyx0 cid zz
       tile_step zstep acc_id output_file mask) st.
Proof.
  unfold chunk_steps. rewrite for_each_flat_map.
  apply for_each_ext. intros zid a _.
  rewrite for_each_app, for_each_map, for_each_flat_map.
  unfold read_z_block.
  destruct (z_block_extent _ _ zz zid) as [zp0 zp1] eqn:Hext.
  match goal with
  | |- (?m ≫= _) = (?m' ≫= _) => replace m' with m
  end.
  - destruct (for_each _ _ a) as [s|e]; simpl; [|done].
    unfold z_block_finish_at. rewrite Hext.
    by rewrite outcome_bind_returns.
  - apply for_each_ext. intros yid b _. rewrite for_each_map.
    apply for_each_ext. intros xid c _. simpl. unfold read_chunk_at.
    by rewrite Hext.
Qed.

(** Without a mask and without per-slice images the three nested loops
    are one loop over the chunks in [chunk_order]. *)
Lemma read_z_blocks_flat (acc_id : bool) (output_file : option string)
    (r0 r1 c0 c1 d0 d1 : Z) (st : h5_state) :
  match output_file with None => True | Some f => str_in ".h5" f = true end ->
  for_each (range d0 d1)
    (read_z_block path_exists h5_rank h5_read percent_format1
       cast mask_cast chunk_cast h5_name z0 z1 y0 y1 x0 x1 zyx_sz zyx0 cid zz
       tile_step zstep acc_id output_file None r0 r1 c0 c1) st =
  for_each (chunk_order d0 d1 r0 r1 c0 c1)
    (read_chunk_at path_exists h5_rank h5_read cast chunk_cast h5_name
       z0 z1 y0 y1 x0 x1 zyx_sz zyx0 cid zz tile_step zstep acc_id
       match output_file with None => false | Some f => str_in ".h5" f end
       false) st.
Proof.
  intros Hmode. unfold chunk_order. rewrite for_each_flat_map.
  apply for_each_ext. intros zid a _.
  rewrite for_each_flat_map. unfold read_z_block, z_block_finish.
  assert (Himg : match output_file with
                 | None => false
                 | Some f => negb (str_in ".h5" f)
                 end = false).
  { destruct output_file as [f|]; [|done]. by rewrite Hmode. }
  rewrite Himg.
  destruct (z_block_extent _ _ zz zid) as [zp0 zp1] eqn:Hext.
  match goal with
  | |- (?m ≫= _) = ?m' => replace m' with m
  end.
  - destruct (for_each _ _ a) as [[[result mid] log]|e]; simpl; [|done].
    by destruct output_file.
  - apply for_each_ext. intros yid b _. rewrite for_each_map.
    apply for_each_ext. intros xid c _. unfold read_chunk_at.
    by rewrite Hext.
Qed.
End ChunkedLoop.

Section AccumulateSteps.
Variable path_exists : string -> bool.
Variable h5_rank : string -> Z * Z * Z -> nat.
Variable h5_read : string -> Z * Z * Z -> list sel -> ndarray.
Variable percent_format1 : string -> Z -> string.
Variables (cast mask_cast chunk_cast : Z -> Z).
Variable h5_name : Z -> Z -> Z -> string.
Variables (z0 z1 y0 y1 x0 x1 : Z) (zyx_sz zyx0 : Z * Z * Z) (cid : Z).
Variables (zz : Z * Z * Z) (tile_step : Z * Z) (zstep : Z).
Variables (output_file : option string) (mask : option ndarray).
Variable offset : Z * Z * Z -> Z.

Local Abbreviation block :=
  (chunk_block path_exists h5_rank h5_read h5_name z0 z1 y0 y1 x0 x1
     zyx_sz zyx0 cid zz tile_step zstep).
Local Abbreviation step_with :=
  (run_step path_exists h5_rank h5_read percent_format1
     cast mask_cast chunk_cast h5_name z0 z1 y0 y1 x0 x1 zyx_sz zyx0 cid zz
     tile_step zstep true output_file mask).
Local Abbreviation step_without :=
  (run_step path_exists h5_rank (offset_read chunk_cast offset h5_read)
     percent_format1
     cast mask_cast chunk_cast h5_name z0 z1 y0 y1 x0 x1 zyx_sz zyx0 cid zz
     tile_step zstep false output_file mask).
Local Abbreviation kept := (List.filter (fun e => negb (is_print_mid e))).

(** The offset reader hands out the offset block. *)
Lemma chunk_tmp_offset (path : string)
    (zid yid zp0 yp0 z0a z1a y0a y1a xid : Z) :
  chunk_tmp h5_rank (offset_read chunk_cast offset h5_read) path x0 x1
    zyx_sz zyx0 cid tile_step zstep zid yid zp0 yp0 z0a z1a y0a y1a xid =
  offset_block chunk_cast (offset (zid, yid, xid))
    (chunk_tmp h5_rank h5_read path x0 x1
       zyx_sz zyx0 cid tile_step zstep zid yid zp0 yp0 z0a z1a y0a y1a xid).
Proof.
  unfold chunk_tmp, offset_read.
  destruct (cid =? -1); [by destruct (Nat.eqb _ 3)|].
  by destruct (cid =? -2).
Qed.

Lemma omap_cons_Some {A B} (f : A -> option B) (x : A) (y : B) (l : list A) :
  f x = Some y -> omap f (x :: l) = y :: omap f l.
Proof. intros H. simpl. by rewrite H. Qed.

Lemma omap_cons_None {A B} (f : A -> option B) (x : A) (l : list A) :
  f x = None -> omap f (x :: l) = omap f l.
Proof. intros H. simpl. by rewrite H. Qed.

Lemma kept_app (l1 l2 : list event) : kept (l1 ++ l2) = kept l1 ++ kept l2.
Proof. apply List.filter_app. Qed.

(** Reading a chunk keeps the two runs together when the reader of the
    run without accumulation offsets the block by the running maximum. *)
Lemma chunk_step_agree (P : list (Z * Z * Z)) (c : Z * Z * Z)
    (s s' : h5_state) :
  offset c = local_max_sum (omap block P) ->
  (forall tmp, block c = Some tmp -> data tmp <> []) ->
  accumulated block P s s' ->
  agree (accumulated block (P ++ [c]))
        (step_with s (inl c)) (step_without s' (inl c)).
Proof.
  intros Hoff Hne (Hres & Hmid & Hmid' & Hlog & Hprint).
  destruct s as [[res mid] log], s' as [[res' mid'] log'].
  simpl in Hres, Hmid, Hmid', Hlog, Hprint. subst res' mid' log'.
  destruct c as [[zid yid] xid].
  unfold run_step, read_chunk_at, read_chunk.
  destruct (z_block_extent _ _ zz zid) as [zp0 zp1] eqn:Hext.
  set (tmp := chunk_tmp h5_rank h5_read (h5_name zid yid xid) x0 x1
                zyx_sz zyx0 cid tile_step zstep zid yid zp0
                (yid * snd (fst zyx_sz) + snd (fst zyx0))
                (Z.max z0 zp0) (Z.min z1 zp1)
                (Z.max y0 (yid * snd (fst zyx_sz) + snd (fst zyx0)))
                (Z.min y1 ((yid + 1) * snd (fst zyx_sz) + snd (fst zyx0)))
                xid).
  assert (Hb : block (zid, yid, xid) =
               if path_exists (h5_name zid yid xid) then Some tmp else None).
  { unfold chunk_block. by rewrite Hext. }
  destruct (path_exists (h5_name zid yid xid)) eqn:He.
  - rewrite chunk_tmp_offset. fold tmp.
    rewrite (accumulate_ids_spec chunk_cast mid tmp) by (by apply Hne).
    rewrite Hoff, <- Hmid. simpl.
    match goal with
    | |- agree _ (?m ≫= _) _ => destruct m as [r|e]
    end; simpl; [|done].
    eexists. split; [reflexivity|].
    unfold accumulated. cbn [fst snd].
    rewrite (omap_app block), (omap_cons_Some block _ tmp) by exact Hb.
    rewrite local_max_sum_app, running_maxima_app, <- Hmid.
    rewrite !kept_app, !(omap_app printed_mid), Hprint. simpl.
    rewrite !app_nil_r, Z.add_0_r, Z.add_0_l. done.
  - simpl. eexists. split; [reflexivity|].
    unfold accumulated. cbn [fst snd].
    rewrite (omap_app block), (omap_cons_None block) by exact Hb.
    change (omap block []) with (@nil ndarray).
    by rewrite app_nil_r.
Qed.

(** A chunk whose block is empty stops the run with accumulation. *)
Lemma chunk_step_raises (c : Z * Z * Z) (tmp : ndarray) (s : h5_state) :
  block c = Some tmp -> data tmp = [] ->
  step_with s (inl c) = Raises ValueError.
Proof.
  intros Hb Hd. destruct s as [[res mid] log], c as [[zid yid] xid].
  unfold run_step, read_chunk_at, read_chunk. unfold chunk_block in Hb.
  destruct (z_block_extent _ _ zz zid) as [zp0 zp1] eqn:Hext.
  destruct (path_exists (h5_name zid yid xid)); [|done].
  injection Hb as Hb. rewrite Hb.
  by rewrite (accumulate_ids_empty chunk_cast mid tmp Hd).
Qed.

(** Writing the per-slice images adds the same lines to both logs. *)
Lemma write_images_agree (f : string) (res : ndarray) (z0a : Z)
    (zs : list Z) (log : list event) :
  agree (fun l l' => kept l = l' /\ omap printed_mid l = omap printed_mid log)
    (for_each zs
       (fun log z =>
          k ← py_index (nth 0 (shape res) 0%nat) (z - z0a);
          Returns (log ++ [WriteImage (percent_format1 f z)
                                      (axis_slice res 0 k)])) log)
    (for_each zs
       (fun log z =>
          k ← py_index (nth 0 (shape res) 0%nat) (z - z0a);
          Returns (log ++ [WriteImage (percent_format1 f z)
                                      (axis_slice res 0 k)])) (kept log)).
Proof.
  apply (for_each_agree
           (fun _ l l' => kept l = l' /\
                          omap printed_mid l = omap printed_mid log));
    [|done].
  intros pre z post l l' _ [<- Hl].
  destruct (py_index _ _) as [k|e]; simpl; [|done].
  eexists. split; [reflexivity|].
  rewrite kept_app, omap_app, Hl. simpl. by rewrite app_nil_r.
Qed.

(** The end of a z-block keeps the two runs together. *)
Lemma finish_step_agree (P : list (Z * Z * Z)) (zid : Z) (s s' : h5_state) :
  accumulated block P s s' ->
  agree (accumulated block P)
        (step_with s (inr zid)) (step_without s' (inr zid)).
Proof.
  intros (Hres & Hmid & Hmid' & Hlog & Hprint).
  destruct s as [[res mid] log], s' as [[res' mid'] log'].
  simpl in Hres, Hmid, Hmid', Hlog, Hprint. subst res' mid' log'.
  unfold run_step, z_block_finish_at, z_block_finish.
  destruct (z_block_extent _ _ zz zid) as [zp0 zp1].
  match goal with
  | |- agree _ (?m ≫= _) _ => destruct m as [r|e]
  end; simpl; [|done].
  destruct output_file as [f|]; [|by eexists].
  destruct (negb (str_in ".h5" f)); [|by eexists].
  pose proof (write_images_agree f r (Z.max z0 zp0)
                (range (Z.max z0 zp0) (Z.min z1 zp1)) log) as Hw.
  unfold agree in Hw.
  destruct (for_each _ _ (kept log)) as [l'|e]; simpl.
  - destruct Hw as (l & -> & Hl & Hl'). simpl.
    eexists. split; [reflexivity|]. unfold accumulated. simpl.
    by rewrite Hl'.
  - by rewrite Hw.
Qed.

(** The two runs agree at the end of the loops. *)
Lemma steps_agree (d0 d1 r0 r1 c0 c1 : Z) (res : ndarray) :
  (forall c, offset c =
             offset_before block (chunk_order d0 d1 r0 r1 c0 c1) c) ->
  Forall (fun tmp => data tmp <> [])
         (omap block (chunk_order d0 d1 r0 r1 c0 c1)) ->
  agree (accumulated block (chunk_order d0 d1 r0 r1 c0 c1))
    (for_each (chunk_steps d0 d1 r0 r1 c0 c1) step_with (res, 0, []))
    (for_each (chunk_steps d0 d1 r0 r1 c0 c1) step_without (res, 0, [])).
Proof.
  intros Hoff Hne.
  rewrite <- (chunks_of_steps d0 d1 r0 r1 c0 c1) at 1.
  apply (for_each_agree (fun pre => accumulated block (chunks_of pre)));
    [|done].
  intros pre x post s s' Hsteps HR. rewrite chunks_of_app.
  destruct x as [c|zid].
  - change (chunks_of [inl c]) with [c].
    assert (Hsplit : chunk_order d0 d1 r0 r1 c0 c1 =
                     chunks_of pre ++ c :: chunks_of post).
    { by rewrite <- chunks_of_steps, Hsteps, chunks_of_app. }
    apply chunk_step_agree; [| |done].
    + rewrite Hoff. unfold offset_before. rewrite Hsplit.
      rewrite chunks_before; [done|]. rewrite <- Hsplit.
      apply chunk_order_sorted.
    + intros tmp Htmp. rewrite Forall_forall in Hne. apply Hne.
      apply list_elem_of_omap. exists c. split; [|done].
      rewrite Hsplit. apply elem_of_app. right. apply list_elem_of_here.
  - change (chunks_of [inr zid]) with (@nil (Z * Z * Z)).
    rewrite app_nil_r. by apply finish_step_agree.
Qed.

(** An empty block among those read stops the run with accumulation. *)
Lemma steps_raise (d0 d1 r0 r1 c0 c1 : Z) (st : h5_state) :
  Exists (fun tmp => data tmp = [])
         (omap block (chunk_order d0 d1 r0 r1 c0 c1)) ->
  exists e, for_each (chunk_steps d0 d1 r0 r1 c0 c1) step_with st = Raises e.
Proof.
  intros (tmp & Htmp & Hd)%Exists_exists.
  apply list_elem_of_omap in Htmp as (c & Hc & Hb).
  apply (for_each_raises_at _ _ (inl c)).
  - rewrite <- chunks_of_steps in Hc. unfold chunks_of in Hc.
    apply list_elem_of_omap in Hc as ([c'|zid] & Hc' & Heq); [|done].
    by injection Heq as ->.
  - intros s. exists ValueError. by apply (chunk_step_raises c tmp).
Qed.
End AccumulateSteps.

Section AccumulateBlocks.
Variable path_exists : string -> bool.
Variable h5_rank : string -> Z * Z * Z -> nat.
Variable h5_read : string -> Z * Z * Z -> list sel -> ndarray.
Variable percent_format1 : string -> Z -> string.
Variable get_h5_chunk2d : Z -> Z -> Z * Z -> outcome (Z * Z).
Variable h5_create_dataset : list Z -> list Z -> outcome unit.
Variables (dt_cast dt_clip mask_cast chunk_cast : Z -> Z).
Variable h5_name : Z -> Z -> Z -> string.
Variables (z0 z1 y0 y1 x0 x1 : Z) (zyx_sz zyx0 : Z * Z * Z) (cid : Z).
Variables (zz : Z * Z * Z) (tile_step : Z * Z) (zstep : Z).
Variables (output_file : option string) (output_chunk : Z).
Variables (tile_type : string) (mask : option ndarray).

Local Abbreviation chunks := (chunks_read z0 z1 y0 y1 x0 x1 zyx_sz zyx0 zz).
Local Abbreviation block :=
  (chunk_block path_exists h5_rank h5_read h5_name z0 z1 y0 y1 x0 x1
     zyx_sz zyx0 cid zz tile_step zstep).

(** The run with id accumulation and the run without it on the offset
    blocks agree. *)
Lemma read_tile_h5_blocks_agree :
  Forall (fun tmp => data tmp <> []) (omap block chunks) ->
  agree (accumulated block chunks)
    (read_tile_h5_blocks path_exists h5_rank h5_read percent_format1
       get_h5_chunk2d h5_create_dataset dt_cast dt_clip mask_cast chunk_cast
       h5_name z0 z1 y0 y1 x0 x1 zyx_sz zyx0 cid zz tile_step zstep true
       output_file output_chunk tile_type mask)
    (read_tile_h5_blocks path_exists h5_rank
       (offset_read chunk_cast (offset_before block chunks) h5_read)
       percent_format1
       get_h5_chunk2d h5_create_dataset dt_cast dt_clip mask_cast chunk_cast
       h5_name z0 z1 y0 y1 x0 x1 zyx_sz zyx0 cid zz tile_step zstep false
       output_file output_chunk tile_type mask).
Proof.
  intros Hne. unfold read_tile_h5_blocks.
  match goal with
  | |- agree _ (?m ≫= _) _ => destruct m as [res|e]
  end; simpl; [|done].
  unfold chunks_read in Hne |- *.
  destruct zyx_sz as [[s0 s1] s2], zyx0 as [[o0 o1] o2], zz as [[zz0 zz1] zz2].
  unfold z_block_range, py_floordiv. cbn [fst snd] in Hne |- *.
  destruct (s2 =? 0); [done|]. simpl.
  destruct (s1 =? 0); [done|]. simpl.
  destruct (s0 =? 0); [done|]. simpl.
  rewrite !read_z_blocks_steps.
  by apply steps_agree.
Qed.

(** With an empty block among those read, the run with id accumulation
    raises. *)
Lemma read_tile_h5_blocks_empty_block :
  Exists (fun tmp => data tmp = []) (omap block chunks) ->
  exists e,
    read_tile_h5_blocks path_exists h5_rank h5_read percent_format1
      get_h5_chunk2d h5_create_dataset dt_cast dt_clip mask_cast chunk_cast
      h5_name z0 z1 y0 y1 x0 x1 zyx_sz zyx0 cid zz tile_step zstep true
      output_file output_chunk tile_type mask = Raises e.
Proof.
  intros Hex. unfold read_tile_h5_blocks.
  match goal with
  | |- exists e, (?m ≫= _) = _ => destruct m as [res|e]
  end; simpl; [|by eexists].
  unfold chunks_read in Hex.
  destruct zyx_sz as [[s0 s1] s2], zyx0 as [[o0 o1] o2], zz as [[zz0 zz1] zz2].
  unfold z_block_range, py_floordiv. cbn [fst snd] in Hex |- *.
  destruct (s2 =? 0); [by eexists|]. simpl.
  destruct (s1 =? 0); [by eexists|]. simpl.
  destruct (s0 =? 0); [by eexists|]. simpl.
  rewrite read_z_blocks_steps.
  by apply steps_raise.
Qed.
End AccumulateBlocks.

(** C6.  With [output_file = None] the call never returns: once the
    blocks are read, line 273 raises [TypeError]. *)
Theorem read_tile_h5_by_bbox_in_memory_raises
    (path_exists : string -> bool) (h5_rank : string -> Z * Z * Z -> nat)
    (h5_read : string -> Z * Z * Z -> list sel -> ndarray)
    (percent_format1 : string -> Z -> string)
    (get_h5_chunk2d : Z -> Z -> Z * Z -> outcome (Z * Z))
    (h5_create_dataset : list Z -> list Z -> outcome unit)
    (dt_cast dt_clip mask_cast chunk_cast : Z -> Z)
    (h5_name : Z -> Z -> Z -> string)
    (z0 z1 y0 y1 x0 x1 : Z) (zyx_sz zyx0 : Z * Z * Z) (cid : Z)
    (zz : Z * Z * Z) (tile_step : Z * Z) (zstep : Z) (acc_id : bool)
    (output_chunk : Z) (tile_type : string) (mask : option ndarray) :
  (forall r,
     read_tile_h5_by_bbox path_exists h5_rank h5_read percent_format1
       get_h5_chunk2d h5_create_dataset
       dt_cast dt_clip mask_cast chunk_cast h5_name
       z0 z1 y0 y1 x0 x1 zyx_sz zyx0 cid zz
       tile_step zstep acc_id None output_chunk tile_type mask
     <> Returns r) /\
  (forall st,
     read_tile_h5_blocks path_exists h5_rank h5_read percent_format1
       get_h5_chunk2d h5_create_dataset
       dt_cast dt_clip mask_cast chunk_cast h5_name
       z0 z1 y0 y1 x0 x1 zyx_sz zyx0 cid zz
       tile_step zstep acc_id None output_chunk tile_type mask
     = Returns st ->
     read_tile_h5_by_bbox path_exists h5_rank h5_read percent_format1
       get_h5_chunk2d h5_create_dataset
       dt_cast dt_clip mask_cast chunk_cast h5_name
       z0 z1 y0 y1 x0 x1 zyx_sz zyx0 cid zz
       tile_step zstep acc_id None output_chunk tile_type mask
     = Raises TypeError) /\
  read_tile_h5_by_bbox (fun _ => true) (fun _ _ => 3%nat) example_chunk
    example_image_name example_chunk2d example_create_dataset
    cast_uint16 clip_uint16 cast_uint16 cast_uint16 example_chunk_name
    0 1 0 1 0 4 (1, 1, 2) (0, 0, 0) (-1) (0, 0, -1) (1, 1) 1 false
    None 8192 "seg" None = Raises TypeError.
Proof.
  split; [|split].
  - intros r. unfold read_tile_h5_by_bbox.
    destruct (read_tile_h5_blocks _ _ _ _ _ _ _ _ _ _ _ _ _ _ _ _ _ _ _ _ _
                _ _ _ _ _ _)
      as [[[result mid] log]|e]; simpl; done.
  - intros [[result mid] log] Hst. unfold read_tile_h5_by_bbox.
    by rewrite Hst.
  - vm_compute. reflexivity.
Qed.


(** * Properties of the tables of [compute_bbox_all] *)

Section Unique.
Implicit Types (l : list Z) (x y : Z).

Lemma insert_unique_iff x y l :
  y ∈ insert_unique x l <-> y = x \/ y ∈ l.
Proof.
  induction l as [|z l IH]; simpl.
  - rewrite list_elem_of_singleton, elem_of_nil. tauto.
  - destruct (Z.ltb_spec x z).
    + by rewrite elem_of_cons.
    + destruct (Z.eqb_spec x z) as [->|Hne].
      * rewrite elem_of_cons. tauto.
      * rewrite !elem_of_cons, IH. tauto.
Qed.

Lemma np_unique_iff y l : y ∈ np_unique l <-> y ∈ l.
Proof.
  induction l as [|x l IH]; simpl; [done|].
  rewrite insert_unique_iff, elem_of_cons, IH. tauto.
Qed.

Lemma insert_unique_sorted x l :
  StronglySorted Z.lt l -> StronglySorted Z.lt (insert_unique x l).
Proof.
  induction 1 as [|z l Hs IH Hall]; simpl.
  - repeat constructor.
  - destruct (Z.ltb_spec x z).
    + constructor; [by constructor|].
      constructor; [done|].
      eapply Forall_impl; [exact Hall|]. simpl. lia.
    + destruct (Z.eqb_spec x z); [by constructor|].
      constructor; [done|].
      apply Forall_forall. intros y Hy.
      apply insert_unique_iff in Hy as [->|Hy]; [lia|].
      rewrite Forall_forall in Hall. by apply Hall.
Qed.

Lemma np_unique_sorted l : StronglySorted Z.lt (np_unique l).
Proof.
  induction l as [|x l IH]; simpl; [constructor|].
  by apply insert_unique_sorted.
Qed.

Lemma sorted_lt_NoDup l : StronglySorted Z.lt l -> NoDup l.
Proof.
  induction 1 as [|z l Hs IH Hall]; constructor; [|done].
  intros Hin. rewrite Forall_forall in Hall. specialize (Hall z Hin). lia.
Qed.

Lemma sorted_lt_filter (f : Z -> bool) l :
  StronglySorted Z.lt l -> StronglySorted Z.lt (List.filter f l).
Proof.
  induction 1 as [|z l Hs IH Hall]; simpl; [constructor|].
  destruct (f z); [|done].
  constructor; [done|].
  apply Forall_forall. intros y Hy.
  apply list_elem_of_In, filter_In in Hy as [Hy _].
  rewrite Forall_forall in Hall. by apply Hall, list_elem_of_In.
Qed.
End Unique.

Section Slices.
Variable seg : ndarray.

Lemma all_positions_elem (s p : list nat) :
  p ∈ all_positions s <-> Forall2 lt p s.
Proof.
  unfold all_positions. rewrite list_elem_of_In, in_map_iff. split.
  - intros (k & <- & Hk). apply in_seq in Hk.
    apply unravel_in_bounds. lia.
  - intros Hb. apply ravel_in_bounds in Hb as [Hk Hp].
    exists (ravel s p). split; [done|]. apply in_seq. lia.
Qed.

Lemma axis_slice_elem (a j : nat) (v : Z) :
  v ∈ axis_slice seg a j <->
  exists p, Forall2 lt p (shape seg) /\ nth a p 0%nat = j /\ item seg p = v.
Proof.
  unfold axis_slice. rewrite list_elem_of_In, in_map_iff. split.
  - intros (p & Hv & Hp). apply filter_In in Hp as [Hp Ha].
    apply Nat.eqb_eq in Ha. exists p.
    by apply list_elem_of_In, all_positions_elem in Hp.
  - intros (p & Hb & Ha & Hv). exists p. split; [done|].
    apply filter_In. split.
    + by apply list_elem_of_In, all_positions_elem.
    + by apply Nat.eqb_eq.
Qed.

Lemma in_bounds_nth (p s : list nat) (a : nat) :
  Forall2 lt p s -> (a < length s)%nat -> (nth a p 0 < nth a s 0)%nat.
Proof.
  intros H. revert a. induction H as [|i d p s Hi _ IH]; intros a Ha.
  - simpl in Ha. lia.
  - destruct a as [|a]; simpl in *; [done|]. apply IH. lia.
Qed.

Lemma label_hits_elem (uid_max : Z) (a i j : nat) :
  (a < ndim seg)%nat -> 0 < Z.of_nat i <= uid_max ->
  j ∈ label_hits seg uid_max a i <->
  exists p, Forall2 lt p (shape seg) /\ nth a p 0%nat = j
            /\ item seg p = Z.of_nat i.
Proof.
  intros Ha Hi. unfold label_hits, axis_hits, slice_ids.
  rewrite list_elem_of_In, filter_In, bool_decide_eq_true, filter_In.
  rewrite in_seq, existsb_exists.
  rewrite list_elem_of_In, filter_In, <- list_elem_of_In, np_unique_iff.
  rewrite axis_slice_elem. split.
  - intros (_ & Hp & _). exact Hp.
  - intros (p & Hb & Hj & Hv). split; [split|split].
    + split; [lia|]. simpl. rewrite <- Hj. by apply in_bounds_nth.
    + exists (Z.of_nat i). split; [|apply Z.ltb_lt; lia].
      apply list_elem_of_In, axis_slice_elem. by exists p.
    + by exists p.
    + apply andb_true_iff. split; [apply Z.ltb_lt|apply Z.leb_le]; lia.
Qed.

Lemma slice_ids_NoDup (vals : list Z) (uid_max : Z) :
  NoDup (slice_ids vals uid_max).
Proof.
  apply sorted_lt_NoDup, sorted_lt_filter, np_unique_sorted.
Qed.

Lemma slice_ids_pos (vals : list Z) (uid_max s : Z) :
  s ∈ slice_ids vals uid_max -> 0 < s <= uid_max.
Proof.
  unfold slice_ids. intros H%list_elem_of_In%filter_In.
  destruct H as [_ H]. apply andb_true_iff in H as [H1%Z.ltb_lt H2%Z.leb_le].
  done.
Qed.
End Slices.

Section TightenRows.
Variable cast : Z -> Z.

Lemma update_cells_lookup (f : Z -> Z) (c : nat) (sid : list Z)
    (out : list (list Z)) (i : nat) :
  NoDup sid -> (forall s, s ∈ sid -> 0 <= s) ->
  update_cells f c sid out !! i =
  (if bool_decide (Z.of_nat i ∈ sid) then alter f c else id) <$> out !! i.
Proof.
  unfold update_cells. revert out.
  induction sid as [|s sid IH]; intros out Hnd Hpos; simpl.
  - by destruct (out !! i).
  - apply NoDup_cons in Hnd as [Hs Hnd].
    rewrite IH by (try done; intros; apply Hpos; by apply list_elem_of_further).
    assert (0 <= s) as Hs0 by (apply Hpos, list_elem_of_here).
    destruct (decide (Z.to_nat s = i)) as [<-|Hne].
    + rewrite Z2Nat.id by done.
      rewrite list_lookup_alter_eq.
      rewrite (bool_decide_eq_false_2 _ Hs).
      rewrite bool_decide_eq_true_2 by apply list_elem_of_here.
      by destruct (out !! Z.to_nat s).
    + rewrite list_lookup_alter_ne by done.
      destruct (decide (Z.of_nat i ∈ sid)) as [Hin|Hout].
      * rewrite (bool_decide_eq_true_2 _ Hin).
        rewrite bool_decide_eq_true_2; [done|by apply list_elem_of_further].
      * rewrite (bool_decide_eq_false_2 _ Hout).
        rewrite bool_decide_eq_false_2; [done|].
        rewrite elem_of_cons. intros [Heq|Hin]; [lia|done].
Qed.

Lemma tighten_axis_lookup (seg : ndarray) (uid_max : Z) (a c : nat)
    (out : list (list Z)) (i : nat) :
  tighten_axis cast seg uid_max a c out !! i =
  (fun r => fold_left (tighten_row cast c) (label_hits seg uid_max a i) r)
    <$> out !! i.
Proof.
  unfold tighten_axis, label_hits.
  generalize (axis_hits seg a). intros hits. revert out.
  induction hits as [|j hits IH]; intros out; simpl.
  - by destruct (out !! i).
  - rewrite IH.
    rewrite !update_cells_lookup
      by (try apply slice_ids_NoDup; intros s Hs%slice_ids_pos; lia).
    destruct (bool_decide _); simpl; by destruct (out !! i).
Qed.

Lemma update_cells_length (f : Z -> Z) (c : nat) (sid : list Z)
    (out : list (list Z)) :
  length (update_cells f c sid out) = length out.
Proof.
  unfold update_cells. revert out.
  induction sid as [|s sid IH]; intros out; simpl; [done|].
  by rewrite IH, length_alter.
Qed.

Lemma tighten_axis_length (seg : ndarray) (uid_max : Z) (a c : nat)
    (out : list (list Z)) :
  length (tighten_axis cast seg uid_max a c out) = length out.
Proof.
  unfold tighten_axis. generalize (axis_hits seg a). intros hits. revert out.
  induction hits as [|j hits IH]; intros out; simpl; [done|].
  by rewrite IH, !update_cells_length.
Qed.

(** On a row laid out as [pre ++ lo :: hi :: post], with the running
    minimum in column [length pre]. *)
Lemma tighten_row_app (pre post : list Z) (lo hi : Z) (j : nat) :
  tighten_row cast (length pre) (pre ++ lo :: hi :: post) j =
  pre ++ cast (Z.min lo (Z.of_nat j)) :: cast (Z.max hi (Z.of_nat j)) :: post.
Proof.
  unfold tighten_row. induction pre as [|x pre IH]; simpl; [done|].
  f_equal. exact IH.
Qed.

Lemma tighten_rows_app (pre post : list Z) (lo hi : Z) (js : list nat) :
  fold_left (tighten_row cast (length pre)) js (pre ++ lo :: hi :: post) =
  pre ++ fold_left (fun v j => cast (Z.min v (Z.of_nat j))) js lo
      :: fold_left (fun v j => cast (Z.max v (Z.of_nat j))) js hi
      :: post.
Proof.
  revert lo hi. induction js as [|j js IH]; intros lo hi; simpl; [done|].
  by rewrite tighten_row_app, IH.
Qed.

Variable bound : Z.
Hypothesis cast_small : forall v, 0 <= v < bound -> cast v = v.

Lemma fold_min_cast (js : list nat) (lo : Z) :
  0 <= lo < bound ->
  fold_left (fun v j => cast (Z.min v (Z.of_nat j))) js lo =
  fold_left Z.min (map Z.of_nat js) lo.
Proof.
  revert lo. induction js as [|j js IH]; intros lo Hlo; simpl; [done|].
  rewrite cast_small by lia. apply IH. lia.
Qed.

Lemma fold_max_cast (js : list nat) (hi : Z) :
  hi < bound -> Forall (fun j => Z.of_nat j < bound) js ->
  fold_left (fun v j => cast (Z.max v (Z.of_nat j))) js hi =
  fold_left Z.max (map Z.of_nat js) hi.
Proof.
  revert hi. induction js as [|j js IH]; intros hi Hhi Hjs; simpl; [done|].
  apply Forall_cons in Hjs as [Hj Hjs].
  rewrite cast_small by lia. apply IH; [lia|done].
Qed.
End TightenRows.

Section LabelBox.
Variable seg : ndarray.
Hypothesis seg_wf : array_wf seg.

Lemma present_data (k : Z) : present seg k <-> k ∈ data seg.
Proof.
  destruct seg_wf as [Hlen _]. unfold present, item. split.
  - intros (p & Hb & <-). apply ravel_in_bounds in Hb as [Hk _].
    apply list_elem_of_In, nth_In. by rewrite Hlen.
  - intros Hk. apply list_elem_of_lookup in Hk as [n Hn].
    exists (unravel (shape seg) n).
    assert (n < size_of (shape seg))%nat as Hlt.
    { rewrite <- Hlen. by eapply lookup_lt_Some. }
    split; [by apply unravel_in_bounds|].
    rewrite ravel_unravel by done. by apply nth_lookup_Some with (d := 0) in Hn.
Qed.

Lemma label_foreground (k : Z) (p : list nat) :
  foreground (label_eq seg k) p <-> Forall2 lt p (shape seg) /\ item seg p = k.
Proof. by apply label_eq_mask. Qed.

Lemma label_axis_min (uid_max : Z) (a i : nat) :
  (a < ndim seg)%nat -> 0 < Z.of_nat i <= uid_max ->
  present seg (Z.of_nat i) ->
  axis_minimum (label_eq seg (Z.of_nat i)) a
    (fold_left Z.min (map Z.of_nat (label_hits seg uid_max a i))
               (Z.of_nat (nth a (shape seg) 0%nat))).
Proof.
  intros Ha Hi (p0 & Hb0 & Hv0).
  set (J := label_hits seg uid_max a i).
  set (n := Z.of_nat (nth a (shape seg) 0%nat)).
  destruct (fold_min_spec (map Z.of_nat J) n) as [Hin Hle].
  assert (HJ : forall j, j ∈ J -> Z.of_nat j < n).
  { intros j Hj. apply label_hits_elem in Hj as (p & Hb & <- & _); [|done..].
    unfold n. apply inj_lt. by apply in_bounds_nth. }
  assert (Hj0 : nth a p0 0%nat ∈ J).
  { apply label_hits_elem; [done..|]. by exists p0. }
  assert (Hlt : fold_left Z.min (map Z.of_nat J) n < n).
  { eapply Z.le_lt_trans; [|apply (HJ _ Hj0)].
    apply Hle, list_elem_of_further, list_elem_of_In, in_map.
    by apply list_elem_of_In. }
  split.
  - apply elem_of_cons in Hin as [Heq|Hin]; [lia|].
    apply list_elem_of_In, in_map_iff in Hin as (j & Hj & Hin).
    apply list_elem_of_In, label_hits_elem in Hin as (p & Hb & Hp & Hv);
      [|done..].
    exists p. split; [by apply label_foreground|]. by rewrite Hp.
  - intros p [Hb Hv]%label_foreground.
    apply Hle, list_elem_of_further, list_elem_of_In, in_map, list_elem_of_In.
    apply label_hits_elem; [done..|]. by exists p.
Qed.

Lemma label_axis_max (uid_max : Z) (a i : nat) (hi : Z) :
  (a < ndim seg)%nat -> 0 < Z.of_nat i <= uid_max -> hi <= 0 ->
  present seg (Z.of_nat i) ->
  axis_maximum (label_eq seg (Z.of_nat i)) a
    (fold_left Z.max (map Z.of_nat (label_hits seg uid_max a i)) hi).
Proof.
  intros Ha Hi Hhi (p0 & Hb0 & Hv0).
  set (J := label_hits seg uid_max a i).
  destruct (fold_max_spec (map Z.of_nat J) hi) as [Hin Hle].
  assert (Hj0 : nth a p0 0%nat ∈ J).
  { apply label_hits_elem; [done..|]. by exists p0. }
  assert (HinJ : fold_left Z.max (map Z.of_nat J) hi ∈ map Z.of_nat J).
  { apply elem_of_cons in Hin as [Heq|Hin]; [|done].
    assert (Z.of_nat (nth a p0 0%nat) <= fold_left Z.max (map Z.of_nat J) hi).
    { apply Hle, list_elem_of_further, list_elem_of_In, in_map.
      by apply list_elem_of_In. }
    assert (nth a p0 0%nat = 0%nat) as H0 by lia.
    rewrite Heq. replace hi with (Z.of_nat 0) by lia.
    apply list_elem_of_In, in_map, list_elem_of_In. by rewrite <- H0. }
  split.
  - apply list_elem_of_In, in_map_iff in HinJ as (j & Hj & HinJ).
    apply list_elem_of_In, label_hits_elem in HinJ as (p & Hb & Hp & Hv);
      [|done..].
    exists p. split; [by apply label_foreground|]. by rewrite Hp.
  - intros p [Hb Hv]%label_foreground.
    apply Hle, list_elem_of_further, list_elem_of_In, in_map, list_elem_of_In.
    apply label_hits_elem; [done..|]. by exists p.
Qed.

Lemma label_hits_bound (uid_max : Z) (a i : nat) :
  Forall (fun j => Z.of_nat j < Z.of_nat (nth a (shape seg) 0%nat))
         (label_hits seg uid_max a i).
Proof.
  apply Forall_forall. intros j Hj.
  unfold label_hits, axis_hits in Hj.
  apply list_elem_of_In, filter_In in Hj as [Hj _].
  apply filter_In in Hj as [Hj _]. apply in_seq in Hj. lia.
Qed.

Lemma label_hits_absent (uid_max : Z) (a i : nat) :
  ~ (0 < Z.of_nat i /\ present seg (Z.of_nat i)) ->
  label_hits seg uid_max a i = [].
Proof.
  intros Hno. unfold label_hits.
  induction (axis_hits seg a) as [|j hits IH]; simpl; [done|].
  rewrite bool_decide_eq_false_2; [done|].
  intros Hin. apply Hno.
  pose proof (slice_ids_pos _ _ _ Hin) as Hpos. split; [lia|].
  unfold slice_ids in Hin.
  apply list_elem_of_In, filter_In in Hin as [Hin _].
  apply list_elem_of_In, np_unique_iff, axis_slice_elem in Hin
    as (p & Hb & _ & Hv).
  by exists p.
Qed.
End LabelBox.

Section Tables.
Variable cast : Z -> Z.
Variable seg : ndarray.

Lemma np_rows_returns (n : Z) (init : Z -> list Z) :
  0 <= n ->
  np_rows n init =
  Returns (map (fun i => init (Z.of_nat i)) (seq 0 (Z.to_nat n))).
Proof. intros Hn. unfold np_rows. by destruct (Z.ltb_spec n 0); [lia|]. Qed.

Lemma lookup_map_seq {X} (G : nat -> X) (n i : nat) :
  map G (seq 0 n) !! i = if decide (i < n)%nat then Some (G i) else None.
Proof.
  change (map G (seq 0 n)) with (G <$> seq 0 n).
  rewrite list_lookup_fmap. destruct (decide (i < n)%nat).
  - by rewrite lookup_seq_lt.
  - by rewrite lookup_seq_ge by lia.
Qed.

Lemma tighten_axis_map (uid_max : Z) (a c n : nat) (G : nat -> list Z) :
  tighten_axis cast seg uid_max a c (map G (seq 0 n)) =
  map (fun i => fold_left (tighten_row cast c) (label_hits seg uid_max a i)
                          (G i))
      (seq 0 n).
Proof.
  apply list_eq. intros i.
  rewrite tighten_axis_lookup, !lookup_map_seq.
  by destruct (decide (i < n)%nat).
Qed.

Lemma fancy_index_returns (out : list (list Z)) (uid : list Z) :
  Forall (fun u => 0 <= u < Z.of_nat (length out)) uid ->
  fancy_index out uid =
  Returns (map (fun u => nth (Z.to_nat u) out []) uid).
Proof.
  unfold fancy_index.
  assert (forall acc,
    Forall (fun u => 0 <= u < Z.of_nat (length out)) uid ->
    for_each uid
      (fun acc u => i ← py_index (length out) u;
                    Returns (acc ++ [nth i out []])) acc =
    Returns (acc ++ map (fun u => nth (Z.to_nat u) out []) uid)) as H.
  { induction uid as [|u uid IH]; intros acc Hall; simpl.
    - by rewrite app_nil_r.
    - apply Forall_cons in Hall as [Hu Hall].
      unfold py_index.
      destruct (Z.leb_spec 0 u); [|lia].
      destruct (Z.ltb_spec u (Z.of_nat (length out))); [|lia]. simpl.
      rewrite IH by done. by rewrite <- app_assoc. }
  intros Hall. by rewrite H.
Qed.

Lemma nth_map_seq {X} (G : nat -> X) (n i : nat) (d : X) :
  (i < n)%nat -> nth i (map G (seq 0 n)) d = G i.
Proof.
  intros Hi. apply nth_lookup_Some with (d := d).
  rewrite lookup_map_seq. by destruct (decide (i < n)%nat).
Qed.
End Tables.

Section Casts.
Lemma cast_uint32_small (v : Z) : 0 <= v < 2 ^ 32 -> cast_uint32 v = v.
Proof. intros Hv. unfold cast_uint32. by apply Z.mod_small. Qed.

Lemma cast_int32_small (v : Z) : 0 <= v < 2 ^ 31 -> cast_int32 v = v.
Proof. intros Hv. unfold cast_int32. rewrite Z.mod_small; lia. Qed.

Lemma max_of_bounds (ids : list Z) (lo hi : Z) :
  ids <> [] -> Forall (fun u => lo <= u < hi) ids ->
  lo <= max_of ids < hi /\ Forall (fun u => u <= max_of ids) ids.
Proof.
  intros Hne Hall. destruct (max_of_spec ids Hne) as [Hin Hle].
  rewrite Forall_forall in Hall. split; [by apply Hall|].
  by apply Forall_forall.
Qed.

Lemma axis_minimum_range (s : ndarray) (a : nat) (m : Z) :
  (a < ndim s)%nat -> axis_minimum s a m ->
  0 <= m < Z.of_nat (nth a (shape s) 0%nat).
Proof.
  intros Ha [(p & [Hb _] & <-) _]. split; [lia|].
  apply inj_lt. by apply in_bounds_nth.
Qed.

Lemma axis_maximum_range (s : ndarray) (a : nat) (m : Z) :
  (a < ndim s)%nat -> axis_maximum s a m ->
  0 <= m < Z.of_nat (nth a (shape s) 0%nat).
Proof.
  intros Ha [(p & [Hb _] & <-) _]. split; [lia|].
  apply inj_lt. by apply in_bounds_nth.
Qed.
End Casts.

Section BoxRow.
Variable seg : ndarray.
Hypothesis seg_wf : array_wf seg.

Lemma box_row_length (uid_max hi0 : Z) (i : nat) :
  length (box_row seg uid_max hi0 i) = S (2 * ndim seg).
Proof. unfold box_row. simpl. by rewrite pairs_length. Qed.

Lemma box_row_label_box (uid_max hi0 : Z) (i : nat) :
  0 < Z.of_nat i <= uid_max -> hi0 <= 0 -> present seg (Z.of_nat i) ->
  label_box seg (Z.of_nat i) (tl (box_row seg uid_max hi0 i)).
Proof.
  intros Hi Hhi Hpres. unfold box_row. simpl tl. split.
  - apply pairs_length.
  - intros a Ha.
    destruct (pairs_nth
      (fun a => fold_left Z.min (map Z.of_nat (label_hits seg uid_max a i))
                          (Z.of_nat (nth a (shape seg) 0%nat)))
      (fun a => fold_left Z.max (map Z.of_nat (label_hits seg uid_max a i)) hi0)
      0 (ndim seg) a Ha) as [-> ->].
    simpl. split.
    + by apply label_axis_min.
    + by apply label_axis_max.
Qed.

(** The entries of the row of a label that occurs are coordinates. *)
Lemma box_row_range (uid_max hi0 : Z) (i : nat) (bound : Z) :
  0 < Z.of_nat i <= uid_max -> hi0 <= 0 -> present seg (Z.of_nat i) ->
  Forall (fun n => Z.of_nat n < bound) (shape seg) ->
  Forall (fun v => 0 <= v < bound) (tl (box_row seg uid_max hi0 i)).
Proof.
  intros Hi Hhi Hpres Hshape. unfold box_row. simpl tl.
  apply Forall_forall. intros v Hv.
  apply list_elem_of_In, in_flat_map in Hv as (a & Ha%in_seq & Hv).
  assert (a < ndim (label_eq seg (Z.of_nat i)))%nat as Ha' by (unfold ndim in *; simpl in *; lia).
  assert (Z.of_nat (nth a (shape seg) 0%nat) < bound) as Hn.
  { rewrite Forall_forall in Hshape. apply Hshape, list_elem_of_In, nth_In.
    unfold ndim in Ha. lia. }
  destruct Hv as [<-|[<-|[]]].
  - pose proof (axis_minimum_range _ a _ Ha'
                  (label_axis_min seg seg_wf uid_max a i ltac:(lia) Hi Hpres))
      as Hr.
    simpl in Hr. lia.
  - pose proof (axis_maximum_range _ a _ Ha'
                  (label_axis_max seg seg_wf uid_max a i hi0 ltac:(lia) Hi Hhi
                     Hpres)) as Hr.
    simpl in Hr. lia.
Qed.

(** The row of a label that does not occur keeps its initial maximum. *)
Lemma box_row_absent (uid_max hi0 : Z) (i : nat) :
  ~ (0 < Z.of_nat i /\ present seg (Z.of_nat i)) ->
  box_row seg uid_max hi0 i =
  Z.of_nat i ::
  flat_map (fun a => [Z.of_nat (nth a (shape seg) 0%nat); hi0])
           (seq 0 (ndim seg)).
Proof.
  intros Hno. unfold box_row. f_equal.
  apply flat_map_ext. intros a.
  by rewrite (label_hits_absent seg uid_max a i Hno).
Qed.
End BoxRow.

Section Bbox2D.
Variable seg : ndarray.
Variables n0 n1 : nat.
Hypothesis seg_shape : shape seg = [n0; n1].
Hypothesis n0_small : Z.of_nat n0 < 2 ^ 32.
Hypothesis n1_small : Z.of_nat n1 < 2 ^ 32.

(** The working table of the 2D path once both loops are done. *)
Lemma bbox_2d_table (uid_max : Z) (cnt : list Z) :
  uid_max < 2 ^ 32 ->
  tighten_axis cast_uint32 seg uid_max 1 3
    (tighten_axis cast_uint32 seg uid_max 0 1
       (map (fun i => [cast_uint32 (Z.of_nat i);
                       cast_uint32 (Z.of_nat (nth 0 (shape seg) 0%nat)); 0;
                       cast_uint32 (Z.of_nat (nth 1 (shape seg) 0%nat)); 0]
                      ++ cnt)
            (seq 0 (Z.to_nat (1 + uid_max))))) =
  map (fun i => box_row seg uid_max 0 i ++ cnt)
      (seq 0 (Z.to_nat (1 + uid_max))).
Proof.
  intros Hmax.
  rewrite !tighten_axis_map. apply map_ext_in. intros i Hi%in_seq.
  unfold box_row, ndim.
  pose proof (label_hits_bound seg uid_max 0 i) as Hb0.
  pose proof (label_hits_bound seg uid_max 1 i) as Hb1.
  rewrite seg_shape in *. simpl in Hb0, Hb1. simpl nth. simpl flat_map.
  rewrite (cast_uint32_small (Z.of_nat i)) by lia.
  rewrite (cast_uint32_small (Z.of_nat n0)) by lia.
  rewrite (cast_uint32_small (Z.of_nat n1)) by lia.
  match goal with
  | |- context [fold_left (tighten_row _ 1) ?J ([?a; ?b; ?c; ?d; ?e] ++ cnt)] =>
      change (fold_left (tighten_row cast_uint32 1) J ([a; b; c; d; e] ++ cnt))
        with (fold_left (tighten_row cast_uint32 (length [a])) J
                        ([a] ++ b :: c :: [d; e] ++ cnt))
  end.
  rewrite tighten_rows_app.
  match goal with
  | |- context [fold_left (tighten_row _ 3) ?J
                  ([?a] ++ ?b :: ?c :: [?d; ?e] ++ cnt)] =>
      change (fold_left (tighten_row cast_uint32 3) J
                        ([a] ++ b :: c :: [d; e] ++ cnt))
        with (fold_left (tighten_row cast_uint32 (length [a; b; c])) J
                        ([a; b; c] ++ d :: e :: cnt))
  end.
  rewrite tighten_rows_app. simpl app.
  rewrite !(fold_min_cast cast_uint32 (2 ^ 32) cast_uint32_small) by lia.
  rewrite !(fold_max_cast cast_uint32 (2 ^ 32) cast_uint32_small);
    [done|lia| |lia|].
  - eapply Forall_impl; [exact Hb1|]. simpl. lia.
  - eapply Forall_impl; [exact Hb0|]. simpl. lia.
Qed.
End Bbox2D.

Section SetCounts.
Variable cast : Z -> Z.
Variable last : nat.

Lemma set_counts_raises (counts : list (Z * Z)) (out : list (list Z)) :
  (exists vc, vc ∈ counts /\
     ~ (- Z.of_nat (length out) <= fst vc < Z.of_nat (length out))) ->
  set_counts cast last out counts = Raises IndexError.
Proof.
  unfold set_counts. revert out.
  induction counts as [|[v c] counts IH]; intros out (vc & Hin & Hbad).
  - by apply elem_of_nil in Hin.
  - simpl. unfold py_index.
    destruct (Z.leb_spec 0 v); destruct (Z.ltb_spec v (Z.of_nat (length out)));
      destruct (Z.ltb_spec v 0);
      destruct (Z.leb_spec (- Z.of_nat (length out)) v); simpl; try done;
      try lia.
    all: apply elem_of_cons in Hin as [->|Hin]; [simpl in Hbad; lia|].
    all: apply IH; exists vc; split; [done|]; by rewrite length_alter.
Qed.

Lemma set_counts_returns (vs : list Z) (g : Z -> Z) (out : list (list Z)) :
  Forall (fun v => 0 <= v < Z.of_nat (length out)) vs ->
  set_counts cast last out (map (fun v => (v, g v)) vs) =
  Returns (fold_left
             (fun o v => alter (alter (fun _ => cast (g v)) last) (Z.to_nat v) o)
             vs out).
Proof.
  unfold set_counts. revert out.
  induction vs as [|v vs IH]; intros out Hall; simpl; [done|].
  apply Forall_cons in Hall as [Hv Hall]. unfold py_index.
  destruct (Z.leb_spec 0 v); [|lia].
  destruct (Z.ltb_spec v (Z.of_nat (length out))); [|lia]. simpl.
  apply IH. by rewrite length_alter.
Qed.

Lemma set_counts_lookup (vs : list Z) (g : Z -> Z) (out : list (list Z))
    (i : nat) :
  NoDup vs -> (forall v, v ∈ vs -> 0 <= v) ->
  fold_left (fun o v => alter (alter (fun _ => cast (g v)) last) (Z.to_nat v) o)
            vs out !! i =
  (if bool_decide (Z.of_nat i ∈ vs)
   then alter (fun _ => cast (g (Z.of_nat i))) last else id) <$> out !! i.
Proof.
  revert out. induction vs as [|v vs IH]; intros out Hnd Hpos; simpl.
  - by destruct (out !! i).
  - apply NoDup_cons in Hnd as [Hv Hnd].
    rewrite IH by (try done; intros; apply Hpos; by apply list_elem_of_further).
    assert (0 <= v) as Hv0 by (apply Hpos, list_elem_of_here).
    destruct (decide (Z.to_nat v = i)) as [<-|Hne].
    + rewrite Z2Nat.id by done.
      rewrite list_lookup_alter_eq.
      rewrite (bool_decide_eq_false_2 _ Hv).
      rewrite bool_decide_eq_true_2 by apply list_elem_of_here.
      by destruct (out !! Z.to_nat v).
    + rewrite list_lookup_alter_ne by done.
      destruct (decide (Z.of_nat i ∈ vs)) as [Hin|Hout].
      * rewrite (bool_decide_eq_true_2 _ Hin).
        rewrite bool_decide_eq_true_2; [done|by apply list_elem_of_further].
      * rewrite (bool_decide_eq_false_2 _ Hout).
        rewrite bool_decide_eq_false_2; [done|].
        rewrite elem_of_cons. intros [Heq|Hin]; [lia|done].
Qed.

Lemma set_counts_map (vs : list Z) (g : Z -> Z) (G : nat -> list Z) (n : nat) :
  NoDup vs -> (forall v, v ∈ vs -> 0 <= v) ->
  fold_left (fun o v => alter (alter (fun _ => cast (g v)) last) (Z.to_nat v) o)
            vs (map G (seq 0 n)) =
  map (fun i => if bool_decide (Z.of_nat i ∈ vs)
                then alter (fun _ => cast (g (Z.of_nat i))) last (G i)
                else G i)
      (seq 0 n).
Proof.
  intros Hnd Hpos. apply list_eq. intros i.
  rewrite set_counts_lookup, !lookup_map_seq by done.
  destruct (decide (i < n)%nat); [|done]. simpl.
  by destruct (bool_decide _).
Qed.

Lemma alter_last (r : list Z) (x y : Z) :
  last = length r -> alter (fun _ => y) last (r ++ [x]) = r ++ [y].
Proof.
  intros ->. induction r as [|z r IH]; simpl; [done|]. f_equal. exact IH.
Qed.
End SetCounts.

Section Counts.
Lemma label_count_filter (seg : ndarray) (k : Z) :
  label_count seg k = Z.of_nat (length (List.filter (Z.eqb k) (data seg))).
Proof.
  unfold label_count, count_foreground. simpl. f_equal.
  induction (data seg) as [|v d IH]; simpl; [done|].
  rewrite (Z.eqb_sym k v). destruct (v =? k); simpl; by rewrite IH.
Qed.

Lemma label_count_bound (seg : ndarray) (k : Z) :
  0 <= label_count seg k <= Z.of_nat (length (data seg)).
Proof.
  rewrite label_count_filter. split; [lia|].
  apply inj_le. induction (data seg) as [|v d IH]; simpl; [done|].
  destruct (k =? v); simpl; lia.
Qed.

Lemma label_count_absent (seg : ndarray) (k : Z) :
  k ∉ data seg -> label_count seg k = 0.
Proof.
  intros Hk. rewrite label_count_filter.
  induction (data seg) as [|v d IH]; simpl; [done|].
  apply not_elem_of_cons in Hk as [Hne Hk].
  destruct (Z.eqb_spec k v); [done|]. by apply IH.
Qed.
End Counts.

Section Bbox2DReturns.
Variable seg : ndarray.
Variables n0 n1 : nat.
Hypothesis seg_shape : shape seg = [n0; n1].
Hypothesis n0_small : Z.of_nat n0 < 2 ^ 32.
Hypothesis n1_small : Z.of_nat n1 < 2 ^ 32.

Lemma bbox_2d_returns (uid : list Z) :
  uid <> [] -> Forall (fun u => 0 <= u < 2 ^ 32) uid ->
  compute_bbox_all_2d seg false (Some uid) =
  Returns (Some (map (fun u => box_row seg (max_of uid) 0 (Z.to_nat u)) uid)).
Proof.
  intros Hne Hall.
  destruct (max_of_bounds uid 0 (2 ^ 32) Hne Hall) as [Hmax Hle].
  unfold compute_bbox_all_2d. rewrite seg_shape at 1. simpl length.
  change (negb (2 =? 2)%nat) with false. cbv iota.
  destruct uid as [|u0 uid'] eqn:Huid; [done|]. simpl length.
  change (S (length uid') =? 0)%nat with false. cbv iota.
  rewrite <- Huid in *. clear Huid.
  rewrite np_rows_returns by lia. cbn [mbind outcome_bind].
  rewrite (bbox_2d_table seg n0 n1 seg_shape n0_small n1_small _ []) by lia.
  rewrite fancy_index_returns.
  - cbn [mbind outcome_bind]. do 2 f_equal.
    apply map_ext_in. intros u Hu.
    rewrite nth_map_seq; [by rewrite app_nil_r|].
    rewrite Forall_forall in Hle, Hall. apply list_elem_of_In in Hu.
    specialize (Hle u Hu). specialize (Hall u Hu). lia.
  - rewrite length_map, length_seq.
    rewrite Forall_forall in Hle, Hall. apply Forall_forall.
    intros u Hu. specialize (Hle u Hu). specialize (Hall u Hu). lia.
Qed.

Lemma bbox_2d_count_returns (uid : list Z) :
  uid <> [] -> Forall (fun u => 0 <= u < 2 ^ 32) uid ->
  Forall (fun v => 0 <= v <= max_of uid) (data seg) ->
  Z.of_nat (length (data seg)) < 2 ^ 32 ->
  compute_bbox_all_2d seg true (Some uid) =
  Returns (Some (map (fun u => box_row seg (max_of uid) 0 (Z.to_nat u)
                               ++ [label_count seg u]) uid)).
Proof.
  intros Hne Hall Hdata Hsize.
  destruct (max_of_bounds uid 0 (2 ^ 32) Hne Hall) as [Hmax Hle].
  unfold compute_bbox_all_2d. rewrite seg_shape at 1. simpl length.
  change (negb (2 =? 2)%nat) with false. cbv iota.
  destruct uid as [|u0 uid'] eqn:Huid; [done|]. simpl length.
  change (S (length uid') =? 0)%nat with false. cbv iota.
  rewrite <- Huid in *. clear Huid.
  rewrite np_rows_returns by lia. cbn [mbind outcome_bind].
  rewrite (bbox_2d_table seg n0 n1 seg_shape n0_small n1_small _ [0]) by lia.
  unfold np_unique_counts.
  assert (Hvs : forall v, v ∈ np_unique (data seg) -> 0 <= v <= max_of uid).
  { intros v Hv%np_unique_elem. rewrite Forall_forall in Hdata. by apply Hdata. }
  rewrite (set_counts_returns cast_uint32 5 (np_unique (data seg))
             (fun v => Z.of_nat (length (List.filter (Z.eqb v) (data seg))))).
  2:{ rewrite length_map, length_seq. apply Forall_forall.
      intros v Hv%Hvs. lia. }
  cbn [mbind outcome_bind].
  rewrite set_counts_map;
    [|apply sorted_lt_NoDup, np_unique_sorted|intros v Hv%Hvs; lia].
  rewrite fancy_index_returns.
  - cbn [mbind outcome_bind]. do 2 f_equal.
    apply map_ext_in. intros u Hu.
    rewrite Forall_forall in Hle, Hall. apply list_elem_of_In in Hu.
    specialize (Hle u Hu). specialize (Hall u Hu).
    rewrite nth_map_seq by lia.
    rewrite Z2Nat.id by lia.
    pose proof (label_count_bound seg u) as Hc.
    destruct (decide (u ∈ np_unique (data seg))) as [Hin|Hout].
    + rewrite bool_decide_eq_true_2 by done.
      rewrite alter_last by (by rewrite box_row_length; unfold ndim;
                             rewrite seg_shape).
      rewrite <- label_count_filter.
      rewrite cast_uint32_small by lia. done.
    + rewrite bool_decide_eq_false_2 by done.
      rewrite label_count_absent; [done|].
      by rewrite <- np_unique_iff.
  - rewrite length_map, length_seq.
    rewrite Forall_forall in Hle, Hall. apply Forall_forall.
    intros u Hu. specialize (Hle u Hu). specialize (Hall u Hu). lia.
Qed.

Lemma bbox_2d_count_raises (uid : list Z) (v : Z) :
  uid <> [] -> Forall (fun u => 0 <= u < 2 ^ 32) uid ->
  v ∈ data seg -> max_of uid < v ->
  compute_bbox_all_2d seg true (Some uid) = Raises IndexError.
Proof.
  intros Hne Hall Hv Hbig.
  destruct (max_of_bounds uid 0 (2 ^ 32) Hne Hall) as [Hmax Hle].
  unfold compute_bbox_all_2d. rewrite seg_shape at 1. simpl length.
  change (negb (2 =? 2)%nat) with false. cbv iota.
  destruct uid as [|u0 uid'] eqn:Huid; [done|]. simpl length.
  change (S (length uid') =? 0)%nat with false. cbv iota.
  rewrite <- Huid in *. clear Huid.
  rewrite np_rows_returns by lia. cbn [mbind outcome_bind].
  rewrite set_counts_raises; [done|].
  exists (v, Z.of_nat (length (List.filter (Z.eqb v) (data seg)))). split.
  - unfold np_unique_counts. apply list_elem_of_In, in_map_iff.
    exists v. split; [done|]. by apply list_elem_of_In, np_unique_iff.
  - rewrite !tighten_axis_length, length_map, length_seq. cbn [fst]. lia.
Qed.
End Bbox2DReturns.

Section SortedLists.
Lemma filter_map_comm {X Y} (P : Y -> bool) (F : X -> Y) (l : list X) :
  List.filter P (map F l) = map F (List.filter (fun x => P (F x)) l).
Proof.
  induction l as [|x l IH]; simpl; [done|].
  destruct (P (F x)); simpl; by rewrite IH.
Qed.

Lemma filter_ext_seq {X} (f g : X -> bool) (l : list X) :
  (forall x, In x l -> f x = g x) -> List.filter f l = List.filter g l.
Proof.
  induction l as [|x l IH]; intros H; simpl; [done|].
  rewrite (H x) by (by left). rewrite IH; [done|].
  intros y Hy. apply H. by right.
Qed.

Lemma sorted_filter {X} (R : X -> X -> Prop) (f : X -> bool) (l : list X) :
  StronglySorted R l -> StronglySorted R (List.filter f l).
Proof.
  induction 1 as [|z l Hs IH Hall]; simpl; [constructor|].
  destruct (f z); [|done].
  constructor; [done|].
  apply Forall_forall. intros y Hy.
  apply list_elem_of_In, filter_In in Hy as [Hy _].
  rewrite Forall_forall in Hall. by apply Hall, list_elem_of_In.
Qed.

Lemma sorted_map {X Y} (R : X -> X -> Prop) (R' : Y -> Y -> Prop)
    (g : X -> Y) (l : list X) :
  (forall x y, R x y -> R' (g x) (g y)) ->
  StronglySorted R l -> StronglySorted R' (map g l).
Proof.
  intros Hg. induction 1 as [|z l Hs IH Hall]; simpl; constructor; [done|].
  apply Forall_forall. intros y Hy.
  apply list_elem_of_In, in_map_iff in Hy as (x & <- & Hx).
  rewrite Forall_forall in Hall. by apply Hg, Hall, list_elem_of_In.
Qed.

Lemma seq_sorted (a n : nat) : StronglySorted lt (seq a n).
Proof.
  revert a. induction n as [|n IH]; intros a; simpl; constructor; [done|].
  apply Forall_forall. intros y Hy%list_elem_of_In%in_seq. lia.
Qed.

Lemma forallb_Forall_range (l : list Z) :
  Forall (fun v => 0 <= v) l -> forallb (fun v => negb (v =? -1)) l = true.
Proof.
  intros H. apply forallb_forall. intros v Hv.
  rewrite Forall_forall in H. apply list_elem_of_In, H in Hv.
  apply negb_true_iff, Z.eqb_neq. lia.
Qed.

Lemma map_cast_small (cast : Z -> Z) (bound : Z) (l : list Z) :
  (forall v, 0 <= v < bound -> cast v = v) ->
  Forall (fun v => 0 <= v < bound) l -> map cast l = l.
Proof.
  intros Hc H. induction H as [|v l Hv _ IH]; simpl; [done|].
  by rewrite Hc, IH.
Qed.
End SortedLists.

Section Bbox3DTable.
Variable seg : ndarray.
Variables n0 n1 n2 : nat.
Hypothesis seg_shape : shape seg = [n0; n1; n2].
Hypothesis n0_small : Z.of_nat n0 < 2 ^ 31.
Hypothesis n1_small : Z.of_nat n1 < 2 ^ 31.
Hypothesis n2_small : Z.of_nat n2 < 2 ^ 31.

(** The working table of the 3D path once the three loops are done. *)
Lemma bbox_3d_table (uid_max : Z) (cnt : list Z) :
  uid_max < 2 ^ 31 ->
  tighten_axis cast_int32 seg uid_max 2 5
    (tighten_axis cast_int32 seg uid_max 1 3
       (tighten_axis cast_int32 seg uid_max 0 1
          (map (fun i => [cast_int32 (Z.of_nat i);
                          cast_int32 (Z.of_nat (nth 0 (shape seg) 0%nat)); -1;
                          cast_int32 (Z.of_nat (nth 1 (shape seg) 0%nat)); -1;
                          cast_int32 (Z.of_nat (nth 2 (shape seg) 0%nat)); -1]
                         ++ cnt)
               (seq 0 (Z.to_nat (1 + uid_max)))))) =
  map (fun i => box_row seg uid_max (-1) i ++ cnt)
      (seq 0 (Z.to_nat (1 + uid_max))).
Proof.
  intros Hmax.
  rewrite !tighten_axis_map. apply map_ext_in. intros i Hi%in_seq.
  unfold box_row, ndim.
  pose proof (label_hits_bound seg uid_max 0 i) as Hb0.
  pose proof (label_hits_bound seg uid_max 1 i) as Hb1.
  pose proof (label_hits_bound seg uid_max 2 i) as Hb2.
  rewrite seg_shape in *. simpl in Hb0, Hb1, Hb2. simpl nth. simpl flat_map.
  rewrite (cast_int32_small (Z.of_nat i)) by lia.
  rewrite (cast_int32_small (Z.of_nat n0)) by lia.
  rewrite (cast_int32_small (Z.of_nat n1)) by lia.
  rewrite (cast_int32_small (Z.of_nat n2)) by lia.
  match goal with
  | |- context [fold_left (tighten_row _ 1) ?J
                  ([?a; ?b; ?c; ?d; ?e; ?f; ?g] ++ cnt)] =>
      change (fold_left (tighten_row cast_int32 1) J
                        ([a; b; c; d; e; f; g] ++ cnt))
        with (fold_left (tighten_row cast_int32 (length [a])) J
                        ([a] ++ b :: c :: [d; e; f; g] ++ cnt))
  end.
  rewrite tighten_rows_app.
  match goal with
  | |- context [fold_left (tighten_row _ 3) ?J
                  ([?a] ++ ?b :: ?c :: [?d; ?e; ?f; ?g] ++ cnt)] =>
      change (fold_left (tighten_row cast_int32 3) J
                        ([a] ++ b :: c :: [d; e; f; g] ++ cnt))
        with (fold_left (tighten_row cast_int32 (length [a; b; c])) J
                        ([a; b; c] ++ d :: e :: [f; g] ++ cnt))
  end.
  rewrite tighten_rows_app.
  match goal with
  | |- context [fold_left (tighten_row _ 5) ?J
                  ([?a; ?b; ?c] ++ ?d :: ?e :: [?f; ?g] ++ cnt)] =>
      change (fold_left (tighten_row cast_int32 5) J
                        ([a; b; c] ++ d :: e :: [f; g] ++ cnt))
        with (fold_left (tighten_row cast_int32 (length [a; b; c; d; e])) J
                        ([a; b; c; d; e] ++ f :: g :: cnt))
  end.
  rewrite tighten_rows_app. simpl app.
  rewrite !(fold_min_cast cast_int32 (2 ^ 31) cast_int32_small) by lia.
  rewrite !(fold_max_cast cast_int32 (2 ^ 31) cast_int32_small);
    [done|lia| |lia| |lia|].
  - eapply Forall_impl; [exact Hb2|]. simpl. lia.
  - eapply Forall_impl; [exact Hb1|]. simpl. lia.
  - eapply Forall_impl; [exact Hb0|]. simpl. lia.
Qed.
End Bbox3DTable.

Section Bbox3DReturns.
Variable seg : ndarray.
Variables n0 n1 n2 : nat.
Hypothesis seg_wf : array_wf seg.
Hypothesis seg_shape : shape seg = [n0; n1; n2].
Hypothesis n0_small : Z.of_nat n0 < 2 ^ 31.
Hypothesis n1_small : Z.of_nat n1 < 2 ^ 31.
Hypothesis n2_small : Z.of_nat n2 < 2 ^ 31.

Lemma shape_small_3d :
  Forall (fun n => Z.of_nat n < 2 ^ 31) (shape seg).
Proof. rewrite seg_shape. by repeat constructor. Qed.

(** A row of the working table passes the final filter when its label
    occurs in the map. *)
Lemma bbox_3d_keep (uid_max : Z) (i : nat) (cnt : list Z) :
  0 <= Z.of_nat i <= uid_max ->
  Forall (fun v => 0 <= v) cnt ->
  forallb (fun v => negb (v =? -1)) (box_row seg uid_max (-1) i ++ cnt) =
  bool_decide (0 < Z.of_nat i /\ Z.of_nat i ∈ data seg).
Proof.
  intros Hi Hcnt.
  destruct (decide (0 < Z.of_nat i /\ Z.of_nat i ∈ data seg)) as [[Hp Hin]|Hno].
  - rewrite bool_decide_eq_true_2 by done.
    apply forallb_Forall_range, Forall_app. split; [|done].
    assert (Hpres : present seg (Z.of_nat i)) by (by apply present_data).
    pose proof (box_row_range seg seg_wf uid_max (-1) i (2 ^ 31)
                  ltac:(lia) ltac:(lia) Hpres shape_small_3d) as Hr.
    unfold box_row in *. simpl tl in Hr. constructor; [lia|].
    eapply Forall_impl; [exact Hr|]. simpl. lia.
  - rewrite bool_decide_eq_false_2 by done.
    rewrite box_row_absent.
    + unfold ndim. rewrite seg_shape. simpl.
      by rewrite !andb_false_r.
    + intros [Hp Hpres%present_data]; [|done]. by apply Hno.
Qed.

Lemma bbox_3d_returns (uid : option (list Z)) :
  let ids := match uid with None => data seg | Some u => u end in
  ids <> [] -> -1 <= max_of ids < 2 ^ 31 ->
  compute_bbox_all_3d seg false uid =
  Returns (map (box_row seg (max_of ids) (-1)) (labels_upto seg (max_of ids))).
Proof.
  intros ids Hne Hmax.
  unfold compute_bbox_all_3d. rewrite seg_shape at 1. simpl length.
  change (negb (3 =? 3)%nat) with false. cbv iota.
  fold ids. rewrite np_max_returns by done.
  cbn [mbind outcome_bind].
  rewrite np_rows_returns by lia. cbn [mbind outcome_bind].
  rewrite (bbox_3d_table seg n0 n1 n2 seg_shape n0_small n1_small n2_small
             _ []) by lia.
  cbn [mbind outcome_bind]. f_equal.
  rewrite filter_map_comm, map_map. unfold labels_upto.
  rewrite (filter_ext_seq _
             (fun i => bool_decide (0 < Z.of_nat i /\ Z.of_nat i ∈ data seg))).
  2:{ intros i Hi%in_seq. apply bbox_3d_keep; [lia|constructor]. }
  apply map_ext_in. intros i Hi%filter_In.
  destruct Hi as [Hi%in_seq Hk%bool_decide_eq_true]. destruct Hk as [Hp Hin].
  rewrite app_nil_r.
  apply (map_cast_small cast_uint32 (2 ^ 32) _ cast_uint32_small).
  assert (Hpres : present seg (Z.of_nat i)) by (by apply present_data).
  pose proof (box_row_range seg seg_wf (max_of ids) (-1) i (2 ^ 31)
                ltac:(lia) ltac:(lia) Hpres shape_small_3d) as Hr.
  unfold box_row in *. simpl tl in Hr. constructor; [lia|].
  eapply Forall_impl; [exact Hr|]. simpl. lia.
Qed.
End Bbox3DReturns.

Section Bbox3DCount.
Variable seg : ndarray.
Variables n0 n1 n2 : nat.
Hypothesis seg_wf : array_wf seg.
Hypothesis seg_shape : shape seg = [n0; n1; n2].
Hypothesis n0_small : Z.of_nat n0 < 2 ^ 31.
Hypothesis n1_small : Z.of_nat n1 < 2 ^ 31.
Hypothesis n2_small : Z.of_nat n2 < 2 ^ 31.

Lemma bbox_3d_count_returns (uid : option (list Z)) :
  let ids := match uid with None => data seg | Some u => u end in
  ids <> [] -> -1 <= max_of ids < 2 ^ 31 ->
  Forall (fun v => 0 <= v) (data seg) ->
  Z.of_nat (length (data seg)) < 2 ^ 31 ->
  compute_bbox_all_3d seg true uid =
  Returns (map (fun i => box_row seg (max_of ids) (-1) i
                         ++ [label_count seg (Z.of_nat i)])
               (labels_upto seg (max_of ids))).
Proof.
  intros ids Hne Hmax Hdata Hsize.
  unfold compute_bbox_all_3d. rewrite seg_shape at 1. simpl length.
  change (negb (3 =? 3)%nat) with false. cbv iota.
  fold ids. rewrite np_max_returns by done.
  cbn [mbind outcome_bind].
  rewrite np_rows_returns by lia. cbn [mbind outcome_bind].
  rewrite (bbox_3d_table seg n0 n1 n2 seg_shape n0_small n1_small n2_small
             _ [0]) by lia.
  unfold np_unique_counts. rewrite filter_map_comm. cbn [fst].
  set (vs := List.filter (fun v => v <=? max_of ids) (np_unique (data seg))).
  assert (Hvs : forall v, v ∈ vs <-> v ∈ data seg /\ v <= max_of ids).
  { intros v. unfold vs.
    rewrite list_elem_of_In, filter_In, <- list_elem_of_In, np_unique_iff.
    by rewrite Z.leb_le. }
  assert (Hvs0 : forall v, v ∈ vs -> 0 <= v).
  { intros v [Hv _]%Hvs. rewrite Forall_forall in Hdata. by apply Hdata. }
  rewrite (set_counts_returns cast_int32 7 vs
             (fun v => Z.of_nat (length (List.filter (Z.eqb v) (data seg))))).
  2:{ rewrite length_map, length_seq. apply Forall_forall.
      intros v Hv. pose proof (Hvs0 v Hv). apply Hvs in Hv. lia. }
  cbn [mbind outcome_bind].
  rewrite set_counts_map;
    [|apply sorted_lt_NoDup, sorted_lt_filter, np_unique_sorted|done].
  f_equal. rewrite filter_map_comm, map_map. unfold labels_upto.
  assert (Hrow : forall i, In i (seq 0 (Z.to_nat (1 + max_of ids))) ->
    (if bool_decide (Z.of_nat i ∈ vs)
     then alter (fun _ => cast_int32
                   (Z.of_nat (length (List.filter (Z.eqb (Z.of_nat i))
                                                  (data seg)))))
                7%nat (box_row seg (max_of ids) (-1) i ++ [0])
     else box_row seg (max_of ids) (-1) i ++ [0]) =
    box_row seg (max_of ids) (-1) i ++ [label_count seg (Z.of_nat i)]).
  { intros i Hi%in_seq.
    pose proof (label_count_bound seg (Z.of_nat i)) as Hc.
    destruct (decide (Z.of_nat i ∈ vs)) as [Hin|Hout].
    - rewrite bool_decide_eq_true_2 by done.
      rewrite alter_last by (by rewrite box_row_length; unfold ndim;
                             rewrite seg_shape).
      rewrite <- label_count_filter. by rewrite cast_int32_small by lia.
    - rewrite bool_decide_eq_false_2 by done.
      rewrite label_count_absent; [done|].
      intros Hin. apply Hout, Hvs. split; [done|lia]. }
  rewrite (filter_ext_seq _
             (fun i => bool_decide (0 < Z.of_nat i /\ Z.of_nat i ∈ data seg))).
  2:{ intros i Hi. rewrite (Hrow i Hi). apply in_seq in Hi.
      apply (bbox_3d_keep seg n0 n1 n2 seg_wf seg_shape n0_small n1_small
               n2_small); [lia|].
      constructor; [|constructor].
      apply (label_count_bound seg (Z.of_nat i)). }
  apply map_ext_in. intros i Hi%filter_In.
  destruct Hi as [Hi Hk%bool_decide_eq_true]. destruct Hk as [Hp Hin].
  rewrite (Hrow i Hi). apply in_seq in Hi.
  apply (map_cast_small cast_uint32 (2 ^ 32) _ cast_uint32_small).
  assert (Hpres : present seg (Z.of_nat i)) by (by apply present_data).
  pose proof (box_row_range seg seg_wf (max_of ids) (-1) i (2 ^ 31)
                ltac:(lia) ltac:(lia) Hpres
                (shape_small_3d seg n0 n1 n2 seg_shape n0_small n1_small
                   n2_small)) as Hr.
  pose proof (label_count_bound seg (Z.of_nat i)) as Hc.
  apply Forall_app. split.
  - unfold box_row in *. simpl tl in Hr. constructor; [lia|].
    eapply Forall_impl; [exact Hr|]. simpl. lia.
  - constructor; [lia|constructor].
Qed.
End Bbox3DCount.

Section BboxAllHelpers.
Lemma Forall2_map_self {X Y} (P : X -> Y -> Prop) (F : X -> Y) (l : list X) :
  (forall x, x ∈ l -> P x (F x)) -> Forall2 P l (map F l).
Proof.
  induction l as [|x l IH]; intros H; simpl; constructor.
  - apply H, list_elem_of_here.
  - apply IH. intros y Hy. by apply H, list_elem_of_further.
Qed.

Lemma compute_bbox_all_rank2 (seg : ndarray) (do_count : bool)
    (uid : option (list Z)) :
  length (shape seg) = 2%nat ->
  compute_bbox_all seg do_count uid = compute_bbox_all_2d seg do_count uid.
Proof. intros H. unfold compute_bbox_all, ndim. by rewrite H. Qed.

Lemma compute_bbox_all_rank3 (seg : ndarray) (do_count : bool)
    (uid : option (list Z)) :
  length (shape seg) = 3%nat ->
  compute_bbox_all seg do_count uid =
  rows ← compute_bbox_all_3d seg do_count uid; Returns (Some rows).
Proof. intros H. unfold compute_bbox_all, ndim. by rewrite H. Qed.

Lemma hd_box_row (seg : ndarray) (uid_max hi0 : Z) (i : nat) :
  hd 0 (box_row seg uid_max hi0 i) = Z.of_nat i.
Proof. done. Qed.
End BboxAllHelpers.

(** X1.  The 2D path with caller-supplied ids: the table has one row per
    entry of [uid], in the order of [uid]; the row of an id that occurs in
    the map holds its tight box, and the row of any other id holds the
    initial values, the extent of the axis and 0. *)
Theorem compute_bbox_all_2d_caller_ids (seg : ndarray) (n0 n1 : nat)
    (uid : list Z) :
  array_wf seg -> shape seg = [n0; n1] ->
  Z.of_nat n0 < 2 ^ 32 -> Z.of_nat n1 < 2 ^ 32 ->
  uid <> [] -> Forall (fun u => 0 <= u < 2 ^ 32) uid ->
  exists rows : list (list Z),
    compute_bbox_all seg false (Some uid) = Returns (Some rows) /\
    map (hd 0) rows = uid /\
    Forall2 (fun u r =>
               (0 < u -> present seg u -> label_box seg u (tl r)) /\
               (~ (0 < u /\ present seg u) ->
                tl r = [Z.of_nat n0; 0; Z.of_nat n1; 0]))
            uid rows.
Proof.
  intros Hwf Hshape Hn0 Hn1 Hne Hall.
  destruct (max_of_bounds uid 0 (2 ^ 32) Hne Hall) as [Hmax Hle].
  exists (map (fun u => box_row seg (max_of uid) 0 (Z.to_nat u)) uid).
  split; [|split].
  - rewrite compute_bbox_all_rank2 by (by rewrite Hshape).
    by apply (bbox_2d_returns seg n0 n1).
  - rewrite map_map. rewrite <- (map_id uid) at 2.
    apply map_ext_in. intros u Hu%list_elem_of_In.
    rewrite Forall_forall in Hall. specialize (Hall u Hu).
    rewrite hd_box_row. lia.
  - apply Forall2_map_self. intros u Hu.
    rewrite Forall_forall in Hall, Hle.
    specialize (Hall u Hu). specialize (Hle u Hu). split.
    + intros Hpos Hpres.
      rewrite <- (Z2Nat.id u) at 1 by lia.
      apply box_row_label_box; [done| |lia|]; rewrite Z2Nat.id by lia;
        [lia|done].
    + intros Hno. rewrite box_row_absent.
      * unfold ndim. by rewrite Hshape.
      * by rewrite Z2Nat.id by lia.
Qed.

Lemma compute_bbox_all_2d_caller_ids_witness :
  exists rows : list (list Z),
    compute_bbox_all example_labels false (Some [2; 5; 1])
      = Returns (Some rows) /\
    map (hd 0) rows = [2; 5; 1].
Proof.
  destruct (compute_bbox_all_2d_caller_ids example_labels 3 3 [2; 5; 1])
    as (rows & Hret & Hids & _).
  - split; [reflexivity|discriminate].
  - reflexivity.
  - vm_compute. reflexivity.
  - vm_compute. reflexivity.
  - discriminate.
  - repeat first [apply Forall_nil_2 | apply Forall_cons_2; [lia|]].
  - exists rows. by split.
Defined.

Section DefaultIds.
Variable seg : ndarray.

Lemma default_ids_none (do_count : bool) :
  compute_bbox_all_2d seg do_count None =
  compute_bbox_all_2d seg do_count
    (Some (List.filter (fun v => 0 <? v) (np_unique (data seg)))).
Proof. done. Qed.

Lemma default_ids_elem (k : Z) :
  k ∈ List.filter (fun v => 0 <? v) (np_unique (data seg)) <->
  0 < k /\ k ∈ data seg.
Proof.
  rewrite list_elem_of_In, filter_In, <- list_elem_of_In, np_unique_iff.
  rewrite Z.ltb_lt. tauto.
Qed.

Lemma default_ids_empty :
  Forall (fun v => v <= 0) (data seg) ->
  List.filter (fun v => 0 <? v) (np_unique (data seg)) = [].
Proof.
  intros Hall.
  destruct (List.filter _ _) as [|k l] eqn:Hf; [done|].
  assert (k ∈ k :: l) as Hk by apply list_elem_of_here.
  rewrite <- Hf in Hk. apply default_ids_elem in Hk as [Hpos Hin].
  rewrite Forall_forall in Hall. specialize (Hall k Hin). lia.
Qed.
End DefaultIds.

(** X2.  The 2D path with the default ids: a map without positive label
    gives [None]; otherwise the table lists exactly the positive labels
    that occur in the map, in ascending order, each with its tight
    box. *)
Theorem compute_bbox_all_2d_labels (seg : ndarray) (n0 n1 : nat) :
  array_wf seg -> shape seg = [n0; n1] ->
  Z.of_nat n0 < 2 ^ 32 -> Z.of_nat n1 < 2 ^ 32 ->
  Forall (fun v => v < 2 ^ 32) (data seg) ->
  (Forall (fun v => v <= 0) (data seg) ->
   forall do_count, compute_bbox_all seg do_count None = Returns None) /\
  (Exists (fun v => 0 < v) (data seg) ->
   exists rows : list (list Z),
     compute_bbox_all seg false None = Returns (Some rows) /\
     StronglySorted Z.lt (map (hd 0) rows) /\
     (forall k, k ∈ map (hd 0) rows <-> 0 < k /\ present seg k) /\
     forall r, r ∈ rows -> label_box seg (hd 0 r) (tl r)).
Proof.
  intros Hwf Hshape Hn0 Hn1 Hsmall. split.
  - intros Hall do_count.
    rewrite compute_bbox_all_rank2 by (by rewrite Hshape).
    unfold compute_bbox_all_2d. rewrite Hshape. simpl length.
    change (negb (2 =? 2)%nat) with false. cbv iota.
    by rewrite default_ids_empty.
  - intros Hex.
    set (ids := List.filter (fun v => 0 <? v) (np_unique (data seg))).
    assert (Hne : ids <> []).
    { apply Exists_exists in Hex as (v & Hv & Hpos).
      assert (v ∈ ids) as Hin by (by apply default_ids_elem).
      intros Heq. rewrite Heq in Hin. by apply elem_of_nil in Hin. }
    assert (Hall : Forall (fun u => 0 <= u < 2 ^ 32) ids).
    { apply Forall_forall. intros u [Hpos Hin]%default_ids_elem.
      rewrite Forall_forall in Hsmall. specialize (Hsmall u Hin). lia. }
    destruct (max_of_bounds ids 0 (2 ^ 32) Hne Hall) as [Hmax Hle].
    exists (map (fun u => box_row seg (max_of ids) 0 (Z.to_nat u)) ids).
    assert (Hhd : map (hd 0) (map (fun u => box_row seg (max_of ids) 0
                                             (Z.to_nat u)) ids) = ids).
    { rewrite map_map. rewrite <- (map_id ids) at 2.
      apply map_ext_in. intros u Hu%list_elem_of_In.
      rewrite Forall_forall in Hall. specialize (Hall u Hu).
      rewrite hd_box_row. lia. }
    split; [|split; [|split]].
    + rewrite compute_bbox_all_rank2 by (by rewrite Hshape).
      rewrite default_ids_none. by apply (bbox_2d_returns seg n0 n1).
    + rewrite Hhd. apply sorted_lt_filter, np_unique_sorted.
    + intros k. rewrite Hhd. unfold ids.
      by rewrite default_ids_elem, present_data.
    + intros r Hr.
      apply list_elem_of_In, in_map_iff in Hr as (u & <- & Hu%list_elem_of_In).
      rewrite Forall_forall in Hall, Hle.
      specialize (Hall u Hu). specialize (Hle u Hu).
      apply default_ids_elem in Hu as [Hpos Hin].
      rewrite hd_box_row.
      apply box_row_label_box; [done| |lia|]; rewrite Z2Nat.id by lia;
        [lia|by apply present_data].
Qed.

Lemma compute_bbox_all_2d_labels_witness :
  exists rows : list (list Z),
    compute_bbox_all example_labels false None = Returns (Some rows) /\
    (2 ∈ map (hd 0) rows) /\
    forall r, r ∈ rows -> label_box example_labels (hd 0 r) (tl r).
Proof.
  destruct (compute_bbox_all_2d_labels example_labels 3 3) as [_ H].
  - split; [reflexivity|discriminate].
  - reflexivity.
  - lia.
  - lia.
  - unfold example_labels. simpl.
    repeat first [apply Forall_nil_2 | apply Forall_cons_2; [lia|]].
  - destruct H as (rows & Hret & _ & Hids & Hbox).
    + unfold example_labels. simpl. apply Exists_cons_tl, Exists_cons_hd. lia.
    + exists rows. split; [done|]. split; [|done].
      apply Hids. split; [lia|].
      exists [2; 0]%nat. split; [repeat constructor|reflexivity].
Defined.

(** X3.  [do_count] in the 2D path: when every label of the map lies
    between 0 and the largest id asked for, the table is the one returned
    without [do_count] with the number of pixels holding the id appended
    to each row. *)
Theorem compute_bbox_all_2d_counts (seg : ndarray) (n0 n1 : nat)
    (uid : option (list Z)) :
  let ids := match uid with
             | None => List.filter (fun v => 0 <? v) (np_unique (data seg))
             | Some u => u
             end in
  shape seg = [n0; n1] ->
  Z.of_nat n0 < 2 ^ 32 -> Z.of_nat n1 < 2 ^ 32 ->
  Z.of_nat (length (data seg)) < 2 ^ 32 ->
  ids <> [] -> Forall (fun u => 0 <= u < 2 ^ 32) ids ->
  Forall (fun v => 0 <= v <= max_of ids) (data seg) ->
  exists rows : list (list Z),
    compute_bbox_all seg false uid = Returns (Some rows) /\
    compute_bbox_all seg true uid =
      Returns (Some (map (fun r => r ++ [label_count seg (hd 0 r)]) rows)).
Proof.
  intros ids Hshape Hn0 Hn1 Hsize Hne Hall Hdata.
  exists (map (fun u => box_row seg (max_of ids) 0 (Z.to_nat u)) ids).
  rewrite !compute_bbox_all_rank2 by (by rewrite Hshape).
  assert (Hsome : forall c, compute_bbox_all_2d seg c uid =
                            compute_bbox_all_2d seg c (Some ids)).
  { intros c. unfold ids. by destruct uid. }
  rewrite !Hsome. split.
  - by apply (bbox_2d_returns seg n0 n1).
  - rewrite (bbox_2d_count_returns seg n0 n1) by done.
    do 2 f_equal. rewrite map_map. apply map_ext_in.
    intros u Hu%list_elem_of_In.
    rewrite Forall_forall in Hall. specialize (Hall u Hu).
    rewrite hd_box_row. by rewrite Z2Nat.id by lia.
Qed.

Lemma compute_bbox_all_2d_counts_witness :
  compute_bbox_all example_labels true None =
  Returns (Some [[1; 0; 1; 1; 2; 3]; [2; 2; 2; 0; 0; 1]]).
Proof.
  destruct (compute_bbox_all_2d_counts example_labels 3 3 None)
    as (rows & Hret & Hcnt).
  - reflexivity.
  - lia.
  - lia.
  - simpl. lia.
  - discriminate.
  - simpl. repeat first [apply Forall_nil_2 | apply Forall_cons_2; [lia|]].
  - simpl. repeat first [apply Forall_nil_2 | apply Forall_cons_2; [lia|]].
  - rewrite Hcnt. vm_compute in Hret. injection Hret as <-. reflexivity.
Defined.

(** X4.  [do_count] in the 2D path with caller-supplied ids: a label of
    the map above the largest id asked for makes the store of the counts
    raise [IndexError]. *)
Theorem compute_bbox_all_2d_count_index_error (seg : ndarray) (n0 n1 : nat)
    (uid : list Z) (v : Z) :
  shape seg = [n0; n1] ->
  uid <> [] -> Forall (fun u => 0 <= u < 2 ^ 32) uid ->
  v ∈ data seg -> max_of uid < v ->
  compute_bbox_all seg true (Some uid) = Raises IndexError.
Proof.
  intros Hshape Hne Hall Hv Hbig.
  rewrite compute_bbox_all_rank2 by (by rewrite Hshape).
  by apply (bbox_2d_count_raises seg n0 n1 Hshape uid v).
Qed.

Lemma compute_bbox_all_2d_count_index_error_witness :
  compute_bbox_all example_labels true (Some [1]) = Raises IndexError /\
  exists rows, compute_bbox_all example_labels false (Some [1])
               = Returns (Some rows).
Proof.
  split.
  - apply (compute_bbox_all_2d_count_index_error example_labels 3 3 [1] 2).
    + reflexivity.
    + discriminate.
    + repeat first [apply Forall_nil_2 | apply Forall_cons_2; [lia|]].
    + unfold example_labels. simpl. set_solver.
    + simpl. lia.
  - eexists. vm_compute. reflexivity.
Defined.

(** X5.  The 3D path: the table lists exactly the positive labels up to
    the largest entry of [uid] that occur in the map, in ascending order,
    each with its tight box; of [uid] only the maximum matters. *)
Theorem compute_bbox_all_3d_labels (seg : ndarray) (n0 n1 n2 : nat)
    (uid : option (list Z)) :
  let ids := match uid with None => data seg | Some u => u end in
  array_wf seg -> shape seg = [n0; n1; n2] ->
  Z.of_nat n0 < 2 ^ 31 -> Z.of_nat n1 < 2 ^ 31 -> Z.of_nat n2 < 2 ^ 31 ->
  ids <> [] -> -1 <= max_of ids < 2 ^ 31 ->
  exists rows : list (list Z),
    compute_bbox_all seg false uid = Returns (Some rows) /\
    compute_bbox_all seg false (Some [max_of ids]) = Returns (Some rows) /\
    StronglySorted Z.lt (map (hd 0) rows) /\
    (forall k, k ∈ map (hd 0) rows <->
               0 < k <= max_of ids /\ present seg k) /\
    forall r, r ∈ rows -> label_box seg (hd 0 r) (tl r).
Proof.
  intros ids Hwf Hshape Hn0 Hn1 Hn2 Hne Hmax.
  exists (map (box_row seg (max_of ids) (-1)) (labels_upto seg (max_of ids))).
  assert (Hhd : map (hd 0) (map (box_row seg (max_of ids) (-1))
                                (labels_upto seg (max_of ids)))
                = map Z.of_nat (labels_upto seg (max_of ids))).
  { rewrite map_map. by apply map_ext. }
  assert (Hin : forall i, i ∈ labels_upto seg (max_of ids) <->
                  0 < Z.of_nat i <= max_of ids /\ present seg (Z.of_nat i)).
  { intros i. unfold labels_upto.
    rewrite list_elem_of_In, filter_In, in_seq, bool_decide_eq_true.
    rewrite present_data by done.
    split; [intros [? [? ?]]|intros [? ?]]; (split; [lia|]); [done|].
    split; [lia|done]. }
  split; [|split; [|split; [|split]]].
  - rewrite compute_bbox_all_rank3 by (by rewrite Hshape).
    by rewrite (bbox_3d_returns seg n0 n1 n2).
  - rewrite compute_bbox_all_rank3 by (by rewrite Hshape).
    by rewrite (bbox_3d_returns seg n0 n1 n2).
  - rewrite Hhd. apply (sorted_map lt); [intros x y; lia|].
    apply sorted_filter, seq_sorted.
  - intros k. rewrite Hhd, list_elem_of_In, in_map_iff. split.
    + intros (i & <- & Hi%list_elem_of_In). by apply Hin.
    + intros [Hk Hpres]. exists (Z.to_nat k). split; [lia|].
      apply list_elem_of_In, Hin. by rewrite Z2Nat.id by lia.
  - intros r Hr.
    apply list_elem_of_In, in_map_iff in Hr as (i & <- & Hi%list_elem_of_In).
    apply Hin in Hi as [Hi Hpres]. rewrite hd_box_row.
    apply box_row_label_box; [done|done|lia|done].
Qed.

Lemma compute_bbox_all_3d_labels_witness :
  compute_bbox_all example_volume false (Some [3; 2])
  = Returns (Some [[1; 0; 0; 0; 0; 0; 0]; [3; 0; 0; 0; 0; 1; 1]]).
Proof.
  destruct (compute_bbox_all_3d_labels example_volume 1 1 2 (Some [3; 2]))
    as (rows & Hret & Hmax & _).
  - split; [reflexivity|discriminate].
  - reflexivity.
  - lia.
  - lia.
  - lia.
  - discriminate.
  - simpl. lia.
  - rewrite Hret. vm_compute in Hmax. injection Hmax as <-. reflexivity.
Defined.

(** X6.  [do_count] in the 3D path: for a map of labels that are not
    negative, the table is the one returned without [do_count] with the
    number of voxels holding the id appended to each row; labels above
    the largest entry of [uid] are left out and raise nothing. *)
Theorem compute_bbox_all_3d_counts (seg : ndarray) (n0 n1 n2 : nat)
    (uid : option (list Z)) :
  let ids := match uid with None => data seg | Some u => u end in
  array_wf seg -> shape seg = [n0; n1; n2] ->
  Z.of_nat n0 < 2 ^ 31 -> Z.of_nat n1 < 2 ^ 31 -> Z.of_nat n2 < 2 ^ 31 ->
  Z.of_nat (length (data seg)) < 2 ^ 31 ->
  ids <> [] -> -1 <= max_of ids < 2 ^ 31 ->
  Forall (fun v => 0 <= v) (data seg) ->
  exists rows : list (list Z),
    compute_bbox_all seg false uid = Returns (Some rows) /\
    compute_bbox_all seg true uid =
      Returns (Some (map (fun r => r ++ [label_count seg (hd 0 r)]) rows)).
Proof.
  intros ids Hwf Hshape Hn0 Hn1 Hn2 Hsize Hne Hmax Hdata.
  exists (map (box_row seg (max_of ids) (-1)) (labels_upto seg (max_of ids))).
  rewrite !compute_bbox_all_rank3 by (by rewrite Hshape).
  rewrite (bbox_3d_returns seg n0 n1 n2) by done.
  rewrite (bbox_3d_count_returns seg n0 n1 n2) by done.
  split; [done|]. cbn [mbind outcome_bind]. do 2 f_equal.
  rewrite map_map. by apply map_ext.
Qed.

Lemma compute_bbox_all_3d_counts_witness :
  compute_bbox_all example_volume true (Some [2])
  = Returns (Some [[1; 0; 0; 0; 0; 0; 0; 1]]).
Proof.
  destruct (compute_bbox_all_3d_counts example_volume 1 1 2 (Some [2]))
    as (rows & Hret & Hcnt).
  - split; [reflexivity|discriminate].
  - reflexivity.
  - lia.
  - lia.
  - lia.
  - simpl. lia.
  - discriminate.
  - simpl. lia.
  - unfold example_volume. simpl.
    repeat first [apply Forall_nil_2 | apply Forall_cons_2; [lia|]].
  - rewrite Hcnt. vm_compute in Hret. injection Hret as <-. reflexivity.
Defined.

(** * Further properties of [compute_bbox] and of the merger *)

Section ComputeBboxCases.
Variable seg : ndarray.
Hypothesis seg_wf : array_wf seg.

Lemma np_any_zero : Forall (fun v => v = 0) (data seg) -> np_any seg = false.
Proof.
  intros Hall. unfold np_any.
  apply not_true_is_false. intros (v & Hv & Hnz)%existsb_exists.
  rewrite Forall_forall in Hall. apply list_elem_of_In, Hall in Hv.
  subst v. done.
Qed.

Lemma np_any_nonzero : Exists (fun v => v <> 0) (data seg) -> np_any seg = true.
Proof.
  intros (v & Hv & Hnz)%Exists_exists. unfold np_any.
  apply existsb_exists. exists v. split; [by apply list_elem_of_In|].
  by apply negb_true_iff, Z.eqb_neq.
Qed.

Lemma where_positive_none :
  Forall (fun v => v <= 0) (data seg) -> where_positive seg = [].
Proof.
  intros Hall. unfold where_positive.
  assert (np_where (map (fun v => 0 <? v) (data seg)) = []) as ->; [|done].
  destruct (np_where _) as [|k l] eqn:Hw; [done|].
  assert (k ∈ k :: l) as Hk by apply list_elem_of_here.
  rewrite <- Hw in Hk.
  apply np_where_elem, positive_mask_lookup in Hk as [Hk Hpos].
  rewrite Forall_forall in Hall.
  assert (nth k (data seg) 0 ∈ data seg) as Hin
    by (by apply list_elem_of_In, nth_In).
  specialize (Hall _ Hin). lia.
Qed.

Lemma where_positive_some (p : list nat) :
  foreground seg p -> where_positive seg <> [].
Proof.
  intros Hp%where_positive_elem Heq; [|done].
  rewrite Heq in Hp. by apply elem_of_nil in Hp.
Qed.

Lemma foreground_nonzero (p : list nat) :
  foreground seg p -> Exists (fun v => v <> 0) (data seg).
Proof.
  intros [Hb Hpos]. apply Exists_exists. exists (item seg p).
  split; [|lia]. unfold item. apply list_elem_of_In, nth_In.
  destruct seg_wf as [-> _]. by apply ravel_in_bounds.
Qed.
End ComputeBboxCases.

(** X7.  [compute_bbox] on an array that need not be a binary mask.  An
    array of zeros gives [None].  An array with a non-zero entry but no
    positive one passes the test [seg.any()] and then raises [ValueError]
    at the minimum of an empty coordinate list.  An array with a positive
    entry gives, per axis, the least and the greatest coordinate over its
    positive entries, whatever its other entries are. *)
Theorem compute_bbox_any_array (seg : ndarray) :
  array_wf seg ->
  (Forall (fun v => v = 0) (data seg) ->
   forall do_count, compute_bbox seg do_count = Returns None) /\
  (Exists (fun v => v <> 0) (data seg) ->
   Forall (fun v => v <= 0) (data seg) ->
   forall do_count, compute_bbox seg do_count = Raises ValueError) /\
  (Exists (fun v => 0 < v) (data seg) ->
   exists out : list Z,
     compute_bbox seg false = Returns (Some out) /\
     compute_bbox seg true =
       Returns (Some (out ++ [Z.of_nat (count_foreground seg)])) /\
     length out = (2 * ndim seg)%nat /\
     forall i, (i < ndim seg)%nat ->
       axis_minimum seg i (nth (2 * i) out 0) /\
       axis_maximum seg i (nth (2 * i + 1) out 0)).
Proof.
  intros Hwf. split; [|split].
  - intros Hall do_count. unfold compute_bbox. by rewrite np_any_zero.
  - intros Hex Hall do_count. unfold compute_bbox.
    rewrite np_any_nonzero by done. simpl.
    rewrite where_positive_none by done.
    destruct Hwf as [_ Hs]. unfold ndim.
    destruct (shape seg) as [|d s]; [done|]. done.
  - intros Hex.
    assert (exists p, foreground seg p) as [p Hp].
    { apply Exists_exists in Hex as (v & Hv & Hpos).
      apply list_elem_of_lookup in Hv as [k Hk].
      exists (unravel (shape seg) k). apply where_positive_elem; [done|].
      unfold where_positive. apply list_elem_of_In, in_map, list_elem_of_In.
      apply np_where_elem, positive_mask_lookup.
      split; [by eapply lookup_lt_Some|].
      by rewrite (nth_lookup_Some _ _ _ _ Hk). }
    pose proof (where_positive_some seg Hwf p Hp) as Hne.
    pose proof (np_any_nonzero seg (foreground_nonzero seg Hwf p Hp)) as Hany.
    exists (flat_map (fun i => [min_of (axis_coords i (where_positive seg));
                                max_of (axis_coords i (where_positive seg))])
                     (seq 0 (ndim seg))).
    split; [|split].
    { unfold compute_bbox. rewrite Hany. simpl.
      by rewrite compute_bbox_loop by done. }
    { unfold compute_bbox. rewrite Hany. simpl.
      rewrite compute_bbox_loop by done. simpl.
      by rewrite where_positive_length. }
    split; [apply pairs_length|].
    intros i Hi.
    destruct (pairs_nth
      (fun i => min_of (axis_coords i (where_positive seg)))
      (fun i => max_of (axis_coords i (where_positive seg)))
      0 (ndim seg) i Hi) as [-> ->].
    simpl. split; [by apply axis_min_of|by apply axis_max_of].
Qed.

Lemma compute_bbox_any_array_witness :
  compute_bbox {| shape := [2]%nat; data := [0; -1] |} true
  = Raises ValueError /\
  exists out : list Z,
    compute_bbox {| shape := [3]%nat; data := [-1; 5; 2] |} false
    = Returns (Some out) /\ nth 0 out 0 = 1.
Proof.
  split.
  - destruct (compute_bbox_any_array {| shape := [2]%nat; data := [0; -1] |})
      as (_ & H & _).
    + split; [reflexivity|discriminate].
    + apply H.
      * simpl. apply Exists_cons_tl, Exists_cons_hd. lia.
      * simpl. repeat first [apply Forall_nil_2 | apply Forall_cons_2; [lia|]].
  - destruct (compute_bbox_any_array
                {| shape := [3]%nat; data := [-1; 5; 2] |}) as (_ & _ & H).
    + split; [reflexivity|discriminate].
    + destruct H as (out & Hret & _).
      * simpl. apply Exists_cons_tl, Exists_cons_hd. lia.
      * exists out. split; [exact Hret|].
        vm_compute in Hret. by injection Hret as <-.
Defined.

Section MergeLayout.
Implicit Types (A B : matrix).

Lemma mask_select_filter {X} (p : X -> bool) (l : list X) :
  mask_select (map p l) l = List.filter p l.
Proof.
  induction l as [|x l IH]; simpl; [done|]. rewrite IH. by destruct (p x).
Qed.

Lemma merged_b_length A B : length (merged_b A B) = length B.
Proof.
  rewrite <- (length_map (fun r => hd 0 r) (merged_b A B)).
  fold (col0 (merged_b A B)). rewrite col0_merged_b.
  unfold col0. by rewrite length_map.
Qed.

Lemma merged_b_disjoint A B :
  (forall k, k ∈ col0 A -> k ∉ col0 B) -> merged_b A B = B.
Proof.
  intros Hdis. unfold merged_b.
  rewrite in1d_as_row_mask, mask_select_filter.
  assert (List.filter (fun r => bool_decide (hd 0 r ∈ col0 B)) A = []) as ->;
    [|done].
  induction A as [|r A IH]; simpl; [done|].
  rewrite bool_decide_eq_false_2.
  - apply IH. intros k Hk. apply Hdis. unfold col0 in *. simpl.
    by apply list_elem_of_further.
  - apply Hdis. unfold col0. simpl. apply list_elem_of_here.
Qed.

Lemma filter_disjoint A B :
  (forall k, k ∈ col0 A -> k ∉ col0 B) ->
  List.filter (fun r => negb (bool_decide (hd 0 r ∈ col0 B))) A = A.
Proof.
  intros Hdis. induction A as [|r A IH]; simpl; [done|].
  rewrite bool_decide_eq_false_2.
  - simpl. f_equal. apply IH. intros k Hk. apply Hdis.
    unfold col0 in *. simpl. by apply list_elem_of_further.
  - apply Hdis. unfold col0. simpl. apply list_elem_of_here.
Qed.
End MergeLayout.

(** X8.  The layout of the matrix [merge_bbox_two_matrices] returns, for
    two matrices with at least one row each and one common width
    [1 + 2 D] (ids may repeat) held in two array objects: first the rows
    of the
    first matrix whose id is not in the second, unchanged and in their
    order, then one row per row of the second matrix, with the ids of the
    second matrix in their order; these last rows are the contents the
    call leaves in the second array.  When the matrices share no id the
    result is the two matrices stacked and the second array is as it
    was. *)
Theorem merge_bbox_two_matrices_layout (D : nat) (h : heap) (la lb : loc)
    (A B : matrix) :
  h !! la = Some A -> h !! lb = Some B -> la <> lb ->
  A <> [] -> B <> [] ->
  Forall (fun r => length r = S (2 * D)) A ->
  Forall (fun r => length r = S (2 * D)) B ->
  exists (l : loc) (h' : heap) (B' : matrix),
    merge_bbox_two_matrices (Some la) (Some lb) h = (Some l, h') /\
    h' !! l =
      Some (List.filter (fun r => negb (bool_decide (hd 0 r ∈ col0 B))) A
            ++ B') /\
    h' !! lb = Some B' /\
    col0 B' = col0 B /\ length B' = length B /\
    ((forall k, k ∈ col0 A -> k ∉ col0 B) ->
     B' = B /\ h' !! l = Some (A ++ B)).
Proof.
  intros HA HB Hne _ _ _ _.
  destruct (merge_bbox_two_matrices_spec h la lb A B HA HB Hne)
    as (l & Hl & Heq).
  assert (l <> lb) as Hlb.
  { intros ->. apply Hl. by apply elem_of_dom_2 in HB. }
  exists l, (<[l := merged_table A B]> (<[lb := merged_b A B]> h)),
    (merged_b A B).
  split; [done|]. split.
  { rewrite lookup_insert_eq. unfold merged_table.
    by rewrite negb_in1d_as_row_mask, mask_select_filter. }
  split; [by rewrite lookup_insert_ne, lookup_insert_eq|].
  split; [apply col0_merged_b|]. split; [apply merged_b_length|].
  intros Hdis. split; [by apply merged_b_disjoint|].
  rewrite lookup_insert_eq. unfold merged_table.
  rewrite merged_b_disjoint by done.
  rewrite negb_in1d_as_row_mask, mask_select_filter.
  by rewrite filter_disjoint.
Qed.

Lemma merge_bbox_two_matrices_layout_witness :
  let h : heap := <[1%nat := [[7;0;0;0;0]; [1;2;3;2;8]]]>
                  (<[0%nat := [[3;1;1;1;1]; [1;0;5;0;5]; [3;9;9;9;9]]]> ∅) in
  exists (l : loc) (h' : heap) (B' : matrix),
    merge_bbox_two_matrices (Some 0%nat) (Some 1%nat) h = (Some l, h') /\
    h' !! l = Some ([[3;1;1;1;1]; [3;9;9;9;9]] ++ B') /\
    col0 B' = [7; 1].
Proof.
  intros h.
  destruct (merge_bbox_two_matrices_layout 2 h 0%nat 1%nat
              [[3;1;1;1;1]; [1;0;5;0;5]; [3;9;9;9;9]]
              [[7;0;0;0;0]; [1;2;3;2;8]])
    as (l & h' & B' & H1 & H2 & _ & H3 & _).
  - reflexivity.
  - reflexivity.
  - discriminate.
  - discriminate.
  - discriminate.
  - repeat constructor.
  - repeat constructor.
  - exists l, h', B'. split; [exact H1|]. split; [|exact H3].
    rewrite H2. reflexivity.
Defined.

(** * Properties of [merge_bbox_tile] *)

Section Parity.
Lemma even_sub3 (c : nat) : (3 <= c)%nat -> Nat.even (c - 3) = Nat.odd c.
Proof.
  intros Hc. replace c with (c - 3 + 3)%nat at 2 by lia.
  rewrite Nat.odd_add. change (Nat.odd 3) with true.
  rewrite <- Nat.negb_even. by destruct (Nat.even (c - 3)).
Qed.

Lemma even_sub4 (c : nat) : (4 <= c)%nat -> Nat.even (c - 4) = Nat.even c.
Proof.
  intros Hc. replace c with (c - 4 + 4)%nat at 2 by lia.
  rewrite Nat.even_add. change (Nat.even 4) with true.
  by destruct (Nat.even (c - 4)).
Qed.
End Parity.

Section Rounding.
Variable ratio : Z.

Lemma round_to_ratio_lookup (M : matrix) (i : nat) :
  round_to_ratio ratio M !! i =
  (fun r => round_up_columns ratio (round_down_columns ratio r)) <$> M !! i.
Proof.
  unfold round_to_ratio. rewrite map_map.
  change (map ?f M) with (f <$> M). by rewrite list_lookup_fmap.
Qed.

Lemma round_columns_lookup (r : row) (c : nat) :
  round_up_columns ratio (round_down_columns ratio r) !! c =
  (fun v =>
     if (3 <=? c)%nat && Nat.even (c - 3) then v / ratio * ratio
     else if (4 <=? c)%nat && Nat.even (c - 4)
          then (v + ratio - 1) / ratio * ratio - 1
          else v) <$> r !! c.
Proof.
  unfold round_up_columns, round_down_columns.
  rewrite !list_lookup_imap. destruct (r !! c) as [v|]; [|done].
  cbv [fmap option_fmap option_map]. f_equal.
  destruct (Nat.leb_spec 3 c) as [H3|H3]; cbn [andb].
  - destruct (Nat.even (c - 3)) eqn:He3.
    + destruct (Nat.leb_spec 4 c) as [H4|H4]; cbn [andb]; [|done].
      replace (c - 3)%nat with (S (c - 4)) in He3 by lia.
      rewrite Nat.even_succ, <- Nat.negb_even in He3.
      apply negb_true_iff in He3. by rewrite He3.
    + done.
  - destruct (Nat.leb_spec 4 c); [lia|done].
Qed.

Lemma round_columns_length (r : row) :
  length (round_up_columns ratio (round_down_columns ratio r)) = length r.
Proof. unfold round_up_columns, round_down_columns. by rewrite !length_imap. Qed.

Hypothesis ratio_pos : 0 < ratio.

Lemma round_down_spec (v : Z) :
  let v' := v / ratio * ratio in
  v' <= v < v' + ratio /\ v' mod ratio = 0.
Proof.
  simpl. split.
  - pose proof (Z.mul_div_le v ratio ratio_pos).
    pose proof (Z.mul_succ_div_gt v ratio ratio_pos). lia.
  - apply Z.mod_mul. lia.
Qed.

Lemma round_up_spec (v : Z) :
  let v' := (v + ratio - 1) / ratio * ratio - 1 in
  v <= v' + 1 < v + ratio /\ (v' + 1) mod ratio = 0.
Proof.
  simpl. split.
  - pose proof (Z.mul_div_le (v + ratio - 1) ratio ratio_pos).
    pose proof (Z.mul_succ_div_gt (v + ratio - 1) ratio ratio_pos). lia.
  - replace ((v + ratio - 1) / ratio * ratio - 1 + 1)
      with ((v + ratio - 1) / ratio * ratio) by lia.
    apply Z.mod_mul. lia.
Qed.
End Rounding.

Section MergeTileFiles.
Variable read_txt : string -> list string.
Variable path_join : string -> string -> string.
Variable path_exists : string -> bool.
Variable st_size : string -> Z.
Variable loadtxt : string -> outcome loaded.
Variable mask_bbox_folder : string.

Lemma load_tile_nonempty (fn : string) (bbox : matrix) :
  load_tile path_exists st_size loadtxt mask_bbox_folder fn
    = Returns (Some bbox) ->
  (0 <? length bbox)%nat = true.
Proof.
  unfold load_tile.
  destruct (path_exists _ && (1 <? st_size _)); [|done].
  destruct (loadtxt _) as [[v|v|m]|e]; simpl; try done.
  - destruct (0 <? length v)%nat; [|done]. by intros [= <-].
  - destruct (0 <? length m)%nat eqn:Hm; [|done]. by intros [= <-].
Qed.

Lemma merge_tile_files_fold (fns : list string) (ts : list (option matrix))
    (st : option loc * heap) :
  Forall2 (fun fn t =>
             load_tile path_exists st_size loadtxt mask_bbox_folder fn
             = Returns t) fns ts ->
  for_each fns
    (fun '(out, h) fn =>
       t ← load_tile path_exists st_size loadtxt mask_bbox_folder fn;
       match t with
       | Some bbox =>
           let '(lb, h1) := alloc bbox h in
           Returns (merge_bbox_two_matrices out (Some lb) h1)
       | None => Returns (out, h)
       end)
    st =
  Returns (fold_left merge_bbox_tile_step (omap id ts) st).
Proof.
  intros Hall. revert st.
  induction Hall as [|fn t fns ts Hload _ IH]; intros [out h]; [done|].
  cbn [for_each]. rewrite Hload. cbn [mbind outcome_bind].
  destruct t as [bbox|].
  - rewrite (omap_cons_Some id (Some bbox) bbox) by done.
    cbn [fold_left]. unfold merge_bbox_tile_step at 2.
    rewrite (load_tile_nonempty fn bbox Hload).
    destruct (alloc bbox h) as [lb h1]. cbn [mbind outcome_bind].
    apply IH.
  - rewrite (omap_cons_None id None) by done. apply IH.
Qed.

Lemma merge_tile_files_none (fns : list string) (st : option loc * heap) :
  Forall (fun fn =>
            load_tile path_exists st_size loadtxt mask_bbox_folder fn
            = Returns None) fns ->
  for_each fns
    (fun '(out, h) fn =>
       t ← load_tile path_exists st_size loadtxt mask_bbox_folder fn;
       match t with
       | Some bbox =>
           let '(lb, h1) := alloc bbox h in
           Returns (merge_bbox_two_matrices out (Some lb) h1)
       | None => Returns (out, h)
       end)
    st = Returns st.
Proof.
  intros Hall. induction Hall as [|fn fns Hload _ IH]; [done|].
  destruct st as [out h]. cbn [for_each]. rewrite Hload.
  cbn [mbind outcome_bind]. apply IH.
Qed.
End MergeTileFiles.

(** X9.  [merge_bbox_tile] with [ratio = 1] is the fold of
    [merge_bbox_two_matrices] over the box files of the tiles listed in
    [out.txt], in the order of the list, each loaded matrix being copied
    first; a tile whose box file is missing or holds at most one byte is
    passed over, and every matrix that is merged has at least one row. *)
Theorem merge_bbox_tile_conf_fold (read_txt : string -> list string)
    (path_join : string -> string -> string) (path_exists : string -> bool)
    (st_size : string -> Z) (loadtxt : string -> outcome loaded)
    (mask_folder mask_bbox_folder : string) (ts : list (option matrix))
    (h : heap) :
  Forall2 (fun fn t =>
             load_tile path_exists st_size loadtxt mask_bbox_folder fn
             = Returns t)
          (read_txt (path_join mask_folder "out.txt")) ts ->
  merge_bbox_tile_conf read_txt path_join path_exists st_size loadtxt
    mask_folder mask_bbox_folder 1 true h =
  Returns (merge_bbox_tile (omap id ts) h, None) /\
  Forall (fun bbox => bbox <> []) (omap id ts) /\
  (forall fn,
     path_exists (mask_bbox_folder +:+ "/" +:+ drop_last fn +:+ ".txt")
       = false \/
     st_size (mask_bbox_folder +:+ "/" +:+ drop_last fn +:+ ".txt") <= 1 ->
     load_tile path_exists st_size loadtxt mask_bbox_folder fn
     = Returns None).
Proof.
  intros Hall. split; [|split].
  - unfold merge_bbox_tile_conf, merge_tile_files.
    rewrite (merge_tile_files_fold _ _ _ _ _ ts) by done.
    cbn [mbind outcome_bind]. unfold merge_bbox_tile.
    by destruct (fold_left _ _ _).
  - apply Forall_forall. intros bbox Hin.
    apply list_elem_of_omap in Hin as (t & Ht & Hid).
    simpl in Hid. subst t.
    apply list_elem_of_lookup in Ht as [i Hi].
    destruct (Forall2_lookup_r _ _ _ _ _ Hall Hi) as (fn & _ & Hload).
    apply load_tile_nonempty in Hload. by destruct bbox.
  - intros fn Hskip. unfold load_tile.
    destruct Hskip as [->|Hsz]; [done|].
    destruct (Z.ltb_spec 1 (st_size (mask_bbox_folder +:+ "/" +:+ drop_last fn
                                     +:+ ".txt"))); [lia|].
    by rewrite andb_false_r.
Qed.

Lemma merge_bbox_tile_conf_fold_witness :
  exists (l : loc) (h' : heap),
    merge_bbox_tile_conf example_out_txt example_join example_box_exists
      example_box_size example_loadtxt "mask" "box" 1 true ∅
    = Returns (Some l, h', None) /\
    h' !! l = Some [[1; 0; 0; 0; 8; 0; 9]; [2; 0; 0; 1; 1; 1; 1]].
Proof.
  destruct (merge_bbox_tile_conf_fold example_out_txt example_join
              example_box_exists example_box_size example_loadtxt
              "mask" "box"
              [Some [[1; 0; 0; 0; 5; 0; 5]]; None; None;
               Some [[1; 0; 0; 2; 8; 2; 9]; [2; 0; 0; 1; 1; 1; 1]]] ∅)
    as (Hret & _).
  - repeat constructor.
  - rewrite Hret. eexists _, _. split; [reflexivity|]. reflexivity.
Defined.

(** X10.  [merge_bbox_tile] when no tile of the list has a usable box
    file: with [ratio = 1] and [do_return] it returns [None] and touches
    nothing; with any other ratio the rounding subscripts [None] and
    raises [TypeError]; with [ratio = 1] and without [do_return] the save
    of [None] raises [ValueError]. *)
Theorem merge_bbox_tile_conf_no_tile (read_txt : string -> list string)
    (path_join : string -> string -> string) (path_exists : string -> bool)
    (st_size : string -> Z) (loadtxt : string -> outcome loaded)
    (mask_folder mask_bbox_folder : string) (h : heap) :
  Forall (fun fn =>
            load_tile path_exists st_size loadtxt mask_bbox_folder fn
            = Returns None)
         (read_txt (path_join mask_folder "out.txt")) ->
  merge_bbox_tile_conf read_txt path_join path_exists st_size loadtxt
    mask_folder mask_bbox_folder 1 true h = Returns (None, h, None) /\
  merge_bbox_tile_conf read_txt path_join path_exists st_size loadtxt
    mask_folder mask_bbox_folder 1 false h = Raises ValueError /\
  forall ratio do_return, ratio <> 1 ->
    merge_bbox_tile_conf read_txt path_join path_exists st_size loadtxt
      mask_folder mask_bbox_folder ratio do_return h = Raises TypeError.
Proof.
  intros Hall. unfold merge_bbox_tile_conf, merge_tile_files.
  rewrite (merge_tile_files_none _ _ _ _ _ (None, h) Hall).
  cbn [mbind outcome_bind]. split; [done|]. split; [done|].
  intros ratio do_return Hne.
  destruct (Z.eqb_spec ratio 1); [done|]. done.
Qed.

Lemma merge_bbox_tile_conf_no_tile_witness :
  merge_bbox_tile_conf (fun _ => ["t2" +:+ newline; "t3" +:+ newline])
    example_join example_box_exists example_box_size example_loadtxt
    "mask" "box" 4 true ∅ = Raises TypeError.
Proof.
  destruct (merge_bbox_tile_conf_no_tile
              (fun _ => ["t2" +:+ newline; "t3" +:+ newline])
              example_join example_box_exists example_box_size
              example_loadtxt "mask" "box" ∅) as (_ & _ & H).
  - repeat constructor.
  - apply H. discriminate.
Defined.

(** X11.  The rounding of [merge_bbox_tile] for a ratio above 1: the table
    is the one of [ratio = 1], rounded in place.  The id and the two
    columns after it are kept; each minimum column (3, 5, ...) becomes the
    greatest multiple of [ratio] that is not above it; each maximum column
    (4, 6, ...) becomes one less than the least multiple of [ratio] that
    is not below it, so a maximum that is a multiple of [ratio] is
    lowered by 1.  Without [do_return] this rounded table is what is
    saved. *)
Theorem merge_bbox_tile_conf_rounds (read_txt : string -> list string)
    (path_join : string -> string -> string) (path_exists : string -> bool)
    (st_size : string -> Z) (loadtxt : string -> outcome loaded)
    (mask_folder mask_bbox_folder : string) (ratio : Z) (h h1 : heap)
    (l : loc) (T : matrix) :
  1 < ratio ->
  merge_bbox_tile_conf read_txt path_join path_exists st_size loadtxt
    mask_folder mask_bbox_folder 1 true h = Returns (Some l, h1, None) ->
  h1 !! l = Some T ->
  merge_bbox_tile_conf read_txt path_join path_exists st_size loadtxt
    mask_folder mask_bbox_folder ratio true h
  = Returns (Some l, <[l := round_to_ratio ratio T]> h1, None) /\
  merge_bbox_tile_conf read_txt path_join path_exists st_size loadtxt
    mask_folder mask_bbox_folder ratio false h
  = Returns (None, <[l := round_to_ratio ratio T]> h1,
             Some (drop_last mask_bbox_folder +:+ "_init.txt",
                   round_to_ratio ratio T)) /\
  length (round_to_ratio ratio T) = length T /\
  forall (i : nat) (r : row), T !! i = Some r ->
    exists r' : row,
      round_to_ratio ratio T !! i = Some r' /\ length r' = length r /\
      forall (c : nat) (v : Z), r !! c = Some v ->
        exists v' : Z,
          r' !! c = Some v' /\
          ((c < 3)%nat -> v' = v) /\
          ((3 <= c)%nat -> Nat.odd c = true ->
           v' <= v < v' + ratio /\ v' mod ratio = 0) /\
          ((3 <= c)%nat -> Nat.even c = true ->
           v <= v' + 1 < v + ratio /\ (v' + 1) mod ratio = 0 /\
           (v mod ratio = 0 -> v' = v - 1)).
Proof.
  intros Hratio Hone HT.
  assert (Hfiles : merge_tile_files path_exists st_size loadtxt
                     mask_bbox_folder
                     (read_txt (path_join mask_folder "out.txt")) h
                   = Returns (Some l, h1)).
  { revert Hone. unfold merge_bbox_tile_conf.
    destruct (merge_tile_files _ _ _ _ _ _) as [[out h']|e]; [|done].
    cbn [mbind outcome_bind]. change (negb (1 =? 1)) with false.
    cbn [mbind outcome_bind]. by intros [= -> ->]. }
  assert (Hne : negb (ratio =? 1) = true).
  { apply negb_true_iff, Z.eqb_neq. lia. }
  split; [|split; [|split]].
  - unfold merge_bbox_tile_conf. rewrite Hfiles. cbn [mbind outcome_bind].
    rewrite Hne. cbn [mbind outcome_bind].
    by rewrite (lookup_total_correct h1 l T HT).
  - unfold merge_bbox_tile_conf. rewrite Hfiles. cbn [mbind outcome_bind].
    rewrite Hne. cbn [mbind outcome_bind].
    rewrite (lookup_total_correct h1 l T HT).
    by rewrite lookup_total_insert_eq.
  - unfold round_to_ratio. by rewrite !length_map.
  - intros i r Hr.
    exists (round_up_columns ratio (round_down_columns ratio r)).
    split; [by rewrite round_to_ratio_lookup, Hr|].
    split; [apply round_columns_length|].
    intros c v Hv. rewrite round_columns_lookup, Hv.
    cbv [fmap option_fmap option_map].
    eexists. split; [reflexivity|].
    assert (0 < ratio) as Hpos by lia.
    split; [|split].
    + intros Hc. destruct (Nat.leb_spec 3 c); [lia|].
      destruct (Nat.leb_spec 4 c); [lia|]. done.
    + intros Hc Hodd. destruct (Nat.leb_spec 3 c); [|lia]. cbn [andb].
      rewrite even_sub3, Hodd by done.
      apply (round_down_spec ratio Hpos v).
    + intros Hc Heven. destruct (Nat.leb_spec 3 c); [|lia]. cbn [andb].
      rewrite even_sub3 by done.
      rewrite <- Nat.negb_even, Heven. cbn [negb].
      assert (4 <= c)%nat as Hc4.
      { destruct (decide (c = 3%nat)) as [->|]; [done|lia]. }
      destruct (Nat.leb_spec 4 c); [|lia]. cbn [andb].
      rewrite even_sub4, Heven by done.
      destruct (round_up_spec ratio Hpos v) as [H1 H2].
      split; [done|]. split; [done|].
      intros Hmod.
      apply Z.mod_divide in Hmod as [q ->]; [|lia].
      replace (q * ratio + ratio - 1) with (ratio - 1 + q * ratio) by lia.
      rewrite Z.div_add by lia. rewrite (Z.div_small (ratio - 1)) by lia. lia.
Qed.

Lemma merge_bbox_tile_conf_rounds_witness :
  exists (l : loc) (h' : heap),
    merge_bbox_tile_conf example_out_txt example_join example_box_exists
      example_box_size example_loadtxt "mask" "box" 4 true ∅
    = Returns (Some l, h', None) /\
    h' !! l = Some [[1; 0; 0; 0; 7; 0; 11]; [2; 0; 0; 0; 3; 0; 3]].
Proof.
  destruct (merge_bbox_tile_conf_rounds example_out_txt example_join
              example_box_exists example_box_size example_loadtxt
              "mask" "box" 4 ∅
              (<[2%nat := [[1; 0; 0; 0; 8; 0; 9]; [2; 0; 0; 1; 1; 1; 1]]]>
                 (<[1%nat := [[1; 0; 0; 0; 8; 0; 9]; [2; 0; 0; 1; 1; 1; 1]]]>
                    (<[0%nat := [[1; 0; 0; 0; 5; 0; 5]]]> ∅)))
              2%nat [[1; 0; 0; 0; 8; 0; 9]; [2; 0; 0; 1; 1; 1; 1]])
    as (Hret & _).
  - lia.
  - vm_compute. reflexivity.
  - reflexivity.
  - rewrite Hret. eexists _, _. split; [reflexivity|].
    rewrite lookup_insert_eq. reflexivity.
Defined.

(** * Properties of the neuron dictionary *)

Section Dict.
Implicit Types (d : list (string * Z)) (key : string) (v : Z).

Lemma dict_get_Some d key v :
  dict_get d key = Some v -> (key, v) ∈ d.
Proof.
  unfold dict_get. destruct (List.find _ d) as [[k w]|] eqn:Hf; [|done].
  simpl. intros [= ->]. apply find_some in Hf as [Hin Hk].
  apply String.eqb_eq in Hk. simpl in Hk. subst k. by apply list_elem_of_In.
Qed.

Lemma dict_get_unique d key v :
  NoDup (map fst d) -> (key, v) ∈ d -> dict_get d key = Some v.
Proof.
  unfold dict_get. induction d as [|[k w] d IH]; simpl.
  - by rewrite elem_of_nil.
  - rewrite NoDup_cons, elem_of_cons. intros [Hk Hnd] [[= -> ->]|Hin].
    + by rewrite String.eqb_refl.
    + destruct (String.eqb_spec k key) as [->|Hne]; [|by apply IH].
      exfalso. apply Hk. apply list_elem_of_In, in_map_iff.
      exists (key, v). split; [done|]. by apply list_elem_of_In.
Qed.

Lemma dict_get_all_Found d (name : list string) (vs : list Z) :
  dict_get_all d name = Found vs <->
  Forall2 (fun x v => dict_get d x = Some v) name vs.
Proof.
  revert vs. induction name as [|x name IH]; intros vs; simpl.
  - split.
    + intros [= <-]. constructor.
    + intros H. by apply Forall2_nil_inv_l in H as ->.
  - destruct (dict_get d x) as [v|] eqn:Hx.
    + destruct (dict_get_all d name) as [ws| |] eqn:Hall.
      * split.
        -- intros [= <-]. constructor; [done|]. by apply IH.
        -- intros H. apply Forall2_cons_inv_l in H as (w & ws' & Hw & Hws & ->).
           apply IH in Hws. injection Hws as <-. congruence.
      * split; [done|].
        intros H. apply Forall2_cons_inv_l in H as (w & ws' & Hw & Hws & ->).
        by apply IH in Hws.
      * split; [done|].
        intros H. apply Forall2_cons_inv_l in H as (w & ws' & Hw & Hws & ->).
        by apply IH in Hws.
    + split; [done|].
      intros H. apply Forall2_cons_inv_l in H as (w & ws' & Hw & Hws & ->).
      congruence.
Qed.

Lemma dict_get_all_KeyError d (name : list string) (k : string) :
  dict_get_all d name = KeyError k ->
  exists pre post, name = pre ++ k :: post /\ dict_get d k = None /\
                   Forall (fun x => is_Some (dict_get d x)) pre.
Proof.
  induction name as [|x name IH]; simpl; [done|].
  destruct (dict_get d x) as [v|] eqn:Hx.
  - destruct (dict_get_all d name) as [ws|k'|] eqn:Hall; [done| |done].
    intros [= ->]. destruct (IH eq_refl) as (pre & post & -> & Hk & Hpre).
    exists (x :: pre), post. split; [done|]. split; [done|].
    constructor; [by rewrite Hx|done].
  - intros [= ->]. exists [], name. split; [done|]. split; [done|constructor].
Qed.

Lemma dict_get_all_missing d (pre post : list string) (k : string) :
  Forall (fun x => is_Some (dict_get d x)) pre -> dict_get d k = None ->
  dict_get_all d (pre ++ k :: post) = KeyError k.
Proof.
  intros Hpre Hk. induction Hpre as [|x pre [v Hx] _ IH]; simpl.
  - by rewrite Hk.
  - by rewrite Hx, IH.
Qed.

Lemma dict_get_all_no_other d (name : list string) (e : exn) :
  dict_get_all d name <> Fails e.
Proof.
  induction name as [|x name IH]; simpl; [done|].
  destruct (dict_get d x); [|done].
  by destruct (dict_get_all d name).
Qed.

(** The names whose id is [id], in a dictionary whose first entry with
    that id is [(name, id)]. *)
Lemma names_of_id_first d (pre post : list (string * Z)) (name : string)
    (id : Z) :
  d = pre ++ (name, id) :: post -> NoDup (map fst d) -> id ∉ map snd pre ->
  exists rest,
    List.filter (fun x => bool_decide (dict_get d x = Some id)) (map fst d)
    = name :: rest.
Proof.
  intros Hd Hnd Hpre.
  assert (Hget : forall k w, (k, w) ∈ d -> dict_get d k = Some w).
  { intros k w. by apply dict_get_unique. }
  assert (Hin : forall kv, kv ∈ pre -> kv ∈ d).
  { intros kv Hkv. rewrite Hd. apply elem_of_app. by left. }
  assert (Hname : (name, id) ∈ d).
  { rewrite Hd. apply elem_of_app. right. apply list_elem_of_here. }
  replace (map fst d) with (map fst pre ++ name :: map fst post)
    by (by rewrite Hd, map_app).
  rewrite List.filter_app.
  assert (List.filter (fun x => bool_decide (dict_get d x = Some id))
            (map fst pre) = []) as ->.
  { clear Hd Hnd. induction pre as [|[k w] pre IH]; simpl; [done|].
    rewrite (Hget k w) by (apply Hin, list_elem_of_here).
    rewrite bool_decide_eq_false_2.
    - apply IH.
      + intros Hid. apply Hpre. simpl. by apply list_elem_of_further.
      + intros kv Hkv. apply Hin. by apply list_elem_of_further.
    - intros [= ->]. apply Hpre. simpl. apply list_elem_of_here. }
  simpl. rewrite (Hget name id) by done.
  rewrite bool_decide_eq_true_2 by done. by eexists.
Qed.
End Dict.

Section DictValues.
Implicit Types (d : list (string * Z)) (key : string) (v : Z).

Lemma dict_value_unique d (k1 k2 : string) v :
  NoDup (map snd d) -> (k1, v) ∈ d -> (k2, v) ∈ d -> k1 = k2.
Proof.
  induction d as [|[k w] d IH]; simpl.
  - by rewrite elem_of_nil.
  - rewrite NoDup_cons, !elem_of_cons.
    intros [Hw Hnd] [E1|H1] [E2|H2].
    + congruence.
    + injection E1 as -> ->. exfalso. apply Hw.
      apply list_elem_of_In, in_map_iff.
      exists (k2, w). split; [done|]. by apply list_elem_of_In.
    + injection E2 as -> ->. exfalso. apply Hw.
      apply list_elem_of_In, in_map_iff.
      exists (k1, w). split; [done|]. by apply list_elem_of_In.
    + by apply IH.
Qed.
End DictValues.

(** X12.  [neuron_to_id_name]: a pair it returns is an entry of the
    dictionary.  A name that is not numeric is looked up as it is: with
    an entry it is returned with its id, and without one the call raises
    [KeyError] with that name, and [KeyError] is raised in no other case.
    A number is turned into the first name of the dictionary that carries
    it, and [IndexError] is raised when no name does; what [int] raises
    is passed on.  In a dictionary of distinct ids, the number of a
    neuron gives back its name. *)
Theorem neuron_to_id_name_entry (read_yml : string -> list (string * Z))
    (isnumeric : string -> bool) (py_int : string -> outcome Z)
    (mask_id neuron : string) :
  let dict := read_yml mask_id in
  (forall id name,
     neuron_to_id_name read_yml isnumeric py_int mask_id neuron
       = Found (id, name) ->
     dict_get dict name = Some id /\
     (isnumeric neuron = false -> name = neuron) /\
     (isnumeric neuron = true -> py_int neuron = Returns id)) /\
  (forall id,
     isnumeric neuron = false -> dict_get dict neuron = Some id ->
     neuron_to_id_name read_yml isnumeric py_int mask_id neuron
       = Found (id, neuron)) /\
  (forall key,
     neuron_to_id_name read_yml isnumeric py_int mask_id neuron
       = KeyError key <->
     key = neuron /\ isnumeric neuron = false /\
     dict_get dict neuron = None) /\
  (forall id,
     isnumeric neuron = true -> py_int neuron = Returns id ->
     (forall name, dict_get dict name <> Some id) ->
     neuron_to_id_name read_yml isnumeric py_int mask_id neuron
       = Fails IndexError) /\
  (forall e,
     isnumeric neuron = true -> py_int neuron = Raises e ->
     neuron_to_id_name read_yml isnumeric py_int mask_id neuron = Fails e) /\
  (forall id pre name post,
     isnumeric neuron = true -> py_int neuron = Returns id ->
     NoDup (map fst dict) -> dict = pre ++ (name, id) :: post ->
     id ∉ map snd pre ->
     neuron_to_id_name read_yml isnumeric py_int mask_id neuron
       = Found (id, name)) /\
  (NoDup (map fst dict) -> NoDup (map snd dict) ->
   forall id name,
     isnumeric neuron = true -> py_int neuron = Returns id ->
     dict_get dict name = Some id ->
     neuron_to_id_name read_yml isnumeric py_int mask_id neuron
       = Found (id, name)).
Proof.
  intros dict. unfold neuron_to_id_name. fold dict.
  split; [|split; [|split; [|split; [|split; [|split]]]]].
  - intros id name.
    destruct (isnumeric neuron).
    + destruct (py_int neuron) as [nid|e]; [|done].
      destruct (List.filter _ _) as [|x l] eqn:Hf; [done|].
      intros [= <- <-].
      assert (In x (List.filter
                (fun x => bool_decide (dict_get dict x = Some nid))
                (map fst dict))) as Hx by (rewrite Hf; by left).
      apply filter_In in Hx as [_ Hx%bool_decide_eq_true]. done.
    + destruct (dict_get dict neuron) as [nid|] eqn:Hg; [|done].
      by intros [= <- <-].
  - intros id -> ->. done.
  - intros key. split.
    + destruct (isnumeric neuron).
      * destruct (py_int neuron) as [nid|e]; [|done].
        by destruct (List.filter _ _).
      * destruct (dict_get dict neuron) as [nid|] eqn:Hg; [done|].
        by intros [= <-].
    + intros (-> & -> & ->). done.
  - intros id -> -> Hnone.
    destruct (List.filter _ _) as [|x l] eqn:Hf; [done|].
    assert (In x (List.filter
              (fun x => bool_decide (dict_get dict x = Some id))
              (map fst dict))) as Hx by (rewrite Hf; by left).
    apply filter_In in Hx as [_ Hx%bool_decide_eq_true].
    by destruct (Hnone x).
  - intros e -> ->. done.
  - intros id pre name post -> -> Hnd Hdict Hpre.
    destruct (names_of_id_first dict pre post name id Hdict Hnd Hpre)
      as [rest ->].
    done.
  - intros Hkeys Hvals id name -> -> Hname.
    destruct (List.filter _ _) as [|x l] eqn:Hf.
    + exfalso.
      assert (In name (List.filter
                (fun x => bool_decide (dict_get dict x = Some id))
                (map fst dict))) as Hx; [|by rewrite Hf in Hx].
      apply filter_In. split; [|by apply bool_decide_eq_true].
      apply dict_get_Some in Hname. apply in_map_iff.
      exists (name, id). split; [done|]. by apply list_elem_of_In.
    + assert (In x (List.filter
                (fun x => bool_decide (dict_get dict x = Some id))
                (map fst dict))) as Hx by (rewrite Hf; by left).
      apply filter_In in Hx as [_ Hx%bool_decide_eq_true].
      apply dict_get_Some in Hx, Hname.
      by rewrite (dict_value_unique dict x name id Hvals Hx Hname).
Qed.

Lemma neuron_to_id_name_entry_witness :
  neuron_to_id_name example_ids example_isnumeric example_int "conf" "5"
  = Found (5, "PN") /\
  neuron_to_id_name example_ids example_isnumeric example_int "conf" "PN"
  = Found (5, "PN").
Proof.
  split; [|reflexivity].
  destruct (neuron_to_id_name_entry example_ids example_isnumeric
              example_int "conf" "5") as (_ & _ & _ & _ & _ & _ & H).
  apply H; [compute_done|compute_done|reflexivity|reflexivity|reflexivity].
Defined.

(** X13.  [neuron_name_to_id]: a single string is one name, not a list
    of characters; the result holds the id of every name, in the order of
    the names, exactly when every name is in the dictionary; otherwise
    the call raises [KeyError] with the first name that the dictionary
    lacks, and it raises nothing else; and for a name that is not numeric
    the id is the one [neuron_to_id_name] returns. *)
Theorem neuron_name_to_id_lookups (read_yml : string -> list (string * Z))
    (isnumeric : string -> bool) (py_int : string -> outcome Z)
    (mask_id : string) :
  let dict := read_yml mask_id in
  (forall s, neuron_name_to_id read_yml mask_id (OneName s) =
             neuron_name_to_id read_yml mask_id (Names [s])) /\
  (forall l ids,
     neuron_name_to_id read_yml mask_id (Names l) = Found ids <->
     Forall2 (fun x v => dict_get dict x = Some v) l ids) /\
  (forall l k,
     neuron_name_to_id read_yml mask_id (Names l) = KeyError k <->
     exists pre post,
       l = pre ++ k :: post /\ dict_get dict k = None /\
       Forall (fun x => is_Some (dict_get dict x)) pre) /\
  (forall name e, neuron_name_to_id read_yml mask_id name <> Fails e) /\
  (forall s id name,
     isnumeric s = false ->
     neuron_to_id_name read_yml isnumeric py_int mask_id s
       = Found (id, name) ->
     neuron_name_to_id read_yml mask_id (OneName s) = Found [id]).
Proof.
  intros dict. unfold neuron_name_to_id. fold dict.
  split; [done|]. split; [apply dict_get_all_Found|].
  split; [|split].
  - intros l k. split; [apply dict_get_all_KeyError|].
    intros (pre & post & -> & Hk & Hpre). by apply dict_get_all_missing.
  - intros name e. apply dict_get_all_no_other.
  - intros s id name Hnum. unfold neuron_to_id_name. fold dict. rewrite Hnum.
    simpl. destruct (dict_get dict s) as [v|]; [|done]. by intros [= -> _].
Qed.


(** * Placement of the tiles by the tiled assembler *)

Section Writes.
Context {X : Type}.
Variable s : list nat.
Variable W : X -> list nat -> option Z.

Lemma written_ext (xs : list X) (g1 g0 : list nat -> Z) :
  (forall p, Forall2 lt p s -> g1 p = g0 p) ->
  forall p, Forall2 lt p s -> written W xs g1 p = written W xs g0 p.
Proof.
  unfold written. revert g1 g0.
  induction xs as [|y ys IH]; intros g1 g0 Hg q Hq; simpl; [auto|].
  apply IH; [|done]. intros r Hr. by rewrite Hg.
Qed.

Lemma written_snoc (xs : list X) (x : X) (f0 : list nat -> Z) (p : list nat) :
  written W (xs ++ [x]) f0 p =
  match W x p with Some v => v | None => written W xs f0 p end.
Proof. unfold written. by rewrite fold_left_app. Qed.

(** Writers that agree where they overlap: the entry is what any one of
    them writes. *)
Lemma written_Some (xs : list X) (f0 : list nat -> Z) (p : list nat)
    (x : X) (v : Z) :
  (forall x1 x2 v1 v2, x1 ∈ xs -> x2 ∈ xs ->
     W x1 p = Some v1 -> W x2 p = Some v2 -> v1 = v2) ->
  x ∈ xs -> W x p = Some v -> written W xs f0 p = v.
Proof.
  induction xs as [|y ys IH] using rev_ind; intros Hagree Hin Hx.
  - by apply elem_of_nil in Hin.
  - rewrite written_snoc.
    destruct (W y p) as [v'|] eqn:Hy.
    + apply (Hagree y x); [|done|done|done].
      apply elem_of_app. right. apply list_elem_of_here.
    + apply IH; [| |done].
      * intros x1 x2 v1 v2 H1 H2. apply Hagree; apply elem_of_app; by left.
      * apply elem_of_app in Hin as [Hin|Hin]; [done|].
        apply list_elem_of_singleton in Hin. congruence.
Qed.

Lemma written_None (xs : list X) (f0 : list nat -> Z) (p : list nat) :
  (forall x, x ∈ xs -> W x p = None) -> written W xs f0 p = f0 p.
Proof.
  induction xs as [|y ys IH] using rev_ind; intros Hnone; [done|].
  rewrite written_snoc, Hnone by (apply elem_of_app; right; apply list_elem_of_here).
  apply IH. intros x Hx. apply Hnone, elem_of_app. by left.
Qed.

Variable L : X -> list event.
Variable body : ndarray * list event -> X -> outcome (ndarray * list event).

Lemma for_each_writes (xs : list X) (res : ndarray) (log : list event) :
  (forall x res log, x ∈ xs -> shape res = s ->
     exists res',
       body (res, log) x = Returns (res', log ++ L x) /\ shape res' = s /\
       forall p, Forall2 lt p s ->
         item res' p = match W x p with Some v => v | None => item res p end) ->
  shape res = s ->
  exists res',
    for_each xs body (res, log) = Returns (res', log ++ flat_map L xs) /\
    shape res' = s /\
    forall p, Forall2 lt p s -> item res' p = written W xs (item res) p.
Proof.
  revert res log. induction xs as [|x xs IH]; intros res log Hbody Hs.
  - exists res. simpl. by rewrite app_nil_r.
  - destruct (Hbody x res log (list_elem_of_here _ _) Hs)
      as (res1 & Hx & Hs1 & Hitems1).
    destruct (IH res1 (log ++ L x)) as (res' & Hrest & Hs' & Hitems');
      [|done|].
    { intros y r l Hy. apply Hbody. by apply list_elem_of_further. }
    exists res'. split; [|split; [done|]].
    + simpl. rewrite Hx. cbn [mbind outcome_bind].
      by rewrite Hrest, <- app_assoc.
    + intros p Hp. rewrite Hitems' by done.
      by rewrite (written_ext xs (item res1)
                    (fun p => match W x p with
                              | Some v => v | None => item res p end)).
Qed.
End Writes.

Section Slicing.
Lemma py_slice_inside (n : nat) (lo hi : Z) :
  0 <= lo -> lo <= hi -> hi <= Z.of_nat n ->
  py_slice n (Some lo) (Some hi) = (Z.to_nat lo, Z.to_nat (hi - lo)).
Proof.
  intros H0 H1 H2. unfold py_slice.
  destruct (Z.ltb_spec lo 0); [lia|]. destruct (Z.ltb_spec hi 0); [lia|].
  by rewrite !Z.min_l by lia.
Qed.

Lemma src_index_small (s k : nat) : (k < s)%nat -> src_index s k = k.
Proof.
  intros Hk. unfold src_index. destruct (Nat.eqb_spec s 1); [lia|done].
Qed.

Lemma fits_refl (s : nat) : fits s s = true.
Proof. unfold fits. by rewrite Nat.eqb_refl. Qed.

Lemma in_bounds_3 (p : list nat) (n h w : nat) :
  Forall2 lt p [n; h; w] ->
  exists z y x, p = [z; y; x] /\ (z < n)%nat /\ (y < h)%nat /\ (x < w)%nat.
Proof.
  intros H. apply Forall2_cons_inv_r in H as (z & p1 & Hz & H & ->).
  apply Forall2_cons_inv_r in H as (y & p2 & Hy & H & ->).
  apply Forall2_cons_inv_r in H as (x & p3 & Hx & H & ->).
  apply Forall2_nil_inv_r in H as ->. by exists z, y, x.
Qed.

Lemma slice2_inside (a : ndarray) (h w : nat) (ylo yhi xlo xhi : Z) :
  shape a = [h; w] ->
  0 <= ylo -> ylo <= yhi -> yhi <= Z.of_nat h ->
  0 <= xlo -> xlo <= xhi -> xhi <= Z.of_nat w ->
  shape (slice2 a ylo yhi xlo xhi)
    = [Z.to_nat (yhi - ylo); Z.to_nat (xhi - xlo)] /\
  forall j k, (j < Z.to_nat (yhi - ylo))%nat -> (k < Z.to_nat (xhi - xlo))%nat ->
    item (slice2 a ylo yhi xlo xhi) [j; k] =
    item a [(Z.to_nat ylo + j)%nat; (Z.to_nat xlo + k)%nat].
Proof.
  intros Hs Hy0 Hy1 Hy2 Hx0 Hx1 Hx2. unfold slice2. rewrite Hs. simpl nth.
  rewrite !py_slice_inside by done. split; [done|].
  intros j k Hj Hk. rewrite item_tabulate; [done|].
  by repeat constructor.
Qed.

Lemma assign_tile_inside (cast : Z -> Z) (res : ndarray) (n h w : nat)
    (i ylo yhi xlo xhi : Z) (src : ndarray) :
  shape res = [n; h; w] ->
  0 <= i < Z.of_nat n ->
  0 <= ylo -> ylo <= yhi -> yhi <= Z.of_nat h ->
  0 <= xlo -> xlo <= xhi -> xhi <= Z.of_nat w ->
  shape src = [Z.to_nat (yhi - ylo); Z.to_nat (xhi - xlo)] ->
  exists res',
    assign_tile cast res i ylo yhi xlo xhi src = Returns res' /\
    shape res' = [n; h; w] /\
    forall z y x, (z < n)%nat -> (y < h)%nat -> (x < w)%nat ->
      item res' [z; y; x] =
      if bool_decide (Z.of_nat z = i /\ ylo <= Z.of_nat y < yhi
                      /\ xlo <= Z.of_nat x < xhi)
      then cast (item src [(y - Z.to_nat ylo)%nat; (x - Z.to_nat xlo)%nat])
      else item res [z; y; x].
Proof.
  intros Hs Hi Hy0 Hy1 Hy2 Hx0 Hx1 Hx2 Hsrc. unfold assign_tile.
  rewrite Hs. simpl nth.
  rewrite py_index_in_range by done. cbn [mbind outcome_bind].
  rewrite !py_slice_inside by done. rewrite Hsrc, !fits_refl.
  cbn [andb]. eexists. split; [reflexivity|]. split; [done|].
  intros z y x Hz Hy Hx.
  rewrite item_tabulate by (by repeat constructor). simpl nth.
  destruct (Nat.eqb_spec z (Z.to_nat i)) as [Hzi|Hzi]; cbn [andb];
    [|rewrite bool_decide_eq_false_2; [done|lia]].
  destruct (Nat.leb_spec (Z.to_nat ylo) y); cbn [andb];
    [|rewrite bool_decide_eq_false_2; [done|lia]].
  destruct (Nat.ltb_spec y (Z.to_nat ylo + Z.to_nat (yhi - ylo))); cbn [andb];
    [|rewrite bool_decide_eq_false_2; [done|lia]].
  destruct (Nat.leb_spec (Z.to_nat xlo) x); cbn [andb];
    [|rewrite bool_decide_eq_false_2; [done|lia]].
  destruct (Nat.ltb_spec x (Z.to_nat xlo + Z.to_nat (xhi - xlo))); cbn [andb];
    [|rewrite bool_decide_eq_false_2; [done|lia]].
  rewrite bool_decide_eq_true_2 by lia.
  by rewrite !src_index_small by lia.
Qed.
End Slicing.

Section DivFacts.
Lemma div_eq_iff (a b q : Z) :
  0 < b -> a / b = q <-> q * b <= a < (q + 1) * b.
Proof.
  intros Hb. split.
  - intros <-. pose proof (Z.mul_div_le a b Hb).
    pose proof (Z.mul_succ_div_gt a b Hb). lia.
  - intros Hq. symmetry. apply (Z.div_unique a b q (a - q * b)); lia.
Qed.

Lemma range_rows (lo hi b row : Z) :
  0 < b -> lo <= hi -> lo / b <= row < (hi + b - 1) / b ->
  lo < (row + 1) * b /\ row * b < hi.
Proof.
  intros Hb Hle [H1 H2].
  pose proof (Z.mul_succ_div_gt lo b Hb).
  pose proof (Z.mul_div_le (hi + b - 1) b Hb). split; nia.
Qed.

Lemma tile_row_in_range (lo hi b v : Z) :
  0 < b -> lo <= v < hi -> lo / b <= v / b < (hi + b - 1) / b.
Proof.
  intros Hb Hv. split.
  - apply Z.div_le_mono; lia.
  - apply Z.div_lt_upper_bound; [lia|].
    pose proof (Z.mul_succ_div_gt (hi + b - 1) b Hb).
    pose proof (Z.mul_div_le (hi + b - 1) b Hb).
    assert (hi - 1 < b * ((hi + b - 1) / b)) by lia. lia.
Qed.
End DivFacts.

Section PlaceTile.
Variable percent_format : string -> Z -> Z -> string.
Variable brace_format : string -> Z -> Z -> string.
Variable path_exists : string -> bool.
Variable read_image : string -> ndarray.
Variable cast : Z -> Z.
Variables tile_sz tile_st : Z * Z.
Variable relabel : option (list Z).
Variable patch_of : string -> ndarray.
Variables y0 y1 x0 x1 : Z.
Variable n : nat.
Variable pattern : string.
Variable i : Z.

Hypothesis ts0_pos : 0 < fst tile_sz.
Hypothesis ts1_pos : 0 < snd tile_sz.
Hypothesis y_range : 0 <= y0 <= y1.
Hypothesis x_range : 0 <= x0 <= x1.
Hypothesis i_range : 0 <= i < Z.of_nat n.

(** What the tile [(row, column)] writes at position [p] of slice [i]. *)
Lemma place_tile_writes (row column : Z) (res : ndarray) (log : list event) :
  let filename := get_tile_name percent_format brace_format pattern
                    (row + fst tile_st) (column + snd tile_st) in
  (path_exists filename = true ->
   match relabel with
   | Some t => apply_relabel t (read_image filename)
   | None => Returns (read_image filename)
   end = Returns (patch_of filename) /\
   shape (patch_of filename)
     = [Z.to_nat (fst tile_sz); Z.to_nat (snd tile_sz)]) ->
  y0 < (row + 1) * fst tile_sz -> row * fst tile_sz < y1 ->
  x0 < (column + 1) * snd tile_sz -> column * snd tile_sz < x1 ->
  shape res = [n; Z.to_nat (y1 - y0); Z.to_nat (x1 - x0)] ->
  exists res',
    place_tile percent_format brace_format path_exists read_image cast
               tile_sz tile_st relabel y0 y1 x0 x1 pattern i (res, log)
               (row, column)
    = Returns (res', log ++ (if path_exists filename then []
                             else [NonExist filename])) /\
    shape res' = [n; Z.to_nat (y1 - y0); Z.to_nat (x1 - x0)] /\
    forall p, Forall2 lt p [n; Z.to_nat (y1 - y0); Z.to_nat (x1 - x0)] ->
      item res' p =
      match (if bool_decide (Z.of_nat (nth 0 p 0%nat) = i /\
                             tile_of tile_sz y0 x0 (nth 1 p 0%nat)
                                     (nth 2 p 0%nat) = (row, column))
             then tile_pixel percent_format brace_format path_exists
                             patch_of cast tile_sz tile_st y0 x0 pattern
                             (nth 1 p 0%nat) (nth 2 p 0%nat)
             else None) with
      | Some v => v
      | None => item res p
      end.
Proof.
  intros filename Hpatch Hr1 Hr2 Hc1 Hc2 Hshape.
  unfold place_tile. fold filename.
  destruct (path_exists filename) eqn:Hex.
  - destruct (Hpatch eq_refl) as [Hrel Hps]. rewrite Hrel.
    cbn [mbind outcome_bind]. rewrite Hps. simpl nth.
    rewrite !Z2Nat.id by lia.
    rewrite (Z.min_r (column * snd tile_sz + snd tile_sz)) by lia.
    rewrite (Z.min_r (row * fst tile_sz + fst tile_sz)) by lia.
    set (x0a := Z.max x0 (column * snd tile_sz)).
    set (x1a := Z.min x1 ((column + 1) * snd tile_sz)).
    set (y0a := Z.max y0 (row * fst tile_sz)).
    set (y1a := Z.min y1 ((row + 1) * fst tile_sz)).
    assert (Hya : y0 <= y0a /\ row * fst tile_sz <= y0a /\ y0a <= y1a
                  /\ y1a <= y1 /\ y1a <= (row + 1) * fst tile_sz)
      by (unfold y0a, y1a; lia).
    assert (Hxa : x0 <= x0a /\ column * snd tile_sz <= x0a /\ x0a <= x1a
                  /\ x1a <= x1 /\ x1a <= (column + 1) * snd tile_sz)
      by (unfold x0a, x1a; lia).
    destruct (slice2_inside (patch_of filename)
                (Z.to_nat (fst tile_sz)) (Z.to_nat (snd tile_sz))
                (y0a - row * fst tile_sz) (y1a - row * fst tile_sz)
                (x0a - column * snd tile_sz) (x1a - column * snd tile_sz))
      as [Hsrc Hsrc_item]; [done|lia..|].
    destruct (assign_tile_inside cast res n (Z.to_nat (y1 - y0))
                (Z.to_nat (x1 - x0)) i (y0a - y0) (y1a - y0)
                (x0a - x0) (x1a - x0)
                (slice2 (patch_of filename)
                   (y0a - row * fst tile_sz) (y1a - row * fst tile_sz)
                   (x0a - column * snd tile_sz) (x1a - column * snd tile_sz)))
      as (res' & Hassign & Hshape' & Hitems); [done|done|lia..| |].
    { rewrite Hsrc. f_equal; [f_equal; lia|f_equal; f_equal; lia]. }
    exists res'. rewrite Hassign. cbn [mbind outcome_bind].
    rewrite app_nil_r. split; [done|]. split; [done|].
    intros p Hp. apply in_bounds_3 in Hp as (z & y & x & -> & Hz & Hy & Hx).
    rewrite Hitems by done. simpl nth.
    unfold tile_of, tile_pixel, tile_of.
    destruct (decide (Z.of_nat z = i)) as [Hzi|Hzi];
      [|rewrite !bool_decide_eq_false_2 by tauto; done].
    destruct (decide ((y0 + Z.of_nat y) / fst tile_sz = row)) as [Hrow|Hrow].
    + destruct (decide ((x0 + Z.of_nat x) / snd tile_sz = column))
        as [Hcol|Hcol].
      * pose proof (proj1 (div_eq_iff _ _ _ ts0_pos) Hrow) as Hrow'.
        pose proof (proj1 (div_eq_iff _ _ _ ts1_pos) Hcol) as Hcol'.
        rewrite bool_decide_eq_true_2 by lia.
        rewrite bool_decide_eq_true_2 by (split; [done|congruence]).
        rewrite Hrow, Hcol. fold filename. rewrite Hex.
        rewrite Hsrc_item by lia. do 2 f_equal.
        f_equal; [lia|f_equal; lia].
      * rewrite bool_decide_eq_false_2.
        2:{ intros (_ & _ & Hxx). apply Hcol. apply div_eq_iff; lia. }
        rewrite bool_decide_eq_false_2; [done|].
        intros [_ [= _ Hc]]. done.
    + rewrite bool_decide_eq_false_2.
      2:{ intros (_ & Hyy & _). apply Hrow. apply div_eq_iff; lia. }
      rewrite bool_decide_eq_false_2; [done|].
      intros [_ [= Hr _]]. done.
  - exists res. split; [done|]. split; [done|].
    intros p Hp. destruct (bool_decide _) eqn:Hb; [|done].
    apply bool_decide_eq_true in Hb as [_ Htile].
    unfold tile_pixel. rewrite Htile. fold filename. by rewrite Hex.
Qed.
End PlaceTile.

Section SliceLoop.
Variable percent_format : string -> Z -> Z -> string.
Variable brace_format : string -> Z -> Z -> string.
Variable path_exists : string -> bool.
Variable read_image : string -> ndarray.
Variable cast : Z -> Z.
Variables tile_sz tile_st : Z * Z.
Variable relabel : option (list Z).
Variable patch_of : string -> ndarray.
Variables y0 y1 x0 x1 : Z.
Variable n : nat.

Hypothesis ts0_pos : 0 < fst tile_sz.
Hypothesis ts1_pos : 0 < snd tile_sz.
Hypothesis y_range : 0 <= y0 <= y1.
Hypothesis x_range : 0 <= x0 <= x1.

Lemma tiles_elem (r0 r1 c0 c1 row column : Z) :
  (row, column) ∈ list_prod (range r0 r1) (range c0 c1) <->
  r0 <= row < r1 /\ c0 <= column < c1.
Proof.
  rewrite list_elem_of_In, in_prod_iff, <- !list_elem_of_In.
  by rewrite !range_elem.
Qed.

(** The loop over the tiles of one slice (lines 116-137). *)
Lemma place_tiles_writes (pattern : string) (i : Z) (res : ndarray)
    (log : list event) :
  let tiles := list_prod (range (y0 / fst tile_sz)
                                ((y1 + fst tile_sz - 1) / fst tile_sz))
                         (range (x0 / snd tile_sz)
                                ((x1 + snd tile_sz - 1) / snd tile_sz)) in
  let missing := fun rc : Z * Z =>
    let filename := get_tile_name percent_format brace_format pattern
                      (fst rc + fst tile_st) (snd rc + snd tile_st) in
    if path_exists filename then [] else [NonExist filename] in
  0 <= i < Z.of_nat n ->
  (forall row column,
     let filename := get_tile_name percent_format brace_format pattern
                       (row + fst tile_st) (column + snd tile_st) in
     path_exists filename = true ->
     match relabel with
     | Some t => apply_relabel t (read_image filename)
     | None => Returns (read_image filename)
     end = Returns (patch_of filename) /\
     shape (patch_of filename)
       = [Z.to_nat (fst tile_sz); Z.to_nat (snd tile_sz)]) ->
  shape res = [n; Z.to_nat (y1 - y0); Z.to_nat (x1 - x0)] ->
  exists res',
    for_each tiles
      (place_tile percent_format brace_format path_exists read_image cast
                  tile_sz tile_st relabel y0 y1 x0 x1 pattern i)
      (res, log)
    = Returns (res', log ++ flat_map missing tiles) /\
    shape res' = [n; Z.to_nat (y1 - y0); Z.to_nat (x1 - x0)] /\
    forall p, Forall2 lt p [n; Z.to_nat (y1 - y0); Z.to_nat (x1 - x0)] ->
      item res' p =
      match (if bool_decide (Z.of_nat (nth 0 p 0%nat) = i)
             then tile_pixel percent_format brace_format path_exists
                             patch_of cast tile_sz tile_st y0 x0 pattern
                             (nth 1 p 0%nat) (nth 2 p 0%nat)
             else None) with
      | Some v => v
      | None => item res p
      end.
Proof.
  intros tiles missing Hi Hpatch Hshape.
  set (W := fun (rc : Z * Z) (p : list nat) =>
    if bool_decide (Z.of_nat (nth 0 p 0%nat) = i /\
                    tile_of tile_sz y0 x0 (nth 1 p 0%nat) (nth 2 p 0%nat) = rc)
    then tile_pixel percent_format brace_format path_exists patch_of cast
                    tile_sz tile_st y0 x0 pattern
                    (nth 1 p 0%nat) (nth 2 p 0%nat)
    else None).
  destruct (for_each_writes
              [n; Z.to_nat (y1 - y0); Z.to_nat (x1 - x0)] W missing
              (place_tile percent_format brace_format path_exists read_image
                 cast tile_sz tile_st relabel y0 y1 x0 x1 pattern i)
              tiles res log) as (res' & Hloop & Hshape' & Hitems);
    [|done|].
  { intros [row column] r l Hin Hs.
    apply tiles_elem in Hin as [Hrow Hcol].
    destruct (range_rows y0 y1 (fst tile_sz) row) as [Hr1 Hr2]; [lia..|].
    destruct (range_rows x0 x1 (snd tile_sz) column) as [Hc1 Hc2]; [lia..|].
    apply (place_tile_writes percent_format brace_format path_exists
             read_image cast tile_sz tile_st relabel patch_of
             y0 y1 x0 x1 n pattern i); try done.
    apply Hpatch. }
  exists res'. split; [done|]. split; [done|].
  intros p Hp. rewrite Hitems by done.
  pose proof Hp as Hp'.
  apply in_bounds_3 in Hp' as (z & y & x & -> & Hz & Hy & Hx). simpl nth.
  destruct (decide (Z.of_nat z = i)) as [Hzi|Hzi].
  - rewrite bool_decide_eq_true_2 by done.
    destruct (tile_pixel _ _ _ _ _ _ _ _ _ _ y x) as [v|] eqn:Hpix.
    + apply (written_Some W tiles _ _ (tile_of tile_sz y0 x0 y x)).
      * intros rc1 rc2 v1 v2 _ _. unfold W. simpl nth.
        destruct (bool_decide _); [|done]. destruct (bool_decide _); [|done].
        congruence.
      * unfold tile_of. apply tiles_elem.
        split; apply tile_row_in_range; lia.
      * unfold W. simpl nth. by rewrite bool_decide_eq_true_2.
    + apply written_None. intros rc _. unfold W. simpl nth.
      rewrite Hpix. by destruct (bool_decide _).
  - rewrite bool_decide_eq_false_2 by done.
    apply written_None. intros rc _. unfold W. simpl nth.
    rewrite bool_decide_eq_false_2; [done|tauto].
Qed.
End SliceLoop.

Section Enumerate.
Context {X : Type}.

Lemma combine_seq_elem (xs : list X) (s : nat) (i : Z) (x : X) :
  (i, x) ∈ combine (map Z.of_nat (seq s (length xs))) xs <->
  exists k : nat, i = Z.of_nat (s + k) /\ xs !! k = Some x.
Proof.
  revert s. induction xs as [|a xs IH]; intros s; simpl.
  - split; [by intros ?%elem_of_nil|by intros (k & _ & ?)].
  - rewrite elem_of_cons, IH. split.
    + intros [[= -> ->]|(k & -> & Hk)].
      * exists 0%nat. split; [f_equal; lia|done].
      * exists (S k). split; [f_equal; lia|done].
    + intros ([|k] & -> & Hk).
      * left. simpl in Hk. injection Hk as ->. do 2 f_equal. lia.
      * right. exists k. split; [f_equal; lia|done].
Qed.

Lemma enumerate_elem_iff (xs : list X) (i : Z) (x : X) :
  (i, x) ∈ enumerate xs <-> exists k : nat, i = Z.of_nat k /\ xs !! k = Some x.
Proof. unfold enumerate. by rewrite combine_seq_elem. Qed.

Lemma flat_map_combine_snd {Y I} (g : X -> list Y) (xs : list X)
    (js : list I) :
  length js = length xs ->
  flat_map (fun jx => g (snd jx)) (combine js xs) = flat_map g xs.
Proof.
  revert js. induction xs as [|x xs IH]; intros [|j js] Hlen; simpl in *;
    try done.
  f_equal. apply IH. lia.
Qed.

Lemma flat_map_enumerate {Y} (g : X -> list Y) (xs : list X) :
  flat_map (fun ix => g (snd ix)) (enumerate xs) = flat_map g xs.
Proof.
  unfold enumerate. apply flat_map_combine_snd.
  by rewrite length_map, length_seq.
Qed.
End Enumerate.

Section ReadSlices.
Variable percent_format : string -> Z -> Z -> string.
Variable brace_format : string -> Z -> Z -> string.
Variable path_exists : string -> bool.
Variable read_image : string -> ndarray.
Variable cast : Z -> Z.
Variables tile_sz tile_st : Z * Z.
Variable relabel : option (list Z).
Variable patch_of : string -> ndarray.
Variables y0 y1 x0 x1 : Z.
Variable n : nat.
Variable filenames : list string.

Hypothesis ts0_pos : 0 < fst tile_sz.
Hypothesis ts1_pos : 0 < snd tile_sz.
Hypothesis y_range : 0 <= y0 <= y1.
Hypothesis x_range : 0 <= x0 <= x1.

(** The loop over z (lines 114-137): slice [k] of the result holds the
    pixels of the tiles of pattern [filenames[zs[k]]]. *)
Lemma read_slices_writes (zs : list Z) (res : ndarray) (log : list event) :
  let tiles := list_prod (range (y0 / fst tile_sz)
                                ((y1 + fst tile_sz - 1) / fst tile_sz))
                         (range (x0 / snd tile_sz)
                                ((x1 + snd tile_sz - 1) / snd tile_sz)) in
  let missing := fun (z : Z) (rc : Z * Z) =>
    let filename := get_tile_name percent_format brace_format
                      (nth (Z.to_nat z) filenames "")
                      (fst rc + fst tile_st) (snd rc + snd tile_st) in
    if path_exists filename then [] else [NonExist filename] in
  (length zs <= n)%nat ->
  (forall z, z ∈ zs -> 0 <= z < Z.of_nat (length filenames)) ->
  (forall z row column, z ∈ zs ->
     let filename := get_tile_name percent_format brace_format
                       (nth (Z.to_nat z) filenames "")
                       (row + fst tile_st) (column + snd tile_st) in
     path_exists filename = true ->
     match relabel with
     | Some t => apply_relabel t (read_image filename)
     | None => Returns (read_image filename)
     end = Returns (patch_of filename) /\
     shape (patch_of filename)
       = [Z.to_nat (fst tile_sz); Z.to_nat (snd tile_sz)]) ->
  shape res = [n; Z.to_nat (y1 - y0); Z.to_nat (x1 - x0)] ->
  exists res',
    read_slices percent_format brace_format path_exists read_image cast
                filenames tile_sz tile_st relabel y0 y1 x0 x1
                (y0 / fst tile_sz) ((y1 + fst tile_sz - 1) / fst tile_sz)
                (x0 / snd tile_sz) ((x1 + snd tile_sz - 1) / snd tile_sz)
                zs (res, log)
    = Returns (res', log ++ flat_map (fun z => flat_map (missing z) tiles) zs)
    /\
    shape res' = [n; Z.to_nat (y1 - y0); Z.to_nat (x1 - x0)] /\
    forall p, Forall2 lt p [n; Z.to_nat (y1 - y0); Z.to_nat (x1 - x0)] ->
      item res' p =
      match (z ← zs !! nth 0 p 0%nat;
             tile_pixel percent_format brace_format path_exists
                        patch_of cast tile_sz tile_st y0 x0
                        (nth (Z.to_nat z) filenames "")
                        (nth 1 p 0%nat) (nth 2 p 0%nat)) with
      | Some v => v
      | None => item res p
      end.
Proof.
  intros tiles missing Hlen Hzs Hpatch Hshape.
  set (W := fun (iz : Z * Z) (p : list nat) =>
    if bool_decide (Z.of_nat (nth 0 p 0%nat) = fst iz)
    then tile_pixel percent_format brace_format path_exists patch_of cast
                    tile_sz tile_st y0 x0
                    (nth (Z.to_nat (snd iz)) filenames "")
                    (nth 1 p 0%nat) (nth 2 p 0%nat)
    else None).
  unfold read_slices.
  destruct (for_each_writes
              [n; Z.to_nat (y1 - y0); Z.to_nat (x1 - x0)] W
              (fun iz => flat_map (missing (snd iz)) tiles)
              (fun st '(i, z) =>
                 k ← py_index (length filenames) z;
                 for_each tiles
                   (place_tile percent_format brace_format path_exists
                      read_image cast tile_sz tile_st relabel y0 y1 x0 x1
                      (nth k filenames "") i) st)
              (enumerate zs) res log) as (res' & Hloop & Hshape' & Hitems);
    [|done|].
  { intros [i z] r l Hin Hs.
    pose proof Hin as Hin'. apply enumerate_elem in Hin' as [Hi Hz].
    rewrite py_index_in_range by auto. cbn [mbind outcome_bind].
    destruct (place_tiles_writes percent_format brace_format path_exists
                read_image cast tile_sz tile_st relabel patch_of
                y0 y1 x0 x1 n ts0_pos ts1_pos y_range x_range
                (nth (Z.to_nat z) filenames "") i r l)
      as (r' & Hr & Hs' & Hit); [lia| |done|].
    { intros row column. by apply Hpatch. }
    exists r'. split; [exact Hr|]. split; [done|]. exact Hit. }
  exists res'. split.
  { etrans; [exact Hloop|]. f_equal. f_equal. f_equal.
    apply (flat_map_enumerate (fun z => flat_map (missing z) tiles)). }
  split; [done|].
  intros p Hp. rewrite Hitems by done.
  pose proof Hp as Hp'.
  apply in_bounds_3 in Hp' as (k & y & x & -> & Hk & Hy & Hx). simpl nth.
  destruct (zs !! k) as [z|] eqn:Hz; cbn [mbind option_bind].
  - assert (Hin : (Z.of_nat k, z) ∈ enumerate zs).
    { apply enumerate_elem_iff. by exists k. }
    assert (Hsame : forall i' z', (i', z') ∈ enumerate zs ->
              Z.of_nat k = i' -> z' = z).
    { intros i' z' (k' & -> & Hk')%enumerate_elem_iff Heq.
      apply Nat2Z.inj in Heq as <-. congruence. }
    destruct (tile_pixel _ _ _ _ _ _ _ _ _ _ y x) as [v|] eqn:Hpix.
    + apply (written_Some W (enumerate zs) _ _ (Z.of_nat k, z)); [|done|].
      * intros [i1 z1] [i2 z2] v1 v2 H1 H2. unfold W. simpl.
        destruct (bool_decide_reflect (Z.of_nat k = i1)) as [E1|]; [|done].
        destruct (bool_decide_reflect (Z.of_nat k = i2)) as [E2|]; [|done].
        rewrite (Hsame _ _ H1 E1), (Hsame _ _ H2 E2). congruence.
      * unfold W. simpl. by rewrite bool_decide_eq_true_2.
    + apply written_None. intros [i' z'] Hin'. unfold W. simpl.
      destruct (bool_decide_reflect (Z.of_nat k = i')) as [E|]; [|done].
      by rewrite (Hsame _ _ Hin' E).
  - apply written_None.
    intros [i' z'] (k' & -> & Hk')%enumerate_elem_iff. unfold W. simpl.
    rewrite bool_decide_eq_false_2; [done|].
    intros Heq. apply Nat2Z.inj in Heq as <-. congruence.
Qed.
End ReadSlices.

Section RangeLookup.
Lemma ceil_div_lt (d s : Z) (i : nat) :
  1 <= s -> (i < Z.to_nat ((d + s - 1) / s))%nat <-> Z.of_nat i * s < d.
Proof.
  intros Hs.
  pose proof (Z.mul_div_le (d + s - 1) s ltac:(lia)).
  pose proof (Z.mul_succ_div_gt (d + s - 1) s ltac:(lia)).
  split; intros Hi.
  - assert (Z.of_nat i + 1 <= (d + s - 1) / s) by lia. nia.
  - assert (Z.of_nat i + 1 <= (d + s - 1) / s); [|lia].
    apply Z.div_le_lower_bound; lia.
Qed.

Lemma py_range_lookup (a b step : Z) :
  1 <= step ->
  exists zs, py_range a b step = Returns zs /\
    (length zs <= Z.to_nat ((b - a + step - 1) / step))%nat /\
    forall i : nat,
      zs !! i = if a + Z.of_nat i * step <? b
                then Some (a + Z.of_nat i * step) else None.
Proof.
  intros Hstep. unfold py_range.
  destruct (Z.eqb_spec step 0) as [|_]; [lia|].
  destruct (Z.ltb_spec 0 step) as [_|]; [|lia].
  eexists. split; [done|]. split; [by rewrite length_map, length_seq|].
  intros k. rewrite list_lookup_fmap.
  destruct (Z.ltb_spec (a + Z.of_nat k * step) b) as [Hk|Hk].
  - rewrite lookup_seq_lt; [done|]. apply ceil_div_lt; lia.
  - rewrite lookup_seq_ge; [done|].
    destruct (decide (k < Z.to_nat ((b - a + step - 1) / step))%nat) as [Hlt|];
      [|lia].
    apply ceil_div_lt in Hlt; lia.
Qed.
End RangeLookup.

Section Placement.
Variable percent_format : string -> Z -> Z -> string.
Variable brace_format : string -> Z -> Z -> string.
Variable path_exists : string -> bool.
Variable read_image : string -> ndarray.
Variable np_pad : ndarray -> list (Z * Z) -> string -> ndarray.

End Placement.


Section Relabel.
Lemma relabel_loop (t : list Z) (vs acc : list Z) :
  Forall (fun v => 0 <= v < Z.of_nat (length t)) vs ->
  for_each vs
    (fun acc v => i ← py_index (length t) v; Returns (acc ++ [nth i t 0])) acc
  = Returns (acc ++ map (fun v => nth (Z.to_nat v) t 0) vs).
Proof.
  intros Hvs. revert acc.
  induction Hvs as [|v vs Hv _ IH]; intros acc; simpl.
  - by rewrite app_nil_r.
  - rewrite py_index_in_range by done. cbn [mbind outcome_bind].
    rewrite IH. by rewrite <- app_assoc.
Qed.

Lemma apply_relabel_returns (t : list Z) (patch : ndarray) :
  Forall (fun v => 0 <= v < Z.of_nat (length t)) (data patch) ->
  apply_relabel t patch
  = Returns {| shape := shape patch;
               data := map (fun v => nth (Z.to_nat v) t 0) (data patch) |}.
Proof. intros H. unfold apply_relabel. by rewrite relabel_loop. Qed.

Lemma item_map (f : Z -> Z) (a : ndarray) (p : list nat) :
  length (data a) = size_of (shape a) -> Forall2 lt p (shape a) ->
  item {| shape := shape a; data := map f (data a) |} p = f (item a p).
Proof.
  intros Hlen Hp. apply ravel_in_bounds in Hp as [Hlt _].
  unfold item. simpl. apply nth_map_lt. lia.
Qed.

Lemma tile_offset (lo b : Z) (v : nat) :
  0 < b -> 0 <= lo ->
  (Z.to_nat (lo + Z.of_nat v - (lo + Z.of_nat v) / b * b) < Z.to_nat b)%nat.
Proof.
  intros Hb Hlo.
  pose proof (Z.mul_div_le (lo + Z.of_nat v) b Hb).
  pose proof (Z.mul_succ_div_gt (lo + Z.of_nat v) b Hb). lia.
Qed.
End Relabel.

Section PlacementRelabel.
Variable percent_format : string -> Z -> Z -> string.
Variable brace_format : string -> Z -> Z -> string.
Variable path_exists : string -> bool.
Variable read_image : string -> ndarray.
Variable np_pad : ndarray -> list (Z * Z) -> string -> ndarray.

(** The entries of the result when a [relabel] table is given. *)
Lemma relabelled_pixels (cast : Z -> Z)
    (filenames : list string) (z0 z1 y0 y1 x0 x1 : Z) (tile_sz tile_st : Z * Z)
    (tile_border_padding : string) (zstep : Z) (relabel : list Z) :
  let zlast := Z.min (Z.of_nat (length filenames) - 1) z1 in
  let pattern := fun z : Z => nth (Z.to_nat z) filenames "" in
  0 < fst tile_sz -> 0 < snd tile_sz -> 1 <= zstep ->
  0 <= z0 <= z1 -> 0 <= y0 <= y1 -> 0 <= x0 <= x1 ->
  (forall z row column, z0 <= z < zlast ->
     let filename := get_tile_name percent_format brace_format (pattern z)
                       (row + fst tile_st) (column + snd tile_st) in
     path_exists filename = true ->
     shape (read_image filename)
       = [Z.to_nat (fst tile_sz); Z.to_nat (snd tile_sz)] /\
     length (data (read_image filename))
       = size_of (shape (read_image filename)) /\
     Forall (fun v => 0 <= v < Z.of_nat (length relabel))
            (data (read_image filename))) ->
  exists res log,
    read_tile_image_by_bbox percent_format brace_format path_exists read_image
      np_pad cast filenames z0 z1 y0 y1 x0 x1 tile_sz tile_st
      tile_border_padding "" None zstep (Some relabel)
    = Returns (res, log) /\
    shape res = [Z.to_nat ((z1 - z0 + zstep - 1) / zstep);
                 Z.to_nat (y1 - y0); Z.to_nat (x1 - x0)] /\
    forall i y x : nat,
      (i < Z.to_nat ((z1 - z0 + zstep - 1) / zstep))%nat ->
      (y < Z.to_nat (y1 - y0))%nat -> (x < Z.to_nat (x1 - x0))%nat ->
      item res [i; y; x] =
      if z0 + Z.of_nat i * zstep <? zlast
      then default 0
             (tile_pixel percent_format brace_format path_exists read_image
                         (fun v => cast (nth (Z.to_nat v) relabel 0))
                         tile_sz tile_st y0 x0
                         (pattern (z0 + Z.of_nat i * zstep)) y x)
      else 0.
Proof.
  intros zlast pattern Hts0 Hts1 Hstep Hz Hy Hx Hpatch.
  destruct (py_range_lookup z0 zlast zstep Hstep) as (zs & Hzs & Hlen & Hlook).
  assert (Hcount : 0 <= (z1 - z0 + zstep - 1) / zstep).
  { apply Z.div_pos; lia. }
  assert (Hle : (length zs <= Z.to_nat ((z1 - z0 + zstep - 1) / zstep))%nat).
  { assert ((zlast - z0 + zstep - 1) / zstep <= (z1 - z0 + zstep - 1) / zstep)
      by (apply Z.div_le_mono; lia).
    lia. }
  assert (Hin : forall z, z ∈ zs -> z0 <= z < zlast).
  { intros z Hzin.
    destruct (py_range_elem _ _ _ _ Hstep Hzs z Hzin) as (k & _ & _ & Hk).
    done. }
  set (patch_of := fun f : string =>
    {| shape := shape (read_image f);
       data := map (fun v => nth (Z.to_nat v) relabel 0)
                   (data (read_image f)) |}).
  destruct (read_slices_writes percent_format brace_format path_exists
              read_image cast tile_sz tile_st (Some relabel) patch_of
              y0 y1 x0 x1
              (Z.to_nat ((z1 - z0 + zstep - 1) / zstep)) filenames
              Hts0 Hts1 Hy Hx zs
              (tabulate (map Z.to_nat [(z1 - z0 + zstep - 1) / zstep;
                                       y1 - y0; x1 - x0]) (fun _ => 0)) [])
    as (res & Hloop & Hshape & Hitems); [done| | |done|].
  { intros z Hzin. apply Hin in Hzin. lia. }
  { intros z row column Hzin filename Hex.
    destruct (Hpatch z row column (Hin z Hzin) Hex) as (Hs & _ & Hall).
    split; [by apply apply_relabel_returns|done]. }
  eexists res, _. split; [|split; [done|]].
  - unfold read_tile_image_by_bbox, py_floordiv, np_zeros.
    destruct (Z.eqb_spec zstep 0) as [|_]; [lia|]. cbn [mbind outcome_bind].
    replace (forallb _ _) with true; cycle 1.
    { symmetry. simpl. rewrite !andb_true_iff, !Z.leb_le. lia. }
    cbn [mbind outcome_bind].
    destruct (Z.eqb_spec (snd tile_sz) 0) as [|_]; [lia|].
    destruct (Z.eqb_spec (fst tile_sz) 0) as [|_]; [lia|].
    cbn [mbind outcome_bind].
    fold zlast. rewrite Hzs. cbn [mbind outcome_bind].
    rewrite Hloop. by cbn.
  - intros i y x Hi Hy' Hx'.
    rewrite Hitems by (repeat constructor; done). simpl nth.
    rewrite Hlook.
    destruct (Z.ltb_spec (z0 + Z.of_nat i * zstep) zlast) as [Hlt|Hge];
      cbn [mbind option_bind].
    + assert (Hzi : z0 <= z0 + Z.of_nat i * zstep < zlast) by nia.
      unfold tile_pixel, tile_of.
      destruct (path_exists _) eqn:Hex; simpl.
      * destruct (Hpatch _ _ _ Hzi Hex) as (Hs & Hwf & _).
        unfold patch_of. rewrite item_map; [done|done|].
        match goal with
        | |- Forall2 lt _ ?s =>
            replace s with [Z.to_nat (fst tile_sz); Z.to_nat (snd tile_sz)]
              by (symmetry; exact Hs)
        end.
        repeat constructor; apply tile_offset; lia.
      * apply item_tabulate. repeat constructor; simpl; lia.
    + apply item_tabulate. repeat constructor; simpl; lia.
Qed.

End PlacementRelabel.


Section VolumeSz.
Variable percent_format : string -> Z -> Z -> string.
Variable brace_format : string -> Z -> Z -> string.
Variable path_exists : string -> bool.
Variable read_image : string -> ndarray.
Variable np_pad : ndarray -> list (Z * Z) -> string -> ndarray.

(** X16.  [volume_sz] in [read_tile_image_by_bbox]: a call with a volume
    size is the call without one on the request clipped to the volume
    (lower corner raised to 0, upper corner lowered to the volume size),
    followed by one [np.pad] with the overhang of the request on each
    side, when some overhang is positive.  A request inside the volume is
    read as if no volume size was given: nothing is padded. *)
Theorem read_tile_image_by_bbox_volume_sz (cast : Z -> Z)
    (filenames : list string) (z0p z1p y0p y1p x0p x1p : Z)
    (tile_sz tile_st : Z * Z) (tile_border_padding tile_blank : string)
    (v0 v1 v2 zstep : Z) (relabel : option (list Z)) :
  let read := read_tile_image_by_bbox percent_format brace_format path_exists
                read_image np_pad cast filenames in
  let pads := [(Z.max (- z0p) 0, Z.max 0 (z1p - v0));
               (Z.max (- y0p) 0, Z.max 0 (y1p - v1));
               (Z.max (- x0p) 0, Z.max 0 (x1p - v2))] in
  read z0p z1p y0p y1p x0p x1p tile_sz tile_st tile_border_padding tile_blank
       (Some (v0, v1, v2)) zstep relabel
  = (st ← read (Z.max z0p 0) (Z.min z1p v0) (Z.max y0p 0) (Z.min y1p v1)
               (Z.max x0p 0) (Z.min x1p v2) tile_sz tile_st
               tile_border_padding tile_blank None zstep relabel;
     if 0 <? max_of (flat_map (fun ab => [fst ab; snd ab]) pads)
     then Returns (np_pad (fst st) pads tile_border_padding, snd st)
     else Returns st) /\
  (0 <= z0p -> z1p <= v0 -> 0 <= y0p -> y1p <= v1 -> 0 <= x0p -> x1p <= v2 ->
   read z0p z1p y0p y1p x0p x1p tile_sz tile_st tile_border_padding tile_blank
        (Some (v0, v1, v2)) zstep relabel
   = read z0p z1p y0p y1p x0p x1p tile_sz tile_st tile_border_padding
          tile_blank None zstep relabel).
Proof.
  intros read pads.
  assert (Hsplit :
    read z0p z1p y0p y1p x0p x1p tile_sz tile_st tile_border_padding tile_blank
         (Some (v0, v1, v2)) zstep relabel
    = (st ← read (Z.max z0p 0) (Z.min z1p v0) (Z.max y0p 0) (Z.min y1p v1)
                 (Z.max x0p 0) (Z.min x1p v2) tile_sz tile_st
                 tile_border_padding tile_blank None zstep relabel;
       if 0 <? max_of (flat_map (fun ab => [fst ab; snd ab]) pads)
       then Returns (np_pad (fst st) pads tile_border_padding, snd st)
       else Returns st)).
  { unfold read, read_tile_image_by_bbox.
    repeat match goal with
           | |- context [mbind _ ?m] =>
               lazymatch m with
               | Returns _ => fail
               | Raises _ => fail
               | _ => destruct m; cbn [mbind outcome_bind]; try reflexivity
               end
           end. }
  split; [exact Hsplit|].
  intros Hz0 Hz1 Hy0 Hy1 Hx0 Hx1. rewrite Hsplit.
  rewrite !Z.max_l, !Z.min_l by lia.
  replace (0 <? max_of _) with false; cycle 1.
  { subst pads.
    replace (Z.max (- z0p) 0) with 0 by lia.
    replace (Z.max 0 (z1p - v0)) with 0 by lia.
    replace (Z.max (- y0p) 0) with 0 by lia.
    replace (Z.max 0 (y1p - v1)) with 0 by lia.
    replace (Z.max (- x0p) 0) with 0 by lia.
    replace (Z.max 0 (x1p - v2)) with 0 by lia.
    reflexivity. }
  destruct (read z0p z1p y0p y1p x0p x1p tile_sz tile_st tile_border_padding
              tile_blank None zstep relabel) as [st|e]; reflexivity.
Qed.
End VolumeSz.


(** * Edge cases of the two assemblers *)

Section MissingChunks.
Variable path_exists : string -> bool.
Variable h5_rank : string -> Z * Z * Z -> nat.
Variable h5_read : string -> Z * Z * Z -> list sel -> ndarray.
Variable percent_format1 : string -> Z -> string.
Variable get_h5_chunk2d : Z -> Z -> Z * Z -> outcome (Z * Z).
Variable h5_create_dataset : list Z -> list Z -> outcome unit.

Lemma for_each_skip {X S} (xs : list X) (body : S -> X -> outcome S) (st : S) :
  (forall x a, x ∈ xs -> body a x = Returns a) ->
  for_each xs body st = Returns st.
Proof.
  induction xs as [|x xs IH]; intros Hskip; simpl; [done|].
  rewrite Hskip by apply list_elem_of_here. cbn [mbind outcome_bind].
  apply IH. intros y a Hy. apply Hskip. by apply list_elem_of_further.
Qed.

(** X17.  [read_tile_h5_by_bbox] writing to an ".h5" file when no chunk
    file exists, for chunk sizes that are not 0.  When [get_h5_chunk2d]
    answers a chunk size and [create_dataset] accepts the chunk shape
    [(zyx_sz[0], chunk_sz[0], chunk_sz[1])] for the shape
    [(z1 - z0, y1 - y0, x1 - x0)], the call returns a volume of zeros of
    that shape and prints nothing: a missing chunk is passed over without
    a message, where the tiled assembler of images prints one for each
    missing tile.  When [create_dataset] refuses the chunk shape, as it
    does for a request of fewer than [zyx_sz[0]] slices, or
    [get_h5_chunk2d] raises, the call raises the same exception. *)
Theorem read_tile_h5_by_bbox_no_chunk_file
    (dt_cast dt_clip mask_cast chunk_cast : Z -> Z)
    (h5_name : Z -> Z -> Z -> string) (z0 z1 y0 y1 x0 x1 : Z)
    (zyx_sz zyx0 : Z * Z * Z) (cid : Z) (zz : Z * Z * Z) (tile_step : Z * Z)
    (zstep : Z) (acc_id : bool) (f : string) (output_chunk : Z)
    (tile_type : string) :
  str_in ".h5" f = true ->
  (forall zid yid xid, path_exists (h5_name zid yid xid) = false) ->
  fst (fst zyx_sz) <> 0 -> snd (fst zyx_sz) <> 0 -> snd zyx_sz <> 0 ->
  let call :=
    read_tile_h5_by_bbox path_exists h5_rank h5_read percent_format1
      get_h5_chunk2d h5_create_dataset
      dt_cast dt_clip mask_cast chunk_cast h5_name
      z0 z1 y0 y1 x0 x1 zyx_sz zyx0 cid zz
      tile_step zstep acc_id (Some f) output_chunk tile_type None in
  let chunk2d :=
    get_h5_chunk2d output_chunk (fst (fst zyx_sz))
      (snd (fst zyx_sz), snd zyx_sz) in
  let created (chunk_sz : Z * Z) :=
    h5_create_dataset [z1 - z0; y1 - y0; x1 - x0]
      [fst (fst zyx_sz); fst chunk_sz; snd chunk_sz] in
  (forall chunk_sz,
     chunk2d = Returns chunk_sz -> created chunk_sz = Returns tt ->
     call = Returns (tabulate [Z.to_nat (z1 - z0); Z.to_nat (y1 - y0);
                               Z.to_nat (x1 - x0)] (fun _ => 0), [])) /\
  (forall chunk_sz e,
     chunk2d = Returns chunk_sz -> created chunk_sz = Raises e ->
     call = Raises e) /\
  (forall e, chunk2d = Raises e -> call = Raises e).
Proof.
  intros Hf Hmiss Hs0 Hs1 Hs2 call chunk2d created.
  assert (Hloop : forall res r0 r1 c0 c1 d0 d1 cast,
            for_each (range d0 d1)
              (read_z_block path_exists h5_rank h5_read percent_format1
                 cast mask_cast chunk_cast h5_name z0 z1 y0 y1 x0 x1
                 zyx_sz zyx0 cid zz tile_step zstep acc_id (Some f) None
                 r0 r1 c0 c1) (res, 0, [])
            = Returns (res, 0, [])).
  { intros res r0 r1 c0 c1 d0 d1 cast. apply for_each_skip.
    intros zid [[res' mid] log] _. unfold read_z_block, z_block_finish.
    rewrite Hf. cbn [negb].
    destruct (z_block_extent _ _ _ zid) as [zp0 zp1].
    rewrite for_each_skip; [done|].
    intros yid st _. apply for_each_skip.
    intros xid [[res'' mid'] log'] _. unfold read_chunk. by rewrite Hmiss. }
  subst call chunk2d created. cbv beta.
  unfold read_tile_h5_by_bbox, read_tile_h5_blocks, z_block_range, py_floordiv.
  rewrite Hf. destruct zz as [[zz0 zz1] zz2].
  destruct (Z.eqb_spec (fst (fst zyx_sz)) 0) as [|_]; [done|].
  destruct (Z.eqb_spec (snd (fst zyx_sz)) 0) as [|_]; [done|].
  destruct (Z.eqb_spec (snd zyx_sz) 0) as [|_]; [done|].
  split; [|split].
  - intros chunk_sz -> Hc. cbn [mbind outcome_bind]. rewrite Hc.
    cbn [mbind outcome_bind]. by rewrite Hloop.
  - intros chunk_sz e -> Hc. cbn [mbind outcome_bind]. by rewrite Hc.
  - by intros e ->.
Qed.
End MissingChunks.

Lemma read_tile_h5_by_bbox_no_chunk_file_witness :
  read_tile_h5_by_bbox (fun _ => false) (fun _ _ => 3%nat) example_chunk
    example_image_name example_chunk2d example_create_dataset
    cast_uint16 clip_uint16 cast_uint16 cast_uint16 example_chunk_name
    0 1 0 1 0 4 (1, 1, 2) (0, 0, 0) (-1) (0, 0, -1) (1, 1) 1 false
    (Some "out.h5") 8192 "seg" None
  = Returns ({| shape := [1; 1; 4]%nat; data := [0; 0; 0; 0] |}, []) /\
  read_tile_h5_by_bbox (fun _ => false) (fun _ _ => 3%nat) example_chunk
    example_image_name example_chunk2d example_create_dataset
    cast_uint16 clip_uint16 cast_uint16 cast_uint16 example_chunk_name
    0 1 0 1 0 4 (2, 1, 2) (0, 0, 0) (-1) (0, 0, -1) (1, 1) 1 false
    (Some "out.h5") 8192 "seg" None
  = Raises ValueError.
Proof.
  split.
  - destruct (read_tile_h5_by_bbox_no_chunk_file (fun _ => false)
                (fun _ _ => 3%nat) example_chunk example_image_name
                example_chunk2d example_create_dataset
                cast_uint16 clip_uint16 cast_uint16 cast_uint16
                example_chunk_name
                0 1 0 1 0 4 (1, 1, 2) (0, 0, 0) (-1) (0, 0, -1) (1, 1) 1 false
                "out.h5" 8192 "seg") as (H & _ & _);
      [reflexivity|reflexivity|simpl; lia|simpl; lia|simpl; lia|].
    by rewrite (H (1, 2)).
  - vm_compute. reflexivity.
Defined.

Section ArgumentErrors.
Variable percent_format : string -> Z -> Z -> string.
Variable brace_format : string -> Z -> Z -> string.
Variable path_exists : string -> bool.
Variable read_image : string -> ndarray.
Variable np_pad : ndarray -> list (Z * Z) -> string -> ndarray.

(** X18.  The arguments [read_tile_image_by_bbox] rejects before it reads
    a tile, without [volume_sz]: a [zstep] of 0 raises
    [ZeroDivisionError]; otherwise a negative extent of the result along
    z, y or x raises [ValueError] when the array is created; otherwise a
    tile size of 0 raises [ZeroDivisionError].  No tile file is looked
    for in any of these cases. *)
Theorem read_tile_image_by_bbox_argument_errors (cast : Z -> Z)
    (filenames : list string) (z0 z1 y0 y1 x0 x1 : Z) (tile_sz tile_st : Z * Z)
    (tile_border_padding tile_blank : string) (zstep : Z)
    (relabel : option (list Z)) :
  let call := read_tile_image_by_bbox percent_format brace_format path_exists
                read_image np_pad cast filenames z0 z1 y0 y1 x0 x1 tile_sz
                tile_st tile_border_padding tile_blank None zstep relabel in
  (zstep = 0 -> call = Raises ZeroDivisionError) /\
  (zstep <> 0 ->
   (z1 - z0 + zstep - 1) / zstep < 0 \/ y1 < y0 \/ x1 < x0 ->
   call = Raises ValueError) /\
  (zstep <> 0 ->
   0 <= (z1 - z0 + zstep - 1) / zstep -> y0 <= y1 -> x0 <= x1 ->
   fst tile_sz = 0 \/ snd tile_sz = 0 ->
   call = Raises ZeroDivisionError).
Proof.
  intros call. subst call.
  unfold read_tile_image_by_bbox, py_floordiv, np_zeros.
  split; [|split].
  - intros ->. reflexivity.
  - intros Hstep Hneg. destruct (Z.eqb_spec zstep 0) as [|_]; [done|].
    cbn [mbind outcome_bind].
    replace (forallb _ _) with false; [done|].
    symmetry. simpl. rewrite !andb_false_iff, !Z.leb_gt. lia.
  - intros Hstep Hn Hy Hx Hts. destruct (Z.eqb_spec zstep 0) as [|_]; [done|].
    cbn [mbind outcome_bind].
    replace (forallb _ _) with true; cycle 1.
    { symmetry. simpl. rewrite !andb_true_iff, !Z.leb_le. lia. }
    cbn [mbind outcome_bind].
    destruct (Z.eqb_spec (snd tile_sz) 0) as [|Hs1]; [done|].
    cbn [mbind outcome_bind].
    destruct (Z.eqb_spec (fst tile_sz) 0) as [|Hs0]; [done|]. lia.
Qed.
End ArgumentErrors.


(** * The box and the mask of one neuron *)

Section FirstRow.
Lemma mask_select_first {A} (f : Z -> bool) (g : row -> A) (m1 m2 : matrix)
    (r : row) :
  Forall (fun v => f v = false) (col0 m1) -> f (hd 0 r) = true ->
  mask_select (map f (col0 (m1 ++ r :: m2))) (map g (m1 ++ r :: m2))
  = g r :: mask_select (map f (col0 m2)) (map g m2).
Proof.
  intros Hm1 Hr. induction m1 as [|r1 m1 IH]; simpl in *.
  - by rewrite Hr.
  - apply Forall_cons in Hm1 as [H1 Hm1]. rewrite H1. by apply IH.
Qed.

Lemma mask_select_none {A} (f : Z -> bool) (g : row -> A) (m : matrix) :
  Forall (fun v => f v = false) (col0 m) ->
  mask_select (map f (col0 m)) (map g m) = [].
Proof.
  induction m as [|r m IH]; simpl; [done|].
  intros [H1 Hm]%Forall_cons. rewrite H1. by apply IH.
Qed.

Lemma not_in_col0 (neuron_id : Z) (m : matrix) :
  neuron_id ∉ col0 m -> Forall (fun v => (v =? neuron_id) = false) (col0 m).
Proof.
  intros Hnot. apply Forall_forall. intros v Hv.
  apply Z.eqb_neq. intros ->. done.
Qed.
End FirstRow.

Section NeuronBox.
Variable loadtxt : string -> outcome loaded.

(** The box of a neuron in a table of 3D boxes. *)
Lemma neuron_id_to_bbox_row (mask_bbox_folder : string) (neuron_id : Z)
    (neuron_name : string) (m1 m2 : matrix) (z0 z1 y0 y1 x0 x1 : Z)
    (rest : list Z) :
  loadtxt (drop_last mask_bbox_folder +:+ ".txt")
  = Returns (Mat (m1 ++ (neuron_id :: z0 :: z1 :: y0 :: y1 :: x0 :: x1 :: rest)
                      :: m2)) ->
  neuron_id ∉ col0 m1 ->
  neuron_id_to_bbox loadtxt mask_bbox_folder neuron_id neuron_name
  = Returns ([z0; z1; y0; y1; x0; x1],
             {| line_id := neuron_id; line_name := neuron_name;
                line_min := [x0; y0; z0];
                line_from := [2 * x0; 2 * y0; 1 * z0];
                line_to := [2 * x1 + 1; 2 * y1 + 1; 1 * z1 + 0] |}).
Proof.
  intros Hload Hnot. unfold neuron_id_to_bbox. rewrite Hload.
  cbn [mbind outcome_bind].
  rewrite mask_select_first; [done|by apply not_in_col0|apply Z.eqb_refl].
Qed.

(** X19.  [neuron_id_to_bbox] on the table of a box file.  In a table of
    3D boxes it returns the six box columns of the first row whose id is
    the neuron, and prints the minimum corner in x, y, z order, once as
    it is and once with x and y doubled, and the maximum corner with x
    and y doubled and 1 added.  It raises [IndexError] when no row has
    the id, and also when the file holds a single row, which is loaded as
    a vector and not reshaped as [merge_bbox_tile] does.  In a table of
    2D boxes the row is found but the printed line raises [ValueError]:
    two minimums cannot be multiplied with [[2, 2, 1]]. *)
Theorem neuron_id_to_bbox_cases (mask_bbox_folder : string) (neuron_id : Z)
    (neuron_name : string) :
  let call := neuron_id_to_bbox loadtxt mask_bbox_folder neuron_id
                                neuron_name in
  let file := drop_last mask_bbox_folder +:+ ".txt" in
  (forall m1 m2 z0 z1 y0 y1 x0 x1 rest,
     loadtxt file
     = Returns (Mat (m1 ++ (neuron_id :: z0 :: z1 :: y0 :: y1 :: x0 :: x1
                              :: rest) :: m2)) ->
     neuron_id ∉ col0 m1 ->
     call = Returns ([z0; z1; y0; y1; x0; x1],
                     {| line_id := neuron_id; line_name := neuron_name;
                        line_min := [x0; y0; z0];
                        line_from := [2 * x0; 2 * y0; 1 * z0];
                        line_to := [2 * x1 + 1; 2 * y1 + 1; 1 * z1 + 0] |})) /\
  (forall m, loadtxt file = Returns (Mat m) -> neuron_id ∉ col0 m ->
             call = Raises IndexError) /\
  (forall v, loadtxt file = Returns (Vec v) -> call = Raises IndexError) /\
  (forall m1 m2 y0 y1 x0 x1,
     loadtxt file = Returns (Mat (m1 ++ [neuron_id; y0; y1; x0; x1] :: m2)) ->
     neuron_id ∉ col0 m1 ->
     call = Raises ValueError).
Proof.
  intros call file. subst call file. repeat split.
  - intros m1 m2 z0 z1 y0 y1 x0 x1 rest Hload Hnot.
    by apply (neuron_id_to_bbox_row _ _ _ m1 m2 _ _ _ _ _ _ rest).
  - intros m Hload Hnot. unfold neuron_id_to_bbox. rewrite Hload.
    cbn [mbind outcome_bind].
    by rewrite mask_select_none by by apply not_in_col0.
  - intros v Hload. unfold neuron_id_to_bbox. by rewrite Hload.
  - intros m1 m2 y0 y1 x0 x1 Hload Hnot. unfold neuron_id_to_bbox.
    rewrite Hload. cbn [mbind outcome_bind].
    rewrite mask_select_first; [done|by apply not_in_col0|apply Z.eqb_refl].
Qed.
End NeuronBox.

Section NeuronVolume.
Variable loadtxt : string -> outcome loaded.
Variable vast_meta_relabel : string -> list Z.
Variable format1 : string -> Z -> string.
Variable percent_format : string -> Z -> Z -> string.
Variable brace_format : string -> Z -> Z -> string.
Variable path_exists : string -> bool.
Variable read_image : string -> ndarray.
Variable np_pad : ndarray -> list (Z * Z) -> string -> ndarray.

Lemma neuron_relabel_nth (mask_meta : string) (neuron_id : Z) (v : Z) :
  0 <= v < Z.of_nat (length (vast_meta_relabel mask_meta)) ->
  cast_uint8 (nth (Z.to_nat v)
                  (neuron_relabel vast_meta_relabel mask_meta neuron_id) 0)
  = if nth (Z.to_nat v) (vast_meta_relabel mask_meta) 0 mod 2 ^ 8 =? neuron_id
    then 1 else 0.
Proof.
  intros Hv. unfold neuron_relabel.
  rewrite (nth_map_lt _ _ _ 0) by lia. fold (cast_uint8 (nth (Z.to_nat v) (vast_meta_relabel mask_meta) 0)).
  by destruct (_ =? _).
Qed.

Lemma box_divided (ratio0 ratio1 ratio2 z0 z1 y0 y1 x0 x1 : Z) :
  let bb := floordiv_slice 0 2 ratio0 [z0; z1; y0; y1; x0; x1] in
  let bb := floordiv_slice 2 4 ratio1 bb in
  floordiv_slice 4 (length bb) ratio2 bb
  = [z0 / ratio0; z1 / ratio0; y0 / ratio1; y1 / ratio1;
     x0 / ratio2; x1 / ratio2].
Proof. reflexivity. Qed.

Lemma item_in_data (a : ndarray) (p : list nat) :
  length (data a) = size_of (shape a) -> Forall2 lt p (shape a) ->
  item a p ∈ data a.
Proof.
  intros Hlen Hp. apply ravel_in_bounds in Hp as [Hlt _].
  unfold item. apply list_elem_of_In, nth_In. lia.
Qed.

End NeuronVolume.



(** * Placement of the chunks by the chunked assembler *)

Section BlockSlicing.
Lemma item_3d_item (src : ndarray) (a b c dz dy dx : nat) :
  shape src = [a; b; c] -> (dz < a)%nat -> (dy < b)%nat -> (dx < c)%nat ->
  item_3d src (a, b, c) dz dy dx = item src [dz; dy; dx].
Proof.
  intros Hs Hz Hy Hx. unfold item_3d, item. rewrite Hs.
  rewrite !src_index_small by done. f_equal. simpl. lia.
Qed.

Lemma assign_block_inside (cast : Z -> Z) (res : ndarray) (n h w : nat)
    (zlo zhi ylo yhi xlo xhi : Z) (src : ndarray) :
  shape res = [n; h; w] ->
  0 <= zlo -> zlo <= zhi -> zhi <= Z.of_nat n ->
  0 <= ylo -> ylo <= yhi -> yhi <= Z.of_nat h ->
  0 <= xlo -> xlo <= xhi -> xhi <= Z.of_nat w ->
  shape src = [Z.to_nat (zhi - zlo); Z.to_nat (yhi - ylo);
               Z.to_nat (xhi - xlo)] ->
  exists res',
    assign_block cast res (Some zlo, Some zhi) (Some ylo, Some yhi)
                 (Some xlo, Some xhi) src = Returns res' /\
    shape res' = [n; h; w] /\
    forall z y x, (z < n)%nat -> (y < h)%nat -> (x < w)%nat ->
      item res' [z; y; x] =
      if bool_decide (zlo <= Z.of_nat z < zhi /\ ylo <= Z.of_nat y < yhi
                      /\ xlo <= Z.of_nat x < xhi)
      then cast (item src [(z - Z.to_nat zlo)%nat; (y - Z.to_nat ylo)%nat;
                           (x - Z.to_nat xlo)%nat])
      else item res [z; y; x].
Proof.
  intros Hs Hz0 Hz1 Hz2 Hy0 Hy1 Hy2 Hx0 Hx1 Hx2 Hsrc. unfold assign_block.
  rewrite Hs. cbn [fst snd]. simpl nth.
  rewrite !py_slice_inside by done. rewrite Hsrc. cbn [as_3d].
  rewrite !fits_refl. cbn [andb]. eexists. split; [reflexivity|].
  split; [done|].
  intros z y x Hz Hy Hx.
  rewrite item_tabulate by (by repeat constructor). simpl nth.
  destruct (Nat.leb_spec (Z.to_nat zlo) z); cbn [andb];
    [|rewrite bool_decide_eq_false_2; [done|lia]].
  destruct (Nat.ltb_spec z (Z.to_nat zlo + Z.to_nat (zhi - zlo))); cbn [andb];
    [|rewrite bool_decide_eq_false_2; [done|lia]].
  destruct (Nat.leb_spec (Z.to_nat ylo) y); cbn [andb];
    [|rewrite bool_decide_eq_false_2; [done|lia]].
  destruct (Nat.ltb_spec y (Z.to_nat ylo + Z.to_nat (yhi - ylo))); cbn [andb];
    [|rewrite bool_decide_eq_false_2; [done|lia]].
  destruct (Nat.leb_spec (Z.to_nat xlo) x); cbn [andb];
    [|rewrite bool_decide_eq_false_2; [done|lia]].
  destruct (Nat.ltb_spec x (Z.to_nat xlo + Z.to_nat (xhi - xlo))); cbn [andb];
    [|rewrite bool_decide_eq_false_2; [done|lia]].
  rewrite bool_decide_eq_true_2 by lia.
  by rewrite item_3d_item by (done || lia).
Qed.

(** The same store into the dataset of an ".h5" file. *)
Lemma h5_assign_block_inside (clip : Z -> Z) (res : ndarray) (n h w : nat)
    (zlo zhi ylo yhi xlo xhi : Z) (src : ndarray) :
  shape res = [n; h; w] ->
  0 <= zlo -> zlo <= zhi -> zhi <= Z.of_nat n ->
  0 <= ylo -> ylo <= yhi -> yhi <= Z.of_nat h ->
  0 <= xlo -> xlo <= xhi -> xhi <= Z.of_nat w ->
  shape src = [Z.to_nat (zhi - zlo); Z.to_nat (yhi - ylo);
               Z.to_nat (xhi - xlo)] ->
  exists res',
    h5_assign_block clip res (Some zlo, Some zhi) (Some ylo, Some yhi)
                    (Some xlo, Some xhi) src = Returns res' /\
    shape res' = [n; h; w] /\
    forall z y x, (z < n)%nat -> (y < h)%nat -> (x < w)%nat ->
      item res' [z; y; x] =
      if bool_decide (zlo <= Z.of_nat z < zhi /\ ylo <= Z.of_nat y < yhi
                      /\ xlo <= Z.of_nat x < xhi)
      then clip (item src [(z - Z.to_nat zlo)%nat; (y - Z.to_nat ylo)%nat;
                           (x - Z.to_nat xlo)%nat])
      else item res [z; y; x].
Proof.
  intros Hs Hz0 Hz1 Hz2 Hy0 Hy1 Hy2 Hx0 Hx1 Hx2 Hsrc. unfold h5_assign_block.
  rewrite Hs. cbn [fst snd]. simpl nth.
  rewrite !py_slice_inside by done.
  destruct (Nat.eqb_spec (Z.to_nat (zhi - zlo) * Z.to_nat (yhi - ylo)
                          * Z.to_nat (xhi - xlo)) 0) as [Hempty|_].
  { exists res. split; [done|]. split; [done|]. intros z y x _ _ _.
    rewrite bool_decide_eq_false_2; [done|].
    apply Nat.eq_mul_0 in Hempty as [Hempty|Hempty];
      [apply Nat.eq_mul_0 in Hempty as [Hempty|Hempty]|]; lia. }
  rewrite Hsrc. cbn [as_3d].
  rewrite !fits_refl. cbn [andb]. eexists. split; [reflexivity|].
  split; [done|].
  intros z y x Hz Hy Hx.
  rewrite item_tabulate by (by repeat constructor). simpl nth.
  destruct (Nat.leb_spec (Z.to_nat zlo) z); cbn [andb];
    [|rewrite bool_decide_eq_false_2; [done|lia]].
  destruct (Nat.ltb_spec z (Z.to_nat zlo + Z.to_nat (zhi - zlo))); cbn [andb];
    [|rewrite bool_decide_eq_false_2; [done|lia]].
  destruct (Nat.leb_spec (Z.to_nat ylo) y); cbn [andb];
    [|rewrite bool_decide_eq_false_2; [done|lia]].
  destruct (Nat.ltb_spec y (Z.to_nat ylo + Z.to_nat (yhi - ylo))); cbn [andb];
    [|rewrite bool_decide_eq_false_2; [done|lia]].
  destruct (Nat.leb_spec (Z.to_nat xlo) x); cbn [andb];
    [|rewrite bool_decide_eq_false_2; [done|lia]].
  destruct (Nat.ltb_spec x (Z.to_nat xlo + Z.to_nat (xhi - xlo))); cbn [andb];
    [|rewrite bool_decide_eq_false_2; [done|lia]].
  rewrite bool_decide_eq_true_2 by lia.
  by rewrite item_3d_item by (done || lia).
Qed.
End BlockSlicing.

Section WritesWithCounter.
Context {X : Type}.
Variable s : list nat.
Variable W : X -> list nat -> option Z.
Variable L : X -> list event.
Variable body : ndarray * Z * list event -> X
                -> outcome (ndarray * Z * list event).

(** [for_each_writes] for the state of the chunked assembler, when the
    running maximum is left alone. *)
Lemma for_each_writes_counter (xs : list X) (res : ndarray) (mid : Z)
    (log : list event) :
  (forall x res log, x ∈ xs -> shape res = s ->
     exists res',
       body (res, mid, log) x = Returns (res', mid, log ++ L x) /\
       shape res' = s /\
       forall p, Forall2 lt p s ->
         item res' p = match W x p with Some v => v | None => item res p end) ->
  shape res = s ->
  exists res',
    for_each xs body (res, mid, log)
    = Returns (res', mid, log ++ flat_map L xs) /\
    shape res' = s /\
    forall p, Forall2 lt p s -> item res' p = written W xs (item res) p.
Proof.
  revert res log. induction xs as [|x xs IH]; intros res log Hbody Hs.
  - exists res. simpl. by rewrite app_nil_r.
  - destruct (Hbody x res log (list_elem_of_here _ _) Hs)
      as (res1 & Hx & Hs1 & Hitems1).
    destruct (IH res1 (log ++ L x)) as (res' & Hrest & Hs' & Hitems');
      [|done|].
    { intros y r l Hy. apply Hbody. by apply list_elem_of_further. }
    exists res'. split; [|split; [done|]].
    + simpl. rewrite Hx. cbn [mbind outcome_bind].
      by rewrite Hrest, <- app_assoc.
    + intros p Hp. rewrite Hitems' by done.
      by rewrite (written_ext s W xs (item res1)
                    (fun p => match W x p with
                              | Some v => v | None => item res p end)).
Qed.
End WritesWithCounter.

Section ChunkOrderElem.
Lemma chunk_order_elem (d0 d1 r0 r1 c0 c1 zid yid xid : Z) :
  (zid, yid, xid) ∈ chunk_order d0 d1 r0 r1 c0 c1 <->
  d0 <= zid < d1 /\ r0 <= yid < r1 /\ c0 <= xid < c1.
Proof.
  unfold chunk_order. rewrite list_elem_of_In, in_flat_map. split.
  - intros (z & Hz & Hin). apply in_flat_map in Hin as (y & Hy & Hin).
    apply in_map_iff in Hin as (x & [= -> -> ->] & Hx).
    apply list_elem_of_In, range_elem in Hz, Hy, Hx. done.
  - intros (Hz & Hy & Hx). exists zid.
    split; [by apply list_elem_of_In, range_elem|].
    apply in_flat_map. exists yid.
    split; [by apply list_elem_of_In, range_elem|].
    apply in_map_iff. exists xid.
    split; [done|by apply list_elem_of_In, range_elem].
Qed.

Lemma z_block_extent_plain (zyx_sz0 zyx00 zz2 zid : Z) :
  z_block_extent zyx_sz0 zyx00 (0, 0, zz2) zid
  = (zid * zyx_sz0 + zyx00, (zid + 1) * zyx_sz0 + zyx00).
Proof.
  unfold z_block_extent.
  destruct (zid =? 0), (zid =? zz2); cbn [negb]; f_equal; lia.
Qed.

Lemma offset_nat (lo corner : Z) (k : nat) :
  lo <= corner -> corner <= lo + Z.of_nat k ->
  (k - Z.to_nat (corner - lo))%nat = Z.to_nat (lo + Z.of_nat k - corner).
Proof. lia. Qed.

(** Along one axis: the offset [k] of the request lies in the part of
    chunk [q] exactly when [q] is the chunk of its coordinate. *)
Lemma in_part (lo hi s o q : Z) (k : nat) :
  (k < Z.to_nat (hi - lo))%nat ->
  q * s <= lo + Z.of_nat k - o < (q + 1) * s ->
  Z.max lo (q * s + o) - lo <= Z.of_nat k < Z.min hi ((q + 1) * s + o) - lo.
Proof. lia. Qed.

Lemma in_part_inv (lo hi s o q : Z) (k : nat) :
  0 < s ->
  Z.max lo (q * s + o) - lo <= Z.of_nat k < Z.min hi ((q + 1) * s + o) - lo ->
  (lo + Z.of_nat k - o) / s = q.
Proof. intros Hs Hk. apply div_eq_iff; [done|]. lia. Qed.
End ChunkOrderElem.

Section ChunkPlacement.
Variable path_exists : string -> bool.
Variable h5_rank : string -> Z * Z * Z -> nat.
Variable h5_read : string -> Z * Z * Z -> list sel -> ndarray.
Variables (cast chunk_cast : Z -> Z) (h5_name : Z -> Z -> Z -> string).
Variables (z0 z1 y0 y1 x0 x1 : Z) (zyx_sz zyx0 : Z * Z * Z) (cid : Z).
Variables (zz2 : Z) (tile_step : Z * Z) (zstep : Z) (to_h5 : bool).

Hypothesis sz0_pos : 0 < fst (fst zyx_sz).
Hypothesis sz1_pos : 0 < snd (fst zyx_sz).
Hypothesis sz2_pos : 0 < snd zyx_sz.
Hypothesis z_range : fst (fst zyx0) <= z0 <= z1.
Hypothesis y_range : snd (fst zyx0) <= y0 <= y1.
Hypothesis x_range : snd zyx0 <= x0 <= x1.

(** What the chunk [c] writes into the destination, an array or the
    dataset of an ".h5" file, [cast] being the conversion of the store. *)
Lemma read_chunk_at_writes (c : Z * Z * Z) (res : ndarray) (mid : Z)
    (log : list event) :
  let '(zid, yid, xid) := c in
  let s := [Z.to_nat (z1 - z0); Z.to_nat (y1 - y0); Z.to_nat (x1 - x0)] in
  (forall tmp,
     chunk_block path_exists h5_rank h5_read h5_name z0 z1 y0 y1 x0 x1
       zyx_sz zyx0 cid (0, 0, zz2) tile_step zstep c = Some tmp ->
     shape tmp = chunk_part_shape z0 z1 y0 y1 x0 x1 zyx_sz zyx0 c) ->
  z0 < (zid + 1) * fst (fst zyx_sz) + fst (fst zyx0) ->
  zid * fst (fst zyx_sz) + fst (fst zyx0) < z1 ->
  y0 < (yid + 1) * snd (fst zyx_sz) + snd (fst zyx0) ->
  yid * snd (fst zyx_sz) + snd (fst zyx0) < y1 ->
  x0 < (xid + 1) * snd zyx_sz + snd zyx0 ->
  xid * snd zyx_sz + snd zyx0 < x1 ->
  shape res = s ->
  exists res',
    read_chunk_at path_exists h5_rank h5_read cast chunk_cast h5_name
      z0 z1 y0 y1 x0 x1 zyx_sz zyx0 cid (0, 0, zz2) tile_step zstep false
      to_h5 false (res, mid, log) c
    = Returns (res', mid,
               log ++ (if path_exists (h5_name zid yid xid)
                       then [PrintPath (h5_name zid yid xid)] else [])) /\
    shape res' = s /\
    forall p, Forall2 lt p s ->
      item res' p =
      match (if bool_decide (chunk_of z0 y0 x0 zyx_sz zyx0
                               (nth 0 p 0%nat) (nth 1 p 0%nat) (nth 2 p 0%nat)
                             = c)
             then chunk_voxel path_exists h5_rank h5_read h5_name cast
                    z0 z1 y0 y1 x0 x1 zyx_sz zyx0 cid (0, 0, zz2) tile_step
                    zstep (nth 0 p 0%nat) (nth 1 p 0%nat) (nth 2 p 0%nat)
             else None) with
      | Some v => v
      | None => item res p
      end.
Proof.
  destruct c as [[zid yid] xid]. intros s Hblock Hz1 Hz2 Hy1 Hy2 Hx1 Hx2 Hshape.
  unfold read_chunk_at, read_chunk. rewrite z_block_extent_plain.
  unfold chunk_block in Hblock. rewrite z_block_extent_plain in Hblock.
  destruct (path_exists (h5_name zid yid xid)) eqn:Hex.
  - specialize (Hblock _ eq_refl).
    set (tmp := chunk_tmp h5_rank h5_read (h5_name zid yid xid) x0 x1 zyx_sz
                  zyx0 cid tile_step zstep zid yid _ _ _ _ _ _ xid) in *.
    cbn [mbind outcome_bind].
    set (z0a := Z.max z0 (zid * fst (fst zyx_sz) + fst (fst zyx0))) in *.
    set (z1a := Z.min z1 ((zid + 1) * fst (fst zyx_sz) + fst (fst zyx0))) in *.
    set (y0a := Z.max y0 (yid * snd (fst zyx_sz) + snd (fst zyx0))) in *.
    set (y1a := Z.min y1 ((yid + 1) * snd (fst zyx_sz) + snd (fst zyx0))) in *.
    set (x0a := Z.max x0 (xid * snd zyx_sz + snd zyx0)) in *.
    set (x1a := Z.min x1 ((xid + 1) * snd zyx_sz + snd zyx0)) in *.
    assert (Hza : z0 <= z0a /\ z0a <= z1a /\ z1a <= z1) by (unfold z0a, z1a; lia).
    assert (Hya : y0 <= y0a /\ y0a <= y1a /\ y1a <= y1) by (unfold y0a, y1a; lia).
    assert (Hxa : x0 <= x0a /\ x0a <= x1a /\ x1a <= x1) by (unfold x0a, x1a; lia).
    assert (Htmp : shape tmp = [Z.to_nat (z1a - z0 - (z0a - z0));
                                Z.to_nat (y1a - y0 - (y0a - y0));
                                Z.to_nat (x1a - x0 - (x0a - x0))]).
    { rewrite Hblock. unfold chunk_part_shape, chunk_corner.
      fold z0a z1a y0a y1a x0a x1a.
      f_equal; [f_equal; lia|]. f_equal; [f_equal; lia|].
      f_equal. f_equal. lia. }
    assert (exists res',
              (if to_h5
               then h5_assign_block cast res (Some (z0a - z0), Some (z1a - z0))
                      (Some (y0a - y0), Some (y1a - y0))
                      (Some (x0a - x0), Some (x1a - x0)) tmp
               else assign_block cast res (Some (z0a - z0), Some (z1a - z0))
                      (Some (y0a - y0), Some (y1a - y0))
                      (Some (x0a - x0), Some (x1a - x0)) tmp) = Returns res' /\
              shape res' = [Z.to_nat (z1 - z0); Z.to_nat (y1 - y0);
                            Z.to_nat (x1 - x0)] /\
              forall z y x, (z < Z.to_nat (z1 - z0))%nat ->
                (y < Z.to_nat (y1 - y0))%nat -> (x < Z.to_nat (x1 - x0))%nat ->
                item res' [z; y; x] =
                if bool_decide (z0a - z0 <= Z.of_nat z < z1a - z0 /\
                                y0a - y0 <= Z.of_nat y < y1a - y0 /\
                                x0a - x0 <= Z.of_nat x < x1a - x0)
                then cast (item tmp [(z - Z.to_nat (z0a - z0))%nat;
                                     (y - Z.to_nat (y0a - y0))%nat;
                                     (x - Z.to_nat (x0a - x0))%nat])
                else item res [z; y; x])
      as (res' & Hassign & Hshape' & Hitems).
    { destruct to_h5;
        [apply h5_assign_block_inside|apply assign_block_inside];
        (done || lia). }
    exists res'. rewrite Hassign. cbn [mbind outcome_bind].
    split; [done|]. split; [done|].
    intros p Hp. apply in_bounds_3 in Hp as (z & y & x & -> & Hz & Hy & Hx).
    rewrite Hitems by done. simpl nth.
    unfold chunk_voxel, chunk_of, chunk_block.
    destruct (decide ((z0 + Z.of_nat z - fst (fst zyx0)) / fst (fst zyx_sz)
                      = zid)) as [Ez|Ez].
    + destruct (decide ((y0 + Z.of_nat y - snd (fst zyx0)) / snd (fst zyx_sz)
                        = yid)) as [Ey|Ey].
      * destruct (decide ((x0 + Z.of_nat x - snd zyx0) / snd zyx_sz = xid))
          as [Ex|Ex].
        -- pose proof (in_part z0 z1 _ _ _ z Hz
                         (proj1 (div_eq_iff _ _ _ sz0_pos) Ez)) as Pz.
           pose proof (in_part y0 y1 _ _ _ y Hy
                         (proj1 (div_eq_iff _ _ _ sz1_pos) Ey)) as Py.
           pose proof (in_part x0 x1 _ _ _ x Hx
                         (proj1 (div_eq_iff _ _ _ sz2_pos) Ex)) as Px.
           rewrite bool_decide_eq_true_2 by done.
           rewrite bool_decide_eq_true_2 by congruence.
           rewrite Ez, Ey, Ex. rewrite z_block_extent_plain.
           unfold chunk_corner. rewrite Hex. cbn [mbind option_bind].
           fold z0a y0a x0a. fold tmp.
           do 2 f_equal.
           f_equal; [apply offset_nat; [apply Hza|unfold z0a; clear -Pz; lia]|].
           f_equal; [apply offset_nat; [apply Hya|unfold y0a; clear -Py; lia]|].
           f_equal. apply offset_nat; [apply Hxa|unfold x0a; clear -Px; lia].
        -- rewrite bool_decide_eq_false_2.
           ++ rewrite bool_decide_eq_false_2; [done|congruence].
           ++ intros (_ & _ & Hxx). apply Ex.
              by apply (in_part_inv x0 x1 _ _ xid x).
      * rewrite bool_decide_eq_false_2.
        -- rewrite bool_decide_eq_false_2; [done|congruence].
        -- intros (_ & Hyy & _). apply Ey.
           by apply (in_part_inv y0 y1 _ _ yid y).
    + rewrite bool_decide_eq_false_2.
      * rewrite bool_decide_eq_false_2; [done|congruence].
      * intros (Hzz & _ & _). apply Ez.
        by apply (in_part_inv z0 z1 _ _ zid z).
  - exists res. rewrite app_nil_r. split; [done|]. split; [done|].
    intros p Hp. unfold chunk_voxel, chunk_block.
    destruct (bool_decide _) eqn:Hc; [|done].
    apply bool_decide_eq_true in Hc. rewrite Hc.
    unfold chunk_corner. rewrite z_block_extent_plain, Hex. done.
Qed.
End ChunkPlacement.

Section ChunkedPlacement.
Variable path_exists : string -> bool.
Variable h5_rank : string -> Z * Z * Z -> nat.
Variable h5_read : string -> Z * Z * Z -> list sel -> ndarray.
Variable percent_format1 : string -> Z -> string.
Variable get_h5_chunk2d : Z -> Z -> Z * Z -> outcome (Z * Z).
Variable h5_create_dataset : list Z -> list Z -> outcome unit.

(** X21.  Chunk placement of [read_tile_h5_by_bbox] writing to an ".h5"
    file, without extra slices ([zz = (0, 0, zz2)] with [zz2 <= 0]), mask
    and id accumulation, for positive chunk sizes and a request that
    starts at or after the origin of the chunks, when [get_h5_chunk2d]
    answers a chunk size, [create_dataset] accepts the chunk shape
    [(zyx_sz[0], chunk_sz[0], chunk_sz[1])] for the shape of the request,
    and the block read from every existing chunk file has the shape of
    the part of the chunk that lies in the request.  The call returns a
    volume of shape [(z1 - z0, y1 - y0, x1 - x0)].  Its entry [(z, y, x)]
    is the voxel of the block of the chunk
    [((z0 + z - zyx0[0]) // zyx_sz[0], (y0 + y - zyx0[1]) // zyx_sz[1],
      (x0 + x - zyx0[2]) // zyx_sz[2])] at the offset from the corner of
    that part, converted by HDF5 to the type of the dataset, which clips
    a value out of range ([np.uint8] for the tile type "image"); it is 0
    when the file of that chunk does not exist.  The path of every
    existing chunk file is printed once, in the order z, y, x of the
    chunks. *)
Theorem read_tile_h5_by_bbox_places_chunks
    (dt_cast dt_clip mask_cast chunk_cast : Z -> Z)
    (h5_name : Z -> Z -> Z -> string) (z0 z1 y0 y1 x0 x1 : Z)
    (zyx_sz zyx0 : Z * Z * Z) (cid zz2 : Z) (tile_step : Z * Z) (zstep : Z)
    (f : string) (output_chunk : Z) (chunk_sz : Z * Z) (tile_type : string) :
  let cast := if String.eqb tile_type "image" then clip_uint8 else dt_clip in
  let chunks :=
    chunk_order
      ((z0 - fst (fst zyx0)) / fst (fst zyx_sz))
      ((z1 - fst (fst zyx0) + fst (fst zyx_sz) - 1) / fst (fst zyx_sz))
      ((y0 - snd (fst zyx0)) / snd (fst zyx_sz))
      ((y1 - snd (fst zyx0) + snd (fst zyx_sz) - 1) / snd (fst zyx_sz))
      ((x0 - snd zyx0) / snd zyx_sz)
      ((x1 - snd zyx0 + snd zyx_sz - 1) / snd zyx_sz) in
  let printed := fun c : Z * Z * Z =>
    let path := h5_name (fst (fst c)) (snd (fst c)) (snd c) in
    if path_exists path then [PrintPath path] else [] in
  str_in ".h5" f = true ->
  0 < fst (fst zyx_sz) -> 0 < snd (fst zyx_sz) -> 0 < snd zyx_sz ->
  fst (fst zyx0) <= z0 <= z1 -> snd (fst zyx0) <= y0 <= y1 ->
  snd zyx0 <= x0 <= x1 -> zz2 <= 0 ->
  get_h5_chunk2d output_chunk (fst (fst zyx_sz))
    (snd (fst zyx_sz), snd zyx_sz) = Returns chunk_sz ->
  h5_create_dataset [z1 - z0; y1 - y0; x1 - x0]
    [fst (fst zyx_sz); fst chunk_sz; snd chunk_sz] = Returns tt ->
  (forall c tmp, c ∈ chunks ->
     chunk_block path_exists h5_rank h5_read h5_name z0 z1 y0 y1 x0 x1
       zyx_sz zyx0 cid (0, 0, zz2) tile_step zstep c = Some tmp ->
     shape tmp = chunk_part_shape z0 z1 y0 y1 x0 x1 zyx_sz zyx0 c) ->
  exists res,
    read_tile_h5_by_bbox path_exists h5_rank h5_read percent_format1
      get_h5_chunk2d h5_create_dataset
      dt_cast dt_clip mask_cast chunk_cast h5_name
      z0 z1 y0 y1 x0 x1 zyx_sz zyx0 cid
      (0, 0, zz2) tile_step zstep false (Some f) output_chunk tile_type None
    = Returns (res, flat_map printed chunks) /\
    shape res = [Z.to_nat (z1 - z0); Z.to_nat (y1 - y0); Z.to_nat (x1 - x0)] /\
    forall z y x : nat,
      (z < Z.to_nat (z1 - z0))%nat -> (y < Z.to_nat (y1 - y0))%nat ->
      (x < Z.to_nat (x1 - x0))%nat ->
      item res [z; y; x] =
      default 0 (chunk_voxel path_exists h5_rank h5_read h5_name cast
                   z0 z1 y0 y1 x0 x1 zyx_sz zyx0 cid (0, 0, zz2) tile_step
                   zstep z y x).
Proof.
  intros cast chunks printed Hf Hs0 Hs1 Hs2 Hz Hy Hx Hzz2 Hchunk Hcreate
    Hblock.
  set (s := [Z.to_nat (z1 - z0); Z.to_nat (y1 - y0); Z.to_nat (x1 - x0)]).
  set (W := fun (c : Z * Z * Z) (p : list nat) =>
    if bool_decide (chunk_of z0 y0 x0 zyx_sz zyx0
                      (nth 0 p 0%nat) (nth 1 p 0%nat) (nth 2 p 0%nat) = c)
    then chunk_voxel path_exists h5_rank h5_read h5_name cast
           z0 z1 y0 y1 x0 x1 zyx_sz zyx0 cid (0, 0, zz2) tile_step zstep
           (nth 0 p 0%nat) (nth 1 p 0%nat) (nth 2 p 0%nat)
    else None).
  destruct (for_each_writes_counter s W printed
              (read_chunk_at path_exists h5_rank h5_read cast chunk_cast
                 h5_name z0 z1 y0 y1 x0 x1 zyx_sz zyx0 cid (0, 0, zz2)
                 tile_step zstep false true false)
              chunks (tabulate s (fun _ => 0)) 0 [])
    as (res & Hloop & Hshape & Hitems); [|done|].
  { intros [[zid yid] xid] r l Hin Hr.
    pose proof Hin as Hin'.
    apply chunk_order_elem in Hin' as (Hzid & Hyid & Hxid).
    destruct (range_rows (z0 - fst (fst zyx0)) (z1 - fst (fst zyx0))
                (fst (fst zyx_sz)) zid) as [Hz1 Hz2]; [lia..|].
    destruct (range_rows (y0 - snd (fst zyx0)) (y1 - snd (fst zyx0))
                (snd (fst zyx_sz)) yid) as [Hy1 Hy2]; [lia..|].
    destruct (range_rows (x0 - snd zyx0) (x1 - snd zyx0)
                (snd zyx_sz) xid) as [Hx1 Hx2]; [lia..|].
    apply (read_chunk_at_writes path_exists h5_rank h5_read cast chunk_cast
             h5_name z0 z1 y0 y1 x0 x1 zyx_sz zyx0 cid zz2 tile_step zstep
             true Hs0 Hs1 Hs2 Hz Hy Hx (zid, yid, xid) r 0 l);
      [|lia..|done].
    intros tmp. by apply Hblock. }
  exists res. split; [|split; [done|]].
  - unfold read_tile_h5_by_bbox, read_tile_h5_blocks, z_block_range,
      py_floordiv.
    rewrite Hf.
    destruct (Z.eqb_spec (fst (fst zyx_sz)) 0) as [|_]; [lia|].
    destruct (Z.eqb_spec (snd (fst zyx_sz)) 0) as [|_]; [lia|].
    destruct (Z.eqb_spec (snd zyx_sz) 0) as [|_]; [lia|].
    rewrite Hchunk. cbn [mbind outcome_bind]. rewrite Hcreate.
    cbn [mbind outcome_bind].
    destruct (Z.ltb_spec 0 zz2) as [|_]; [lia|].
    rewrite (read_z_blocks_flat path_exists h5_rank h5_read percent_format1)
      by done.
    rewrite Hf. fold cast.
    replace (Z.max 0 (x0 - snd zyx0)) with (x0 - snd zyx0) by lia.
    replace (Z.max 0 (y0 - snd (fst zyx0))) with (y0 - snd (fst zyx0)) by lia.
    replace (Z.max 0 (z0 - fst (fst zyx0) - 0)) with (z0 - fst (fst zyx0))
      by lia.
    replace (z1 - fst (fst zyx0) - 0) with (z1 - fst (fst zyx0)) by lia.
    fold chunks.
    change (tabulate (map Z.to_nat [z1 - z0; y1 - y0; x1 - x0]) (fun _ => 0))
      with (tabulate s (fun _ => 0)).
    match goal with
    | |- (?m ≫= _) = _ =>
        replace m with (Returns (A := h5_state)
                          (res, 0, [] ++ flat_map printed chunks))
          by (symmetry; exact Hloop)
    end.
    reflexivity.
  - intros z y x Hz' Hy' Hx'.
    assert (Hp : Forall2 lt [z; y; x] s) by (by repeat constructor).
    rewrite Hitems by done.
    set (c := chunk_of z0 y0 x0 zyx_sz zyx0 z y x).
    assert (Hc : c ∈ chunks).
    { unfold c, chunk_of. apply chunk_order_elem.
      pose proof (tile_row_in_range (z0 - fst (fst zyx0)) (z1 - fst (fst zyx0))
                    (fst (fst zyx_sz)) (z0 + Z.of_nat z - fst (fst zyx0))
                    Hs0 ltac:(lia)).
      pose proof (tile_row_in_range (y0 - snd (fst zyx0)) (y1 - snd (fst zyx0))
                    (snd (fst zyx_sz)) (y0 + Z.of_nat y - snd (fst zyx0))
                    Hs1 ltac:(lia)).
      pose proof (tile_row_in_range (x0 - snd zyx0) (x1 - snd zyx0)
                    (snd zyx_sz) (x0 + Z.of_nat x - snd zyx0)
                    Hs2 ltac:(lia)).
      done. }
    destruct (chunk_voxel _ _ _ _ _ _ _ _ _ _ _ _ _ _ _ _ _ z y x) as [v|]
      eqn:Hv; simpl default.
    + apply (written_Some W chunks _ _ c); [|done|].
      * intros c1 c2 v1 v2 _ _. unfold W. simpl nth.
        destruct (bool_decide _); [|done]. destruct (bool_decide _); [|done].
        congruence.
      * unfold W. simpl nth. fold c. by rewrite bool_decide_eq_true_2.
    + rewrite written_None.
      * apply item_tabulate. done.
      * intros c' _. unfold W. simpl nth. rewrite Hv.
        by destruct (bool_decide _).
Qed.
End ChunkedPlacement.

Lemma read_tile_h5_by_bbox_places_chunks_witness :
  exists res,
    read_tile_h5_by_bbox (fun path => String.eqb path "c0") (fun _ _ => 3%nat)
      example_bright_chunk example_image_name
      example_chunk2d example_create_dataset
      cast_uint16 clip_uint16 cast_uint16 cast_uint16
      example_chunk_name 0 1 0 1 0 4 (1, 1, 2) (0, 0, 0) (-1) (0, 0, -1)
      (1, 1) 1 false (Some "out.h5") 8192 "image" None
    = Returns (res, [PrintPath "c0"]) /\
    shape res = [1; 1; 4]%nat /\
    item res [0; 0; 0]%nat = 1 /\ item res [0; 0; 1]%nat = 255 /\
    item res [0; 0; 2]%nat = 0 /\ item res [0; 0; 3]%nat = 0.
Proof.
  destruct (read_tile_h5_by_bbox_places_chunks
              (fun path => String.eqb path "c0") (fun _ _ => 3%nat)
              example_bright_chunk example_image_name
              example_chunk2d example_create_dataset
              cast_uint16 clip_uint16 cast_uint16 cast_uint16
              example_chunk_name 0 1 0 1 0 4 (1, 1, 2) (0, 0, 0) (-1) (-1)
              (1, 1) 1 "out.h5" 8192 (1, 2) "image")
    as (res & Hret & Hshape & Hitems); try (simpl; lia).
  - reflexivity.
  - reflexivity.
  - reflexivity.
  - intros [[zid yid] xid] tmp Hc. apply chunk_order_elem in Hc.
    cbn [fst snd] in Hc.
    change ((0 - 0) / 1) with 0 in Hc. change ((1 - 0 + 1 - 1) / 1) with 1 in Hc.
    change ((0 - 0) / 2) with 0 in Hc. change ((4 - 0 + 2 - 1) / 2) with 2 in Hc.
    destruct Hc as ((Hz1 & Hz2) & (Hy1 & Hy2) & Hx1 & Hx2).
    assert (zid = 0) as -> by lia. assert (yid = 0) as -> by lia.
    assert (xid = 0 \/ xid = 1) as [-> | ->] by lia;
      vm_compute; intros [= <-]; reflexivity.
  - exists res. split; [exact Hret|]. split; [exact Hshape|].
    rewrite !Hitems by (vm_compute; lia).
    repeat split; reflexivity.
Defined.
